(* ===== verification/_CoqProject ===== *)
-Q . S2P
Prelude.v
Float64.v
Calendar.v
Models.v
Statemachine.v
Fmt.v
Decimal.v
Validator.v
Base64.v
Utf8.v
Json.v
JsonModels.v
Runtime.v
Postgres.v
Repository.v
Sessions.v
SessionLaws.v
SessionFlow.v
SessionSafety.v
JsonText.v
Unmarshal.v
Targets.v
Sha256.v
SdkModels.v
Signer.v
StatusList.v
VpSessions.v
Server.v
Receipt.v
Mail.v
Startup.v
Credential.v
Presentation.v
VpService.v
OidcValidator.v
EidWebhook.v
Discovery.v
Handlers.v
IssuerHandlers.v
VerifierHandlers.v
Auth.v
Logic.v
Api.v
Bodies.v
Router.v
Lifecycle.v
Effects.v
Liveness.v
Reconciliation.v
Issuance.v
Protocol.v
Publication.v
Verification.v
Wallet.v
Onboarding.v
Documents.v
Access.v
Agreement.v
Concurrency.v
AuditLog.v
Proposals.v
Interop.v
Library.v
Scenarios.v
Witnesses.v
ClientWitnesses.v
