(* ===== verification/Prelude.v ===== *)
(** * The XMiete deposit server: a verification library

    XMiete manages rental deposits.  Its Go server (src/server) keeps every
    deposit as a JSON document with a lifecycle state, moves it from state to
    state on requests of the tenant, the landlord, the bank and the identity
    provider, issues verifiable credentials that attest a pledge, revokes them
    when the tenancy ends, and checks the presentations of their holders.  A Go
    SDK (src/sdk-examples/go) does the same checks for other applications.  This
    library models the server and the SDK's logic and proves what makes them
    correct.

    ** The program and where it is modelled

    Paths are below src/server/internal, SDK paths below src/sdk-examples/go.

    - models/deposit.go: file [Models] (one record per struct), [JsonModels]
      (the JSON form of every struct, on the codecs of [Json]); the bodies of
      requests, read from their text, in [Bodies].
    - statemachine/transitions.go: [Statemachine].
    - validator/*.go: [Validator], with the verbs of package fmt in [Fmt].
    - db/repository.go, db/postgres.go, db/migrations/001_init.sql:
      [Repository], on the database monad of [Postgres].
    - issuance/session.go, issuance/store.go, db/session_store.go, migrations
      002 and 003: [Sessions]; its module [MemStore] is the in-memory store
      with its shared session objects, [PgStore] the PostgreSQL one.
    - issuance/statuslist.go, db/statuslist_store.go: [StatusList], on
      [Base64].
    - issuance/credential.go: [Signer] (the key), [Credential].
    - verification/vp.go: [VpSessions] (sessions, the request) and
      [Presentation] (the check of a token).
    - api/handlers.go: [Handlers]; api/issuer_handlers.go: [IssuerHandlers],
      with the published documents in [Discovery]; api/verifier_handlers.go and
      api/validate_handler.go: [VerifierHandlers]; the endpoints together:
      [Api].
    - api/middleware/auth.go: [Auth]; api/router.go: [Router].
    - receipt/pdf.go: [Receipt], call by call on the operations of the PDF
      library; mailer/*.go and the tasks of the handlers: [Mail];
      cmd/server/main.go: [Startup].
    - SDK: openid4vp/*.go in [VpService], auth/validator.go in [OidcValidator],
      eid/*.go in [EidWebhook], models/models.go in [SdkModels].
    - Go's library, where the code's behaviour rests on it: JSON text in
      [JsonText], with the shortest decimal form of a float64 and its reading
      in [Decimal]; reading JSON into a flat struct in [Unmarshal], into
      nested ones, with the memory of slices and pointers, in [Targets];
      SHA-256 and HMAC in [Sha256]; base64url in [Base64]; UTF-8 and its repair
      by json.Marshal in [Utf8].
    - Go's float64 and time: [Float64] and [Calendar]; results of calls, the
      clock, fresh identifiers, random bytes and database faults: [Runtime].

    ** How the parts interact

    A handler is a program of [Server]: a tree of events (a call into the
    repository, the session store or the allocator, a reading of the clock, a
    background task) that ends in a response or a panic.  [exec] executes one
    event on the [world], the state of the three stores and the tasks started.
    [run] executes one handler to its end; [steps] lets a scheduler interleave
    any number of handlers, event by event.  Every event gets its own
    environment [env]: what the clock shows, which identifiers and random bytes
    are drawn, and for each database call whether it works, fails, or takes
    effect while its reply is lost.  Theorems quantify over all of them.

    The stores are interfaces, as in the Go code: the classes [Repository],
    [SessionStore] and [IndexAllocator] have the operations, [RepositoryLaws],
    [SessionLaws] and [IndexAllocatorLaws] what an implementation promises, on
    an abstract state (the readable deposits by key, the sessions by
    identifier, the next index).  [postgres_laws], [mem_laws], [pg_laws],
    [mem_allocator_laws] and [pg_allocator_laws] discharge the promises for the
    code's implementations; the theorems about handlers use the laws only, so
    they hold with every combination of stores.  [SessionFlow] is what a wallet
    relies on beyond these laws: its code and its token lead to its session.

    ** What is proved

    - [Lifecycle]: histories of whole runs of the API are walks of the
      transition table; CLOSED is final; FUNDED is never reached.  [Liveness]: as long as the
      database answers, at most four calls close any deposit.
    - [Protocol]: an abstract machine of deposits and attestations, which can
      only open, move, offer, issue and withdraw; every sequence of calls of
      the server is a sequence of its steps.
    - [Concurrency]: under every interleaving no handler panics, and the fields
      a state promises are there (a settlement, a reservation, a confirmed
      pledge).  [AuditLog]: under every interleaving, on PostgreSQL, the columns,
      the documents and the audit log agree.
    - [Effects]: a refused request changes nothing; an accepted settlement
      closes as proposed; the calls that end a tenancy revoke what was issued,
      UtilitySettle does not.
    - [Reconciliation], [Proposals]: the amounts and dates of partial release,
      utility reconciliation and settlement, in floating point.
    - [SessionSafety], [Issuance]: one credential per session, revocation for
      good, what an offer and a credential require and contain.  [Publication]:
      the published list is exactly the revocations, and a credential whose
      tenancy was ended is in every later list.  [Signer]: the key never changes.
    - [Verification]: an issued credential with any selection of its disclosures
      is accepted with the deposit's claims; an accepted presentation says
      nothing else, or the holder found a collision of SHA-256; what a key
      binding binds; what a recorded presentation changes.  [Wallet]: the
      parties' side as a client whose calls depend on the replies; a pledged
      deposit is attested and presented, end to end.  [Agreement]: the SDK's
      verifier accepts the same presentations of issued form with the same
      claims, and refuses a token without expiry, which the server accepts.
    - [Access], [Auth]: guarded calls need the server's secret; without it a
      client can only present; the keys of a JWKS endpoint are at most five
      minutes old; the published key and the published metadata fit what is
      signed and issued.
    - [Bodies]: what a client sends is what the handler gets.  [Onboarding]: a
      signed webhook of the eID provider, handled by the SDK, identifies the
      deposit on the server.
    - [Documents]: what a release receipt that the API hands out says, and how it
      is dated.
    - [VpService], [OidcValidator], [EidWebhook]: the SDK's nonces are version 4
      UUIDs; what an accepted token grants; which webhooks update a deposit.
      [Interop]: which documents of the server the SDK reads and the other way
      round, and why the server refuses the SDK's deposits.
    - [StatusList]: unique indices, the published list reads back bit by bit,
      indices past its end are dropped.
    - [Repository]: updates are atomic; every operation keeps columns, documents
      and audit log in agreement.  [JsonModels]: documents read back, as a
      normal form that is spelled out field by field.
    - [Validator]: a report is valid exactly for conforming deposits; the cap's
      tolerance never flags a compliant amount.  [Statemachine]: lifecycles are
      finite and can always be closed.
    - [Scenarios]: a concrete server, and runs that leave the intended behaviour:
      racing calls, racing presentations, a credential collected after the
      release, and a release receipt for a deposit that was settled.
    - [JsonText], [Decimal], [Sha256]: a text that was written is read back, with
      every finite float64 bit for bit; the published test vectors of SHA-256,
      HMAC and number formatting evaluate.
    - [Library]: concrete stand-ins for the remaining parameters (signing and
      parsing of tokens, the PDF library), with the behaviour that the theorems
      assume of them.
    - [Witnesses], [ClientWitnesses]: the theorems at concrete inputs.

    ** Conventions and bounds

    A Go struct field [F] of struct [S] is [S_F]; nil is [None].  A nil and an
    empty slice are the same list.  Strings are byte strings; json.Marshal and
    json.Unmarshal repair the ones that are no UTF-8 ([clean_string]), and
    PostgreSQL refuses, with an error of the driver, texts that are no UTF-8 or
    hold a zero byte and documents with the character U+0000 ([sql_text],
    [jsonb_ok]).  Money is binary64
    ([SpecFloat]); [f64_real] says that a float is finite, and [ival] is its
    value in units of 2^-1074.  The memory allocator's counter wraps at 64 bits.
    Instants are integers, nanoseconds since 1970, without Go's range limit.
    No definition runs out of fuel: the recursion is structural, except for
    [close_path] (7 steps, the length of the longest lifecycle), [plan] (4 calls,
    enough from every state by [closing_closes]), [big_bytes] (one step per byte
    of the number, computed from its logarithm), [dec_exp] (640 steps for the
    633 decimal exponents of a binary64), and the texts of numbers and values in
    [Decimal] and [JsonText]: [decimal_exponent] (12 steps upwards, enough by
    [decimal_exponent_spec]), the search for the shortest of at most 17 digits
    (17 always read back, [with_17_digits]), and the reader of JSON, which takes
    one step per character and refuses what is nested deeper than [max_depth]
    (10000), as Go does.

    ** What is not modelled

    The bodies of CreateDeposit and Validate, which hold times, arrive decoded
    ([decoded]); the text of replies is not produced. ES256, gzip, the JWT
    library, %q, strings.ToLower, time.Parse, the texts of decoding errors,
    HTTP and the PDF library are parameters. What theorems assume of them is
    stated by name: gzip has an inverse where a list is read back
    ([inflates]), signed tokens whose claims are UTF-8 read back
    ([trusts_own], [reads_signed], [jwt_payload], [JwtLibrary]), plain texts
    are only put into quotes by %q ([Quotes]). Database calls see the
    committed tables: row locks and isolation levels are not modelled beyond
    the atomicity of a transaction and of one store operation; likewise a lock
    of the JWKS cache is the atomicity of one lookup. JSONB
    keeps a document as it was marshalled, while PostgreSQL drops the sign of a
    zero number and the earlier ones of members with the same name (the code
    writes none). Not modelled are the
    delivery of mail and webhooks, the drawing of a P-256 key, the connections
    and logging of start-up, and the SDK's client.go, an interface without
    code. *)

From stdpp Require Export base tactics list strings gmap pretty.
From Stdlib Require Export ZArith Lia.
From Stdlib Require Ascii.

(** A byte of a Go string. *)
Abbreviation byte := Ascii.ascii (only parsing).

(** ** Tactics *)

(** [lia] with divisions and remainders turned into equations. *)
Ltac dlia := Z.to_euclidean_division_equations; lia.

(** ** Lists *)

(** The default of [List.last] only matters for the empty list. *)
Lemma list_last_cons {A} (l : list A) (x y : A) :
  List.last (x :: l) y = List.last l x.
Proof.
  revert x y. induction l as [|z l IH]; intros x y; [done|].
  change (List.last (z :: l) y = List.last (z :: l) x). by rewrite !IH.
Qed.

(** ** Go strings

    A Go string is a byte sequence: [string] of the Standard Library, one
    [ascii] per byte.  The functions below are those of Go's [strings]
    package the server calls. *)
Module GoStrings.

Local Open Scope Z_scope.

(** The double quote, a string of one byte. *)
Definition dquote : string := String (Ascii.ascii_of_N 34) "".

(** [strings.HasPrefix(s, p)]. *)
Definition has_prefix (s p : string) : bool := String.prefix p s.

(** [strings.TrimPrefix(s, p)]. *)
Definition trim_prefix (s p : string) : string :=
  if has_prefix s p
  then String.substring (String.length p) (String.length s - String.length p) s
  else s.

(** [strings.Contains(s, sub)]. *)
Fixpoint contains (s sub : string) : bool :=
  has_prefix s sub ||
  match s with
  | EmptyString => false
  | String _ s' => contains s' sub
  end.

(** [strings.Join(l, sep)]. *)
Fixpoint join (l : list string) (sep : string) : string :=
  match l with
  | [] => ""
  | [x] => x
  | x :: l' => x +:+ sep +:+ join l' sep
  end.

(** [strings.Split(s, sep)] for a [sep] of one byte. *)
Fixpoint split (sep : byte) (s : string) : list string :=
  match s with
  | EmptyString => [""]
  | String c s =>
      if Ascii.eqb c sep then "" :: split sep s
      else match split sep s with
           | p :: l => String c p :: l
           | [] => [String c ""]
           end
  end.

(** [strings.SplitN(s, sep, n)] for a [sep] of one byte and [n >= 1]. *)
Fixpoint split_n (n : nat) (sep : byte) (s : string) : list string :=
  match s with
  | EmptyString => [""]
  | String c s =>
      if Ascii.eqb c sep && (1 <? n)%nat then "" :: split_n (n - 1) sep s
      else match split_n n sep s with
           | p :: l => String c p :: l
           | [] => [String c ""]
           end
  end.

(** [hex.EncodeToString], [%x] of a byte slice. *)
Definition hex_digit (n : Z) : byte :=
  Ascii.ascii_of_N (Z.to_N (if n <? 10 then 48 + n else 87 + n)).
Fixpoint hex (l : list Z) : string :=
  match l with
  | [] => ""
  | b :: l => String (hex_digit (b / 16)) (String (hex_digit (b mod 16)) (hex l))
  end.

(** No byte of [s] is [c]. *)
Fixpoint free_of (c : byte) (s : string) : bool :=
  match s with
  | EmptyString => true
  | String d s => negb (Ascii.eqb d c) && free_of c s
  end.

(** [strings.ReplaceAll(s, old, new)] for an [old] and a [new] of one byte. *)
Fixpoint replace_byte (old new : byte) (s : string) : string :=
  match s with
  | EmptyString => EmptyString
  | String c s => String (if Ascii.eqb c old then new else c) (replace_byte old new s)
  end.

(** The bytes of a string, [[]byte(s)]. *)
Fixpoint bytes_of (s : string) : list Z :=
  match s with
  | EmptyString => []
  | String c s => Z.of_N (Ascii.N_of_ascii c) :: bytes_of s
  end.

(** The string of a list of bytes, [string(b)]. *)
Fixpoint string_of (l : list Z) : string :=
  match l with
  | [] => EmptyString
  | b :: l => String (Ascii.ascii_of_N (Z.to_N b)) (string_of l)
  end.

Lemma string_of_bytes s : string_of (bytes_of s) = s.
Proof.
  induction s as [|c s IH]; [done|]. cbn. rewrite IH.
  by rewrite N2Z.id, Ascii.ascii_N_embedding.
Qed.

Lemma bytes_of_app a b : bytes_of (a +:+ b) = (bytes_of a ++ bytes_of b)%list.
Proof.
  induction a as [|c a IH]; [done|]. change (String c a +:+ b) with (String c (a +:+ b)).
  cbn. by rewrite IH.
Qed.

Lemma bytes_of_string l : Forall (fun b => 0 <= b < 256) l -> bytes_of (string_of l) = l.
Proof.
  induction 1 as [|b l Hb _ IH]; [done|]. cbn. rewrite IH.
  rewrite Ascii.N_ascii_embedding by lia. by rewrite Z2N.id by lia.
Qed.

Lemma has_prefix_spec s p : has_prefix s p = true <-> exists r, s = p +:+ r.
Proof.
  revert s. induction p as [|c p IH]; intros s; unfold has_prefix in *.
  - split; [intros _; by exists s | by destruct s].
  - destruct s as [|d s]; cbn.
    + split; [done | by intros [r Hr]].
    + destruct (Ascii.ascii_dec c d) as [->|Hne].
      * rewrite IH. split; intros [r Hr]; exists r; [by subst | by inversion Hr].
      * split; [done | intros [r Hr]; by inversion Hr].
Qed.

Lemma contains_spec s sub :
  contains s sub = true <-> exists a b, s = a +:+ sub +:+ b.
Proof.
  induction s as [|c s IH].
  - cbn [contains]. rewrite orb_false_r, has_prefix_spec. split.
    + intros [r Hr]. by exists "", r.
    + intros (a & b & Hab). destruct a; [by exists b | done].
  - cbn [contains]. rewrite orb_true_iff, has_prefix_spec, IH. split.
    + intros [[r Hr]|(a & b & ->)]; [by exists "", r | by exists (String c a), b].
    + intros ([|d a] & b & Hab); [left; by exists b | right].
      exists a, b. by inversion Hab.
Qed.

Lemma append_length s1 s2 :
  String.length (s1 +:+ s2) = (String.length s1 + String.length s2)%nat.
Proof.
  induction s1 as [|c s1 IH]; [done|].
  change (S (String.length (s1 +:+ s2)) = S (String.length s1 + String.length s2)).
  by rewrite IH.
Qed.

Lemma substring_all s : String.substring 0 (String.length s) s = s.
Proof. induction s as [|c s IH]; cbn; [done | by rewrite IH]. Qed.

Lemma substring_app p r :
  String.substring (String.length p) (String.length r) (p +:+ r) = r.
Proof. induction p as [|c p IH]; cbn; [apply substring_all | done]. Qed.

Lemma trim_prefix_app p r : trim_prefix (p +:+ r) p = r.
Proof.
  unfold trim_prefix.
  assert (has_prefix (p +:+ r) p = true) as ->
    by (apply has_prefix_spec; by exists r).
  rewrite append_length.
  replace (_ + _ - _)%nat with (String.length r) by lia.
  apply substring_app.
Qed.

Lemma append_assoc s t u : (s +:+ t) +:+ u = s +:+ t +:+ u.
Proof.
  induction s as [|c s IH]; [done|].
  change (String c ((s +:+ t) +:+ u) = String c (s +:+ t +:+ u)). by rewrite IH.
Qed.

Lemma free_of_app c s t : free_of c (s +:+ t) = free_of c s && free_of c t.
Proof.
  induction s as [|d s IH]; [done|].
  change (free_of c (String d (s +:+ t)) = free_of c (String d s) && free_of c t).
  cbn [free_of]. by rewrite IH, andb_assoc.
Qed.

(** A text without the separator is one part. *)
Lemma split_free c s : free_of c s = true -> split c s = [s].
Proof.
  induction s as [|d s IH]; [done|]. cbn.
  intros [Hd%negb_true_iff Hs]%andb_true_iff. by rewrite Hd, IH.
Qed.

Lemma split_app c s t :
  free_of c s = true -> split c (s +:+ String c t) = s :: split c t.
Proof.
  induction s as [|d s IH]; cbn.
  - change ("" +:+ String c t) with (String c t). cbn. by rewrite Ascii.eqb_refl.
  - intros [Hd%negb_true_iff Hs]%andb_true_iff.
    change (String d s +:+ String c t) with (String d (s +:+ String c t)). cbn.
    by rewrite Hd, IH.
Qed.

(** A text without a byte does not contain it. *)
Lemma contains_free c s : free_of c s = true -> contains s (String c "") = false.
Proof.
  induction s as [|d s IH]; [done|]. cbn [free_of contains].
  intros [Hd%negb_true_iff Hs]%andb_true_iff. rewrite IH by done.
  unfold has_prefix. cbn. destruct (Ascii.ascii_dec c d) as [->|]; [|done].
  by rewrite Ascii.eqb_refl in Hd.
Qed.
Lemma split_n_app n c s t :
  (1 < n)%nat -> free_of c s = true ->
  split_n n c (s +:+ String c t) = s :: split_n (n - 1) c t.
Proof.
  intros Hn%Nat.ltb_lt. induction s as [|d s IH].
  - change ("" +:+ String c t) with (String c t). cbn [split_n].
    by rewrite Ascii.eqb_refl, Hn.
  - cbn [free_of]. intros [Hd%negb_true_iff Hs]%andb_true_iff.
    change (String d s +:+ String c t) with (String d (s +:+ String c t)).
    cbn [split_n]. by rewrite Hd, IH.
Qed.

Lemma split_n_last c s : split_n 1 c s = [s].
Proof. induction s as [|d s IH]; [done|]. cbn. by rewrite andb_false_r, IH. Qed.

Lemma split_n_cons n c s p q l :
  split_n (S n) c s = p :: q :: l ->
  exists t, s = p +:+ String c t /\ free_of c p = true /\ split_n n c t = q :: l.
Proof.
  revert p. induction s as [|d s IH]; intros p; [done|]. cbn [split_n].
  destruct (Ascii.eqb d c && _)%bool eqn:Hd.
  - apply andb_true_iff in Hd as [->%Ascii.eqb_eq _]. intros [= <- Hl]. exists s.
    by rewrite Nat.sub_0_r in Hl.
  - destruct (split_n (S n) c s) as [|p' [|q' l']] eqn:Hs; [done|done|].
    intros [= <- -> ->]. destruct (IH p' eq_refl) as (t & -> & Hp & Ht). exists t.
    split_and!; [done| |done]. cbn [free_of]. rewrite Hp, andb_true_r.
    apply andb_false_iff in Hd as [->|Hn]; [done|].
    apply Nat.ltb_ge in Hn. assert (n = 0)%nat as -> by lia. by rewrite split_n_last in Hs.
Qed.
End GoStrings.
