(* ===== verification/Float64.v ===== *)
(** * Go's [float64]

    IEEE 754 binary64 with round-to-nearest-even, as the [SpecFloat] module of
    the Standard Library defines it: every monetary amount of the server is a
    [float64], so sums, differences and caps are rounded and may overflow.

    A valid finite float is an integer multiple of 2^-1074; [ival] is that
    integer.  The lemmas of this file turn comparisons and differences of
    floats into statements about [ival] on [Z], where [lia] applies. *)

From Stdlib Require Import Floats.SpecFloat.
From S2P Require Import Prelude.

Local Open Scope Z_scope.

Abbreviation float64 := spec_float.

(** ** Operations, as Go evaluates them *)

Definition f64_add : float64 -> float64 -> float64 := SFadd 53 1024.
Definition f64_sub : float64 -> float64 -> float64 := SFsub 53 1024.
Definition f64_mul : float64 -> float64 -> float64 := SFmul 53 1024.
Definition f64_div : float64 -> float64 -> float64 := SFdiv 53 1024.
Definition f64_lt : float64 -> float64 -> bool := SFltb.
Definition f64_le : float64 -> float64 -> bool := SFleb.
Definition f64_eq : float64 -> float64 -> bool := SFeqb.

(** The float nearest to an integer, and to a decimal constant [m * 10^-d]. *)
Definition f64_of_Z (z : Z) : float64 := binary_normalize 53 1024 z 0 false.
Definition f64_of_dec (m : Z) (d : nat) : float64 :=
  SFdiv 53 1024 (f64_of_Z m) (f64_of_Z (10 ^ Z.of_nat d)).
Definition f64_zero : float64 := S754_zero false.

Definition f64_valid (x : float64) : Prop := valid_binary 53 1024 x = true.
Definition f64_finite (x : float64) : bool :=
  match x with S754_zero _ | S754_finite _ _ _ => true | _ => false end.

#[export] Instance float64_eq_dec : EqDecision float64.
Proof. solve_decision. Defined.

(** ** Exact values, in units of 2^-1074 *)

Definition ival (x : float64) : Z :=
  match x with
  | S754_finite s m e => (if s then -1 else 1) * (Zpos m * 2 ^ (e + 1074))
  | _ => 0
  end.

(** A finite, valid float: the values JSON numbers decode to. *)
Definition f64_real (x : float64) : Prop := f64_valid x /\ f64_finite x = true.

(** ** Rounding on integers: nearest, ties to even, 53 significant bits *)

Definition rne_div (n k : Z) : Z :=
  let q := n / 2 ^ k in
  match (2 * (n mod 2 ^ k)) ?= 2 ^ k with
  | Lt => q
  | Gt => q + 1
  | Eq => if Z.even q then q else q + 1
  end.

Definition rnd_exp (n : Z) : Z := Z.max 0 (Z.log2 n - 52).
Definition rnd (n : Z) : Z := rne_div n (rnd_exp n) * 2 ^ rnd_exp n.
Definition rnd_signed (n : Z) : Z := if n <? 0 then - rnd (- n) else rnd n.

(** The first magnitude that overflows. *)
Definition f64_limit : Z := 2 ^ 2098.

(** ** Digits and canonical mantissas *)

Lemma digits2_log2 p : Zpos (digits2_pos p) = Z.log2 (Zpos p) + 1.
Proof.
  induction p as [p IH|p IH|]; cbn [digits2_pos]; [| |done].
  - rewrite Pos2Z.inj_succ, IH, (Pos2Z.inj_xI p).
    rewrite (Z.log2_succ_double (Zpos p)) by lia. lia.
  - rewrite Pos2Z.inj_succ, IH, (Pos2Z.inj_xO p), Z.log2_double by lia. lia.
Qed.

Lemma log2_lt_pow n k : 0 < n -> 0 <= k -> Z.log2 n < k <-> n < 2 ^ k.
Proof. intros. symmetry. by apply Z.log2_lt_pow2. Qed.

Lemma log2_ge_pow n k : 0 < n -> 0 <= k -> k <= Z.log2 n <-> 2 ^ k <= n.
Proof. intros. symmetry. by apply Z.log2_le_pow2. Qed.

(** The shape of a valid finite float. *)
Definition canon (m e : Z) : Prop :=
  0 < m < 2 ^ 53 /\ -1074 <= e /\ (e = -1074 \/ 2 ^ 52 <= m).

Lemma bounded_canon m e :
  bounded 53 1024 m e = true <-> canon (Zpos m) e /\ e <= 971.
Proof.
  unfold bounded, canonical_mantissa, canon, fexp, emin.
  rewrite andb_true_iff, Z.eqb_eq, Z.leb_le, digits2_log2.
  pose proof (Z.log2_nonneg (Zpos m)) as Hn.
  pose proof (log2_lt_pow (Zpos m) 53 ltac:(lia) ltac:(lia)) as H53.
  pose proof (log2_ge_pow (Zpos m) 52 ltac:(lia) ltac:(lia)) as H52.
  split; intros H; repeat split; try lia.
Qed.

Lemma canon_log2 m e : canon m e -> e = Z.max (Z.log2 m + 1 + e - 53) (-1074).
Proof.
  intros (Hm & He & Hor).
  pose proof (log2_lt_pow m 53 ltac:(lia) ltac:(lia)).
  pose proof (log2_ge_pow m 52 ltac:(lia) ltac:(lia)). lia.
Qed.

(** ** Shifting right with a sticky bit *)

(** [mrs] is [m0] shifted right by [j]; its two bits locate the remainder. *)
Definition shifted (m0 : Z) (j : nat) (mrs : shr_record) : Prop :=
  let p := 2 ^ Z.of_nat j in
  shr_m mrs = m0 / p /\
  match loc_of_shr_record mrs with
  | loc_Exact => m0 mod p = 0
  | loc_Inexact c => 0 < m0 mod p /\ (2 * (m0 mod p) ?= p) = c
  end.

Lemma div_mod_step m0 j (p := 2 ^ Z.of_nat j) :
  0 <= m0 ->
  m0 / 2 ^ Z.of_nat (S j) = m0 / p / 2 /\
  m0 mod 2 ^ Z.of_nat (S j) = m0 mod p + p * (m0 / p mod 2).
Proof.
  intros Hm. assert (0 < p) by (unfold p; apply Z.pow_pos_nonneg; lia).
  replace (2 ^ Z.of_nat (S j)) with (p * 2)
    by (unfold p; rewrite Nat2Z.inj_succ, Z.pow_succ_r by lia; lia).
  split; [by rewrite Z.div_div by lia|].
  rewrite Z.rem_mul_r by lia. lia.
Qed.

Lemma shifted_step m0 j mrs :
  0 <= m0 -> shifted m0 j mrs -> shifted m0 (S j) (shr_1 mrs).
Proof.
  intros H0 [Hm Hloc]. destruct (div_mod_step m0 j H0) as [Hd Hr].
  unfold shifted. rewrite Hd, Hr. clear Hd Hr.
  rewrite Nat2Z.inj_succ, Z.pow_succ_r by lia.
  set (p := 2 ^ Z.of_nat j) in *.
  assert (0 < p) by (unfold p; apply Z.pow_pos_nonneg; lia).
  assert (0 <= m0 mod p < p) by (apply Z.mod_pos_bound; lia).
  assert (0 <= m0 / p) by (apply Z.div_pos; lia).
  destruct mrs as [m r s]; cbn [shr_m] in Hm. subst m.
  pose proof (Z.div_mod (m0 / p) 2 ltac:(lia)) as Hq.
  set (q := m0 / p) in *.
  assert (Hcase : shr_1 {| shr_m := q; shr_r := r; shr_s := s |} =
    {| shr_m := q / 2; shr_r := negb (q mod 2 =? 0); shr_s := r || s |}).
  { destruct q as [|[t|t|]|t]; [done| | |done|lia]; cbn [shr_1]; f_equal.
    all: first [dlia | match goal with |- context [?x =? 0] =>
      destruct (Z.eqb_spec x 0); cbn; first [done | dlia] end]. }
  rewrite Hcase. cbn [shr_m]. split; [done|].
  pose proof (Z.mod_pos_bound q 2 ltac:(lia)).
  destruct (Z.eqb_spec (q mod 2) 0) as [Hb|Hb];
    [rewrite Hb | replace (q mod 2) with 1 by lia];
    destruct r, s; cbn in Hloc |- *;
    repeat match goal with
    | H : _ /\ _ |- _ => destruct H
    | H : (_ ?= _) = Lt |- _ => apply Z.compare_lt_iff in H
    | H : (_ ?= _) = Gt |- _ => apply Z.compare_gt_iff in H
    | H : (_ ?= _) = Eq |- _ => apply Z.compare_eq_iff in H
    end;
    rewrite ?Z.compare_lt_iff, ?Z.compare_gt_iff, ?Z.compare_eq_iff; lia.
Qed.

Lemma iter_pos_nat {A} (f : A -> A) p x :
  SpecFloat.iter_pos f p x = Nat.iter (Pos.to_nat p) f x.
Proof.
  revert x. induction p as [p IH|p IH|]; intros x; cbn [SpecFloat.iter_pos].
  - rewrite !IH, Pos2Nat.inj_xI. cbn [Nat.iter].
    rewrite <-Nat.iter_succ_r. replace (S (2 * Pos.to_nat p))%nat
      with (Pos.to_nat p + S (Pos.to_nat p))%nat by lia.
    by rewrite Nat.iter_add.
  - rewrite !IH, Pos2Nat.inj_xO.
    replace (2 * Pos.to_nat p)%nat with (Pos.to_nat p + Pos.to_nat p)%nat by lia.
    by rewrite Nat.iter_add.
  - done.
Qed.

Lemma shifted_iter m0 j :
  0 <= m0 -> shifted m0 j (Nat.iter j shr_1 (shr_record_of_loc m0 loc_Exact)).
Proof.
  intros H0. induction j as [|j IH].
  - split; cbn; [by rewrite Z.div_1_r | apply Z.mod_1_r].
  - by apply shifted_step.
Qed.

Lemma shr_shifted m0 e n :
  0 <= m0 -> 0 <= n ->
  let '(mrs, e') := shr (shr_record_of_loc m0 loc_Exact) e n in
  shifted m0 (Z.to_nat n) mrs /\ e' = e + n.
Proof.
  intros H0 Hn. destruct n as [|p|p]; [| |lia]; cbn [shr].
  - split; [apply (shifted_iter m0 0); lia | lia].
  - rewrite iter_pos_nat. split; [by apply shifted_iter | done].
Qed.

Lemma round_shifted m0 j mrs :
  0 <= m0 -> shifted m0 j mrs ->
  round_nearest_even (shr_m mrs) (loc_of_shr_record mrs) = rne_div m0 (Z.of_nat j).
Proof.
  intros H0 [Hm Hloc]. unfold rne_div. rewrite Hm.
  assert (0 < 2 ^ Z.of_nat j) by (apply Z.pow_pos_nonneg; lia).
  destruct (loc_of_shr_record mrs) as [|c] eqn:E; cbn [round_nearest_even].
  - rewrite Hloc. by replace (2 * 0 ?= _) with Lt by (symmetry; by apply Z.compare_lt_iff).
  - destruct Hloc as [_ Hc]. rewrite Hc. by destruct c.
Qed.

(** ** Rounding a dyadic number *)

Lemma pow2_pos k : 0 <= k -> 0 < 2 ^ k.
Proof. intros. by apply Z.pow_pos_nonneg. Qed.

Lemma rne_div_bounds n k :
  0 <= n -> 0 <= k -> n / 2 ^ k <= rne_div n k <= n / 2 ^ k + 1.
Proof. intros. unfold rne_div. repeat case_match; lia. Qed.

Lemma rne_div_0 n : rne_div n 0 = n.
Proof. unfold rne_div. by rewrite Z.pow_0_r, Z.mod_1_r, Z.div_1_r. Qed.

(** Nearest is exact on multiples. *)
Lemma rne_div_exact n k : 0 <= k -> rne_div (n * 2 ^ k) k = n.
Proof.
  intros Hk. pose proof (pow2_pos k Hk). unfold rne_div.
  rewrite Z.mod_mul, Z.div_mul by lia.
  by assert ((2 * 0 ?= 2 ^ k) = Lt) as -> by (apply Z.compare_lt_iff; lia).
Qed.

Lemma log2_shift n k : 0 < n -> 0 <= k -> Z.log2 (n * 2 ^ k) = Z.log2 n + k.
Proof. intros. rewrite Z.log2_mul_pow2 by lia. lia. Qed.

Lemma quot_bounds n k :
  0 < n -> k = rnd_exp n ->
  n / 2 ^ k < 2 ^ 53 /\ (k = 0 \/ 2 ^ 52 <= n / 2 ^ k) /\ (k = 0 -> 0 < n / 2 ^ k).
Proof.
  intros Hn ->. unfold rnd_exp.
  pose proof (Z.log2_spec n Hn) as [Hlo Hhi].
  destruct (Z.le_gt_cases (Z.log2 n) 52) as [Hle|Hgt].
  - rewrite Z.max_l, Z.pow_0_r, Z.div_1_r by lia.
    split; [apply log2_lt_pow; lia|]. split; [by left|lia].
  - rewrite Z.max_r by lia. set (k := Z.log2 n - 52).
    pose proof (pow2_pos k ltac:(lia)).
    replace (Z.log2 n) with (52 + k) in Hlo by lia.
    replace (Z.succ (Z.log2 n)) with (53 + k) in Hhi by lia.
    rewrite Z.pow_add_r in Hlo, Hhi by lia.
    split; [apply Z.div_lt_upper_bound; lia|].
    split; [right; apply Z.div_le_lower_bound; lia|lia].
Qed.

(** Mantissa and exponent of the rounded value of [n > 0]. *)
Definition rnd_me (n : Z) : Z * Z :=
  let k := rnd_exp n in
  let m := rne_div n k in
  if m =? 2 ^ 53 then (2 ^ 52, k - 1073) else (m, k - 1074).

Lemma rnd_me_canon n :
  0 < n -> let '(m, e) := rnd_me n in canon m e /\ rnd n = m * 2 ^ (e + 1074).
Proof.
  intros Hn. unfold rnd_me, rnd, canon.
  pose proof (quot_bounds n _ Hn eq_refl) as (Hhi & Hlo & Hpos).
  assert (0 <= rnd_exp n) by (unfold rnd_exp; lia).
  pose proof (rne_div_bounds n (rnd_exp n) ltac:(lia) ltac:(done)).
  destruct (Z.eqb_spec (rne_div n (rnd_exp n)) (2 ^ 53)) as [E|E].
  - split; [lia|]. rewrite E.
    replace (rnd_exp n - 1073 + 1074) with (1 + rnd_exp n) by lia.
    rewrite Z.pow_add_r by lia. lia.
  - split; [lia|]. by replace (rnd_exp n - 1074 + 1074) with (rnd_exp n) by lia.
Qed.

Lemma canon_limit m e : canon m e -> m * 2 ^ (e + 1074) < f64_limit <-> e <= 971.
Proof.
  intros (Hm & He & Hor). unfold f64_limit.
  pose proof (pow2_pos (e + 1074) ltac:(lia)).
  split; intros H1.
  - destruct (Z.le_gt_cases e 971) as [|Hgt]; [done|].
    destruct Hor as [|Hlo]; [lia|].
    assert (2 ^ 2046 <= 2 ^ (e + 1074)) by (apply Z.pow_le_mono_r; lia).
    assert (2 ^ 2098 = 2 ^ 52 * 2 ^ 2046) by done. nia.
  - assert (2 ^ (e + 1074) <= 2 ^ 2045) by (apply Z.pow_le_mono_r; lia).
    assert (2 ^ 2098 = 2 ^ 53 * 2 ^ 2045) by done. nia.
Qed.

(** What [SpecFloat]'s rounding computes, on integers. *)
Definition round_result (s : bool) (n : Z) : float64 :=
  let '(m, e) := rnd_me n in
  if e <=? 971 then S754_finite s (Z.to_pos m) e else S754_infinity s.

Lemma shl_align_spec mx ex ex' (mz := fst (shl_align mx ex ex'))
    (ez := snd (shl_align mx ex ex')) :
  ez = Z.min ex ex' /\ Zpos mz = Zpos mx * 2 ^ (ex - ez).
Proof.
  subst mz ez. unfold shl_align.
  destruct (ex' - ex) as [|d|d] eqn:E; cbn [fst snd].
  - replace ex' with ex by lia. rewrite Z.min_id, Z.sub_diag. lia.
  - rewrite Z.min_l, Z.sub_diag by lia. lia.
  - rewrite Z.min_r by lia. split; [done|].
    replace (ex - ex') with (Zpos d) by lia. clear E ex ex'.
    induction d as [|d IH] using Pos.peano_ind; [cbn; lia|].
    rewrite Pos.iter_succ, Pos2Z.inj_xO, IH, Pos2Z.inj_succ, Z.pow_succ_r by lia.
    lia.
Qed.

Lemma shr_exact m0 e p :
  0 <= m0 -> 0 <= p ->
  exists mrs, shr (shr_record_of_loc m0 loc_Exact) e p = (mrs, e + p) /\
    shr_m mrs = m0 / 2 ^ p /\
    round_nearest_even (shr_m mrs) (loc_of_shr_record mrs) = rne_div m0 p.
Proof.
  intros H0 Hp. pose proof (shr_shifted m0 e p H0 Hp) as Hs.
  destruct (shr _ _ _) as [mrs e'] eqn:E. destruct Hs as [Hs ->].
  exists mrs. split; [done|].
  pose proof (round_shifted m0 _ mrs H0 Hs) as Hr. destruct Hs as [Hm _].
  rewrite Z2Nat.id in Hr, Hm by lia. done.
Qed.

Lemma shr_none mrs e p : p <= 0 -> shr mrs e p = (mrs, e).
Proof. by destruct p. Qed.

(** The second normalisation: only a carry into bit 53 shifts. *)
Lemma renormalise s m1 e1 :
  0 < m1 <= 2 ^ 53 -> -1074 <= e1 ->
  (let '(mrs, e) := shr (shr_record_of_loc m1 loc_Exact) e1
     (fexp 53 1024 (Zdigits2 m1 + e1) - e1) in
   match shr_m mrs with
   | Z0 => S754_zero s
   | Zpos m => if e <=? 1024 - 53 then S754_finite s m e else S754_infinity s
   | Zneg _ => S754_nan
   end) =
  (let '(m, e) := if m1 =? 2 ^ 53 then (2 ^ 52, e1 + 1) else (m1, e1) in
   if e <=? 971 then S754_finite s (Z.to_pos m) e else S754_infinity s).
Proof.
  intros Hm He. destruct m1 as [|m1|m1]; [lia| |lia].
  cbn [Zdigits2]. rewrite digits2_log2. unfold fexp, emin.
  replace (3 - 1024 - 53) with (-1074) by lia.
  destruct (Z.eqb_spec (Zpos m1) (2 ^ 53)) as [E|E].
  - assert (Z.log2 (Zpos m1) = 53) as -> by by rewrite E.
    replace (Z.max _ _ - e1) with 1 by lia.
    destruct (shr_exact (Zpos m1) e1 1) as (mrs & -> & -> & _); [lia|lia|].
    by rewrite E.
  - rewrite shr_none; [done|].
    pose proof (log2_lt_pow (Zpos m1) 53 ltac:(lia) ltac:(lia)). lia.
Qed.

(** Rounding the exact [mz * 2^ez], [ez] small enough not to lose digits. *)
Lemma round_aux_exact s mz ez :
  -1074 <= ez ->
  ez <= Z.max (Z.log2 (Zpos mz) + 1 + ez - 53) (-1074) ->
  binary_round_aux 53 1024 s (Zpos mz) ez loc_Exact =
  round_result s (Zpos mz * 2 ^ (ez + 1074)).
Proof.
  intros He1 He2. set (n := Zpos mz * 2 ^ (ez + 1074)).
  pose proof (pow2_pos (ez + 1074) ltac:(lia)) as Hpow.
  assert (0 < n) as Hn by (unfold n; lia).
  pose proof (log2_shift (Zpos mz) (ez + 1074) ltac:(lia) ltac:(lia)) as Hlog.
  fold n in Hlog.
  set (p := Z.max (Z.log2 (Zpos mz) + 1 + ez - 53) (-1074) - ez).
  assert (rnd_exp n = p + (ez + 1074)) as Hk by (unfold rnd_exp, p; lia).
  assert (rne_div n (rnd_exp n) = rne_div (Zpos mz) p) as Hrne.
  { rewrite Hk. unfold rne_div. rewrite Z.pow_add_r by lia. unfold n.
    pose proof (pow2_pos p ltac:(lia)).
    rewrite Z.div_mul_cancel_r, Zmult_mod_distr_r by lia.
    rewrite Z.mul_assoc, <-Zmult_compare_compat_r by lia. done. }
  pose proof (quot_bounds n _ Hn eq_refl) as (Hqhi & Hqlo & Hqpos).
  pose proof (rne_div_bounds n (rnd_exp n) ltac:(lia) ltac:(lia)) as Hb.
  unfold binary_round_aux, shr_fexp. cbn [Zdigits2]. rewrite digits2_log2.
  unfold fexp at 1, emin at 1.
  replace (3 - 1024 - 53) with (-1074) by lia. fold p.
  destruct (shr_exact (Zpos mz) ez p) as (mrs & -> & _ & Hr1); [lia|lia|].
  rewrite Hr1, <-Hrne. unfold round_result, rnd_me.
  set (m1 := rne_div n (rnd_exp n)) in *.
  rewrite renormalise by lia. replace (ez + p) with (rnd_exp n - 1074) by lia.
  replace (rnd_exp n - 1074 + 1) with (rnd_exp n - 1073) by lia. done.
Qed.

Lemma binary_round_exact s mx ex :
  -1074 <= ex ->
  binary_round 53 1024 s mx ex = round_result s (Zpos mx * 2 ^ (ex + 1074)).
Proof.
  intros He. unfold binary_round. rewrite digits2_log2. unfold fexp, emin.
  replace (3 - 1024 - 53) with (-1074) by lia.
  set (ex' := Z.max _ _).
  pose proof (shl_align_spec mx ex ex') as [Hez Hmz].
  destruct (shl_align mx ex ex') as [mz ez]. cbn [fst snd] in *.
  assert (Z.log2 (Zpos mz) + ez = Z.log2 (Zpos mx) + ex) as Hlog.
  { rewrite Hmz, log2_shift by lia. lia. }
  rewrite round_aux_exact by lia. f_equal.
  rewrite Hmz, <-Z.mul_assoc, <-Z.pow_add_r by lia. do 2 f_equal. lia.
Qed.

(** ** Values of rounded results *)

Definition f64_sign (s : bool) : Z := if s then -1 else 1.

Lemma round_result_spec s n :
  0 < n ->
  f64_valid (round_result s n) /\
  (rnd n < f64_limit ->
     f64_finite (round_result s n) = true /\
     ival (round_result s n) = f64_sign s * rnd n) /\
  (f64_limit <= rnd n -> round_result s n = S754_infinity s).
Proof.
  intros Hn. pose proof (rnd_me_canon n Hn) as Hme. unfold round_result.
  destruct (rnd_me n) as [m e]. destruct Hme as [Hc ->].
  pose proof (canon_limit m e Hc) as Hl.
  destruct (Z.leb_spec e 971) as [He|He].
  - assert (Zpos (Z.to_pos m) = m) as Hm by (destruct Hc; lia).
    split; [|split; [|lia]].
    + unfold f64_valid. cbn [valid_binary]. apply bounded_canon. by rewrite Hm.
    + intros _. split; [done|]. cbn [ival]. by rewrite Hm.
  - split; [done|]. split; [lia|done].
Qed.

Lemma rne_div_mono a b k : 0 <= a <= b -> 0 <= k -> rne_div a k <= rne_div b k.
Proof.
  intros Hab Hk. pose proof (pow2_pos k Hk) as Hp.
  destruct (Z.eq_dec (a / 2 ^ k) (b / 2 ^ k)) as [E|E].
  - unfold rne_div. rewrite <-E.
    pose proof (Z.div_mod a (2 ^ k) ltac:(lia)).
    pose proof (Z.div_mod b (2 ^ k) ltac:(lia)).
    rewrite <-E in *. set (q := a / 2 ^ k) in *.
    destruct (Z.compare_spec (2 * (a mod 2 ^ k)) (2 ^ k));
      destruct (Z.compare_spec (2 * (b mod 2 ^ k)) (2 ^ k));
      repeat case_match; lia.
  - pose proof (Z.div_le_mono a b (2 ^ k) ltac:(lia) ltac:(lia)).
    pose proof (rne_div_bounds a k ltac:(lia) Hk).
    pose proof (rne_div_bounds b k ltac:(lia) Hk). lia.
Qed.

(** A representable magnitude is a fixed point of rounding. *)
Lemma rnd_canon m e : canon m e -> rnd (m * 2 ^ (e + 1074)) = m * 2 ^ (e + 1074).
Proof.
  intros Hc. pose proof (canon_log2 m e Hc) as Hl. destruct Hc as (Hm & He & Hor).
  unfold rnd, rnd_exp. rewrite log2_shift by lia.
  replace (Z.max 0 _) with (e + 1074) by lia.
  by rewrite rne_div_exact by lia.
Qed.

(** Rounding never crosses a representable number. *)
Lemma rnd_le_canon n m e :
  0 < n -> canon m e -> n <= m * 2 ^ (e + 1074) -> rnd n <= m * 2 ^ (e + 1074).
Proof.
  intros Hn Hc Hle. pose proof (canon_log2 m e Hc) as Hl.
  pose proof Hc as (Hm & He & Hor).
  pose proof (Z.log2_le_mono _ _ Hle) as Hlog. rewrite log2_shift in Hlog by lia.
  unfold rnd. set (k := rnd_exp n).
  assert (0 <= k) as Hk by (unfold k, rnd_exp; lia).
  assert (k <= e + 1074) as Hke by (unfold k, rnd_exp; lia).
  replace (m * 2 ^ (e + 1074)) with (m * 2 ^ (e + 1074 - k) * 2 ^ k) in *
    by (rewrite <-Z.mul_assoc, <-Z.pow_add_r by lia; do 2 f_equal; lia).
  apply Z.mul_le_mono_nonneg_r; [pose proof (pow2_pos k Hk); lia|].
  etrans; [apply rne_div_mono; [|done]; split; [|exact Hle]; lia|].
  by rewrite rne_div_exact.
Qed.

Lemma rnd_ge_canon n m e :
  0 < n -> canon m e -> m * 2 ^ (e + 1074) <= n -> m * 2 ^ (e + 1074) <= rnd n.
Proof.
  intros Hn Hc Hle. pose proof Hc as (Hm & He & Hor).
  pose proof (canon_log2 m e Hc) as Hl.
  unfold rnd. set (k := rnd_exp n).
  assert (0 <= k) as Hk by (unfold k, rnd_exp; lia).
  pose proof (quot_bounds n k Hn eq_refl) as (_ & Hq & _).
  pose proof (rne_div_bounds n k ltac:(lia) Hk) as [Hb _].
  pose proof (pow2_pos k Hk) as Hp.
  destruct (Z.le_gt_cases k (e + 1074)) as [Hke|Hke].
  - replace (m * 2 ^ (e + 1074)) with (m * 2 ^ (e + 1074 - k) * 2 ^ k) in *
      by (rewrite <-Z.mul_assoc, <-Z.pow_add_r by lia; do 2 f_equal; lia).
    apply Z.mul_le_mono_nonneg_r; [lia|].
    pose proof (pow2_pos (e + 1074 - k) ltac:(lia)).
    etrans; [|apply (rne_div_mono (m * 2 ^ (e + 1074 - k) * 2 ^ k) n); [|done]; split; [|exact Hle]; nia].
    by rewrite rne_div_exact.
  - (* a smaller binade: every rounding of [n] is at least [2^(52+k)] *)
    destruct Hq as [->|Hq]; [lia|].
    assert (2 ^ k = 2 ^ (k - (e + 1074)) * 2 ^ (e + 1074)) as Hpk
      by (rewrite <-Z.pow_add_r by lia; f_equal; lia).
    assert (2 <= 2 ^ (k - (e + 1074)))
      by (change 2 with (2 ^ 1) at 1; apply Z.pow_le_mono_r; lia).
    pose proof (pow2_pos (e + 1074) ltac:(lia)). rewrite Hpk. nia.
Qed.

Lemma rnd_pos n : 0 < n -> 0 < rnd n.
Proof.
  intros Hn. pose proof (rnd_me_canon n Hn) as H.
  destruct (rnd_me n) as [m e]. destruct H as [(Hm & He & _) ->].
  pose proof (pow2_pos (e + 1074) ltac:(lia)). nia.
Qed.

(** ** Comparison and exact values *)

Lemma canon_compare m1 e1 m2 e2 :
  canon (Zpos m1) e1 -> canon (Zpos m2) e2 ->
  match e1 ?= e2 with
  | Lt => Lt
  | Gt => Gt
  | Eq => Pos.compare_cont Eq m1 m2
  end = (Zpos m1 * 2 ^ (e1 + 1074) ?= Zpos m2 * 2 ^ (e2 + 1074)).
Proof.
  assert (Hlt : forall m1 e1 m2 e2, canon m1 e1 -> canon m2 e2 -> e1 < e2 ->
            m1 * 2 ^ (e1 + 1074) < m2 * 2 ^ (e2 + 1074)).
  { clear. intros m1 e1 m2 e2 (Hm1 & He1 & _) (Hm2 & He2 & Hor) He.
    destruct Hor as [|Hlo]; [lia|].
    assert (2 ^ (e2 + 1074) = 2 ^ (e2 - e1) * 2 ^ (e1 + 1074)) as ->
      by (rewrite <-Z.pow_add_r by lia; f_equal; lia).
    assert (2 ^ 1 <= 2 ^ (e2 - e1)) by (apply Z.pow_le_mono_r; lia).
    pose proof (pow2_pos (e1 + 1074) ltac:(lia)).
    assert (2 ^ 53 <= m2 * 2 ^ (e2 - e1)) by nia.
    rewrite Z.mul_assoc. nia. }
  intros H1 H2. destruct (Z.compare_spec e1 e2) as [->|He|He].
  - rewrite <-Zmult_compare_compat_r; [done|].
    destruct H2 as (_ & He & _). pose proof (pow2_pos (e2 + 1074) ltac:(lia)). lia.
  - symmetry. apply Z.compare_lt_iff. by apply Hlt.
  - symmetry. apply Z.compare_gt_iff. by apply Hlt.
Qed.

Lemma real_finite_inv s m e :
  f64_real (S754_finite s m e) ->
  canon (Zpos m) e /\ e <= 971 /\ 0 < Zpos m * 2 ^ (e + 1074).
Proof.
  intros [Hv _]. apply bounded_canon in Hv as [Hc He].
  split; [done|]. split; [done|].
  destruct Hc as (Hm & Hlo & _). pose proof (pow2_pos (e + 1074) ltac:(lia)). nia.
Qed.

Lemma f64_compare x y :
  f64_real x -> f64_real y -> SFcompare x y = Some (ival x ?= ival y).
Proof.
  intros Hx Hy.
  destruct x as [sx|sx| |sx mx ex]; [|by destruct Hx|by destruct Hx|];
    (destruct y as [sy|sy| |sy my ey]; [|by destruct Hy|by destruct Hy|]).
  - done.
  - apply real_finite_inv in Hy as (_ & _ & Hpos). cbn [SFcompare ival]. f_equal.
    symmetry. destruct sy; [apply Z.compare_gt_iff | apply Z.compare_lt_iff]; lia.
  - apply real_finite_inv in Hx as (_ & _ & Hpos). cbn [SFcompare ival]. f_equal.
    symmetry. destruct sx; [apply Z.compare_lt_iff | apply Z.compare_gt_iff]; lia.
  - apply real_finite_inv in Hx as (Hcx & _ & Hpx).
    apply real_finite_inv in Hy as (Hcy & _ & Hpy).
    pose proof (canon_compare mx ex my ey Hcx Hcy) as Hc.
    cbn [SFcompare ival]. f_equal. destruct sx, sy.
    + rewrite !(Z.mul_comm (-1)), <-!Z.opp_eq_mul_m1.
      rewrite Z.compare_opp, (Z.compare_antisym (Zpos mx * _)), <-Hc.
      by destruct (ex ?= ey).
    + symmetry. apply Z.compare_lt_iff. lia.
    + symmetry. apply Z.compare_gt_iff. lia.
    + by rewrite !Z.mul_1_l.
Qed.

Lemma f64_le_spec x y :
  f64_real x -> f64_real y -> f64_le x y = (ival x <=? ival y).
Proof.
  intros Hx Hy. unfold f64_le, SFleb. rewrite f64_compare by done.
  unfold Z.leb. by destruct (ival x ?= ival y).
Qed.

Lemma f64_lt_spec x y :
  f64_real x -> f64_real y -> f64_lt x y = (ival x <? ival y).
Proof.
  intros Hx Hy. unfold f64_lt, SFltb. rewrite f64_compare by done.
  unfold Z.ltb. by destruct (ival x ?= ival y).
Qed.

(** ** Addition and subtraction are correctly rounded *)

(** [r] is the binary64 rounding of the exact value [d]. *)
Definition rounds_to (r : float64) (d : Z) : Prop :=
  f64_valid r /\
  (rnd (Z.abs d) < f64_limit -> f64_finite r = true /\ ival r = rnd_signed d) /\
  (f64_limit <= rnd (Z.abs d) -> r = S754_infinity (d <? 0)).

Lemma rnd_0 : rnd 0 = 0.
Proof. done. Qed.

Lemma rounds_to_zero s : rounds_to (S754_zero s) 0.
Proof. split; [done|]. split; [done|]. change (rnd (Z.abs 0)) with 0. unfold f64_limit. lia. Qed.

Lemma rounds_to_result s n :
  0 < n -> rounds_to (round_result s n) (f64_sign s * n).
Proof.
  intros Hn. destruct (round_result_spec s n Hn) as (Hv & Hin & Hout).
  unfold rounds_to, rnd_signed, f64_sign in *.
  destruct s.
  - replace (Z.abs (-1 * n)) with n by lia.
    assert ((-1 * n <? 0) = true) as -> by lia.
    replace (- (-1 * n)) with n by lia.
    split; [done|]. split; [|done]. intros H. destruct (Hin H). split; [done|lia].
  - replace (Z.abs (1 * n)) with n by lia.
    assert ((1 * n <? 0) = false) as -> by lia. rewrite !Z.mul_1_l in *.
    split; [done|]. split; [|done]. intros H. destruct (Hin H). split; [done|lia].
Qed.

Lemma rounds_to_normalize d e :
  -1074 <= e -> rounds_to (binary_normalize 53 1024 d e false) (d * 2 ^ (e + 1074)).
Proof.
  intros He. pose proof (pow2_pos (e + 1074) ltac:(lia)).
  destruct d as [|p|p]; cbn [binary_normalize].
  - apply rounds_to_zero.
  - rewrite binary_round_exact by done.
    pose proof (rounds_to_result false (Zpos p * 2 ^ (e + 1074)) ltac:(lia)) as H1.
    unfold f64_sign in H1. by rewrite Z.mul_1_l in H1.
  - rewrite binary_round_exact by done.
    pose proof (rounds_to_result true (Zpos p * 2 ^ (e + 1074)) ltac:(lia)) as H1.
    unfold f64_sign in H1.
    by replace (-1 * (Zpos p * 2 ^ (e + 1074))) with (Zneg p * 2 ^ (e + 1074)) in H1 by lia.
Qed.

(** A real float rounds to itself. *)
Lemma rounds_to_self x : f64_real x -> rounds_to x (ival x).
Proof.
  destruct x as [s|s| |s m e]; intros Hx;
    [apply rounds_to_zero | by destruct Hx | by destruct Hx |].
  - pose proof Hx as [Hv _]. apply real_finite_inv in Hx as (Hc & He & Hpos).
    pose proof (canon_limit _ _ Hc) as Hl. pose proof (rnd_canon _ _ Hc) as Hr.
    unfold rounds_to, rnd_signed. cbn [ival].
    set (v := Zpos m * 2 ^ (e + 1074)) in *.
    replace (Z.abs ((if s then -1 else 1) * v)) with v by (destruct s; lia).
    split; [done|]. split; [|lia]. intros _. split; [done|].
    destruct s; [replace (- (-1 * v)) with v by lia | rewrite Z.mul_1_l];
      case_match; lia.
Qed.

Lemma ival_opp s m e :
  ival (S754_finite (negb s) m e) = - ival (S754_finite s m e).
Proof. destruct s; cbn [ival negb]; lia. Qed.

Lemma real_opp s m e :
  f64_real (S754_finite s m e) -> f64_real (S754_finite (negb s) m e).
Proof. done. Qed.

Lemma cond_opp_ival s m e ez :
  -1074 <= ez <= e ->
  cond_Zopp s (Zpos m * 2 ^ (e - ez)) * 2 ^ (ez + 1074) = ival (S754_finite s m e).
Proof.
  intros He. cbn [ival].
  replace (e + 1074) with ((e - ez) + (ez + 1074)) by lia.
  rewrite (Z.pow_add_r 2 (e - ez)) by lia. destruct s; cbn [cond_Zopp]; ring.
Qed.

Lemma f64_sub_rounds x y :
  f64_real x -> f64_real y -> rounds_to (f64_sub x y) (ival x - ival y).
Proof.
  intros Hx Hy. unfold f64_sub.
  destruct x as [sx|sx| |sx mx ex]; [|by destruct Hx|by destruct Hx|];
    (destruct y as [sy|sy| |sy my ey]; [|by destruct Hy|by destruct Hy|]).
  - destruct sx, sy; apply rounds_to_zero.
  - cbn [SFsub]. pose proof (rounds_to_self _ (real_opp _ _ _ Hy)) as H.
    by rewrite ival_opp in H.
  - cbn [SFsub]. pose proof (rounds_to_self _ Hx) as H. cbn [ival] in *.
    by rewrite Z.sub_0_r.
  - apply real_finite_inv in Hx as ((_ & Hex & _) & _ & _).
    apply real_finite_inv in Hy as ((_ & Hey & _) & _ & _).
    cbn [SFsub].
    pose proof (shl_align_spec mx ex (Z.min ex ey)) as [H1 H2].
    pose proof (shl_align_spec my ey (Z.min ex ey)) as [H3 H4].
    rewrite H1 in H2. rewrite H3 in H4. rewrite H2, H4.
    replace (Z.min ex (Z.min ex ey)) with (Z.min ex ey) by lia.
    replace (Z.min ey (Z.min ex ey)) with (Z.min ex ey) by lia.
    rewrite <-(cond_opp_ival sx mx ex (Z.min ex ey)) by lia.
    rewrite <-(cond_opp_ival sy my ey (Z.min ex ey)) by lia.
    rewrite <-Z.mul_sub_distr_r. apply rounds_to_normalize. lia.
Qed.

Lemma f64_add_rounds x y :
  f64_real x -> f64_real y -> rounds_to (f64_add x y) (ival x + ival y).
Proof.
  intros Hx Hy. unfold f64_add.
  destruct x as [sx|sx| |sx mx ex]; [|by destruct Hx|by destruct Hx|];
    (destruct y as [sy|sy| |sy my ey]; [|by destruct Hy|by destruct Hy|]).
  - destruct sx, sy; apply rounds_to_zero.
  - apply (rounds_to_self _ Hy).
  - cbn [SFadd]. pose proof (rounds_to_self _ Hx) as H. cbn [ival] in *.
    by rewrite Z.add_0_r.
  - apply real_finite_inv in Hx as ((_ & Hex & _) & _ & _).
    apply real_finite_inv in Hy as ((_ & Hey & _) & _ & _).
    cbn [SFadd].
    pose proof (shl_align_spec mx ex (Z.min ex ey)) as [H1 H2].
    pose proof (shl_align_spec my ey (Z.min ex ey)) as [H3 H4].
    rewrite H1 in H2. rewrite H3 in H4. rewrite H2, H4.
    replace (Z.min ex (Z.min ex ey)) with (Z.min ex ey) by lia.
    replace (Z.min ey (Z.min ex ey)) with (Z.min ex ey) by lia.
    rewrite <-(cond_opp_ival sx mx ex (Z.min ex ey)) by lia.
    rewrite <-(cond_opp_ival sy my ey (Z.min ex ey)) by lia.
    rewrite <-Z.mul_add_distr_r. apply rounds_to_normalize. lia.
Qed.

(** Rounding does not exceed a representable bound. *)
Lemma rnd_le_real d b :
  f64_real b -> 0 <= d <= ival b -> rnd d <= ival b /\ ival b < f64_limit.
Proof.
  intros Hb Hd. destruct b as [s|s| |s m e]; [| by destruct Hb | by destruct Hb |].
  - cbn [ival] in *. replace d with 0 by lia. by rewrite rnd_0.
  - apply real_finite_inv in Hb as (Hc & He & Hpos). cbn [ival] in *.
    pose proof (canon_limit _ _ Hc) as Hl.
    destruct s; [|rewrite Z.mul_1_l in *]; (split; [|lia]).
    + replace d with 0 by lia. rewrite rnd_0. lia.
    + destruct (Z.eq_dec d 0) as [->|Hne]; [change (rnd 0) with 0; lia|].
      apply rnd_le_canon; [lia|done|lia].
Qed.

(** A difference bounded by a representable magnitude does not overflow and
    stays within the bound. *)
Lemma f64_sub_bounded x y b :
  f64_real x -> f64_real y -> f64_real b ->
  0 <= ival x - ival y <= ival b ->
  f64_real (f64_sub x y) /\ 0 <= ival (f64_sub x y) <= ival b /\
  (0 < ival x - ival y -> 0 < ival (f64_sub x y)).
Proof.
  intros Hx Hy Hb Hd. pose proof (f64_sub_rounds x y Hx Hy) as (Hv & Hin & _).
  set (d := ival x - ival y) in *.
  destruct (rnd_le_real d b Hb Hd) as [Hle Hlim].
  rewrite Z.abs_eq in Hin by lia.
  destruct Hin as [Hfin Hival]; [lia|].
  split; [done|]. rewrite Hival. unfold rnd_signed.
  assert ((d <? 0) = false) as -> by lia.
  destruct (Z.eq_dec d 0) as [->|Hne]; [rewrite rnd_0 in *; lia|].
  pose proof (rnd_pos d ltac:(lia)). lia.
Qed.

(** The sign of a difference of non-negative reals. *)
Lemma f64_sub_sign x y :
  f64_real x -> f64_real y -> 0 <= ival x -> 0 <= ival y ->
  f64_real (f64_sub x y) /\ (0 < ival (f64_sub x y) <-> ival y < ival x).
Proof.
  intros Hx Hy Hx0 Hy0. destruct (Z_le_dec (ival y) (ival x)).
  - destruct (f64_sub_bounded x y x Hx Hy Hx) as (Hr & Hb & Hp); [lia|].
    split; [done|]. split; [|intros; apply Hp; lia].
    intros Hpos. pose proof (f64_sub_rounds x y Hx Hy) as (_ & Hin & _).
    destruct (Z.eq_dec (ival x) (ival y)) as [E|]; [|lia].
    rewrite E, Z.sub_diag in Hin. destruct Hin as [_ Hi]; [by vm_compute|].
    rewrite Hi in Hpos. by vm_compute in Hpos.
  - pose proof (f64_sub_rounds x y Hx Hy) as (Hv & Hin & _).
    destruct (rnd_le_real (Z.abs (ival x - ival y)) y Hy) as [Hle Hlim]; [lia|].
    destruct Hin as [Hfin Hi]; [lia|]. split; [done|].
    rewrite Hi. unfold rnd_signed. assert ((ival x - ival y <? 0) = true) as -> by lia.
    pose proof (rnd_pos (- (ival x - ival y)) ltac:(lia)). lia.
Qed.

(** ** Multiplication of normal numbers *)

Lemma f64_mul_rounds mx ex my ey :
  2 ^ 52 <= Zpos mx -> -1074 <= ex + ey ->
  rounds_to (f64_mul (S754_finite false mx ex) (S754_finite false my ey))
    (Zpos mx * Zpos my * 2 ^ (ex + ey + 1074)).
Proof.
  intros Hm He. unfold f64_mul. cbn [SFmul xorb].
  assert (52 <= Z.log2 (Zpos (mx * my))).
  { apply log2_ge_pow; [lia..|]. rewrite Pos2Z.inj_mul. nia. }
  rewrite round_aux_exact by lia. rewrite Pos2Z.inj_mul.
  pose proof (pow2_pos (ex + ey + 1074) ltac:(lia)).
  pose proof (rounds_to_result false (Zpos mx * Zpos my * 2 ^ (ex + ey + 1074))
    ltac:(nia)) as H1.
  unfold f64_sign in H1. by rewrite Z.mul_1_l in H1.
Qed.

(** Multiplying a normal number by a factor of at least one, [c * 2^-52], does
    not decrease it. *)
Lemma f64_mul_ge x mc :
  f64_real x -> 2 ^ 1074 <= ival x -> 2 ^ 52 <= Zpos mc ->
  f64_valid (f64_mul x (S754_finite false mc (-52))) /\
  f64_le x (f64_mul x (S754_finite false mc (-52))) = true.
Proof.
  intros Hx H1 Hc.
  destruct x as [s|s| |s m e]; [cbn in H1; lia|by destruct Hx|by destruct Hx|].
  pose proof Hx as Hx'. apply real_finite_inv in Hx' as (Hcan & He & Hpos).
  cbn [ival] in H1. destruct s; [lia|]. rewrite Z.mul_1_l in H1.
  pose proof Hcan as (Hm & Hlo & Hor).
  assert (-52 <= e) as He52.
  { destruct (Z.le_gt_cases (-52) e) as [|Hlt]; [done|].
    assert (2 ^ (e + 1074) <= 2 ^ 1021) by (apply Z.pow_le_mono_r; lia).
    assert (2 ^ 1074 = 2 ^ 53 * 2 ^ 1021) by done. nia. }
  pose proof (f64_mul_rounds m e mc (-52) ltac:(lia) ltac:(lia)) as (Hv & Hin & Hout).
  replace (e + -52 + 1074) with (e + 1022) in * by lia.
  set (d := Zpos m * Zpos mc * 2 ^ (e + 1022)) in *.
  assert (2 ^ (e + 1074) = 2 ^ 52 * 2 ^ (e + 1022)) as Hp
    by (rewrite <-Z.pow_add_r by lia; f_equal; lia).
  pose proof (pow2_pos (e + 1022) ltac:(lia)).
  assert (Zpos m * 2 ^ (e + 1074) <= d) as Hd by (rewrite Hp; unfold d; nia).
  assert (0 < d) by lia. split; [done|].
  destruct (Z.lt_ge_cases (rnd (Z.abs d)) f64_limit) as [Hl|Hl].
  - destruct (Hin Hl) as [Hf Hi]. rewrite f64_le_spec by done.
    apply Z.leb_le. rewrite Hi. unfold rnd_signed.
    assert ((d <? 0) = false) as -> by lia. cbn [ival]. rewrite Z.mul_1_l.
    by apply rnd_ge_canon.
  - rewrite (Hout Hl). by assert ((d <? 0) = false) as -> by lia.
Qed.

(** ** Order facts used by the handlers *)

Lemma f64_le_not_lt x y z :
  f64_real x -> f64_real y -> f64_valid z ->
  f64_le x y = true -> f64_le y z = true -> f64_lt z x = false.
Proof.
  intros Hx Hy Hz Hxy Hyz. rewrite f64_le_spec in Hxy by done.
  destruct z as [s|s| |s m e].
  - rewrite f64_le_spec in Hyz by done. rewrite f64_lt_spec by done. lia.
  - destruct y as [?|?| |[] ? ?]; try (by destruct Hy); destruct s; try done;
      destruct x as [?|?| |[] ? ?]; try (by destruct Hx); done.
  - by destruct y.
  - rewrite f64_le_spec in Hyz by done. rewrite f64_lt_spec by done. lia.
Qed.
