(* ===== verification/Calendar.v ===== *)
(** * Dates and instants: the part of Go's [time] package the server calls

    An instant is a [Z], nanoseconds since 1970-01-01T00:00:00Z; all the
    server's times are UTC.  Dates are proleptic Gregorian.  [Parse] and
    [Format] are those of layout "2006-01-02"; [AddDate] normalises
    overflowing months and days the way [time.Date] does. *)

From S2P Require Import Prelude.

Local Open Scope Z_scope.

Abbreviation instant := Z (only parsing).

Definition second : Z := 1000000000.
Definition minute : Z := 60 * second.
Definition hour : Z := 60 * minute.
Definition day : Z := 24 * hour.

(** [t.Add(d)], [t.After(u)]. *)
Definition add (t : instant) (d : Z) : instant := t + d.
Definition after (t u : instant) : bool := u <? t.

Record date := mk_date { year : Z; month : Z; mday : Z }.

#[export] Instance date_eq_dec : EqDecision date.
Proof. solve_decision. Defined.

(** ** The Gregorian calendar *)

Definition leap (y : Z) : bool :=
  (y mod 4 =? 0) && (negb (y mod 100 =? 0) || (y mod 400 =? 0)).

Definition leap_day (y : Z) : Z := if leap y then 1 else 0.

Definition days_in (y m : Z) : Z :=
  match m with
  | 2 => 28 + leap_day y
  | 4 | 6 | 9 | 11 => 30
  | _ => 31
  end.

(** Days of the year before the first of month [m]. *)
Definition month_offset (y m : Z) : Z :=
  match m with
  | 1 => 0 | 2 => 31 | 3 => 59 + leap_day y | 4 => 90 + leap_day y
  | 5 => 120 + leap_day y | 6 => 151 + leap_day y | 7 => 181 + leap_day y
  | 8 => 212 + leap_day y | 9 => 243 + leap_day y | 10 => 273 + leap_day y
  | 11 => 304 + leap_day y | _ => 334 + leap_day y
  end.

(** Days from 0001-01-01 to the first of January of [y]. *)
Definition days_before (y : Z) : Z :=
  365 * (y - 1) + (y - 1) / 4 - (y - 1) / 100 + (y - 1) / 400.

(** 1970-01-01 as a day number. *)
Definition epoch_day : Z := 719162.

(** [time.Date]'s day number: months outside 1..12 carry into the year, days
    outside the month carry into the following (or preceding) months. *)
Definition day_number (d : date) : Z :=
  let y := year d + (month d - 1) / 12 in
  let m := (month d - 1) mod 12 + 1 in
  days_before y + month_offset y m + mday d - 1.

Definition month_of_yday (y yd : Z) : Z :=
  if yd <? month_offset y 2 then 1 else if yd <? month_offset y 3 then 2
  else if yd <? month_offset y 4 then 3 else if yd <? month_offset y 5 then 4
  else if yd <? month_offset y 6 then 5 else if yd <? month_offset y 7 then 6
  else if yd <? month_offset y 8 then 7 else if yd <? month_offset y 9 then 8
  else if yd <? month_offset y 10 then 9 else if yd <? month_offset y 11 then 10
  else if yd <? month_offset y 12 then 11 else 12.

(** Year and day of the year of a day number: 400-, 100-, 4- and 1-year cycles. *)
Definition year_yday (n : Z) : Z * Z :=
  let r400 := n mod 146097 in
  let n100 := Z.min (r400 / 36524) 3 in
  let r100 := r400 - 36524 * n100 in
  let r4 := r100 mod 1461 in
  let n1 := Z.min (r4 / 365) 3 in
  (400 * (n / 146097) + 100 * n100 + 4 * (r100 / 1461) + n1 + 1, r4 - 365 * n1).

Definition date_of_day (n : Z) : date :=
  let '(y, yd) := year_yday n in
  let m := month_of_yday y yd in
  mk_date y m (yd - month_offset y m + 1).

(** [t.Date()] and the instant of a date at midnight UTC. *)
Definition date_of (t : instant) : date := date_of_day (t / day + epoch_day).
Definition midnight (d : date) : instant := (day_number d - epoch_day) * day.

(** [t.AddDate(years, months, days)]: the time of day is kept. *)
Definition add_date (t : instant) (years months days : Z) : instant :=
  let d := date_of t in
  midnight (mk_date (year d + years) (month d + months) (mday d + days)) + t mod day.

Definition date_valid (d : date) : Prop :=
  1 <= month d <= 12 /\ 1 <= mday d <= days_in (year d) (month d).

(** ** Layout "2006-01-02" *)

Definition digit_char (n : Z) : byte := Ascii.ascii_of_N (Z.to_N (48 + n)).
Definition char_digit (c : byte) : option Z :=
  let n := Z.of_N (Ascii.N_of_ascii c) - 48 in
  if (0 <=? n) && (n <? 10) then Some n else None.

Definition pad2 (n : Z) (k : string) : string :=
  String (digit_char (n / 10 mod 10)) (String (digit_char (n mod 10)) k).
Definition pad4 (n : Z) (k : string) : string := pad2 (n / 100 mod 100) (pad2 (n mod 100) k).

(** [appendInt(year, 4)]. *)
Definition format_year (y : Z) (k : string) : string :=
  if y <? 0 then "-" +:+ (if -y <? 10000 then pad4 (-y) k else pretty (-y) +:+ k)
  else if y <? 10000 then pad4 y k else pretty y +:+ k.

Definition format_date (d : date) : string :=
  format_year (year d) ("-" +:+ pad2 (month d) ("-" +:+ pad2 (mday d) "")).

(** [t.Format("2006-01-02")]. *)
Definition format_day (t : instant) : string := format_date (date_of t).

(** [t.UTC().Format(time.RFC3339)]. *)
Definition format_rfc3339 (t : instant) : string :=
  let s := t mod day / second in
  format_date (date_of t) +:+ "T" +:+
  pad2 (s / 3600) (":" +:+ pad2 (s / 60 mod 60) (":" +:+ pad2 (s mod 60) "Z")).

Definition two_digits (s : string) : option (Z * string) :=
  match s with
  | String a (String b k) =>
      x ← char_digit a; y ← char_digit b; Some (10 * x + y, k)
  | _ => None
  end.

Definition dash : byte := Ascii.ascii_of_N 45.
Definition skip_dash (s : string) : option string :=
  match s with
  | String c k => if Ascii.eqb c dash then Some k else None
  | "" => None
  end.

(** [time.Parse("2006-01-02", s)]: four digits, two digits, two digits, nothing
    after them, and the day must exist. *)
Definition parse_date (s : string) : option date :=
  '(y1, s) ← two_digits s;
  '(y2, s) ← two_digits s;
  s ← skip_dash s;
  '(m, s) ← two_digits s;
  s ← skip_dash s;
  '(d, s) ← two_digits s;
  let y := 100 * y1 + y2 in
  if (1 <=? m) && (m <=? 12) && (1 <=? d) && (d <=? days_in y m) && (String.eqb s "")
  then Some (mk_date y m d) else None.

(** [time.Parse] as an instant. *)
Definition parse_day (s : string) : option instant := midnight <$> parse_date s.

(** ** Day numbers and dates are in bijection *)

Lemma cycles a b c d (t := 400 * a + 100 * b + 4 * c + d) :
  0 <= b <= 3 -> 0 <= c <= 24 -> 0 <= d <= 3 ->
  days_before (t + 1) = 146097 * a + 36524 * b + 1461 * c + 365 * d /\
  leap_day (t + 1) = if (d =? 3) && (negb (c =? 24) || (b =? 3)) then 1 else 0.
Proof.
  intros Hb Hc Hd. split.
  - unfold days_before. replace (t + 1 - 1) with t by lia.
    assert (t / 4 = 100 * a + 25 * b + c) as ->
      by (symmetry; apply (Z.div_unique_pos _ _ _ d); lia).
    assert (t / 100 = 4 * a + b) as ->
      by (symmetry; apply (Z.div_unique_pos _ _ _ (4 * c + d)); lia).
    assert (t / 400 = a) as ->
      by (symmetry; apply (Z.div_unique_pos _ _ _ (100 * b + 4 * c + d)); lia).
    unfold t. lia.
  - unfold leap_day, leap.
    assert ((t + 1) mod 4 = (d + 1) mod 4) as ->.
    { replace (t + 1) with (d + 1 + (100 * a + 25 * b + c) * 4) by lia.
      apply Z.mod_add. lia. }
    assert ((t + 1) mod 100 = (4 * c + d + 1) mod 100) as ->.
    { replace (t + 1) with (4 * c + d + 1 + (4 * a + b) * 100) by lia.
      apply Z.mod_add. lia. }
    assert ((t + 1) mod 400 = (100 * b + 4 * c + d + 1) mod 400) as ->.
    { replace (t + 1) with (100 * b + 4 * c + d + 1 + a * 400) by lia.
      apply Z.mod_add. lia. }
    assert (d = 0 \/ d = 1 \/ d = 2 \/ d = 3) as Hd' by lia.
    destruct Hd' as [-> | [-> | [-> | ->]]]; [done|done|done|].
    destruct (Z.eqb_spec c 24) as [->|Hc24]; cbn.
    + assert (b = 0 \/ b = 1 \/ b = 2 \/ b = 3) as Hb' by lia.
      by destruct Hb' as [-> | [-> | [-> | ->]]].
    + rewrite (Z.mod_small (4 * c + 3 + 1)) by lia.
      by assert ((4 * c + 3 + 1 =? 0) = false) as -> by lia.
Qed.

Lemma year_yday_spec n :
  let '(y, yd) := year_yday n in
  days_before y + yd = n /\ 0 <= yd < 365 + leap_day y.
Proof.
  unfold year_yday.
  pose proof (Z.div_mod n 146097 ltac:(lia)) as Hn.
  pose proof (Z.mod_pos_bound n 146097 ltac:(lia)) as Hr.
  set (a := n / 146097) in *. set (r := n mod 146097) in *.
  pose proof (Z.div_mod r 36524 ltac:(lia)) as Hq.
  pose proof (Z.mod_pos_bound r 36524 ltac:(lia)).
  set (b := Z.min (r / 36524) 3). set (r100 := r - 36524 * b).
  assert (r = 36524 * b + r100 /\ 0 <= b <= 3 /\ 0 <= r100 <= 36524 /\
    (b < 3 -> r100 < 36524)) as (Hrb & Hb & Hr100 & Hlt) by lia.
  clearbody b r100.
  pose proof (Z.div_mod r100 1461 ltac:(lia)) as Hc.
  pose proof (Z.mod_pos_bound r100 1461 ltac:(lia)).
  set (c := r100 / 1461) in *. set (r4 := r100 mod 1461) in *.
  assert (0 <= c <= 24) by lia. clearbody c r4.
  pose proof (Z.div_mod r4 365 ltac:(lia)).
  pose proof (Z.mod_pos_bound r4 365 ltac:(lia)).
  set (d := Z.min (r4 / 365) 3).
  assert (0 <= d <= 3 /\ 0 <= r4 - 365 * d <= 365 /\ (d < 3 -> r4 - 365 * d < 365))
    as (Hd & Hyd & Hlt4) by lia.
  clearbody d.
  destruct (cycles a b c d) as [-> ->]; [lia..|].
  split; [lia|].
  destruct (Z.eqb_spec d 3), (Z.eqb_spec c 24), (Z.eqb_spec b 3); cbn; lia.
Qed.

(** ** Month tables *)

Ltac month_cases m :=
  assert (m = 1 \/ m = 2 \/ m = 3 \/ m = 4 \/ m = 5 \/ m = 6 \/ m = 7 \/ m = 8 \/
          m = 9 \/ m = 10 \/ m = 11 \/ m = 12) as Hmonth by lia;
  repeat (destruct Hmonth as [->|Hmonth]); [..|subst m].

Lemma leap_day_01 y : 0 <= leap_day y <= 1.
Proof. unfold leap_day. case_match; lia. Qed.

Lemma month_of_yday_spec y yd (m := month_of_yday y yd) :
  0 <= yd < 365 + leap_day y ->
  1 <= m <= 12 /\ 1 <= yd - month_offset y m + 1 <= days_in y m.
Proof.
  intros H. pose proof (leap_day_01 y). subst m. unfold month_of_yday.
  repeat case_match; cbn [month_offset days_in] in *; lia.
Qed.

Lemma month_of_yday_offset y m d :
  1 <= m <= 12 -> 1 <= d <= days_in y m ->
  month_of_yday y (month_offset y m + d - 1) = m /\
  0 <= month_offset y m + d - 1 < 365 + leap_day y.
Proof.
  intros Hm Hd. pose proof (leap_day_01 y).
  month_cases m; cbn [days_in] in Hd; unfold month_of_yday;
    cbn [month_offset]; (split; [|lia]); repeat case_match; lia.
Qed.

Lemma day_number_valid d :
  1 <= month d <= 12 ->
  day_number d = days_before (year d) + month_offset (year d) (month d) + mday d - 1.
Proof.
  intros H. unfold day_number.
  rewrite (Z.div_small (month d - 1)), (Z.mod_small (month d - 1)) by lia.
  rewrite Z.add_0_r. by replace (month d - 1 + 1) with (month d) by lia.
Qed.

Lemma date_of_day_valid n :
  date_valid (date_of_day n) /\ day_number (date_of_day n) = n.
Proof.
  unfold date_of_day. pose proof (year_yday_spec n) as Hs.
  destruct (year_yday n) as [y yd]. destruct Hs as [Hn Hyd].
  pose proof (month_of_yday_spec y yd Hyd) as [Hm Hd].
  split; [done|]. rewrite day_number_valid by done. cbn [year month mday]. lia.
Qed.

Lemma days_before_step y : days_before (y + 1) = days_before y + 365 + leap_day y.
Proof.
  pose proof (Z.div_mod (y - 1) 400 ltac:(lia)) as H400.
  pose proof (Z.mod_pos_bound (y - 1) 400 ltac:(lia)).
  set (a := (y - 1) / 400) in *. set (r := (y - 1) mod 400) in *.
  pose proof (Z.div_mod r 100 ltac:(lia)). pose proof (Z.mod_pos_bound r 100 ltac:(lia)).
  set (b := r / 100) in *. set (s := r mod 100) in *.
  pose proof (Z.div_mod s 4 ltac:(lia)). pose proof (Z.mod_pos_bound s 4 ltac:(lia)).
  set (c := s / 4) in *. set (d := s mod 4) in *. clearbody a b c d r s.
  assert (y = 400 * a + 100 * b + 4 * c + d + 1) as -> by lia.
  destruct (cycles a b c d) as [-> ->]; [lia..|].
  destruct (Z.eqb_spec d 3) as [->|].
  - (* the next year opens a new 4-year cycle, or a new century *)
    destruct (Z.eqb_spec c 24) as [->|]; [destruct (Z.eqb_spec b 3) as [->|]|]; cbn.
    + replace (_ + 1 + 1) with (400 * (a + 1) + 100 * 0 + 4 * 0 + 0 + 1) by lia.
      destruct (cycles (a + 1) 0 0 0) as [-> _]; lia.
    + replace (_ + 1 + 1) with (400 * a + 100 * (b + 1) + 4 * 0 + 0 + 1) by lia.
      destruct (cycles a (b + 1) 0 0) as [-> _]; lia.
    + replace (_ + 1 + 1) with (400 * a + 100 * b + 4 * (c + 1) + 0 + 1) by lia.
      destruct (cycles a b (c + 1) 0) as [-> _]; lia.
  - replace (_ + 1 + 1) with (400 * a + 100 * b + 4 * c + (d + 1) + 1) by lia.
    destruct (cycles a b c (d + 1)) as [-> _]; cbn; lia.
Qed.

Lemma days_before_mono y1 y2 :
  y1 < y2 -> days_before y1 + 365 + leap_day y1 <= days_before y2.
Proof.
  intros Hlt. replace y2 with (y1 + 1 + Z.of_nat (Z.to_nat (y2 - y1 - 1))) by lia.
  induction (Z.to_nat (y2 - y1 - 1)) as [|k IH].
  - rewrite Z.add_0_r, days_before_step. lia.
  - rewrite Nat2Z.inj_succ.
    replace (y1 + 1 + Z.succ _) with (y1 + 1 + Z.of_nat k + 1) by lia.
    rewrite days_before_step. pose proof (leap_day_01 (y1 + 1 + Z.of_nat k)). lia.
Qed.

Lemma date_of_day_number d : date_valid d -> date_of_day (day_number d) = d.
Proof.
  intros [Hm Hd]. rewrite day_number_valid by done.
  destruct (month_of_yday_offset (year d) (month d) (mday d) Hm Hd) as [Hmo Hyd].
  unfold date_of_day.
  set (n := days_before _ + _ + _ - 1). pose proof (year_yday_spec n) as Hs.
  destruct (year_yday n) as [y yd]. destruct Hs as [Hn Hb].
  assert (y = year d) as ->.
  { destruct (Z.lt_total y (year d)) as [Hlt|[|Hlt]]; [|done|];
      pose proof (days_before_mono _ _ Hlt); unfold n in *; lia. }
  assert (yd = month_offset (year d) (month d) + mday d - 1) as -> by (unfold n in *; lia).
  rewrite Hmo. destruct d as [y m dd]; cbn in *. f_equal. lia.
Qed.

(** ** Instants *)

Lemma date_of_midnight d : date_valid d -> date_of (midnight d) = d.
Proof.
  intros Hd. unfold date_of, midnight.
  rewrite Z.div_mul by done. rewrite Z.sub_add. by apply date_of_day_number.
Qed.

Lemma midnight_date_of t : midnight (date_of t) + t mod day = t.
Proof.
  unfold midnight, date_of.
  destruct (date_of_day_valid (t / day + epoch_day)) as [_ ->].
  pose proof (Z.div_mod t day ltac:(done)). lia.
Qed.

Lemma date_of_valid t : date_valid (date_of t).
Proof. apply date_of_day_valid. Qed.

Lemma midnight_add_days y m d n :
  midnight (mk_date y m (d + n)) = midnight (mk_date y m d) + n * day.
Proof. unfold midnight, day_number. cbn [year month mday]. lia. Qed.

(** Adding only days shifts the instant by whole days. *)
Lemma add_date_days t n : add_date t 0 0 n = t + n * day.
Proof.
  unfold add_date. rewrite midnight_add_days, !Z.add_0_r.
  pose proof (midnight_date_of t) as Ht. destruct (date_of t) as [y m d].
  cbn [year month mday]. lia.
Qed.

(** One year later: 365 days, or 366 when a 29 February lies between. *)
Lemma add_date_year d :
  date_valid d ->
  midnight d + 365 * day <= add_date (midnight d) 1 0 0 <= midnight d + 366 * day.
Proof.
  intros Hd. unfold add_date. rewrite date_of_midnight by done.
  unfold midnight. rewrite Z.mod_mul by done.
  destruct Hd as [Hm Hday]. rewrite !day_number_valid by (cbn; lia).
  destruct d as [y m dd]. cbn [year month mday] in *. rewrite !Z.add_0_r.
  rewrite days_before_step.
  pose proof (leap_day_01 y). pose proof (leap_day_01 (y + 1)).
  assert (leap_day y = 1 -> leap_day (y + 1) = 0) as Hl.
  { unfold leap_day, leap. intros Hl.
    destruct (Z.eqb_spec ((y + 1) mod 4) 0); [|done].
    destruct (Z.eqb_spec (y mod 4) 0); [dlia|done]. }
  assert (month_offset y m + 365 <= 365 + leap_day y + month_offset (y + 1) m
            <= month_offset y m + 366) as Hoff
    by (month_cases m; cbn [month_offset]; lia).
  assert (0 < day) by done. nia.
Qed.

(** The same day of the next year; 29 February becomes 1 March. *)
Definition next_year (d : date) : date :=
  if (month d =? 2) && (mday d =? 29) then mk_date (year d + 1) 3 1
  else mk_date (year d + 1) (month d) (mday d).

Lemma next_year_valid d : date_valid d -> date_valid (next_year d).
Proof.
  intros [Hm Hd]. unfold next_year, date_valid.
  destruct (Z.eqb_spec (month d) 2) as [E|]; destruct (Z.eqb_spec (mday d) 29) as [E'|];
    cbn [andb year month mday]; try (rewrite ?E in *; cbn [days_in] in *;
    pose proof (leap_day_01 (year d)); pose proof (leap_day_01 (year d + 1)); lia).
  all: split; [done|]; unfold days_in in *; repeat case_match; lia.
Qed.

Lemma midnight_add_year d :
  date_valid d -> add_date (midnight d) 1 0 0 = midnight (next_year d).
Proof.
  intros Hd. unfold add_date. rewrite date_of_midnight by done.
  unfold midnight at 2. rewrite Z.mod_mul by done. rewrite !Z.add_0_r.
  unfold midnight. do 2 f_equal.
  unfold next_year. destruct (Z.eqb_spec (month d) 2) as [E|]; [|done].
  destruct (Z.eqb_spec (mday d) 29) as [E'|]; [|done]. cbn [andb].
  rewrite !day_number_valid by (cbn; lia). cbn [year month mday].
  destruct Hd as [_ Hd]. rewrite E, E' in *. cbn [month_offset days_in] in *.
  assert (leap_day (year d) = 1) as Hl by (pose proof (leap_day_01 (year d)); lia).
  assert (leap_day (year d + 1) = 0) as ->; [|lia].
  unfold leap_day, leap in *.
  destruct (Z.eqb_spec (year d mod 4) 0); [|done].
  destruct (Z.eqb_spec ((year d + 1) mod 4) 0); [dlia|done].
Qed.

Lemma date_of_add_year d :
  date_valid d -> date_of (add_date (midnight d) 1 0 0) = next_year d.
Proof.
  intros Hd. rewrite midnight_add_year by done. by apply date_of_midnight, next_year_valid.
Qed.

(** ** Printing and parsing *)

Lemma char_digit_char n : 0 <= n < 10 -> char_digit (digit_char n) = Some n.
Proof.
  intros H. unfold char_digit, digit_char. rewrite Ascii.N_ascii_embedding by lia.
  rewrite Z2N.id by lia. replace (48 + n - 48) with n by lia.
  destruct (Z.leb_spec 0 n); [|lia]. by destruct (Z.ltb_spec n 10); [|lia].
Qed.

Lemma digit_char_digit c n : char_digit c = Some n -> digit_char n = c /\ 0 <= n < 10.
Proof.
  unfold char_digit, digit_char. case_match eqn:E; [|done]. intros [= <-].
  apply andb_true_iff in E as [E1%Z.leb_le E2%Z.ltb_lt]. split; [|lia].
  rewrite Zplus_minus, N2Z.id. apply Ascii.ascii_N_embedding.
Qed.

Lemma two_digits_pad2 n k : 0 <= n < 100 -> two_digits (pad2 n k) = Some (n, k).
Proof.
  intros Hn. unfold two_digits, pad2.
  rewrite (char_digit_char (n / 10 mod 10)) by dlia. cbn.
  rewrite (char_digit_char (n mod 10)) by dlia. cbn.
  do 2 f_equal. dlia.
Qed.

Lemma pad2_two_digits s n k :
  two_digits s = Some (n, k) -> s = pad2 n k /\ 0 <= n < 100.
Proof.
  destruct s as [|a [|b s]]; [done..|]. cbn.
  destruct (char_digit a) as [x|] eqn:Ha; [|done]. cbn.
  destruct (char_digit b) as [y|] eqn:Hb; [|done]. cbn. intros [= <- <-].
  apply digit_char_digit in Ha as [<- Hx]. apply digit_char_digit in Hb as [<- Hy].
  split; [|lia]. unfold pad2.
  assert ((10 * x + y) / 10 mod 10 = x) as -> by dlia.
  by assert ((10 * x + y) mod 10 = y) as -> by dlia.
Qed.

Lemma skip_dash_cons k : skip_dash ("-" +:+ k) = Some k.
Proof. done. Qed.

Lemma skip_dash_inv s k : skip_dash s = Some k -> s = "-" +:+ k.
Proof.
  destruct s as [|c s]; [done|]. cbn. case_match eqn:E; [|done].
  apply Ascii.eqb_eq in E. by intros [= ->]; subst c.
Qed.

Lemma days_in_bounds y m : 28 <= days_in y m <= 31.
Proof. pose proof (leap_day_01 y). unfold days_in. repeat case_match; lia. Qed.

Lemma parse_format_date d :
  date_valid d -> 0 <= year d < 10000 -> parse_date (format_date d) = Some d.
Proof.
  destruct d as [y m dd]. intros [Hm Hd] Hy. cbn [year month mday] in *.
  pose proof (days_in_bounds y m).
  unfold parse_date, format_date, format_year, pad4. cbn [year month mday].
  assert ((y <? 0) = false) as -> by lia. assert ((y <? 10000) = true) as -> by lia.
  rewrite two_digits_pad2 by dlia. cbn [mbind option_bind].
  rewrite two_digits_pad2 by dlia. cbn [mbind option_bind].
  rewrite skip_dash_cons. cbn [mbind option_bind].
  rewrite two_digits_pad2 by lia. cbn [mbind option_bind].
  rewrite skip_dash_cons. cbn [mbind option_bind].
  rewrite two_digits_pad2 by lia. cbn [mbind option_bind].
  assert (100 * (y / 100 mod 100) + y mod 100 = y) as -> by dlia.
  assert ((1 <=? m) = true) as -> by lia. assert ((m <=? 12) = true) as -> by lia.
  assert ((1 <=? dd) = true) as -> by lia.
  by assert ((dd <=? days_in y m) = true) as -> by lia.
Qed.

Lemma format_parse_date s d :
  parse_date s = Some d -> format_date d = s /\ date_valid d /\ 0 <= year d < 10000.
Proof.
  unfold parse_date. intros H.
  apply bind_Some in H as ([y1 s1] & E1%pad2_two_digits & H).
  apply bind_Some in H as ([y2 s2] & E2%pad2_two_digits & H).
  apply bind_Some in H as (s3 & E3%skip_dash_inv & H).
  apply bind_Some in H as ([m s4] & E4%pad2_two_digits & H).
  apply bind_Some in H as (s5 & E5%skip_dash_inv & H).
  apply bind_Some in H as ([dd s6] & E6%pad2_two_digits & H).
  case_match eqn:Hc; [|done]. injection H as <-.
  rewrite !andb_true_iff, !Z.leb_le, String.eqb_eq in Hc.
  destruct Hc as ((((H1 & H2) & H3) & H4) & ->).
  destruct E1 as [-> ?], E2 as [-> ?], E4 as [-> ?], E6 as [-> ?]. subst.
  unfold format_date, format_year, pad4, date_valid. cbn [year month mday].
  assert ((100 * y1 + y2 <? 0) = false) as -> by lia.
  assert ((100 * y1 + y2 <? 10000) = true) as -> by lia.
  assert ((100 * y1 + y2) / 100 mod 100 = y1) as -> by dlia.
  assert ((100 * y1 + y2) mod 100 = y2) as -> by dlia.
  split; [done|]. lia.
Qed.

(** Dates read back from their text. *)
Theorem date_text_round_trip s d :
  parse_date s = Some d <-> s = format_date d /\ date_valid d /\ 0 <= year d < 10000.
Proof.
  split.
  - by intros (<- & ? & ?)%format_parse_date.
  - intros (-> & ? & ?). by apply parse_format_date.
Qed.
