(* ===== verification/Models.v ===== *)
(** * The domain model: [internal/models/deposit.go]

    One record per Go struct, one field per Go field ([Struct_Field]); Go
    string types stay [string], because JSON may put any string in them, and
    their constants are definitions.  A pointer is an [option], [nil] is
    [None]; a slice is a list (nil and empty slices are not told apart). *)

From S2P Require Import Prelude Float64 Calendar.

(** ** String enumerations *)

Abbreviation LifecycleState := string (only parsing).
Definition StateRequested : LifecycleState := "REQUESTED".
Definition StateIdentified : LifecycleState := "IDENTIFIED".
Definition StateFunded : LifecycleState := "FUNDED".
Definition StatePledged : LifecycleState := "PLEDGED".
Definition StateReleased : LifecycleState := "RELEASED".
Definition StateClaimed : LifecycleState := "CLAIMED".
Definition StateSettleProposed : LifecycleState := "SETTLE_PROPOSED".
Definition StateDisputed : LifecycleState := "DISPUTED".
Definition StatePartiallyReleased : LifecycleState := "PARTIALLY_RELEASED".
Definition StateClosed : LifecycleState := "CLOSED".

Abbreviation ClaimCategory := string (only parsing).
Definition ClaimCategoryUtilityArrears : ClaimCategory := "UTILITY_ARREARS".

Abbreviation DepositType := string (only parsing).
Definition DepositTypeCash : DepositType := "CASH_EQUIVALENT".
Definition DepositTypeBankGuarantee : DepositType := "BANK_GUARANTEE".
Definition DepositTypeInsurance : DepositType := "INSURANCE".

Abbreviation EIDStatus := string (only parsing).
Definition EIDNotStarted : EIDStatus := "NOT_STARTED".
Definition EIDInProgress : EIDStatus := "IN_PROGRESS".
Definition EIDVerified : EIDStatus := "VERIFIED".
Definition EIDFailed : EIDStatus := "FAILED".

(** ** Structs *)

Record UtilityReservation := {
  UtilityReservation_ReleasedAmount : float64;
  UtilityReservation_ReservedAmount : float64;
  UtilityReservation_MonthlyAdvance : float64;
  UtilityReservation_BillingPeriodEnd : string;
  UtilityReservation_ResolutionDeadline : string;
  UtilityReservation_SettlementRef : string;
  UtilityReservation_ActualCost : float64;
  UtilityReservation_TotalAdvancePaid : float64;
  UtilityReservation_ResolvedAt : string }.

Record ClaimItem := {
  ClaimItem_ID : string;
  ClaimItem_Category : ClaimCategory;
  ClaimItem_Description : string;
  ClaimItem_AmountClaimed : float64;
  ClaimItem_EvidenceRefs : list string;
  ClaimItem_RoomOrArea : string }.

Record Settlement := {
  Settlement_InitiatedBy : string;
  Settlement_InitiatedAt : instant;
  Settlement_LastProposedBy : string;
  Settlement_LastProposedAt : instant;
  Settlement_TenancyEndDate : string;
  Settlement_HandoverDate : string;
  Settlement_HandoverProtocolRef : string;
  Settlement_ClaimItems : list ClaimItem;
  Settlement_TotalClaimed : float64;
  Settlement_ProposedTenantRefund : float64;
  Settlement_ProposedLandlordRetention : float64;
  Settlement_ResponseDeadline : string;
  Settlement_EscalationType : string;
  Settlement_ExternalAuthority : string;
  Settlement_ExternalReference : string;
  Settlement_AgreedTenantRefund : float64;
  Settlement_AgreedLandlordRetention : float64 }.

Record Address := {
  Address_Street : string; Address_ZIP : string;
  Address_City : string; Address_Country : string }.

Record WalletMetadata := {
  WalletMetadata_Issuer : string;
  WalletMetadata_IssuerID : string;
  WalletMetadata_WalletProvider : string;
  WalletMetadata_CredentialType : string;
  WalletMetadata_CredentialFormat : string;
  WalletMetadata_AssuranceLevel : string;
  WalletMetadata_PresentationID : string;
  WalletMetadata_IssuingCountry : string;
  WalletMetadata_VerifiedAt : string;
  WalletMetadata_ExpiresAt : string }.

Record Tenant := {
  Tenant_FirstName : string;
  Tenant_LastName : string;
  Tenant_Email : string;
  Tenant_TaxID : string;
  Tenant_EIDStatus : EIDStatus;
  Tenant_WalletMetadata : option WalletMetadata;
  Tenant_Address : option Address }.

Record Landlord := {
  Landlord_Name : string; Landlord_Type : string; Landlord_IBAN : string }.

Record Property := { Property_Address : Address; Property_UnitID : string }.

Record HistoryEntry := {
  HistoryEntry_State : LifecycleState;
  HistoryEntry_Timestamp : instant;
  HistoryEntry_Actor : string;
  HistoryEntry_Comment : string;
  HistoryEntry_Signature : string }.

Record InstallmentScheduleEntry := {
  InstallmentScheduleEntry_InstallmentNumber : Z;
  InstallmentScheduleEntry_DueDate : string;
  InstallmentScheduleEntry_PaidDate : string;
  InstallmentScheduleEntry_Amount : float64 }.

Record InstallmentPlan := {
  InstallmentPlan_TotalInstallments : Z;
  InstallmentPlan_InstallmentAmount : float64;
  InstallmentPlan_Schedule : list InstallmentScheduleEntry }.

Record DepositData := {
  DepositData_Amount : float64;
  DepositData_Currency : string;
  DepositData_Type : DepositType;
  DepositData_LifecycleState : LifecycleState;
  DepositData_History : list HistoryEntry;
  DepositData_InstallmentPlan : option InstallmentPlan }.

Record Pledge := {
  Pledge_PledgeDate : string;
  Pledge_StatutoryBasis : string;
  Pledge_IsConfirmedByBank : bool }.

Record InterestRateEntry := {
  InterestRateEntry_Rate : float64;
  InterestRateEntry_EffectiveFrom : string;
  InterestRateEntry_EffectiveTo : string }.

Record Trusteeship := {
  Trusteeship_AccountType : string;
  Trusteeship_TrusteeEntity : string;
  Trusteeship_TrustAccountIBAN : string;
  Trusteeship_InsolvencyProtectionConfirmed : bool;
  Trusteeship_InsolvencyProtectionConfirmedDate : string;
  Trusteeship_StatutoryBasis : string;
  Trusteeship_InterestRate : float64;
  Trusteeship_InterestRateHistory : list InterestRateEntry;
  Trusteeship_AccruedInterest : float64;
  Trusteeship_InterestCalculatedAt : string;
  Trusteeship_TotalBalance : float64 }.

Record Provider := {
  Provider_ProviderType : string;
  Provider_ExecutingEntity : string;
  Provider_BrandName : string;
  Provider_ProviderID : string;
  Provider_InsurancePolicyNumber : string }.

Record Meta := {
  Meta_Version : string; Meta_Timestamp : instant; Meta_ExternalID : string }.

Record EBICSBTF := {
  EBICSBTF_ServiceName : string;
  EBICSBTF_ServiceOption : string;
  EBICSBTF_Scope : string;
  EBICSBTF_Container : string;
  EBICSBTF_MsgName : string;
  EBICSBTF_MsgVersion : string }.

Record EBICSMetadata := {
  EBICSMetadata_HostID : string;
  EBICSMetadata_PartnerID : string;
  EBICSMetadata_UserID : string;
  EBICSMetadata_EBICSVersion : string;
  EBICSMetadata_BankURL : string;
  EBICSMetadata_OrderType : string;
  EBICSMetadata_BTF : option EBICSBTF;
  EBICSMetadata_SignatureClass : string;
  EBICSMetadata_BankBIC : string }.

Record Transport := {
  Transport_Protocol : string;
  Transport_EBICSMetadata : option EBICSMetadata }.

Record Deposit := {
  Deposit_ID : string;
  Deposit_Meta : Meta;
  Deposit_Tenant : Tenant;
  Deposit_Landlord : Landlord;
  Deposit_Property : Property;
  Deposit_Deposit : DepositData;
  Deposit_Pledge : option Pledge;
  Deposit_Trusteeship : option Trusteeship;
  Deposit_Provider : option Provider;
  Deposit_Transport : option Transport;
  Deposit_Settlement : option Settlement;
  Deposit_UtilityReservation : option UtilityReservation }.

(** ** Request and response payloads *)

Record IdentityUpdateRequest := {
  IdentityUpdateRequest_EIDStatus : EIDStatus;
  IdentityUpdateRequest_VerificationTimestamp : string;
  IdentityUpdateRequest_ProviderReference : string;
  IdentityUpdateRequest_WalletMetadata : option WalletMetadata }.

Record PledgeRequest := {
  PledgeRequest_PledgeDate : string;
  PledgeRequest_IsConfirmedByBank : bool;
  PledgeRequest_ProviderReference : string }.

Record ReleaseRequest := {
  ReleaseRequest_ReleaseType : string;
  ReleaseRequest_ReleaseAmount : float64;
  ReleaseRequest_LandlordSignatureToken : string }.

Record ClaimRequest := {
  ClaimRequest_ClaimAmount : float64;
  ClaimRequest_Reason : string;
  ClaimRequest_EvidenceURLs : list string }.

Record ClaimItemInput := {
  ClaimItemInput_Category : ClaimCategory;
  ClaimItemInput_Description : string;
  ClaimItemInput_AmountClaimed : float64;
  ClaimItemInput_EvidenceRefs : list string;
  ClaimItemInput_RoomOrArea : string }.

Record SettleRequest := {
  SettleRequest_InitiatedBy : string;
  SettleRequest_TenancyEndDate : string;
  SettleRequest_HandoverDate : string;
  SettleRequest_HandoverProtocolRef : string;
  SettleRequest_ClaimItems : list ClaimItemInput;
  SettleRequest_ProposedTenantRefund : float64;
  SettleRequest_ProposedLandlordRetention : float64 }.

Record SettleAcceptRequest := { SettleAcceptRequest_AcceptedBy : string }.

Record DisputeRequest := {
  DisputeRequest_EscalatedBy : string;
  DisputeRequest_EscalationType : string;
  DisputeRequest_ExternalReference : string;
  DisputeRequest_Statement : string }.

Record DisputeResolveRequest := {
  DisputeResolveRequest_AgreedTenantRefund : float64;
  DisputeResolveRequest_AgreedLandlordRetention : float64;
  DisputeResolveRequest_ResolutionReference : string }.

Record PartialReleaseRequest := {
  PartialReleaseRequest_ReleasedAmount : float64;
  PartialReleaseRequest_ReservedAmount : float64;
  PartialReleaseRequest_MonthlyAdvance : float64;
  PartialReleaseRequest_BillingPeriodEnd : string }.

Record UtilitySettleRequest := {
  UtilitySettleRequest_SettlementRef : string;
  UtilitySettleRequest_ActualCost : float64;
  UtilitySettleRequest_TotalAdvancePaid : float64 }.

Record ErrorResponse := { ErrorResponse_Error : string; ErrorResponse_Code : string }.

Record WebhookEvent := {
  WebhookEvent_EventType : string;
  WebhookEvent_DepositID : string;
  WebhookEvent_NewState : LifecycleState;
  WebhookEvent_Timestamp : instant;
  WebhookEvent_CredentialOfferURL : string }.

(** ** Field assignments *)

(** [&models.Settlement{}]: every field at its zero value. *)
Definition zero_time : instant := (-62135596800 * second)%Z.
Definition zero_Settlement : Settlement :=
  {| Settlement_InitiatedBy := ""; Settlement_InitiatedAt := zero_time;
     Settlement_LastProposedBy := ""; Settlement_LastProposedAt := zero_time;
     Settlement_TenancyEndDate := ""; Settlement_HandoverDate := "";
     Settlement_HandoverProtocolRef := ""; Settlement_ClaimItems := [];
     Settlement_TotalClaimed := f64_zero; Settlement_ProposedTenantRefund := f64_zero;
     Settlement_ProposedLandlordRetention := f64_zero;
     Settlement_ResponseDeadline := ""; Settlement_EscalationType := "";
     Settlement_ExternalAuthority := ""; Settlement_ExternalReference := "";
     Settlement_AgreedTenantRefund := f64_zero;
     Settlement_AgreedLandlordRetention := f64_zero |}.

Definition set_ID (s : string) (d : Deposit) : Deposit :=
  match d with Build_Deposit _ a b c e f g h i j k l =>
    Build_Deposit s a b c e f g h i j k l end.
Definition set_Meta (m : Meta) (d : Deposit) : Deposit :=
  match d with Build_Deposit s _ b c e f g h i j k l =>
    Build_Deposit s m b c e f g h i j k l end.
Definition set_Tenant (t : Tenant) (d : Deposit) : Deposit :=
  match d with Build_Deposit s a _ c e f g h i j k l =>
    Build_Deposit s a t c e f g h i j k l end.
Definition set_DepositData (x : DepositData) (d : Deposit) : Deposit :=
  match d with Build_Deposit s a b c e _ g h i j k l =>
    Build_Deposit s a b c e x g h i j k l end.
Definition set_Pledge (p : option Pledge) (d : Deposit) : Deposit :=
  match d with Build_Deposit s a b c e f _ h i j k l =>
    Build_Deposit s a b c e f p h i j k l end.
Definition set_Settlement (x : option Settlement) (d : Deposit) : Deposit :=
  match d with Build_Deposit s a b c e f g h i j _ l =>
    Build_Deposit s a b c e f g h i j x l end.
Definition set_UtilityReservation (u : option UtilityReservation) (d : Deposit) : Deposit :=
  match d with Build_Deposit s a b c e f g h i j k _ =>
    Build_Deposit s a b c e f g h i j k u end.

Definition set_Version (v : string) (m : Meta) : Meta :=
  {| Meta_Version := v; Meta_Timestamp := Meta_Timestamp m;
     Meta_ExternalID := Meta_ExternalID m |}.
Definition set_Timestamp (t : instant) (m : Meta) : Meta :=
  {| Meta_Version := Meta_Version m; Meta_Timestamp := t;
     Meta_ExternalID := Meta_ExternalID m |}.

Definition set_Currency (c : string) (x : DepositData) : DepositData :=
  match x with Build_DepositData a _ t s h p => Build_DepositData a c t s h p end.
Definition set_LifecycleState (s : LifecycleState) (x : DepositData) : DepositData :=
  match x with Build_DepositData a c t _ h p => Build_DepositData a c t s h p end.
Definition set_History (h : list HistoryEntry) (x : DepositData) : DepositData :=
  match x with Build_DepositData a c t s _ p => Build_DepositData a c t s h p end.

Definition set_EIDStatus (e : EIDStatus) (t : Tenant) : Tenant :=
  match t with Build_Tenant f l m x _ w a => Build_Tenant f l m x e w a end.
Definition set_WalletMetadata (w : option WalletMetadata) (t : Tenant) : Tenant :=
  match t with Build_Tenant f l m x e _ a => Build_Tenant f l m x e w a end.

(** [d.Deposit.LifecycleState], [d.Deposit.History]. *)
Definition lifecycle (d : Deposit) : LifecycleState :=
  DepositData_LifecycleState (Deposit_Deposit d).
Definition history (d : Deposit) : list HistoryEntry :=
  DepositData_History (Deposit_Deposit d).

(** [s.AgreedTenantRefund = r; s.AgreedLandlordRetention = l] and the three
    escalation fields. *)
Definition set_Agreed (r l : float64) (s : Settlement) : Settlement :=
  {| Settlement_InitiatedBy := Settlement_InitiatedBy s;
     Settlement_InitiatedAt := Settlement_InitiatedAt s;
     Settlement_LastProposedBy := Settlement_LastProposedBy s;
     Settlement_LastProposedAt := Settlement_LastProposedAt s;
     Settlement_TenancyEndDate := Settlement_TenancyEndDate s;
     Settlement_HandoverDate := Settlement_HandoverDate s;
     Settlement_HandoverProtocolRef := Settlement_HandoverProtocolRef s;
     Settlement_ClaimItems := Settlement_ClaimItems s;
     Settlement_TotalClaimed := Settlement_TotalClaimed s;
     Settlement_ProposedTenantRefund := Settlement_ProposedTenantRefund s;
     Settlement_ProposedLandlordRetention := Settlement_ProposedLandlordRetention s;
     Settlement_ResponseDeadline := Settlement_ResponseDeadline s;
     Settlement_EscalationType := Settlement_EscalationType s;
     Settlement_ExternalAuthority := Settlement_ExternalAuthority s;
     Settlement_ExternalReference := Settlement_ExternalReference s;
     Settlement_AgreedTenantRefund := r;
     Settlement_AgreedLandlordRetention := l |}.

Definition set_External (typ auth ref : string) (s : Settlement) : Settlement :=
  {| Settlement_InitiatedBy := Settlement_InitiatedBy s;
     Settlement_InitiatedAt := Settlement_InitiatedAt s;
     Settlement_LastProposedBy := Settlement_LastProposedBy s;
     Settlement_LastProposedAt := Settlement_LastProposedAt s;
     Settlement_TenancyEndDate := Settlement_TenancyEndDate s;
     Settlement_HandoverDate := Settlement_HandoverDate s;
     Settlement_HandoverProtocolRef := Settlement_HandoverProtocolRef s;
     Settlement_ClaimItems := Settlement_ClaimItems s;
     Settlement_TotalClaimed := Settlement_TotalClaimed s;
     Settlement_ProposedTenantRefund := Settlement_ProposedTenantRefund s;
     Settlement_ProposedLandlordRetention := Settlement_ProposedLandlordRetention s;
     Settlement_ResponseDeadline := Settlement_ResponseDeadline s;
     Settlement_EscalationType := typ;
     Settlement_ExternalAuthority := auth;
     Settlement_ExternalReference := ref;
     Settlement_AgreedTenantRefund := Settlement_AgreedTenantRefund s;
     Settlement_AgreedLandlordRetention := Settlement_AgreedLandlordRetention s |}.

(** The four fields [UtilitySettle] assigns through [d.UtilityReservation]. *)
Definition set_Resolution (ref : string) (cost paid : float64) (at_ : string)
    (u : UtilityReservation) : UtilityReservation :=
  {| UtilityReservation_ReleasedAmount := UtilityReservation_ReleasedAmount u;
     UtilityReservation_ReservedAmount := UtilityReservation_ReservedAmount u;
     UtilityReservation_MonthlyAdvance := UtilityReservation_MonthlyAdvance u;
     UtilityReservation_BillingPeriodEnd := UtilityReservation_BillingPeriodEnd u;
     UtilityReservation_ResolutionDeadline := UtilityReservation_ResolutionDeadline u;
     UtilityReservation_SettlementRef := ref;
     UtilityReservation_ActualCost := cost;
     UtilityReservation_TotalAdvancePaid := paid;
     UtilityReservation_ResolvedAt := at_ |}.
