(* ===== verification/Statemachine.v ===== *)
(** * The lifecycle state machine: [internal/statemachine/transitions.go]

    The transition table, [CanTransition], [Transition] and
    [StateForIdentityUpdate]; then the graph theory of the table: which pairs
    are allowed, that lifecycles are finite, that [CLOSED] is the only dead
    end and can always be reached. *)

From S2P Require Import Prelude Models.

Local Open Scope Z_scope.

(** [var validTransitions]. *)
Definition validTransitions : gmap LifecycleState (list LifecycleState) :=
  list_to_map
    [(StateRequested, [StateIdentified]);
     (StateIdentified, [StateFunded; StatePledged]);
     (StateFunded, [StatePledged; StateSettleProposed]);
     (StatePledged, [StateReleased; StateClaimed; StateSettleProposed;
                     StatePartiallyReleased]);
     (StateClaimed, [StateReleased]);
     (StateReleased, [StateClosed]);
     (StatePartiallyReleased, [StateSettleProposed; StateClosed]);
     (StateSettleProposed, [StateClosed; StateDisputed]);
     (StateDisputed, [StateClosed]);
     (StateClosed, [])].

Record ErrInvalidTransition := { From : LifecycleState; To : LifecycleState }.

(** [func (e *ErrInvalidTransition) Error() string]. *)
Definition ErrInvalidTransition_Error (e : ErrInvalidTransition) : string :=
  "transition from " +:+ From e +:+ " to " +:+ To e +:+ " is not allowed".

Definition CanTransition (from to : LifecycleState) : bool :=
  match validTransitions !! from with
  | None => false
  | Some targets => existsb (fun t => String.eqb t to) targets
  end.

Definition Transition (current next : LifecycleState) :
    LifecycleState * option ErrInvalidTransition :=
  if negb (CanTransition current next)
  then (current, Some {| From := current; To := next |})
  else (next, None).

Definition StateForIdentityUpdate (eidStatus : EIDStatus) : LifecycleState * bool :=
  if String.eqb eidStatus EIDVerified then (StateIdentified, true) else ("", false).

(** ** The table as a list of pairs *)

Definition transition_pairs : list (LifecycleState * LifecycleState) :=
  '(s, l) ← map_to_list validTransitions; t ← l; [(s, t)].

Definition all_states : list LifecycleState := (map_to_list validTransitions).*1.

Lemma can_transition_pairs from to :
  CanTransition from to = true <-> (from, to) ∈ transition_pairs.
Proof.
  unfold CanTransition, transition_pairs. split.
  - destruct (validTransitions !! from) as [l|] eqn:E; [|done].
    intros (t & Ht & ->%String.eqb_eq)%existsb_exists.
    apply list_elem_of_bind. exists (from, l). split.
    + apply list_elem_of_bind. exists to. split; [by left|]. by apply list_elem_of_In.
    + by apply elem_of_map_to_list.
  - intros ([s l] & Hin & Hl)%list_elem_of_bind.
    apply list_elem_of_bind in Hin as (t & Hin%list_elem_of_singleton & Ht).
    injection Hin as -> ->. apply elem_of_map_to_list in Hl as ->.
    apply existsb_exists. exists t. split; [by apply list_elem_of_In|].
    by apply String.eqb_eq.
Qed.

(** To check a property of every allowed transition it is enough to compute it
    on the table. *)
Lemma transitions_checked (P : LifecycleState -> LifecycleState -> bool) from to :
  forallb (fun '(s, t) => P s t) transition_pairs = true ->
  CanTransition from to = true -> P from to = true.
Proof.
  rewrite forallb_forall. intros H Hc%can_transition_pairs.
  apply list_elem_of_In in Hc. exact (H _ Hc).
Qed.

Lemma Transition_spec current next :
  Transition current next =
  if CanTransition current next then (next, None)
  else (current, Some {| From := current; To := next |}).
Proof. unfold Transition. by destruct (CanTransition current next). Qed.

(** ** Paths through the table *)

Fixpoint path (s : LifecycleState) (l : list LifecycleState) : Prop :=
  match l with
  | [] => True
  | t :: l' => CanTransition s t = true /\ path t l'
  end.

(** The number of transitions a deposit may still make. *)
Definition rank (s : LifecycleState) : nat :=
  if String.eqb s StateRequested then 7 else
  if String.eqb s StateIdentified then 6 else
  if String.eqb s StateFunded then 5 else
  if String.eqb s StatePledged then 4 else
  if String.eqb s StatePartiallyReleased then 3 else
  if String.eqb s StateSettleProposed then 2 else
  if String.eqb s StateClaimed then 2 else
  if String.eqb s StateReleased then 1 else
  if String.eqb s StateDisputed then 1 else 0.

Lemma rank_decreases from to :
  CanTransition from to = true -> (rank to < rank from)%nat.
Proof.
  intros H. apply Nat.ltb_lt. revert H.
  by apply (transitions_checked (fun s t => (rank t <? rank s)%nat)).
Qed.

Lemma rank_bound s : (rank s <= 7)%nat.
Proof. unfold rank. repeat case_match; lia. Qed.

Lemma path_length s l : path s l -> (length l <= rank s)%nat.
Proof.
  revert s. induction l as [|t l IH]; intros s; cbn; [lia|].
  intros [Ht%rank_decreases Hl%IH]. lia.
Qed.

Lemma path_app s l1 l2 t :
  path s (l1 ++ [t]) -> path t l2 -> path s (l1 ++ t :: l2).
Proof.
  revert s. induction l1 as [|u l1 IH]; intros s; cbn.
  - by intros [? _].
  - intros [? ?] ?. split; [done|]. by apply IH.
Qed.

(** A path to [CLOSED], computed by always taking the first allowed target
    that leads there within the fuel. *)
Fixpoint close_path (fuel : nat) (s : LifecycleState) : option (list LifecycleState) :=
  if String.eqb s StateClosed then Some [] else
  match fuel with
  | O => None
  | S fuel =>
      match validTransitions !! s with
      | Some (t :: _) => (fun l => t :: l) <$> close_path fuel t
      | _ => None
      end
  end.

Lemma close_path_sound fuel s l :
  close_path fuel s = Some l -> path s l /\ List.last l s = StateClosed.
Proof.
  revert s l. induction fuel as [|fuel IH]; intros s l; cbn [close_path];
    (case_match eqn:E; [apply String.eqb_eq in E as ->; by intros [= <-]|]); [done|].
  destruct (validTransitions !! s) as [[|t ts]|] eqn:Et; [done| |done].
  intros (l' & [Hp Hl]%IH & ->)%fmap_Some.
  split.
  - split; [|done]. unfold CanTransition. rewrite Et. cbn.
    by rewrite (proj2 (String.eqb_eq t t) eq_refl).
  - by rewrite list_last_cons.
Qed.

Lemma close_path_complete s :
  s ∈ all_states -> is_Some (close_path 7 s).
Proof.
  assert (forallb (fun s => bool_decide (is_Some (close_path 7 s))) all_states = true)
    as H by by vm_compute.
  rewrite forallb_forall in H. intros Hs%list_elem_of_In%H.
  by apply bool_decide_eq_true in Hs.
Qed.

Lemma path_from_closed l : path StateClosed l -> l = [].
Proof. intros H%path_length. cbn in H. destruct l; [done|cbn in H; lia]. Qed.

(** ** Property *)

(** C36: the transition table has no cycle and no dead end: from every state every walk has at
    most 7 steps, some walk reaches CLOSED, and CLOSED is the only state without a successor. *)
Theorem lifecycle_bounded_and_closable s :
  s ∈ all_states ->
  (forall l, path s l -> (length l <= 7)%nat) /\
  (exists l, path s l /\ List.last l s = StateClosed) /\
  ((forall t, CanTransition s t = false) <-> s = StateClosed).
Proof.
  intros Hs. split; [|split].
  - intros l Hl%path_length. pose proof (rank_bound s). lia.
  - destruct (close_path_complete s Hs) as [l Hl]. exists l. by apply close_path_sound in Hl.
  - split; [|by intros -> t].
    intros Hdead. destruct (close_path_complete s Hs) as [[|t l] Hl%close_path_sound].
    + by destruct Hl.
    + destruct Hl as [[Ht _] _]. by rewrite Hdead in Ht.
Qed.
