(* ===== verification/Fmt.v ===== *)
(** * Go's [fmt] verbs used by the server: %d, %.2f and %.2g

    Decimal rendering of a binary64 value is exact rounding, ties to even, of
    its exact (dyadic) value, as [strconv.FormatFloat] does it. *)

From Stdlib Require Import Floats.SpecFloat.
From S2P Require Import Prelude Float64 Calendar.

Local Open Scope Z_scope.

(** [%d]. *)
Definition fmt_d (n : Z) : string := pretty n.

(** Rounding of [num/den] to the nearest integer, ties to even. *)
Definition rne_ratio (num den : Z) : Z :=
  let q := num / den in
  match 2 * (num mod den) ?= den with
  | Lt => q
  | Gt => q + 1
  | Eq => if Z.even q then q else q + 1
  end.

(** Numerator and denominator of [m * 2^e]. *)
Definition dyadic_num (m : positive) (e : Z) : Z := Zpos m * 2 ^ Z.max e 0.
Definition dyadic_den (e : Z) : Z := 2 ^ Z.max (- e) 0.

Definition sign_str (s : bool) : string := if s then "-" else "".

(** [%.2f]. *)
Definition fmt_f2 (x : float64) : string :=
  match x with
  | S754_nan => "NaN"
  | S754_infinity s => if s then "-Inf" else "+Inf"
  | S754_zero s => sign_str s +:+ "0.00"
  | S754_finite s m e =>
      let c := rne_ratio (dyadic_num m e * 100) (dyadic_den e) in
      sign_str s +:+ fmt_d (c / 100) +:+ "." +:+ pad2 (c mod 100) ""
  end.

(** The decimal exponent [x] of [num/den]: [10^x <= num/den < 10^(x+1)],
    searched upwards from [x]. *)
Fixpoint dec_exp (fuel : nat) (num den x : Z) : Z :=
  match fuel with
  | O => x
  | S fuel =>
      if num * 10 ^ Z.max (- (x + 1)) 0 <? den * 10 ^ Z.max (x + 1) 0
      then x else dec_exp fuel num den (x + 1)
  end.

(** Two significant digits [q] of [num/den] and the exponent [x]. *)
Definition two_sig (num den : Z) : Z * Z :=
  let x := dec_exp 640 num den (-324) in
  let q := rne_ratio (num * 10 ^ Z.max (1 - x) 0) (den * 10 ^ Z.max (x - 1) 0) in
  if q =? 100 then (10, x + 1) else (q, x).

Fixpoint zeros (n : nat) (k : string) : string :=
  match n with O => k | S n => "0" +:+ zeros n k end.

(** [%.2g]: [strconv]'s %e form when the exponent is below -4 or not below the
    number of digits, else its %f form; trailing zeros are dropped. *)
Definition fmt_g2 (x : float64) : string :=
  match x with
  | S754_nan => "NaN"
  | S754_infinity s => if s then "-Inf" else "+Inf"
  | S754_zero s => sign_str s +:+ "0"
  | S754_finite s m e =>
      let '(q, ex) := two_sig (dyadic_num m e) (dyadic_den e) in
      let nd := if q mod 10 =? 0 then 1 else 2 in
      let d1 := fmt_d (q / 10) in
      let d2 := if nd =? 1 then "" else fmt_d (q mod 10) in
      let eprec := if (nd =? 1) && (ex + 1 <=? 1) then 1 else 2 in
      sign_str s +:+
      (if (ex <? -4) || (eprec <=? ex)
       then d1 +:+ (if nd =? 1 then "" else "." +:+ d2) +:+ "e" +:+
            (if ex <? 0 then "-" else "+") +:+
            (if Z.abs ex <? 10 then "0" else "") +:+ fmt_d (Z.abs ex)
       else if ex <? 0 then "0." +:+ zeros (Z.to_nat (- ex - 1)) (d1 +:+ d2)
       else if ex =? 0 then d1 +:+ (if nd =? 1 then "" else "." +:+ d2)
       else fmt_d q)
  end.

Example fmt_f2_ex1 : fmt_f2 (f64_of_dec 123456 2) = "1234.56".
Proof. by vm_compute. Qed.
Example fmt_f2_ex2 : fmt_f2 (f64_of_dec 1005 3) = "1.00".
Proof. by vm_compute. Qed.
Example fmt_g2_ex1 : fmt_g2 (f64_of_Z 3) = "3".
Proof. by vm_compute. Qed.
Example fmt_g2_ex2 : fmt_g2 (f64_of_dec 115 2) = "1.1".
Proof. by vm_compute. Qed.

(** ** Rounding error *)

Lemma rne_ratio_error num den :
  0 < den -> 2 * Z.abs (den * rne_ratio num den - num) <= den.
Proof.
  intros Hd. unfold rne_ratio.
  pose proof (Z.div_mod num den ltac:(lia)).
  pose proof (Z.mod_pos_bound num den Hd).
  destruct (Z.compare_spec (2 * (num mod den)) den); repeat case_match; nia.
Qed.
