(* ===== verification/Decimal.v ===== *)
(** * Floats as decimal text: [strconv.ParseFloat], [strconv.AppendFloat(x, fmt, -1, 64)]

    A decimal [c * 10^e] reads as the nearest binary64, ties to even, whatever
    its length.  A float is written with the fewest digits that read back; that
    seventeen are always enough is the theorem behind it.  Text is a list of
    bytes. *)

From Stdlib Require Import Floats.SpecFloat.
From S2P Require Import Prelude Float64 Calendar Fmt.

Local Open Scope Z_scope.

(** ** Reading *)

(** The float nearest to [a/b]: the quotient in units of 2^-1074, rounded to 53
    significant bits. *)
Definition f64_of_ratio (s : bool) (a b : Z) : float64 :=
  let n := a * 2 ^ 1074 in
  let k := rnd_exp (n / b) in
  let v := rne_ratio n (b * 2 ^ k) * 2 ^ k in
  if v =? 0 then S754_zero s else round_result s v.

(** The float of the decimal [c * 10^e]. *)
Definition read_dec (s : bool) (c e : Z) : float64 :=
  f64_of_ratio s (c * 10 ^ Z.max 0 e) (10 ^ Z.max 0 (- e)).

(** ** Writing *)

(** Trailing zeros of the digits move to the exponent. *)
Fixpoint trim (fuel : nat) (c e : Z) : Z * Z :=
  match fuel with
  | O => (c, e)
  | S fuel => if c mod 10 =? 0 then trim fuel (c / 10) (e + 1) else (c, e)
  end.

Definition reads_as (x : float64) (s : bool) (c e : Z) : bool :=
  bool_decide (read_dec s c e = x).

(** With [n] digits: the nearest decimal, or its neighbour on the other side of
    the float, if it reads back. *)
Definition with_digits (x : float64) (s : bool) (num den ex : Z) (n : Z) : option (Z * Z) :=
  let e := ex - (n - 1) in
  let a := num * 10 ^ Z.max 0 (- e) in
  let b := den * 10 ^ Z.max 0 e in
  let c := rne_ratio a b in
  let c' := if c =? a / b then c + 1 else a / b in
  if reads_as x s c e then Some (c, e)
  else if reads_as x s c' e then Some (c', e) else None.

(** The fewest digits that read back, at most 17. *)
Fixpoint fewest (f : Z -> option (Z * Z)) (counts : list Z) : Z * Z :=
  match counts with
  | [] => (0, 0)
  | n :: counts => match f n with Some d => d | None => fewest f counts end
  end.
Definition digit_counts : list Z := [1; 2; 3; 4; 5; 6; 7; 8; 9; 10; 11; 12; 13; 14; 15; 16; 17].

(** A power of ten not above [2^k], and the decimal exponent of [num/den],
    searched upwards from there. *)
Definition ten_below (k : Z) : Z := if 0 <=? k then 3 * k / 10 else - ((12 - 4 * k) / 13).
Definition decimal_exponent (num den : Z) : Z :=
  dec_exp 12 num den (ten_below (Z.log2 num - Z.log2 den - 1)).

Definition shortest (s : bool) (m : positive) (e : Z) : Z * Z :=
  let num := dyadic_num m e in
  let den := dyadic_den e in
  let ex := decimal_exponent num den in
  let '(c, e') := fewest (with_digits (S754_finite s m e) s num den ex) digit_counts in
  trim 17 c e'.

(** Decimal digits, as bytes: of a given number, and as many as needed. *)
Fixpoint fixed (k : nat) (n : Z) : list Z :=
  match k with O => [] | S k => fixed k (n / 10) ++ [48 + n mod 10] end.

Fixpoint digit_count (fuel : nat) (n : Z) : nat :=
  match fuel with
  | O => 1
  | S fuel => if n <? 10 then 1 else S (digit_count fuel (n / 10))
  end.
Definition ndigits (n : Z) : nat := digit_count (Z.to_nat (Z.log2 n)) n.
Definition dec (n : Z) : list Z := fixed (ndigits n) n.

Definition minus (s : bool) : list Z := if s then [45] else [].

(** The %f and %e forms; the exponent has no leading zero. *)
Definition plain (c e : Z) : list Z :=
  if 0 <=? e then dec (c * 10 ^ e)
  else dec (c / 10 ^ (- e)) ++ 46 :: fixed (Z.to_nat (- e)) (c mod 10 ^ (- e)).

Definition scientific (c e : Z) : list Z :=
  let k := (ndigits c - 1)%nat in
  let p := 10 ^ Z.of_nat k in
  let x := e + Z.of_nat k in
  fixed 1 (c / p) ++ (if Nat.eqb k 0 then [] else 46 :: fixed k (c mod p)) ++
  101 :: (if x <? 0 then 45 else 43) :: dec (Z.abs x).

Definition use_scientific (m : positive) (e : Z) : bool :=
  let x := S754_finite false m e in
  f64_lt x (f64_of_dec 1 6) || f64_le (f64_of_Z (10 ^ 21)) x.

(** What [encoding/json] writes for a float. *)
Definition float_text (x : float64) : list Z :=
  match x with
  | S754_zero s => minus s ++ [48]
  | S754_finite s m e =>
      let '(c, e') := shortest s m e in
      minus s ++ (if use_scientific m e then scientific c e' else plain c e')
  | _ => []
  end.

Definition int_text (n : Z) : list Z := minus (n <? 0) ++ dec (Z.abs n).

(** ** Reading a literal *)

Definition digit_of (b : Z) : option Z :=
  if (48 <=? b) && (b <=? 57) then Some (b - 48) else None.

(** Digits appended to [acc], how many, and the rest. *)
Fixpoint read_digits (acc : Z) (l : list Z) : Z * nat * list Z :=
  match l with
  | [] => (acc, O, [])
  | b :: l' =>
      match digit_of b with
      | Some d => let '(v, k, r) := read_digits (acc * 10 + d) l' in (v, S k, r)
      | None => (acc, O, l)
      end
  end.

(** The integer part has no leading zero. *)
Definition read_whole (l : list Z) : option (Z * list Z) :=
  match l with
  | [] => None
  | b :: l' =>
      if b =? 48 then Some (0, l')
      else
        match digit_of b with
        | Some _ => let '(v, _, r) := read_digits 0 l in Some (v, r)
        | None => None
        end
  end.

(** Digits and exponent after an optional fraction. *)
Definition read_fraction (c : Z) (l : list Z) : option (Z * Z * list Z) :=
  match l with
  | [] => Some (c, 0, l)
  | b :: l' =>
      if b =? 46 then
        let '(v, k, r) := read_digits c l' in
        match k with O => None | _ => Some (v, - Z.of_nat k, r) end
      else Some (c, 0, l)
  end.

(** An optional exponent. *)
Definition read_sign (l : list Z) : bool * list Z :=
  match l with
  | [] => (false, l)
  | b :: l' => if b =? 45 then (true, l') else if b =? 43 then (false, l') else (false, l)
  end.
Definition read_exponent (l : list Z) : option (option Z * list Z) :=
  match l with
  | [] => Some (None, l)
  | b :: l' =>
      if (b =? 101) || (b =? 69) then
        let '(neg, l'') := read_sign l' in
        let '(v, k, r) := read_digits 0 l'' in
        match k with O => None | _ => Some (Some (if neg then - v else v), r) end
      else Some (None, l)
  end.

(** A literal is an integer (no fraction, no exponent, not -0) or a decimal. *)
Inductive literal := Whole (n : Z) | Dec (s : bool) (c e : Z).

Definition read_unsigned (s : bool) (l : list Z) : option (literal * list Z) :=
  '(c, r1) ← read_whole l;
  '(c', e, r2) ← read_fraction c r1;
  '(x, r3) ← read_exponent r2;
  Some (if (e =? 0) && negb (bool_decide (is_Some x)) && negb (s && (c' =? 0))
        then Whole (if s then - c' else c')
        else Dec s c' (e + default 0 x), r3).
Definition read_literal (l : list Z) : option (literal * list Z) :=
  match l with
  | [] => None
  | b :: l' => if b =? 45 then read_unsigned true l' else read_unsigned false l
  end.

Definition literal_float (t : literal) : float64 :=
  match t with
  | Whole n => read_dec (n <? 0) (Z.abs n) 0
  | Dec s c e => read_dec s c e
  end.

(** The literal that a text of [float_text] is. *)
Definition whole (s : bool) (n : Z) : literal :=
  if s && (n =? 0) then Dec s 0 0 else Whole (if s then - n else n).
Definition plain_literal (s : bool) (c e : Z) : literal :=
  if 0 <=? e then whole s (c * 10 ^ e) else Dec s c e.
Definition float_literal (x : float64) : literal :=
  match x with
  | S754_finite s m e =>
      let '(c, e') := shortest s m e in
      if use_scientific m e then Dec s c e' else plain_literal s c e'
  | S754_zero s => whole s 0
  | _ => Whole 0
  end.

(** ** Rounding of ratios *)

Lemma rne_ratio_scale a b c : 0 < b -> 0 < c -> rne_ratio (a * c) (b * c) = rne_ratio a b.
Proof.
  intros Hb Hc. unfold rne_ratio.
  rewrite Z.div_mul_cancel_r, Zmult_mod_distr_r, Z.mul_assoc by lia.
  by rewrite <-Zmult_compare_compat_r by lia.
Qed.

Lemma f64_of_ratio_scale s a b c :
  0 < b -> 0 < c -> f64_of_ratio s (a * c) (b * c) = f64_of_ratio s a b.
Proof.
  intros Hb Hc. unfold f64_of_ratio.
  replace (a * c * 2 ^ 1074) with (a * 2 ^ 1074 * c) by lia.
  rewrite Z.div_mul_cancel_r by lia.
  set (k := rnd_exp (a * 2 ^ 1074 / b)). assert (0 <= k) by (unfold k, rnd_exp; lia).
  pose proof (pow2_pos k ltac:(done)).
  replace (b * c * 2 ^ k) with (b * 2 ^ k * c) by lia. by rewrite rne_ratio_scale by lia.
Qed.

Lemma ten_pos k : 0 < 10 ^ Z.max 0 k.
Proof. apply Z.pow_pos_nonneg; lia. Qed.

Lemma read_dec_ten s c e : read_dec s (c * 10) e = read_dec s c (e + 1).
Proof.
  unfold read_dec. destruct (Z.le_gt_cases 0 e) as [He|He].
  - replace (Z.max 0 (e + 1)) with (e + 1) by lia. replace (Z.max 0 e) with e by lia.
    replace (Z.max 0 (- e)) with 0 by lia. replace (Z.max 0 (- (e + 1))) with 0 by lia.
    rewrite (Z.pow_add_r 10 e 1) by lia. f_equal; lia.
  - replace (Z.max 0 (e + 1)) with 0 by lia. replace (Z.max 0 e) with 0 by lia.
    replace (Z.max 0 (- e)) with (- (e + 1) + 1) by lia.
    replace (Z.max 0 (- (e + 1))) with (- (e + 1)) by lia.
    rewrite (Z.pow_add_r 10 _ 1), !Z.mul_1_r by lia.
    apply f64_of_ratio_scale; [apply Z.pow_pos_nonneg|]; lia.
Qed.

Lemma trim_reads s fuel c e :
  0 <= c -> let '(c', e') := trim fuel c e in read_dec s c' e' = read_dec s c e /\ 0 <= c'.
Proof.
  revert c e. induction fuel as [|fuel IH]; intros c e Hc; cbn [trim]; [done|].
  destruct (Z.eqb_spec (c mod 10) 0); [|done].
  specialize (IH (c / 10) (e + 1) ltac:(dlia)). destruct (trim _ _ _) as [c' e'].
  destruct IH as [-> ?]. split; [|done]. rewrite <-read_dec_ten. f_equal. dlia.
Qed.

(** A ratio within a relative 2^-54 of a float rounds to it. *)
Lemma rne_ratio_near a b c : 0 < b -> 2 * Z.abs (a - c * b) < b -> rne_ratio a b = c.
Proof.
  intros Hb Hn. pose proof (rne_ratio_error a b Hb) as He. set (r := rne_ratio a b) in *.
  assert (b * Z.abs (r - c) < b) as Hr; [|nia].
  rewrite <-(Z.abs_eq b) at 1 by lia. rewrite <-Z.abs_mul. lia.
Qed.

Lemma round_result_canon s m e :
  canon (Zpos m) e -> e <= 971 -> round_result s (Zpos m * 2 ^ (e + 1074)) = S754_finite s m e.
Proof.
  intros Hc He. pose proof (canon_log2 _ _ Hc) as Hl. destruct Hc as (Hm & Hlo & _).
  unfold round_result, rnd_me, rnd_exp. rewrite log2_shift by lia.
  replace (Z.max 0 _) with (e + 1074) by lia. rewrite rne_div_exact by lia.
  destruct (Z.eqb_spec (Zpos m) (2 ^ 53)); [lia|].
  replace (e + 1074 - 1074) with e by lia. by rewrite (proj2 (Z.leb_le _ _)).
Qed.

Lemma rnd_exp_of_log n k : 0 < n -> Z.log2 n = 52 + k -> 0 <= k -> rnd_exp n = k.
Proof. intros. unfold rnd_exp. lia. Qed.

Lemma log2_between n k : 0 <= k -> 2 ^ k <= n < 2 ^ (k + 1) -> Z.log2 n = k.
Proof. intros. apply Z.log2_unique; [done|]. by rewrite <-Z.add_1_r. Qed.

(** The rounding unit of a ratio close to [m * u], [u] a power of two. *)
Lemma near_unit n b m k :
  0 < b -> 0 < m < 2 ^ 53 -> 0 <= k -> (k = 0 \/ 2 ^ 52 <= m) ->
  2 ^ 54 * Z.abs (n - m * 2 ^ k * b) < m * 2 ^ k * b ->
  rne_ratio n (b * 2 ^ rnd_exp (n / b)) * 2 ^ rnd_exp (n / b) = m * 2 ^ k.
Proof.
  intros Hb Hm Hk Hor Hn. pose proof (pow2_pos k Hk) as Hu.
  set (u := 2 ^ k) in *. set (q := n / b).
  set (w := u * b). assert (0 < w) as Hw by (unfold w; lia).
  replace (m * u * b) with (m * w) in * by (unfold w; lia).
  assert (m * w <= (2 ^ 53 - 1) * w) as Hmw by (apply Z.mul_le_mono_nonneg_r; lia).
  assert (n = b * q + n mod b /\ 0 <= n mod b < b) as [Hq Hr]
    by (unfold q; pose proof (Z.mod_pos_bound n b Hb); pose proof (Z.div_mod n b); lia).
  assert (q < 2 ^ 53 * u) as Hhi.
  { apply Z.div_lt_upper_bound; [done|]. replace (b * (2 ^ 53 * u)) with (2 ^ 53 * w)
      by (unfold w; lia). lia. }
  destruct (Z.le_gt_cases (2 ^ 52 * u) q) as [Hlo|Hlo].
  - assert (rnd_exp q = k) as ->.
    { apply rnd_exp_of_log; [lia| |done]. apply log2_between; [lia|].
      replace (52 + k + 1) with (53 + k) by lia. rewrite !Z.pow_add_r by lia. by fold u. }
    fold u. f_equal. apply rne_ratio_near; [lia|].
    replace (b * u) with w by (unfold w; lia). lia.
  - destruct (Z.eq_dec k 0) as [->|Hk0].
    + subst u. unfold w in *. rewrite Z.pow_0_r, Z.mul_1_l in *.
      assert (rnd_exp q = 0) as ->.
      { unfold rnd_exp. destruct (Z.le_gt_cases q 0) as [H0|H0].
        - by rewrite Z.log2_nonpos by lia.
        - pose proof (log2_lt_pow q 52 H0 ltac:(lia)). lia. }
      rewrite Z.pow_0_r, !Z.mul_1_r. apply rne_ratio_near; lia.
    + destruct Hor as [|Hm2]; [lia|].
      assert (n < 2 ^ 52 * w) as Hn52.
      { assert (b * (q + 1) <= b * (2 ^ 52 * u)) by (apply Z.mul_le_mono_nonneg_l; lia).
        replace (b * (2 ^ 52 * u)) with (2 ^ 52 * w) in * by (unfold w; lia). lia. }
      assert (m = 2 ^ 52) as ->.
      { destruct (Z.eq_dec m (2 ^ 52)) as [|Hne]; [done|].
        assert ((2 ^ 52 + 1) * w <= m * w) by (apply Z.mul_le_mono_nonneg_r; lia). lia. }
      assert (u = 2 * 2 ^ (k - 1)) as Hu2.
      { unfold u. rewrite <-(Z.pow_succ_r 2) by lia. f_equal. lia. }
      pose proof (pow2_pos (k - 1) ltac:(lia)) as Hv.
      set (v := 2 ^ (k - 1)) in *. assert (w = 2 * (b * v)) as Hwv by (unfold w; lia).
      assert (rnd_exp q = k - 1) as ->.
      { assert (2 ^ 51 * u <= q).
        { apply Z.div_le_lower_bound; [done|].
          replace (b * (2 ^ 51 * u)) with (2 ^ 51 * w) by (unfold w; lia). lia. }
        apply rnd_exp_of_log; [lia| |lia]. apply log2_between; [lia|].
        replace (52 + (k - 1)) with (51 + k) by lia. replace (51 + k + 1) with (52 + k) by lia.
        rewrite !Z.pow_add_r by lia. by fold u. }
      fold v. rewrite (rne_ratio_near n (b * v) (2 ^ 53)); lia.
Qed.

Lemma reads_near s m e a b :
  canon (Zpos m) e -> e <= 971 -> 0 < b ->
  2 ^ 54 * Z.abs (a * 2 ^ 1074 - Zpos m * 2 ^ (e + 1074) * b) < Zpos m * 2 ^ (e + 1074) * b ->
  f64_of_ratio s a b = S754_finite s m e.
Proof.
  intros Hc He Hb Hn. pose proof Hc as (Hm & Hlo & Hor). unfold f64_of_ratio.
  rewrite (near_unit _ b (Zpos m) (e + 1074)) by (done || lia).
  pose proof (pow2_pos (e + 1074) ltac:(lia)).
  destruct (Z.eqb_spec (Zpos m * 2 ^ (e + 1074)) 0); [nia|]. by apply round_result_canon.
Qed.

(** ** The decimal exponent *)

(** [10^x <= num/den], [num/den < 10^x]. *)
Definition at_least (num den x : Z) : Prop := den * 10 ^ Z.max x 0 <= num * 10 ^ Z.max (- x) 0.
Definition less_than (num den x : Z) : Prop := num * 10 ^ Z.max (- x) 0 < den * 10 ^ Z.max x 0.

Lemma dec_exp_at_least fuel num den x :
  at_least num den x -> at_least num den (dec_exp fuel num den x).
Proof.
  revert x. induction fuel as [|fuel IH]; intros x Hx; cbn [dec_exp]; [done|].
  destruct (Z.ltb_spec (num * 10 ^ Z.max (- (x + 1)) 0) (den * 10 ^ Z.max (x + 1) 0)); [done|].
  by apply IH.
Qed.

Lemma dec_exp_less_than fuel num den x :
  at_least num den x -> less_than num den (x + Z.of_nat fuel) ->
  less_than num den (dec_exp fuel num den x + 1).
Proof.
  revert x. induction fuel as [|fuel IH]; intros x Hx Hlt; cbn [dec_exp].
  - rewrite Z.add_0_r in Hlt. unfold at_least, less_than in *. lia.
  - destruct (Z.ltb_spec (num * 10 ^ Z.max (- (x + 1)) 0) (den * 10 ^ Z.max (x + 1) 0)); [done|].
    apply IH; [done|]. by replace (x + 1 + Z.of_nat fuel) with (x + Z.of_nat (S fuel)) by lia.
Qed.

(** [10^3 <= 2^10] and [2^13 <= 10^4]. *)
Lemma ten_le_two x y : 0 <= x -> 10 * x <= 3 * y -> 10 ^ x <= 2 ^ y.
Proof.
  intros Hx Hxy. apply (Z.pow_le_mono_l_iff _ _ 10); [lia|apply Z.pow_nonneg; lia|lia|].
  rewrite <-!Z.pow_mul_r by lia. rewrite (Z.mul_comm y), (Z.pow_mul_r 2) by lia.
  etrans; [apply (Z.pow_le_mono_r _ _ (3 * y)); lia|]. rewrite Z.pow_mul_r by lia.
  apply Z.pow_le_mono_l. lia.
Qed.

Lemma two_le_ten x y : 0 <= y -> 4 * y <= 13 * x -> 2 ^ y <= 10 ^ x.
Proof.
  intros Hy Hxy. apply (Z.pow_le_mono_l_iff _ _ 13); [lia|apply Z.pow_nonneg; lia|lia|].
  rewrite <-!Z.pow_mul_r by lia. rewrite (Z.mul_comm y), (Z.pow_mul_r 2) by lia.
  etrans; [|apply (Z.pow_le_mono_r _ (4 * y)); lia]. rewrite (Z.pow_mul_r 10) by lia.
  apply Z.pow_le_mono_l. lia.
Qed.

(** The bounds around [2^k], for the exponents that occur. *)
Definition brackets (k t : Z) : Prop :=
  10 ^ Z.max t 0 * 2 ^ 1100 <= 2 ^ (k + 1100) * 10 ^ Z.max (- t) 0 /\
  2 ^ (k + 1102) * 10 ^ Z.max (- (t + 12)) 0 <= 10 ^ Z.max (t + 12) 0 * 2 ^ 1100.

Lemma ten_below_brackets k : -1080 <= k < 1030 -> brackets k (ten_below k).
Proof.
  intros Hk. unfold brackets, ten_below. destruct (Z.leb_spec 0 k) as [H0|H0].
  - set (t := 3 * k / 10). assert (0 <= t) by (unfold t; dlia).
    replace (Z.max t 0) with t by lia. replace (Z.max (- t) 0) with 0 by lia.
    replace (Z.max (- (t + 12)) 0) with 0 by lia. replace (Z.max (t + 12) 0) with (t + 12) by lia.
    rewrite Z.pow_0_r, !Z.mul_1_r. split.
    + rewrite Z.pow_add_r by lia. apply Z.mul_le_mono_nonneg_r; [by apply Z.pow_nonneg|].
      apply ten_le_two; unfold t; dlia.
    + replace (k + 1102) with (k + 2 + 1100) by lia. rewrite (Z.pow_add_r 2 (k + 2)) by lia.
      apply Z.mul_le_mono_nonneg_r; [by apply Z.pow_nonneg|]. apply two_le_ten; unfold t; dlia.
  - set (j := (12 - 4 * k) / 13). assert (0 < j) by (unfold j; dlia).
    replace (Z.max (- j) 0) with 0 by lia. rewrite Z.opp_involutive.
    replace (Z.max j 0) with j by lia. rewrite Z.pow_0_r, Z.mul_1_l. split.
    + replace 1100 with (- k + (k + 1100)) at 1 by lia. rewrite Z.pow_add_r by lia.
      rewrite Z.mul_comm. apply Z.mul_le_mono_nonneg_l; [apply Z.pow_nonneg; lia|].
      apply two_le_ten; unfold j; dlia.
    + destruct (Z.le_gt_cases j 12) as [Hj|Hj].
      * replace (Z.max (- (- j + 12)) 0) with 0 by lia.
        replace (Z.max (- j + 12) 0) with (12 - j) by lia. rewrite Z.pow_0_r, Z.mul_1_r.
        destruct (Z.le_gt_cases (k + 2) 0).
        -- etrans; [apply (Z.pow_le_mono_r _ _ 1100); lia|].
           assert (0 < 10 ^ (12 - j)) by (apply Z.pow_pos_nonneg; lia).
           assert (0 < 2 ^ 1100) by by apply pow2_pos. nia.
        -- assert (k = -1) as -> by lia. change j with 1.
           change (-1 + 1102) with (1 + 1100). rewrite (Z.pow_add_r 2 1) by lia.
           apply Z.mul_le_mono_nonneg_r; [by apply Z.pow_nonneg|]. lia.
      * replace (Z.max (- (- j + 12)) 0) with (j - 12) by lia.
        replace (Z.max (- j + 12) 0) with 0 by lia. rewrite Z.pow_0_r, Z.mul_1_l.
        assert (k <= - 2) by (unfold j in Hj; dlia).
        replace 1100 with (k + 1102 + (- k - 2)) by lia. rewrite (Z.pow_add_r 2 _ (- k - 2)) by lia.
        apply Z.mul_le_mono_nonneg_l; [apply Z.pow_nonneg; lia|].
        apply ten_le_two; [lia|]. unfold j. dlia.
Qed.

Lemma pow_split b k n : 0 < b -> 0 <= n -> - n <= k ->
  b ^ Z.max k 0 * b ^ n = b ^ (k + n) * b ^ Z.max (- k) 0.
Proof. intros. rewrite <-!Z.pow_add_r by lia. f_equal. lia. Qed.

Lemma dyadic_scaled m e n : 0 <= n -> - n <= e ->
  dyadic_num m e * 2 ^ n = Zpos m * 2 ^ (e + n) * dyadic_den e.
Proof.
  intros. unfold dyadic_num, dyadic_den. rewrite <-!Z.mul_assoc. f_equal.
  apply pow_split; lia.
Qed.

Lemma dyadic_den_pos e : 0 < dyadic_den e.
Proof. apply pow2_pos. lia. Qed.

Lemma decimal_exponent_spec m e :
  canon (Zpos m) e -> e <= 971 ->
  let x := decimal_exponent (dyadic_num m e) (dyadic_den e) in
  at_least (dyadic_num m e) (dyadic_den e) x /\ less_than (dyadic_num m e) (dyadic_den e) (x + 1).
Proof.
  intros ((_ & Hm) & Hlo & _) Hhi x.
  pose proof (dyadic_den_pos e) as Hden.
  pose proof (dyadic_scaled m e 1100 ltac:(lia) ltac:(lia)) as Hs.
  pose proof (Z.log2_spec (Zpos m) ltac:(lia)) as [Hl1 Hl2].
  pose proof (log2_lt_pow (Zpos m) 53 ltac:(lia) ltac:(lia)) as Hl3.
  pose proof (Z.log2_nonneg (Zpos m)) as Hl0.
  assert (Z.log2 (dyadic_num m e) - Z.log2 (dyadic_den e) - 1 = Z.log2 (Zpos m) + e - 1) as Hk.
  { unfold dyadic_num, dyadic_den. rewrite log2_shift, Z.log2_pow2 by lia. lia. }
  unfold x, decimal_exponent. rewrite Hk. clear x Hk.
  set (k := Z.log2 (Zpos m) + e - 1) in *. set (num := dyadic_num m e) in *.
  set (den := dyadic_den e) in *.
  pose proof (ten_below_brackets k ltac:(lia)) as [Hb1 Hb2].
  set (t := ten_below k) in *.
  assert (2 ^ (k + 1100) <= Zpos m * 2 ^ (e + 1100)) as Hlow.
  { etrans; [apply (Z.pow_le_mono_r _ _ (Z.log2 (Zpos m) + (e + 1100))); lia|].
    rewrite Z.pow_add_r by lia. apply Z.mul_le_mono_nonneg_r; [|done].
    pose proof (pow2_pos (e + 1100)). lia. }
  assert (Zpos m * 2 ^ (e + 1100) < 2 ^ (k + 1102)) as Hhigh.
  { replace (k + 1102) with (Z.succ (Z.log2 (Zpos m)) + (e + 1100)) by lia.
    rewrite (Z.pow_add_r 2 (Z.succ _)) by lia. apply Z.mul_lt_mono_pos_r; [|done].
    apply pow2_pos. lia. }
  assert (forall y, 0 < 10 ^ Z.max y 0) as Hten by (intros; apply Z.pow_pos_nonneg; lia).
  assert (0 < 2 ^ 1100) as Hp by by apply pow2_pos.
  assert (at_least num den t) as Hat.
  { unfold at_least. apply (Z.mul_le_mono_pos_r _ _ (2 ^ 1100)); [done|].
    replace (num * 10 ^ Z.max (- t) 0 * 2 ^ 1100)
      with (Zpos m * 2 ^ (e + 1100) * den * 10 ^ Z.max (- t) 0) by lia.
    pose proof (Hten t). pose proof (Hten (- t)).
    generalize dependent (2 ^ (k + 1100)). intros p2. intros.
    assert (p2 * 10 ^ Z.max (- t) 0 <= Zpos m * 2 ^ (e + 1100) * 10 ^ Z.max (- t) 0)
      by (apply Z.mul_le_mono_nonneg_r; lia).
    rewrite <-Z.mul_assoc. etrans; [apply Z.mul_le_mono_nonneg_l; [lia|exact Hb1]|].
    etrans; [apply Z.mul_le_mono_nonneg_l; [lia|eassumption]|]. lia. }
  assert (less_than num den (t + Z.of_nat 12)) as Hlt.
  { change (Z.of_nat 12) with 12. unfold less_than.
    apply (Z.mul_lt_mono_pos_r (2 ^ 1100)); [done|].
    pose proof (Hten (- (t + 12))). set (q := 10 ^ Z.max (- (t + 12)) 0) in *.
    replace (num * q * 2 ^ 1100) with (den * (Zpos m * 2 ^ (e + 1100) * q)) by lia.
    rewrite <-(Z.mul_assoc den). apply Z.mul_lt_mono_pos_l; [done|].
    eapply Z.lt_le_trans; [|exact Hb2]. by apply Z.mul_lt_mono_pos_r. }
  split; [by apply dec_exp_at_least|by apply dec_exp_less_than].
Qed.

(** ** Seventeen digits are enough *)

Lemma max_comm x : Z.max 0 x = Z.max x 0.
Proof. lia. Qed.

Lemma at_least_17 num den x :
  0 < den -> at_least num den x ->
  let e := x - 16 in
  10 ^ 16 * (den * 10 ^ Z.max 0 e) <= num * 10 ^ Z.max 0 (- e).
Proof.
  unfold at_least. intros Hd Ha. cbv zeta. rewrite !max_comm.
  assert (0 < 10 ^ Z.max (- x) 0) by (apply Z.pow_pos_nonneg; lia).
  apply (Z.mul_le_mono_pos_r _ _ (10 ^ Z.max (- x) 0)); [done|].
  assert (10 ^ 16 * 10 ^ Z.max (x - 16) 0 * 10 ^ Z.max (- x) 0 =
          10 ^ Z.max x 0 * 10 ^ Z.max (- (x - 16)) 0) as He
    by (rewrite <-!Z.pow_add_r by lia; f_equal; lia).
  assert (0 < 10 ^ Z.max (- (x - 16)) 0) by (apply Z.pow_pos_nonneg; lia).
  set (a := 10 ^ Z.max (x - 16) 0) in *. set (b := 10 ^ Z.max (- x) 0) in *.
  set (c := 10 ^ Z.max (- (x - 16)) 0) in *. set (d := 10 ^ Z.max x 0) in *.
  replace (10 ^ 16 * (den * a) * b) with (den * (10 ^ 16 * a * b)) by lia. rewrite He.
  replace (num * c * b) with (num * b * c) by lia. rewrite Z.mul_assoc.
  apply Z.mul_le_mono_nonneg_r; lia.
Qed.

Lemma with_17_digits s m e x :
  canon (Zpos m) e -> e <= 971 -> at_least (dyadic_num m e) (dyadic_den e) x ->
  is_Some (with_digits (S754_finite s m e) s (dyadic_num m e) (dyadic_den e) x 17).
Proof.
  intros Hc He Hx. pose proof Hc as (_ & Hlo & _). unfold with_digits, reads_as.
  pose proof (dyadic_den_pos e) as Hden.
  pose proof (at_least_17 _ _ x Hden Hx) as Hbig. cbv zeta in Hbig.
  pose proof (dyadic_scaled m e 1074 ltac:(lia) ltac:(lia)) as Hs.
  replace (x - (17 - 1)) with (x - 16) by lia.
  assert (0 < dyadic_den e * 10 ^ Z.max 0 (x - 16)) as Hb
    by (apply Z.mul_pos_pos; [done|apply ten_pos]).
  pose proof (rne_ratio_error (dyadic_num m e * 10 ^ Z.max 0 (- (x - 16)))
    (dyadic_den e * 10 ^ Z.max 0 (x - 16)) Hb) as Herr.
  rewrite bool_decide_true; [by eexists|].
  unfold read_dec. apply reads_near; [done..|apply ten_pos|].
  set (c := rne_ratio _ _) in *. pose proof (ten_pos (x - 16)) as Hp.
  pose proof (ten_pos (- (x - 16))) as Hq.
  set (p := 10 ^ Z.max 0 (x - 16)) in *. set (q := 10 ^ Z.max 0 (- (x - 16))) in *.
  set (num := dyadic_num m e) in *. set (den := dyadic_den e) in *.
  set (v := Zpos m * 2 ^ (e + 1074)) in *. assert (0 < 2 ^ 1074) as H2 by by apply pow2_pos.
  set (w := 2 ^ 1074) in *. clearbody c p q num den v w.
  assert (v * q * den = w * (num * q)) as Hv
    by (replace (v * q * den) with (v * den * q) by lia; rewrite <-Hs; lia).
  apply (Z.mul_lt_mono_pos_r den); [done|]. rewrite Hv.
  replace (2 ^ 54 * Z.abs (c * p * w - v * q) * den)
    with (2 ^ 54 * (w * Z.abs (den * p * c - num * q))).
  - rewrite Z.mul_shuffle3. apply Z.mul_lt_mono_pos_l; [done|]. lia.
  - assert (Z.abs (c * p * w - v * q) * den = w * Z.abs (den * p * c - num * q)) as Habs; [|lia].
    transitivity (Z.abs ((c * p * w - v * q) * den)).
    + rewrite Z.abs_mul, (Z.abs_eq den); lia.
    + replace ((c * p * w - v * q) * den) with (w * (den * p * c - num * q)) by lia.
      rewrite Z.abs_mul, (Z.abs_eq w); lia.
Qed.

Lemma fewest_some (f : Z -> option (Z * Z)) counts :
  Exists (fun n => is_Some (f n)) counts -> exists n, f n = Some (fewest f counts).
Proof.
  induction counts as [|n counts IH]; intros He; [by apply Exists_nil in He|]. cbn [fewest].
  destruct (f n) as [d|] eqn:Hn; [by exists n|].
  apply IH. apply Exists_cons in He as [[d Hd]|He]; [by rewrite Hn in Hd|done].
Qed.

Lemma with_digits_reads x s num den ex n c e :
  0 <= num -> 0 < den -> with_digits x s num den ex n = Some (c, e) ->
  read_dec s c e = x /\ 0 <= c.
Proof.
  unfold with_digits, reads_as. intros Hn Hd.
  set (a := num * _). set (b := den * _).
  assert (0 < b) as Hb by (apply Z.mul_pos_pos; [done|apply ten_pos]).
  assert (0 <= a) as Ha by (apply Z.mul_nonneg_nonneg; [done|]; pose proof (ten_pos (- (ex - (n - 1)))); lia).
  assert (0 <= a / b) by (apply Z.div_pos; lia).
  assert (0 <= rne_ratio a b) by (unfold rne_ratio; repeat case_match; lia).
  case_bool_decide as H1; [intros [= <- <-]; done|].
  case_bool_decide as H2; [|done]. intros [= <- <-]. split; [done|]. case_match; lia.
Qed.

(** Written digits read back. *)
Lemma shortest_reads s m e :
  canon (Zpos m) e -> e <= 971 ->
  let '(c, x) := shortest s m e in read_dec s c x = S754_finite s m e /\ 0 <= c.
Proof.
  intros Hc He. unfold shortest.
  destruct (decimal_exponent_spec m e Hc He) as [Hx _].
  set (ex := decimal_exponent _ _) in *.
  destruct (fewest_some (with_digits (S754_finite s m e) s (dyadic_num m e) (dyadic_den e) ex)
    digit_counts) as [n Hn].
  { unfold digit_counts. do 16 apply Exists_cons_tl. apply Exists_cons_hd.
    by apply with_17_digits. }
  destruct (fewest _ _) as [c x].
  apply with_digits_reads in Hn as [Hr Hc0];
    [|unfold dyadic_num; pose proof (pow2_pos (Z.max e 0)); lia|apply dyadic_den_pos].
  pose proof (trim_reads s 17 c x Hc0) as Ht. destruct (trim 17 c x) as [c' x'].
  destruct Ht as [-> ?]. done.
Qed.

(** ** Integers read back *)

Lemma rnd_me_of_canon m e : canon m e -> rnd_me (m * 2 ^ (e + 1074)) = (m, e).
Proof.
  intros Hc. pose proof (canon_log2 _ _ Hc) as Hl. destruct Hc as (Hm & Hlo & _).
  unfold rnd_me, rnd_exp. rewrite log2_shift by lia.
  replace (Z.max 0 _) with (e + 1074) by lia. rewrite rne_div_exact by lia.
  destruct (Z.eqb_spec m (2 ^ 53)); [lia|]. f_equal; lia.
Qed.

Lemma round_result_rnd s n : 0 < n -> round_result s (rnd n) = round_result s n.
Proof.
  intros Hn. pose proof (rnd_me_canon n Hn) as Hc. unfold round_result.
  destruct (rnd_me n) as [m e]. destruct Hc as [Hc ->]. by rewrite rnd_me_of_canon.
Qed.

Lemma read_dec_integer n : read_dec (n <? 0) (Z.abs n) 0 = f64_of_Z n.
Proof.
  unfold read_dec, f64_of_ratio. rewrite Z.opp_0, Z.max_id, Z.pow_0_r, Z.mul_1_r, Z.mul_1_l.
  rewrite Z.div_1_r.
  change (rne_ratio (Z.abs n * 2 ^ 1074) (2 ^ rnd_exp (Z.abs n * 2 ^ 1074)) *
    2 ^ rnd_exp (Z.abs n * 2 ^ 1074)) with (rnd (Z.abs n * 2 ^ 1074)).
  destruct (Z.eq_dec n 0) as [->|Hn]; [done|].
  assert (0 < Z.abs n * 2 ^ 1074) as Hp by (apply Z.mul_pos_pos; [lia|by apply pow2_pos]).
  pose proof (rnd_pos _ Hp). destruct (Z.eqb_spec (rnd (Z.abs n * 2 ^ 1074)) 0); [lia|].
  rewrite round_result_rnd by done. unfold f64_of_Z.
  destruct n as [|p|p]; [done| |]; cbn [binary_normalize]; by rewrite binary_round_exact.
Qed.

(** ** Digits *)

Lemma digit_count_spec fuel n :
  0 <= n < 2 ^ Z.of_nat (S fuel) ->
  let k := digit_count fuel n in
  n < 10 ^ Z.of_nat k /\ (0 < k)%nat /\ (0 < n -> 10 ^ (Z.of_nat k - 1) <= n).
Proof.
  revert n. induction fuel as [|fuel IH]; intros n Hn; cbn [digit_count].
  - change (2 ^ Z.of_nat 1) with 2 in Hn. cbn. lia.
  - destruct (Z.ltb_spec n 10); [cbn; lia|].
    rewrite Nat2Z.inj_succ, Z.pow_succ_r in Hn by lia.
    specialize (IH (n / 10) ltac:(dlia)). cbv zeta in IH.
    set (k := digit_count fuel (n / 10)) in *.
    rewrite Nat2Z.inj_succ, Z.pow_succ_r by lia. destruct IH as (H1 & H2 & H3).
    specialize (H3 ltac:(dlia)). split; [dlia|]. split; [lia|]. intros _.
    replace (Z.succ (Z.of_nat k) - 1) with (Z.succ (Z.of_nat k - 1)) by lia.
    rewrite Z.pow_succ_r by lia. dlia.
Qed.

Lemma ndigits_spec n :
  0 <= n -> n < 10 ^ Z.of_nat (ndigits n) /\ (0 < ndigits n)%nat /\
  (0 < n -> 10 ^ (Z.of_nat (ndigits n) - 1) <= n).
Proof.
  intros Hn. apply digit_count_spec. rewrite Nat2Z.inj_succ, Z2Nat.id by apply Z.log2_nonneg.
  split; [done|]. destruct (Z.eq_dec n 0) as [->|]; [done|]. apply Z.log2_spec. lia.
Qed.

Lemma digit_of_digit d : 0 <= d < 10 -> digit_of (48 + d) = Some d.
Proof.
  intros Hd. unfold digit_of. rewrite (proj2 (Z.leb_le 48 _)), (proj2 (Z.leb_le _ 57)) by lia.
  cbn [andb]. f_equal. lia.
Qed.

Lemma read_digits_fixed acc k n r :
  0 <= n < 10 ^ Z.of_nat k ->
  read_digits acc (fixed k n ++ r) =
  let '(v, j, r') := read_digits (acc * 10 ^ Z.of_nat k + n) r in (v, (k + j)%nat, r').
Proof.
  revert n r. induction k as [|k IH]; intros n r Hn; cbn [fixed].
  - change (10 ^ Z.of_nat 0) with 1 in *. replace (acc * 1 + n) with acc by lia. cbn.
    by destruct (read_digits acc r) as [[v j] r'].
  - rewrite Nat2Z.inj_succ, Z.pow_succ_r in * by lia.
    rewrite <-app_assoc, IH by dlia. cbn [app read_digits].
    rewrite digit_of_digit by dlia.
    replace ((acc * 10 ^ Z.of_nat k + n / 10) * 10 + n mod 10)
      with (acc * (10 * 10 ^ Z.of_nat k) + n) by dlia.
    destruct (read_digits _ r) as [[v j] r']. by rewrite <-Nat.add_succ_comm.
Qed.

Definition no_digit (r : list Z) : Prop := match r with [] => True | b :: _ => digit_of b = None end.

Lemma read_digits_all acc k n r :
  0 <= n < 10 ^ Z.of_nat k -> no_digit r ->
  read_digits acc (fixed k n ++ r) = (acc * 10 ^ Z.of_nat k + n, k, r).
Proof.
  intros Hn Hr. rewrite read_digits_fixed by done.
  assert (forall a, read_digits a r = (a, O, r)) as H.
  { intros a. destruct r as [|b r]; [done|]. cbn in *. by rewrite Hr. }
  rewrite H. by rewrite Nat.add_0_r.
Qed.

Lemma fixed_head k n :
  0 <= n < 10 ^ Z.of_nat (S k) ->
  exists l, fixed (S k) n = (48 + n / 10 ^ Z.of_nat k) :: l.
Proof.
  revert n. induction k as [|k IH]; intros n Hn.
  - change (10 ^ Z.of_nat 1) with 10 in Hn. cbn. exists []. do 2 f_equal.
    rewrite Z.div_1_r. by apply Z.mod_small.
  - change (fixed (S (S k)) n) with (fixed (S k) (n / 10) ++ [48 + n mod 10]).
    rewrite Nat2Z.inj_succ, Z.pow_succ_r in Hn by lia.
    destruct (IH (n / 10) ltac:(dlia)) as [l ->]. eexists. cbn [app]. do 2 f_equal.
    rewrite Z.div_div, (Nat2Z.inj_succ k), Z.pow_succ_r by (try apply Z.pow_pos_nonneg; lia).
    done.
Qed.

Lemma read_whole_dec n r : 0 <= n -> no_digit r -> read_whole (dec n ++ r) = Some (n, r).
Proof.
  intros Hn Hr. unfold dec. destruct (ndigits_spec n Hn) as (H1 & H2 & H3).
  destruct (Z.eq_dec n 0) as [->|Hne]; [done|]. specialize (H3 ltac:(lia)).
  destruct (ndigits n) as [|k]; [lia|].
  pose proof (read_digits_all 0 (S k) n r ltac:(lia) Hr) as Hd.
  destruct (fixed_head k n ltac:(lia)) as [l Hl]. rewrite Hl in *. cbn [app] in *.
  assert (0 < 10 ^ Z.of_nat k) by (apply Z.pow_pos_nonneg; lia).
  rewrite Nat2Z.inj_succ, Z.pow_succ_r in H1 by lia.
  replace (Z.of_nat (S k) - 1) with (Z.of_nat k) in H3 by lia.
  assert (1 <= n / 10 ^ Z.of_nat k < 10) by
    (split; [apply Z.div_le_lower_bound|apply Z.div_lt_upper_bound]; lia).
  unfold read_whole. destruct (Z.eqb_spec (48 + n / 10 ^ Z.of_nat k) 48); [lia|].
  rewrite digit_of_digit by lia. by rewrite Hd.
Qed.

(** ** Literals *)

(** What may follow a number. *)
Definition ends (r : list Z) : Prop :=
  match r with
  | [] => True
  | b :: _ => digit_of b = None /\ b <> 46 /\ b <> 101 /\ b <> 69
  end.

Lemma ends_no_digit r : ends r -> no_digit r.
Proof. destruct r; [done|]. by intros []. Qed.
Hint Resolve ends_no_digit : core.

Lemma read_fraction_none c r : ends r -> read_fraction c r = Some (c, 0, r).
Proof.
  destruct r as [|b r]; [done|]. intros (_ & H & _). cbn. by destruct (Z.eqb_spec b 46).
Qed.

Lemma read_exponent_none r : ends r -> read_exponent r = Some (None, r).
Proof.
  destruct r as [|b r]; [done|]. intros (_ & _ & H1 & H2). cbn.
  destruct (Z.eqb_spec b 101); [done|]. by destruct (Z.eqb_spec b 69).
Qed.

Lemma read_unsigned_whole s n r :
  0 <= n -> ends r -> read_unsigned s (dec n ++ r) = Some (whole s n, r).
Proof.
  intros Hn Hr. unfold read_unsigned. rewrite read_whole_dec by auto. cbn [mbind option_bind].
  rewrite read_fraction_none by done. cbn [mbind option_bind].
  rewrite read_exponent_none by done. cbn. unfold whole.
  destruct s; cbn [andb negb]; [|done]. by destruct (Z.eqb_spec n 0) as [->|].
Qed.

Lemma literal_whole s n : 0 <= n -> literal_float (whole s n) = read_dec s n 0.
Proof.
  intros Hn. unfold whole. destruct s; cbn [andb].
  - destruct (Z.eqb_spec n 0) as [->|]; [done|]. cbn [literal_float].
    rewrite (proj2 (Z.ltb_lt _ _)) by lia. f_equal. lia.
  - cbn [literal_float]. rewrite (proj2 (Z.ltb_ge _ _)) by lia. f_equal. lia.
Qed.

(** A number written in either form reads as its digits and exponent. *)
Lemma reads_plain s c e r :
  0 <= c -> ends r ->
  read_unsigned s (plain c e ++ r) = Some (plain_literal s c e, r) /\
  literal_float (plain_literal s c e) = read_dec s c e.
Proof.
  intros Hc Hr. unfold plain, plain_literal. destruct (Z.leb_spec 0 e) as [He|He].
  - assert (0 <= c * 10 ^ e) by (apply Z.mul_nonneg_nonneg; [|apply Z.pow_nonneg]; lia).
    split; [by apply read_unsigned_whole|].
    rewrite literal_whole by done. unfold read_dec. f_equal; [|f_equal; lia].
    replace (Z.max 0 e) with e by lia. change (10 ^ Z.max 0 0) with 1. lia.
  - split; [|done]. unfold read_unsigned. rewrite <-app_assoc. cbn [app].
    assert (0 < 10 ^ (- e)) as Hp by (apply Z.pow_pos_nonneg; lia).
    pose proof (Z.mod_pos_bound c _ Hp).
    rewrite read_whole_dec by (apply Z.div_pos; lia) || done. cbn [mbind option_bind].
    unfold read_fraction. cbn [Z.eqb Pos.eqb].
    rewrite read_digits_all by (rewrite ?Z2Nat.id by lia; auto).
    destruct (Z.to_nat (- e)) as [|k] eqn:Hk; [lia|]. rewrite <-Hk.
    rewrite Z2Nat.id by lia. cbn [mbind option_bind].
    rewrite read_exponent_none by done. cbn [mbind option_bind]. rewrite Z.opp_involutive.
    rewrite (proj2 (Z.eqb_neq e 0)) by lia. cbn [andb default].
    do 4 f_equal; [|lia]. rewrite (Z.mul_comm (c / _)). symmetry. apply Z.div_mod. lia.
Qed.

Lemma read_exponent_text x r :
  ends r ->
  read_exponent (101 :: (if x <? 0 then 45 else 43) :: dec (Z.abs x) ++ r) = Some (Some x, r).
Proof.
  intros Hr. unfold read_exponent. cbn [Z.eqb Pos.eqb orb].
  destruct (ndigits_spec (Z.abs x) ltac:(lia)) as (H1 & H2 & _). unfold dec.
  assert (read_digits 0 (fixed (ndigits (Z.abs x)) (Z.abs x) ++ r) =
    (Z.abs x, ndigits (Z.abs x), r)) as Hd.
  { rewrite read_digits_all by (lia || auto). do 2 f_equal. }
  destruct (Z.ltb_spec x 0); cbn [read_sign Z.eqb Pos.eqb]; rewrite Hd;
    destruct (ndigits (Z.abs x)); try lia; do 3 f_equal; lia.
Qed.

Lemma reads_scientific s c e r :
  0 < c -> ends r -> read_unsigned s (scientific c e ++ r) = Some (Dec s c e, r).
Proof.
  intros Hc Hr. unfold scientific, read_unsigned.
  destruct (ndigits_spec c ltac:(lia)) as (H1 & H2 & H3). specialize (H3 Hc).
  set (k := (ndigits c - 1)%nat). replace (Z.of_nat (ndigits c) - 1) with (Z.of_nat k) in H3 by lia.
  replace (Z.of_nat (ndigits c)) with (Z.succ (Z.of_nat k)) in H1 by lia.
  rewrite Z.pow_succ_r in H1 by lia.
  assert (0 < 10 ^ Z.of_nat k) as Hp by (apply Z.pow_pos_nonneg; lia).
  set (p := 10 ^ Z.of_nat k) in *.
  assert (1 <= c / p < 10) as Hd by
    (split; [apply Z.div_le_lower_bound|apply Z.div_lt_upper_bound]; lia).
  pose proof (Z.mod_pos_bound c p Hp) as Hm.
  assert (ndigits (c / p) = 1%nat) as Hone.
  { unfold ndigits. destruct (Z.to_nat (Z.log2 (c / p))); [done|]. cbn [digit_count].
    by rewrite (proj2 (Z.ltb_lt _ _)) by lia. }
  rewrite <-Hone, <-!app_assoc. fold (dec (c / p)).
  set (x := e + Z.of_nat k). set (mid := if Nat.eqb k 0 then [] else _).
  change ((101 :: (if x <? 0 then 45 else 43) :: dec (Z.abs x)) ++ r)
    with (101 :: (if x <? 0 then 45 else 43) :: dec (Z.abs x) ++ r).
  rewrite read_whole_dec by (lia || (unfold mid; by destruct (Nat.eqb k 0))).
  cbn [mbind option_bind].
  assert (read_fraction (c / p)
      (mid ++ 101 :: (if x <? 0 then 45 else 43) :: dec (Z.abs x) ++ r) =
    Some (c, - Z.of_nat k, 101 :: (if x <? 0 then 45 else 43) :: dec (Z.abs x) ++ r)) as ->.
  { unfold mid. destruct (Nat.eqb_spec k 0) as [Hk|Hk].
    - unfold p in *. rewrite Hk. cbn. by rewrite Z.div_1_r.
    - cbn [app]. unfold read_fraction. cbn [Z.eqb Pos.eqb].
      rewrite read_digits_all by done. fold p. destruct k as [|k'] eqn:Hk'; [done|].
      do 3 f_equal. rewrite (Z.mul_comm (c / p)). symmetry. apply Z.div_mod. lia. }
  cbn [mbind option_bind]. rewrite read_exponent_text by done. cbn [mbind option_bind].
  rewrite andb_false_r. cbn [andb]. do 3 f_equal. unfold x. cbn. lia.
Qed.

Lemma digit_of_range b : 48 <= b <= 57 -> digit_of b = Some (b - 48).
Proof.
  intros Hb. unfold digit_of. by rewrite (proj2 (Z.leb_le 48 _)), (proj2 (Z.leb_le _ 57)) by lia.
Qed.

(** A text that starts with a digit. *)
Definition digit_first (l : list Z) : Prop := exists b l', l = b :: l' /\ 48 <= b <= 57.

Lemma dec_head n : 0 <= n -> digit_first (dec n).
Proof.
  intros Hn. unfold dec. destruct (ndigits_spec n Hn) as (H1 & H2 & _).
  destruct (ndigits n) as [|k]; [lia|]. destruct (fixed_head k n ltac:(lia)) as [l ->].
  eexists _, _. split; [reflexivity|]. rewrite Nat2Z.inj_succ, Z.pow_succ_r in H1 by lia.
  assert (0 < 10 ^ Z.of_nat k) by (apply Z.pow_pos_nonneg; lia).
  assert (0 <= n / 10 ^ Z.of_nat k < 10); [|lia].
  split; [apply Z.div_pos|apply Z.div_lt_upper_bound]; lia.
Qed.

Lemma plain_head c e : 0 <= c -> digit_first (plain c e).
Proof.
  intros Hc. unfold plain. destruct (Z.leb_spec 0 e).
  - apply dec_head, Z.mul_nonneg_nonneg; [|apply Z.pow_nonneg]; lia.
  - destruct (dec_head (c / 10 ^ (- e))) as (b & l & -> & Hb);
      [|eexists _, _; split; [reflexivity|done]].
    apply Z.div_pos; [done|]. apply Z.pow_pos_nonneg; lia.
Qed.

Lemma scientific_head c e : digit_first (scientific c e).
Proof. unfold scientific. set (p := 10 ^ _). eexists _, _. split; [reflexivity|]. dlia. Qed.

Lemma read_literal_signed s l r :
  digit_first l ->
  read_literal ((minus s ++ l) ++ r) = read_unsigned s (l ++ r).
Proof.
  intros (b & l' & -> & Hb). destruct s; cbn; [done|]. destruct (Z.eqb_spec b 45); [lia|done].
Qed.

Lemma read_int_text n r : ends r -> read_literal (int_text n ++ r) = Some (Whole n, r).
Proof.
  intros Hr. unfold int_text. rewrite read_literal_signed by (apply dec_head; lia).
  rewrite read_unsigned_whole by (lia || done). unfold whole.
  destruct (Z.ltb_spec n 0); cbn [andb]; [|do 3 f_equal; lia].
  destruct (Z.eqb_spec (Z.abs n) 0); [lia|]. do 3 f_equal. lia.
Qed.

Lemma read_dec_0 s e : read_dec s 0 e = S754_zero s.
Proof.
  unfold read_dec. rewrite Z.mul_0_l. unfold f64_of_ratio. rewrite Z.mul_0_l, Z.div_0_l
    by (pose proof (ten_pos (- e)); lia). change (rnd_exp 0) with 0.
  unfold rne_ratio. rewrite Zdiv_0_l, Zmod_0_l. change (2 ^ 0) with 1. rewrite !Z.mul_1_r.
  change (2 * 0) with 0. by rewrite (proj2 (Z.compare_lt_iff _ _)) by apply ten_pos.
Qed.

Lemma signed_head s l : digit_first l -> exists b l', minus s ++ l = b :: l' /\ (b = 45 \/ 48 <= b <= 57).
Proof. intros (b & l' & -> & Hb). destruct s; eexists _, _; (split; [reflexivity|]); lia. Qed.

Lemma int_text_head n : exists b l, int_text n = b :: l /\ (b = 45 \/ 48 <= b <= 57).
Proof. apply signed_head, dec_head. lia. Qed.

Lemma float_text_head x :
  f64_real x -> exists b l, float_text x = b :: l /\ (b = 45 \/ 48 <= b <= 57).
Proof.
  intros Hx. destruct x as [s|s| |s m e]; [|by destruct Hx|by destruct Hx|]; cbn [float_text].
  - apply signed_head. exists 48, []. split; [done|lia].
  - apply real_finite_inv in Hx as (Hc & He & _).
    pose proof (shortest_reads s m e Hc He) as Hs. destruct (shortest s m e) as [c x].
    destruct Hs as [_ H0].
    apply signed_head. destruct (use_scientific m e); [apply scientific_head|by apply plain_head].
Qed.

(** A float's text reads back as the float. *)
Lemma read_float_text x r :
  f64_real x -> ends r ->
  read_literal (float_text x ++ r) = Some (float_literal x, r) /\
  literal_float (float_literal x) = x.
Proof.
  intros Hx Hr. destruct x as [s|s| |s m e]; [|by destruct Hx|by destruct Hx|].
  - cbn [float_text float_literal]. rewrite read_literal_signed by (by exists 48, []; split; [|lia]).
    change [48] with (dec 0). rewrite read_unsigned_whole by done. split; [done|]. by destruct s.
  - apply real_finite_inv in Hx as (Hc & He & _).
    pose proof (shortest_reads s m e Hc He) as Hs. cbn [float_text float_literal].
    destruct (shortest s m e) as [c x]. destruct Hs as [Hs H0].
    assert (0 < c) as Hc0.
    { destruct (Z.eq_dec c 0) as [->|]; [|lia]. by rewrite read_dec_0 in Hs. }
    destruct (use_scientific m e).
    + split; [|done]. rewrite read_literal_signed; [by apply reads_scientific|apply scientific_head].
    + destruct (reads_plain s c x r H0 Hr) as [Hp Hl]. rewrite Hl. split; [|done].
      rewrite read_literal_signed; [done|]. by apply plain_head.
Qed.

(** ** Examples *)

Example float_text_ex1 : GoStrings.string_of (float_text (f64_of_dec 12 7)) = "0.0000012".
Proof. vm_compute. reflexivity. Qed.
Example float_text_ex2 : GoStrings.string_of (float_text (S754_finite true 1 (-1074))) = "-5e-324".
Proof. vm_compute. reflexivity. Qed.
