(* ===== verification/Validator.v ===== *)
(** * The conformance validator: [internal/validator]

    [rules.go] (the statutory table), [report.go] (findings) and
    [validator.go] (the checks).  The report the Go code mutates through a
    pointer is threaded through the checks. *)

From Stdlib Require Import Floats.SpecFloat.
From S2P Require Import Prelude Float64 Calendar Fmt Models.

Local Open Scope Z_scope.

(** ** [report.go] *)

Abbreviation Severity := string (only parsing).
Definition SeverityError : Severity := "ERROR".
Definition SeverityWarning : Severity := "WARNING".
Definition SeverityInfo : Severity := "INFO".

Record Finding := {
  Finding_Code : string;
  Finding_Severity : Severity;
  Finding_Field : string;
  Finding_Message : string;
  Finding_Rule : string }.

Record Report := {
  Report_Valid : bool;
  Report_Jurisdiction : string;
  Report_SchemaVersion : string;
  Report_Findings : list Finding;
  Report_CheckedAt : string }.

Definition report_add (sev : Severity) (code field message rule : string) (r : Report) : Report :=
  {| Report_Valid := Report_Valid r; Report_Jurisdiction := Report_Jurisdiction r;
     Report_SchemaVersion := Report_SchemaVersion r;
     Report_Findings := Report_Findings r ++
       [{| Finding_Code := code; Finding_Severity := sev; Finding_Field := field;
           Finding_Message := message; Finding_Rule := rule |}];
     Report_CheckedAt := Report_CheckedAt r |}.

Definition hasErrors (r : Report) : bool :=
  existsb (fun f => String.eqb (Finding_Severity f) SeverityError) (Report_Findings r).

Definition set_Jurisdiction (c : string) (r : Report) : Report :=
  {| Report_Valid := Report_Valid r; Report_Jurisdiction := c;
     Report_SchemaVersion := Report_SchemaVersion r;
     Report_Findings := Report_Findings r; Report_CheckedAt := Report_CheckedAt r |}.

Definition set_Valid (b : bool) (r : Report) : Report :=
  {| Report_Valid := b; Report_Jurisdiction := Report_Jurisdiction r;
     Report_SchemaVersion := Report_SchemaVersion r;
     Report_Findings := Report_Findings r; Report_CheckedAt := Report_CheckedAt r |}.

(** ** [rules.go] *)

Record jurisdictionRule := {
  StatutoryBases : list string;
  Currency : string;
  MaxMonths : float64;
  AllowedTypes : list string;
  InterestRequired : bool }.

Definition primaryStatutoryRef (r : jurisdictionRule) : string :=
  match StatutoryBases r with [] => "" | b :: _ => b end.

Definition allowedTypesString (r : jurisdictionRule) : string :=
  GoStrings.join (AllowedTypes r) ", ".

Definition mk_rule (bases : list string) (cur : string) (months : float64)
    (types : list string) (interest : bool) : jurisdictionRule :=
  {| StatutoryBases := bases; Currency := cur; MaxMonths := months;
     AllowedTypes := types; InterestRequired := interest |}.

Definition jurisdictionRules : gmap string jurisdictionRule :=
  list_to_map
    [("DE", mk_rule ["BGB § 551"] "EUR" (f64_of_Z 3)
              ["CASH_EQUIVALENT"; "BANK_GUARANTEE"; "SURETY"] false);
     ("CH", mk_rule ["OR Art. 257e"] "CHF" (f64_of_Z 3) [] true);
     ("AT", mk_rule ["MRG § 16b"; "ABGB § 1346"] "EUR" (f64_of_Z 3) [] false);
     ("BE", mk_rule ["Woninghuurwet"; "Code civil belge"] "EUR" (f64_of_Z 2) [] false);
     ("NL", mk_rule ["BW Art. 7:261"] "EUR" (f64_of_Z 2) ["CASH_EQUIVALENT"] false);
     ("NO", mk_rule ["Husleieloven § 3-5"] "NOK" (f64_of_Z 6) [] true);
     ("GB", mk_rule ["Housing Act 2004"; "Tenant Fees Act 2019"] "GBP"
              (f64_of_dec 115 2) [] false);
     ("FR", mk_rule ["Loi ALUR"; "Loi 89-462"] "EUR" (f64_of_Z 1)
              ["CASH_EQUIVALENT"; "SURETY"] false);
     ("ES", mk_rule ["LAU Art. 36"] "EUR" (f64_of_Z 1) [] false)].

(** ** [validator.go] *)

Definition isEmpty (s : string) : bool := String.eqb s "".

(** The tolerance of the cap check, the constant [1.005]. *)
Definition cap_tolerance : float64 := f64_of_dec 1005 3.

(** [d.Deposit.Amount > rule.MaxMonths*monthlyRent*1.005]. *)
Definition cap_exceeded (maxMonths rent amount : float64) : bool :=
  f64_lt (f64_mul (f64_mul maxMonths rent) cap_tolerance) amount.

Section Checks.
(** [strconv.Quote], the %q verb. *)
Context (quote : string -> string).

Definition checkRequired (d : Deposit) (r : Report) : Report :=
  let t := Deposit_Tenant d in
  let x := Deposit_Deposit d in
  let r := if isEmpty (Tenant_FirstName t) || isEmpty (Tenant_LastName t) ||
              isEmpty (Tenant_Email t)
           then report_add SeverityError "MISSING_TENANT_FIELDS" "tenant"
             "tenant.first_name, tenant.last_name and tenant.email are required" "" r
           else r in
  let r := if isEmpty (Landlord_Name (Deposit_Landlord d))
           then report_add SeverityError "MISSING_LANDLORD_NAME" "landlord.name"
             "landlord.name is required" "" r else r in
  let r := if f64_le (DepositData_Amount x) f64_zero
           then report_add SeverityError "INVALID_AMOUNT" "deposit.amount"
             "deposit.amount must be greater than zero" "" r else r in
  let r := if isEmpty (DepositData_Currency x)
           then report_add SeverityError "MISSING_CURRENCY" "deposit.currency"
             "deposit.currency is required (ISO 4217)" "" r else r in
  let r := if isEmpty (DepositData_Type x)
           then report_add SeverityError "MISSING_TYPE" "deposit.type"
             "deposit.type is required" "" r else r in
  let r := if isEmpty (Meta_Version (Deposit_Meta d))
           then report_add SeverityWarning "MISSING_VERSION" "meta.version"
             ("meta.version should be set (e.g. " +:+ GoStrings.dquote +:+ "2.2.0" +:+
              GoStrings.dquote +:+ ")") "" r
           else r in
  if isEmpty (Address_Country (Property_Address (Deposit_Property d)))
  then report_add SeverityWarning "MISSING_COUNTRY" "property.address.country"
    "property.address.country is required for jurisdiction-specific validation" "" r
  else r.

Definition known_types : list string :=
  [DepositTypeCash; DepositTypeBankGuarantee; DepositTypeInsurance; "SURETY"].

Definition checkDepositType (d : Deposit) (r : Report) : Report :=
  let t := DepositData_Type (Deposit_Deposit d) in
  if isEmpty t then r
  else if negb (existsb (String.eqb t) known_types)
  then report_add SeverityError "UNKNOWN_TYPE" "deposit.type"
    ("unknown deposit.type " +:+ quote t +:+
     " — must be CASH_EQUIVALENT, BANK_GUARANTEE, INSURANCE, or SURETY") "" r
  else r.

(** The checks of [checkJurisdiction], in the order they run. *)
Definition checkCurrency (country : string) (rule : jurisdictionRule) (d : Deposit)
    (r : Report) : Report :=
  let cur := DepositData_Currency (Deposit_Deposit d) in
  if negb (isEmpty (Currency rule)) && negb (isEmpty cur) &&
     negb (String.eqb cur (Currency rule))
  then report_add SeverityError "WRONG_CURRENCY" "deposit.currency"
    (country +:+ " requires currency " +:+ Currency rule +:+ ", got " +:+ cur)
    (primaryStatutoryRef rule) r
  else r.

Definition checkAllowedType (country : string) (rule : jurisdictionRule) (d : Deposit)
    (r : Report) : Report :=
  let t := DepositData_Type (Deposit_Deposit d) in
  match AllowedTypes rule with
  | [] => r
  | _ =>
    if isEmpty t then r
    else if negb (existsb (String.eqb t) (AllowedTypes rule))
    then report_add SeverityError "DISALLOWED_TYPE" "deposit.type"
      (country +:+ " does not permit deposit type " +:+ t +:+ " (allowed: " +:+
       allowedTypesString rule +:+ ")") (primaryStatutoryRef rule) r
    else r
  end.

Definition checkCap (country : string) (rule : jurisdictionRule) (d : Deposit)
    (monthlyRent : float64) (r : Report) : Report :=
  let amount := DepositData_Amount (Deposit_Deposit d) in
  if f64_lt f64_zero (MaxMonths rule) && f64_lt f64_zero monthlyRent &&
     f64_lt f64_zero amount
  then
    let maxAmount := f64_mul (MaxMonths rule) monthlyRent in
    if cap_exceeded (MaxMonths rule) monthlyRent amount
    then report_add SeverityError "CAP_EXCEEDED" "deposit.amount"
      (country +:+ " statutory cap is " +:+ fmt_g2 (MaxMonths rule) +:+
       " months rent — deposit " +:+ fmt_f2 amount +:+ " exceeds max " +:+
       fmt_f2 maxAmount +:+ " " +:+ DepositData_Currency (Deposit_Deposit d))
      (primaryStatutoryRef rule) r
    else r
  else r.

Definition checkStatutoryBasis (country : string) (rule : jurisdictionRule)
    (d : Deposit) (r : Report) : Report :=
  match Deposit_Pledge d, StatutoryBases rule with
  | Some p, _ :: _ =>
    let basis := Pledge_StatutoryBasis p in
    if isEmpty basis then r
    else if negb (existsb (GoStrings.contains basis) (StatutoryBases rule))
    then report_add SeverityWarning "UNEXPECTED_STATUTORY_BASIS"
      "pledge.statutory_basis"
      ("statutory_basis " +:+ quote basis +:+ " is unexpected for " +:+ country +:+
       " (expected one of: " +:+ GoStrings.join (StatutoryBases rule) " / " +:+ ")")
      (primaryStatutoryRef rule) r
    else r
  | _, _ => r
  end.

Definition checkInterest (country : string) (rule : jurisdictionRule) (d : Deposit)
    (r : Report) : Report :=
  if InterestRequired rule &&
     match Deposit_Trusteeship d with
     | None => true
     | Some t => f64_eq (Trusteeship_InterestRate t) f64_zero
     end
  then report_add SeverityWarning "INTEREST_REQUIRED" "trusteeship.interest_rate"
    (country +:+ " law requires interest to accrue on the deposit for the tenant's benefit; trusteeship.interest_rate is not set")
    (primaryStatutoryRef rule) r
  else r.

Definition checkTrusteeship (rule : jurisdictionRule) (d : Deposit) (r : Report) : Report :=
  match Deposit_Trusteeship d with
  | None =>
    if String.eqb (DepositData_Type (Deposit_Deposit d)) DepositTypeCash
    then report_add SeverityWarning "MISSING_TRUSTEESHIP" "trusteeship"
      "CASH_EQUIVALENT deposits should declare a trusteeship with insolvency_protection_confirmed = true"
      (primaryStatutoryRef rule) r
    else r
  | Some t =>
    if negb (Trusteeship_InsolvencyProtectionConfirmed t)
    then report_add SeverityWarning "INSOLVENCY_PROTECTION_UNCONFIRMED"
      "trusteeship.insolvency_protection_confirmed"
      "trusteeship.insolvency_protection_confirmed should be true — BGB § 551 Abs. 3 and equivalent require insolvency-proof separation"
      (primaryStatutoryRef rule) r
    else r
  end.

Definition checkJurisdiction (d : Deposit) (monthlyRent : float64) (r : Report) : Report :=
  let country := Address_Country (Property_Address (Deposit_Property d)) in
  let r := set_Jurisdiction country r in
  if isEmpty country then r
  else
    match jurisdictionRules !! country with
    | None =>
      report_add SeverityInfo "UNKNOWN_JURISDICTION" "property.address.country"
        ("no statutory rules defined for country " +:+ quote country +:+
         " — schema checks only") "" r
    | Some rule =>
      let r := checkCurrency country rule d r in
      let r := checkAllowedType country rule d r in
      let r := checkCap country rule d monthlyRent r in
      let r := checkStatutoryBasis country rule d r in
      let r := checkInterest country rule d r in
      checkTrusteeship rule d r
    end.

(** [Validate(d, monthlyRent)], run at instant [now]. *)
Definition Validate (now : instant) (d : Deposit) (monthlyRent : float64) : Report :=
  let r := {| Report_Valid := false; Report_Jurisdiction := "";
              Report_SchemaVersion := Meta_Version (Deposit_Meta d);
              Report_Findings := []; Report_CheckedAt := format_rfc3339 now |} in
  let r := checkRequired d r in
  let r := checkDepositType d r in
  let r := checkJurisdiction d monthlyRent r in
  set_Valid (negb (hasErrors r)) r.
End Checks.

(** ** What each check adds

    [adds r r' fs]: [r'] is [r] with the findings [fs] appended. *)

Definition adds (r r' : Report) (fs : list Finding) : Prop :=
  Report_Findings r' = Report_Findings r ++ fs.

Definition error_count (r : Report) : nat :=
  length (filter (fun f => Finding_Severity f = SeverityError) (Report_Findings r)).

Lemma hasErrors_add sev code field msg rule r :
  hasErrors (report_add sev code field msg rule r) =
  hasErrors r || String.eqb sev SeverityError.
Proof.
  unfold hasErrors, report_add. cbn [Report_Findings].
  by rewrite existsb_app; cbn; rewrite orb_false_r.
Qed.

Create Rewrite HintDb validator.
#[export] Hint Rewrite hasErrors_add : validator.

(** Rewrite every [hasErrors] of a check to its condition. *)
Ltac check_errors :=
  repeat case_match; autorewrite with validator; cbn;
  rewrite ?orb_true_r, ?orb_false_r; try done.

Section CheckLemmas.
Context (quote : string -> string).

Lemma checkRequired_errors d r :
  hasErrors (checkRequired d r) =
  hasErrors r ||
  (isEmpty (Tenant_FirstName (Deposit_Tenant d)) ||
   isEmpty (Tenant_LastName (Deposit_Tenant d)) ||
   isEmpty (Tenant_Email (Deposit_Tenant d)) ||
   isEmpty (Landlord_Name (Deposit_Landlord d)) ||
   f64_le (DepositData_Amount (Deposit_Deposit d)) f64_zero ||
   isEmpty (DepositData_Currency (Deposit_Deposit d)) ||
   isEmpty (DepositData_Type (Deposit_Deposit d))).
Proof.
  unfold checkRequired.
  set (b1 := isEmpty (Tenant_FirstName _) || _ || _).
  generalize b1. clear b1. intros b1.
  destruct b1, (isEmpty (Landlord_Name _)), (f64_le _ _),
    (isEmpty (DepositData_Currency _)), (isEmpty (DepositData_Type _)),
    (isEmpty (Meta_Version _)), (isEmpty (Address_Country _)); check_errors.
Qed.

Lemma checkDepositType_errors d r :
  hasErrors (checkDepositType quote d r) =
  hasErrors r ||
  (negb (isEmpty (DepositData_Type (Deposit_Deposit d))) &&
   negb (existsb (String.eqb (DepositData_Type (Deposit_Deposit d))) known_types)).
Proof. unfold checkDepositType. destruct (isEmpty _), (existsb _ _); check_errors. Qed.

Lemma checkCurrency_errors c rule d r :
  hasErrors (checkCurrency c rule d r) =
  hasErrors r ||
  (negb (isEmpty (Currency rule)) &&
   negb (isEmpty (DepositData_Currency (Deposit_Deposit d))) &&
   negb (String.eqb (DepositData_Currency (Deposit_Deposit d)) (Currency rule))).
Proof. unfold checkCurrency. destruct (_ && _ && _); check_errors. Qed.

Lemma checkAllowedType_errors c rule d r :
  hasErrors (checkAllowedType c rule d r) =
  hasErrors r ||
  (negb (bool_decide (AllowedTypes rule = [])) &&
   negb (isEmpty (DepositData_Type (Deposit_Deposit d))) &&
   negb (existsb (String.eqb (DepositData_Type (Deposit_Deposit d))) (AllowedTypes rule))).
Proof.
  unfold checkAllowedType. destruct (AllowedTypes rule) as [|t ts] eqn:E.
  - by rewrite bool_decide_eq_true_2, orb_false_r by done.
  - rewrite bool_decide_eq_false_2 by done.
    destruct (isEmpty _), (existsb _ _); check_errors.
Qed.

Lemma checkCap_errors c rule d rent r :
  hasErrors (checkCap c rule d rent r) =
  hasErrors r ||
  (f64_lt f64_zero (MaxMonths rule) && f64_lt f64_zero rent &&
   f64_lt f64_zero (DepositData_Amount (Deposit_Deposit d)) &&
   cap_exceeded (MaxMonths rule) rent (DepositData_Amount (Deposit_Deposit d))).
Proof. unfold checkCap. destruct (_ && _ && _), (cap_exceeded _ _ _); check_errors. Qed.

Lemma checkStatutoryBasis_errors c rule d r :
  hasErrors (checkStatutoryBasis quote c rule d r) = hasErrors r.
Proof. unfold checkStatutoryBasis. check_errors. Qed.

Lemma checkInterest_errors c rule d r :
  hasErrors (checkInterest c rule d r) = hasErrors r.
Proof. unfold checkInterest. check_errors. Qed.

Lemma checkTrusteeship_errors rule d r :
  hasErrors (checkTrusteeship rule d r) = hasErrors r.
Proof. unfold checkTrusteeship. check_errors. Qed.
End CheckLemmas.

#[export] Hint Rewrite checkCurrency_errors checkAllowedType_errors checkCap_errors
  checkStatutoryBasis_errors checkInterest_errors checkTrusteeship_errors : validator.

(** ** The statutory rules, as a specification *)

(** What the statute of [country] demands, when the table has one. *)
Definition statute_ok (d : Deposit) (rent : float64) : Prop :=
  forall rule, jurisdictionRules !! Address_Country (Property_Address (Deposit_Property d))
    = Some rule ->
  let x := Deposit_Deposit d in
  DepositData_Currency x = Currency rule /\
  (AllowedTypes rule = [] \/ DepositData_Type x ∈ AllowedTypes rule) /\
  (f64_lt f64_zero rent = true -> f64_lt f64_zero (DepositData_Amount x) = true ->
   cap_exceeded (MaxMonths rule) rent (DepositData_Amount x) = false).

Definition conforms (d : Deposit) (rent : float64) : Prop :=
  let t := Deposit_Tenant d in
  let x := Deposit_Deposit d in
  Tenant_FirstName t <> "" /\ Tenant_LastName t <> "" /\ Tenant_Email t <> "" /\
  Landlord_Name (Deposit_Landlord d) <> "" /\
  f64_le (DepositData_Amount x) f64_zero = false /\
  DepositData_Currency x <> "" /\
  DepositData_Type x ∈ known_types /\
  statute_ok d rent.

Lemma isEmpty_false s : isEmpty s = false <-> s <> "".
Proof. unfold isEmpty. apply String.eqb_neq. Qed.

Lemma existsb_elem (t : string) l : existsb (String.eqb t) l = true <-> t ∈ l.
Proof.
  rewrite existsb_exists. split.
  - intros (u & Hu & ->%String.eqb_eq). by apply list_elem_of_In.
  - intros H. exists t. split; [by apply list_elem_of_In | apply String.eqb_refl].
Qed.

(** Facts about every rule of the table, checked by computation. *)
Lemma rules_checked (P : jurisdictionRule -> bool) c rule :
  forallb (fun '(_, r) => P r) (map_to_list jurisdictionRules) = true ->
  jurisdictionRules !! c = Some rule -> P rule = true.
Proof.
  rewrite forallb_forall. intros H Hc%elem_of_map_to_list.
  apply list_elem_of_In in Hc. exact (H _ Hc).
Qed.

Lemma rule_currency c rule :
  jurisdictionRules !! c = Some rule -> isEmpty (Currency rule) = false.
Proof.
  intros H. apply negb_true_iff. revert H.
  by apply (rules_checked (fun r => negb (isEmpty (Currency r)))).
Qed.

Lemma rule_months c rule :
  jurisdictionRules !! c = Some rule -> f64_lt f64_zero (MaxMonths rule) = true.
Proof. by apply (rules_checked (fun r => f64_lt f64_zero (MaxMonths r))). Qed.

Lemma no_rule_for_empty : jurisdictionRules !! "" = None.
Proof. by vm_compute. Qed.

(** ** Properties *)

Lemma statute_ok_errors d rent rule :
  jurisdictionRules !! Address_Country (Property_Address (Deposit_Property d)) = Some rule ->
  DepositData_Currency (Deposit_Deposit d) <> "" ->
  DepositData_Type (Deposit_Deposit d) <> "" ->
  statute_ok d rent <->
  (negb (String.eqb (DepositData_Currency (Deposit_Deposit d)) (Currency rule)) ||
   (negb (bool_decide (AllowedTypes rule = [])) &&
    negb (existsb (String.eqb (DepositData_Type (Deposit_Deposit d))) (AllowedTypes rule))) ||
   (f64_lt f64_zero rent && f64_lt f64_zero (DepositData_Amount (Deposit_Deposit d)) &&
    cap_exceeded (MaxMonths rule) rent (DepositData_Amount (Deposit_Deposit d)))) = false.
Proof.
  intros Hr Hc Ht. unfold statute_ok. rewrite Hr, !orb_false_iff, negb_false_iff.
  rewrite String.eqb_eq.
  rewrite andb_false_iff, !negb_false_iff, bool_decide_eq_true, existsb_elem.
  split.
  - intros H. destruct (H rule eq_refl) as (? & ? & Hcap). repeat split; [done|done|].
    destruct (f64_lt f64_zero rent); [|done].
    destruct (f64_lt f64_zero (DepositData_Amount _)); [|done]. by apply Hcap.
  - intros [[? ?] Hcap] ? [= <-]. repeat split; [done|done|].
    intros H1 H2. by rewrite H1, H2 in Hcap.
Qed.

Lemma checkJurisdiction_errors quote d rent r :
  DepositData_Currency (Deposit_Deposit d) <> "" ->
  DepositData_Type (Deposit_Deposit d) <> "" ->
  hasErrors (checkJurisdiction quote d rent r) = false <->
  hasErrors r = false /\ statute_ok d rent.
Proof.
  intros Hc Ht. pose proof (proj2 (isEmpty_false _) Hc) as Hc'.
  pose proof (proj2 (isEmpty_false _) Ht) as Ht'.
  unfold checkJurisdiction.
  assert (forall c, hasErrors (set_Jurisdiction c r) = hasErrors r) as Hset by done.
  destruct (isEmpty (Address_Country _)) eqn:Ee.
  - apply String.eqb_eq in Ee. rewrite Hset. unfold statute_ok.
    rewrite Ee, no_rule_for_empty. by intuition.
  - destruct (jurisdictionRules !! _) as [rule|] eqn:Hr.
    + autorewrite with validator. rewrite Hset.
      rewrite (statute_ok_errors d rent rule) by done.
      rewrite (rule_currency _ _ Hr), (rule_months _ _ Hr), Hc', Ht'.
      cbn [negb andb]. rewrite andb_true_r, <-!orb_assoc, orb_false_iff. done.
    + rewrite hasErrors_add, Hset, orb_false_r. unfold statute_ok. rewrite Hr.
      by intuition.
Qed.

Lemma checkJurisdiction_mono quote d rent r :
  hasErrors r = true -> hasErrors (checkJurisdiction quote d rent r) = true.
Proof.
  intros H. assert (forall c, hasErrors (set_Jurisdiction c r) = true) as Hset by done.
  unfold checkJurisdiction. repeat case_match; autorewrite with validator;
    by rewrite ?Hset, ?orb_true_l.
Qed.

Lemma known_type_nonempty t : t ∈ known_types -> t <> "".
Proof. intros Hin Heq. rewrite Heq in Hin. by apply existsb_elem in Hin. Qed.

Lemma schema_errors quote d r :
  hasErrors r = false ->
  hasErrors (checkDepositType quote d (checkRequired d r)) = false <->
  Tenant_FirstName (Deposit_Tenant d) <> "" /\ Tenant_LastName (Deposit_Tenant d) <> "" /\
  Tenant_Email (Deposit_Tenant d) <> "" /\ Landlord_Name (Deposit_Landlord d) <> "" /\
  f64_le (DepositData_Amount (Deposit_Deposit d)) f64_zero = false /\
  DepositData_Currency (Deposit_Deposit d) <> "" /\
  DepositData_Type (Deposit_Deposit d) ∈ known_types.
Proof.
  intros H0. rewrite checkDepositType_errors, checkRequired_errors, H0, orb_false_l.
  rewrite !orb_false_iff, andb_false_iff, !negb_false_iff, existsb_elem.
  rewrite !isEmpty_false. unfold isEmpty. rewrite String.eqb_eq.
  pose proof (known_type_nonempty (DepositData_Type (Deposit_Deposit d))). tauto.
Qed.

(** C25: the report of Validate says valid exactly when the deposit conforms: names, landlord,
    positive amount, currency and a known type are present and, when the property's country has
    a statutory rule, the currency is the statute's, the type is permitted and the cap (with its
    0.5 % tolerance) holds. Warnings and infos never make a report invalid. *)
Theorem Validate_valid_iff_conforms quote now d rent :
  Report_Valid (Validate quote now d rent) = true <-> conforms d rent.
Proof.
  unfold Validate, conforms. cbn [Report_Valid set_Valid]. rewrite negb_true_iff.
  set (r0 := {| Report_Valid := _ |}).
  pose proof (schema_errors quote d r0 eq_refl) as Hpre.
  set (r1 := checkDepositType _ _ _) in *. clearbody r1. clear r0.
  assert (hasErrors (checkJurisdiction quote d rent r1) = false -> hasErrors r1 = false)
    as Hmono.
  { intros H. apply not_true_is_false. intros H1%(checkJurisdiction_mono quote d rent).
    by rewrite H1 in H. }
  split.
  - intros Hj. pose proof (Hmono Hj) as (? & ? & ? & ? & ? & Hc & Ht)%Hpre.
    apply checkJurisdiction_errors in Hj as [_ Hs]; [|done|by apply known_type_nonempty].
    tauto.
  - intros (? & ? & ? & ? & ? & Hc & Ht & Hs).
    apply checkJurisdiction_errors; [done|by apply known_type_nonempty|].
    split; [|done]. apply Hpre. tauto.
Qed.

(** The tolerance is a float just above one: [c * 2^-52]. *)
Lemma cap_tolerance_shape :
  exists c, cap_tolerance = S754_finite false c (-52) /\ (2 ^ 52 <= Zpos c)%Z.
Proof. by exists 4526117625507348%positive. Qed.

(** C32: the cap check never flags a deposit that is at most the statutory maximum as computed
    (MaxMonths * monthlyRent in floating point, at least 1.00): the rounding of the 0.5 %
    tolerance cannot turn a compliant amount into a CAP_EXCEEDED finding. *)
Theorem cap_never_flags_compliant months rent amount :
  f64_real amount ->
  f64_real (f64_mul months rent) ->
  f64_le (f64_of_Z 1) (f64_mul months rent) = true ->
  f64_le amount (f64_mul months rent) = true ->
  cap_exceeded months rent amount = false.
Proof.
  intros Ha Hp H1 Hle. unfold cap_exceeded.
  destruct cap_tolerance_shape as (c & -> & Hc).
  rewrite f64_le_spec in H1 by done.
  apply Z.leb_le in H1.
  destruct (f64_mul_ge (f64_mul months rent) c) as [Hv Hge]; [done|exact H1|done|].
  by apply (f64_le_not_lt amount (f64_mul months rent)).
Qed.

Lemma cap_never_flags_compliant_witness :
  f64_real (f64_of_Z 3000) /\
  cap_exceeded (f64_of_Z 3) (f64_of_Z 1000) (f64_of_Z 3000) = false.
Proof.
  split; [by vm_compute|].
  apply cap_never_flags_compliant; by vm_compute.
Defined.
