(* ===== verification/Base64.v ===== *)
(** * Unpadded base64url: [base64.RawURLEncoding]

    Bytes are integers in 0..255.  [decode] is Go's decoder: carriage returns
    and line feeds are skipped, the unused bits of the last character are
    ignored. *)

From S2P Require Import Prelude.

Local Open Scope Z_scope.

Definition alphabet : string :=
  "ABCDEFGHIJKLMNOPQRSTUVWXYZabcdefghijklmnopqrstuvwxyz0123456789-_".

Definition char (n : Z) : byte :=
  match String.get (Z.to_nat n) alphabet with Some c => c | None => Ascii.zero end.

Fixpoint index_of (c : byte) (s : string) : option Z :=
  match s with
  | EmptyString => None
  | String d s => if Ascii.eqb c d then Some 0 else Z.succ <$> index_of c s
  end.

Definition value (c : byte) : option Z := index_of c alphabet.

Fixpoint EncodeToString (l : list Z) : string :=
  match l with
  | [] => ""
  | [a] => String (char (a / 4)) (String (char (a mod 4 * 16)) "")
  | [a; b] =>
      String (char (a / 4)) (String (char (a mod 4 * 16 + b / 16))
        (String (char (b mod 16 * 4)) ""))
  | a :: b :: c :: l =>
      String (char (a / 4)) (String (char (a mod 4 * 16 + b / 16))
        (String (char (b mod 16 * 4 + c / 64)) (String (char (c mod 64))
          (EncodeToString l))))
  end.

(** The six-bit digits of a text, line breaks skipped. *)
Definition line_break (c : byte) : bool :=
  Ascii.eqb c (Ascii.ascii_of_N 10) || Ascii.eqb c (Ascii.ascii_of_N 13).

Fixpoint digits (s : string) : option (list Z) :=
  match s with
  | EmptyString => Some []
  | String c s => if line_break c then digits s else d ← value c; l ← digits s; Some (d :: l)
  end.

Fixpoint bytes (l : list Z) : option (list Z) :=
  match l with
  | [] => Some []
  | [_] => None
  | [x; y] => Some [x * 4 + y / 16]
  | [x; y; z] => Some [x * 4 + y / 16; y mod 16 * 16 + z / 4]
  | x :: y :: z :: w :: l =>
      r ← bytes l;
      Some (x * 4 + y / 16 :: y mod 16 * 16 + z / 4 :: z mod 4 * 64 + w :: r)
  end.

Definition DecodeString (s : string) : option (list Z) := digits s ≫= bytes.

Definition is_byte (b : Z) : Prop := 0 <= b < 256.

Lemma bytes_of_bytes s : Forall is_byte (GoStrings.bytes_of s).
Proof.
  induction s as [|c s IH]; cbn; constructor; [|done]. unfold is_byte.
  pose proof (Ascii.N_ascii_bounded c). lia.
Qed.

(** Encodings are ASCII. *)
Definition ascii (s : string) : bool :=
  forallb (fun c => (Ascii.N_of_ascii c <? 128)%N) (String.list_ascii_of_string s).

Lemma get_ascii k s c : ascii s = true -> String.get k s = Some c -> (Ascii.N_of_ascii c < 128)%N.
Proof.
  revert k. induction s as [|d s IH]; intros k; [by destruct k|]. cbn.
  intros [Hd Hs]%andb_true_iff. destruct k as [|k]; [|by apply IH].
  intros [= <-]. by apply N.ltb_lt.
Qed.

Lemma char_ascii n : (Ascii.N_of_ascii (char n) < 128)%N.
Proof.
  unfold char. destruct (String.get _ _) as [c|] eqn:Hc; [|done]. by eapply get_ascii; [|exact Hc].
Qed.

Lemma encode_ascii l : Forall (fun b => b < 128) (GoStrings.bytes_of (EncodeToString l)).
Proof.
  assert (forall n s, Forall (fun b => b < 128) (GoStrings.bytes_of s) ->
    Forall (fun b => b < 128) (GoStrings.bytes_of (String (char n) s))) as Hc.
  { intros n s Hs. constructor; [|done]. pose proof (char_ascii n). lia. }
  revert l. fix IH 1. intros [|a [|b [|c l]]]; cbn [EncodeToString]; repeat apply Hc;
    try apply Forall_nil_2. apply IH.
Qed.

Lemma value_char n : 0 <= n < 64 -> value (char n) = Some n /\ line_break (char n) = false.
Proof.
  intros Hn.
  assert (forallb (fun k => bool_decide (value (char (Z.of_nat k)) = Some (Z.of_nat k)) &&
            negb (line_break (char (Z.of_nat k)))) (seq 0 64) = true) as H by by vm_compute.
  rewrite forallb_forall in H. specialize (H (Z.to_nat n)).
  rewrite Z2Nat.id in H by lia. rewrite andb_true_iff, bool_decide_eq_true, negb_true_iff in H.
  apply H. apply in_seq. lia.
Qed.

Lemma digits_cons n s : 0 <= n < 64 -> digits (String (char n) s) = l ← digits s; Some (n :: l).
Proof.
  intros Hn. destruct (value_char n Hn) as [Hv Hb]. cbn [digits]. by rewrite Hb, Hv.
Qed.

Lemma triple_ind {A} (P : list A -> Prop) :
  P [] -> (forall a, P [a]) -> (forall a b, P [a; b]) ->
  (forall a b c l, P l -> P (a :: b :: c :: l)) -> forall l, P l.
Proof.
  intros H0 H1 H2 H3. fix IH 1. intros [|a [|b [|c l]]]; [done|apply H1|apply H2|].
  apply H3, IH.
Qed.

(** Splits the range hypotheses of a few bytes, solves a digit's range. *)
Ltac in_range := unfold is_byte in *; dlia.

Lemma decode_encode l : Forall is_byte l -> DecodeString (EncodeToString l) = Some l.
Proof.
  unfold DecodeString. induction l as [|a|a b|a b c l IH] using triple_ind; [done| | |].
  - rewrite !Forall_cons. intros (Ha & _). cbn [EncodeToString].
    rewrite !digits_cons by in_range. cbn. do 2 f_equal. in_range.
  - rewrite !Forall_cons. intros (Ha & Hb & _). cbn [EncodeToString].
    rewrite !digits_cons by in_range. cbn. repeat f_equal; in_range.
  - rewrite !Forall_cons. intros (Ha & Hb & Hc & Hl). cbn [EncodeToString].
    rewrite !digits_cons by in_range. specialize (IH Hl).
    destruct (digits (EncodeToString l)) as [ds|]; [|done]. cbn in *. rewrite IH. cbn.
    repeat f_equal; in_range.
Qed.
