(* ===== verification/Utf8.v ===== *)
(** * UTF-8

    Go's reading of a text as characters, and the repair that package
    encoding/json makes of every string it writes or reads: a byte that is no
    part of a character becomes U+FFFD. *)

From S2P Require Import Prelude Base64.

Local Open Scope Z_scope.

(** ** UTF-8 *)

Definition cont (b : Z) : bool := (128 <=? b) && (b <=? 191).
Definition two (a b : Z) : bool := (194 <=? a) && (a <=? 223) && cont b.
Definition three (a b c : Z) : bool :=
  (224 <=? a) && (a <=? 239) && (if a =? 224 then 160 <=? b else 128 <=? b) &&
  (if a =? 237 then b <=? 159 else b <=? 191) && cont c.
Definition four (a b c d : Z) : bool :=
  (240 <=? a) && (a <=? 244) && (if a =? 240 then 144 <=? b else 128 <=? b) &&
  (if a =? 244 then b <=? 143 else b <=? 191) && cont c && cont d.

(** A text as encoded characters and, as [None], single bytes that start none. *)
Fixpoint runes (l : list Z) : list (option (list Z)) :=
  match l with
  | [] => []
  | a :: l1 =>
      if a <? 128 then Some [a] :: runes l1
      else
        match l1 with
        | [] => None :: runes l1
        | b :: l2 =>
            if two a b then Some [a; b] :: runes l2
            else
              match l2 with
              | [] => None :: runes l1
              | c :: l3 =>
                  if three a b c then Some [a; b; c] :: runes l3
                  else
                    match l3 with
                    | [] => None :: runes l1
                    | d :: l4 =>
                        if four a b c d then Some [a; b; c; d] :: runes l4 else None :: runes l1
                    end
              end
        end
  end.

(** U+FFFD. *)
Definition replacement : list Z := [239; 191; 189].
Definition clean (l : list Z) : list Z := mjoin (default replacement <$> runes l).
Definition clean_string (s : string) : string :=
  GoStrings.string_of (clean (GoStrings.bytes_of s)).
#[global] Arguments clean_string _ : simpl never.
(** [utf8.ValidString]. *)
Definition utf8_valid (s : string) : bool :=
  forallb (fun u => bool_decide (is_Some u)) (runes (GoStrings.bytes_of s)).

(** [utf8.AppendRune]. *)
Definition utf8 (r : Z) : list Z :=
  if r <? 128 then [r]
  else if r <? 2048 then [192 + r / 64; 128 + r mod 64]
  else if r <? 65536 then [224 + r / 4096; 128 + r / 64 mod 64; 128 + r mod 64]
  else [240 + r / 262144; 128 + r / 4096 mod 64; 128 + r / 64 mod 64; 128 + r mod 64].

(** ** Characters *)

Definition is_rune (u : list Z) : bool :=
  match u with
  | [a] => (0 <=? a) && (a <? 128)
  | [a; b] => two a b
  | [a; b; c] => three a b c
  | [a; b; c; d] => four a b c d
  | _ => false
  end.

(** A text is its characters and stray bytes, one after the other. *)
Inductive splits : list Z -> list (option (list Z)) -> Prop :=
| splits_nil : splits [] []
| splits_stray a l us : splits l us -> splits (a :: l) (None :: us)
| splits_rune u l us : is_rune u = true -> splits l us -> splits (u ++ l) (Some u :: us).

Lemma runes_split l : Forall is_byte l -> splits l (runes l).
Proof.
  intros Hl. assert (forall n l, (length l <= n)%nat -> Forall is_byte l -> splits l (runes l)) as H;
    [|by eapply H]. clear l Hl. induction n as [|n IH]; intros l Hn Hl.
  { destruct l; [constructor|cbn in Hn; lia]. }
  destruct l as [|a l]; [constructor|]. cbn in Hn. apply Forall_cons in Hl as [Ha Hl].
  assert (splits (a :: l) (None :: runes l)) as Hstray by (constructor; apply IH; [lia|done]).
  cbn [runes]. destruct (Z.ltb_spec a 128) as [H1|H1].
  { apply (splits_rune [a]); [|apply IH; [lia|done]]. cbn. unfold is_byte in Ha. lia. }
  destruct l as [|b l2]; [done|]. cbn in Hn. apply Forall_cons in Hl as [Hb Hl].
  destruct (two a b) eqn:H2; [apply (splits_rune [a; b]); [done|apply IH; [lia|done]]|].
  destruct l2 as [|c l3]; [done|]. cbn in Hn. apply Forall_cons in Hl as [Hc Hl].
  destruct (three a b c) eqn:H3; [apply (splits_rune [a; b; c]); [done|apply IH; [lia|done]]|].
  destruct l3 as [|d l4]; [done|]. cbn in Hn. apply Forall_cons in Hl as [Hd Hl].
  destruct (four a b c d) eqn:H4; [apply (splits_rune [a; b; c; d]); [done|apply IH; [lia|done]]|].
  done.
Qed.

Lemma cont_range b : cont b = true -> 128 <= b.
Proof. unfold cont. lia. Qed.

Lemma two_range a b : two a b = true -> 194 <= a <= 223 /\ 128 <= b.
Proof. unfold two. rewrite !andb_true_iff. intros (? & ?%cont_range). lia. Qed.

Lemma three_range a b c : three a b c = true -> 224 <= a <= 239 /\ 128 <= b /\ 128 <= c.
Proof.
  unfold three. rewrite !andb_true_iff. intros ((((H1 & H2) & H3) & _) & Hc%cont_range).
  destruct (a =? 224); lia.
Qed.

Lemma four_range a b c d :
  four a b c d = true -> 240 <= a <= 244 /\ 128 <= b /\ 128 <= c /\ 128 <= d.
Proof.
  unfold four. rewrite !andb_true_iff.
  intros (((((H1 & H2) & H3) & _) & Hc%cont_range) & Hd%cont_range). destruct (a =? 240); lia.
Qed.

Lemma rune_high a b u : is_rune (a :: b :: u) = true -> 194 <= a /\ Forall (fun b => 128 <= b) (a :: b :: u).
Proof.
  destruct u as [|c [|d [|]]]; [| | |done]; cbn [is_rune].
  - intros ?%two_range. split; [lia|]. repeat constructor; lia.
  - intros ?%three_range. split; [lia|]. repeat constructor; lia.
  - intros ?%four_range. split; [lia|]. repeat constructor; lia.
Qed.

Lemma runes_rune u l : is_rune u = true -> runes (u ++ l) = Some u :: runes l.
Proof.
  destruct u as [|a [|b u]]; [done| |]; intros Hu.
  - cbn in *. destruct (Z.ltb_spec a 128); [done|]. lia.
  - pose proof (rune_high _ _ _ Hu) as [Ha _].
    destruct u as [|c [|d [|]]]; [| | |done]; cbn [is_rune] in Hu; cbn [app runes];
      destruct (Z.ltb_spec a 128) as [|_]; try lia.
    + by rewrite Hu.
    + pose proof (three_range _ _ _ Hu).
      destruct (two a b) eqn:H2; [apply two_range in H2; lia|]. by rewrite Hu.
    + pose proof (four_range _ _ _ _ Hu).
      destruct (two a b) eqn:H2; [apply two_range in H2; lia|].
      destruct (three a b c) eqn:H3; [apply three_range in H3; lia|]. by rewrite Hu.
Qed.

Lemma runes_join us : Forall (fun u => is_rune u = true) us -> runes (mjoin us) = Some <$> us.
Proof.
  induction 1 as [|u us Hu _ IH]; [done|].
  change (runes (u ++ mjoin us) = Some u :: (Some <$> us)). by rewrite runes_rune, IH.
Qed.

Lemma runes_are_runes l :
  Forall is_byte l -> Forall (fun u => is_rune u = true) (default replacement <$> runes l).
Proof.
  intros Hl. pose proof (runes_split l Hl) as Hs. clear Hl. revert Hs. generalize (runes l).
  induction 1; cbn; by constructor.
Qed.

Lemma mjoin_some (us : list (list Z)) : mjoin (default replacement <$> (Some <$> us)) = mjoin us.
Proof.
  induction us as [|u us IH]; [done|].
  change (u ++ mjoin (default replacement <$> (Some <$> us)) = u ++ mjoin us). by rewrite IH.
Qed.

Lemma clean_clean l : Forall is_byte l -> clean (clean l) = clean l.
Proof.
  intros Hl. unfold clean. rewrite (runes_join (default replacement <$> runes l))
    by by apply runes_are_runes. apply mjoin_some.
Qed.

Lemma clean_valid l : Forall is_byte l -> Forall is_Some (runes l) -> clean l = l.
Proof.
  unfold clean. intros Hl. induction (runes_split l Hl) as [|a l us _ IH|u l us _ _ IH].
  - done.
  - intros [[? ?] _]%Forall_cons. done.
  - intros [_ H]%Forall_cons. change (u ++ mjoin (default replacement <$> us) = u ++ l).
    rewrite IH; [done| |done]. by apply Forall_app in Hl as [_ ?].
Qed.

Lemma clean_string_valid s : utf8_valid s = true -> clean_string s = s.
Proof.
  intros Hs. unfold clean_string. rewrite clean_valid; [apply GoStrings.string_of_bytes|..].
  - apply bytes_of_bytes.
  - unfold utf8_valid in Hs. rewrite forallb_forall in Hs. apply Forall_forall. intros u Hu.
    specialize (Hs u). rewrite bool_decide_eq_true in Hs. by apply Hs, list_elem_of_In.
Qed.

(** ASCII texts are valid. *)
Lemma ascii_valid s : Forall (fun b => b < 128) (GoStrings.bytes_of s) -> utf8_valid s = true.
Proof.
  unfold utf8_valid. induction 1 as [|b l Hb _ IH]; [done|]. cbn [runes].
  by rewrite (proj2 (Z.ltb_lt _ _)) by done.
Qed.

(** ** The repair *)

Lemma rune_bytes u : is_rune u = true -> Forall is_byte u.
Proof.
  destruct u as [|a [|b [|c [|d [|]]]]]; try done; cbn [is_rune]; unfold two, three, four, cont;
    intros Hu; repeat (apply Forall_cons; split; [unfold is_byte; try case_match; try case_match; lia|]);
    apply Forall_nil_2.
Qed.

Lemma clean_bytes l : Forall is_byte l -> Forall is_byte (clean l).
Proof.
  intros Hl. unfold clean. induction (runes_are_runes l Hl) as [|u us Hu _ IH]; [constructor|].
  apply Forall_app. split; [by apply rune_bytes|exact IH].
Qed.

Lemma bytes_of_clean s : GoStrings.bytes_of (clean_string s) = clean (GoStrings.bytes_of s).
Proof. apply GoStrings.bytes_of_string, clean_bytes, bytes_of_bytes. Qed.

(** A repaired text needs no second repair. *)
Lemma clean_string_idem s : clean_string (clean_string s) = clean_string s.
Proof.
  unfold clean_string at 1. rewrite bytes_of_clean, clean_clean by apply bytes_of_bytes. done.
Qed.

Lemma clean_string_is_valid s : utf8_valid (clean_string s) = true.
Proof.
  unfold utf8_valid. rewrite bytes_of_clean. unfold clean.
  rewrite runes_join by apply runes_are_runes, bytes_of_bytes.
  apply forallb_forall. intros u (v & -> & _)%list_elem_of_In%list_elem_of_fmap.
  by apply bool_decide_eq_true.
Qed.

Lemma splits_nonempty l us : splits l us -> mjoin (default replacement <$> us) = [] -> l = [].
Proof. intros [|a l' us' _|u l' us' Hu _]; [done|done|]. by destruct u. Qed.

(** Only the empty text is repaired to the empty text. *)
Lemma clean_string_empty s : String.eqb (clean_string s) "" = String.eqb s "".
Proof.
  destruct s as [|c s]; [done|]. destruct (String.eqb_spec (clean_string (String c s)) "") as [E|];
    [exfalso|done].
  pose proof (bytes_of_clean (String c s)) as Hb. rewrite E in Hb. symmetry in Hb.
  apply (splits_nonempty _ _ (runes_split _ (bytes_of_bytes _))) in Hb. done.
Qed.
