(* ===== verification/Json.v ===== *)
(** * encoding/json on the domain model

    The repository stores a deposit as a JSON document: [json.Marshal] on
    every write, [json.Unmarshal] on every read.  The two are modelled on JSON
    documents (not on their text): a document is a tree, numbers keep the
    float64 they print and parse as, and an RFC 3339 timestamp is its instant.

    A codec pairs an encoder, which fails where [Marshal] does (infinite and
    NaN floats, years outside 0..9999), with a decoder, which fails where
    [Unmarshal] does (a value of another kind).  Struct codecs are built field
    by field from the struct tags, [omitempty] included; the law of a codec is
    its round trip, up to [vnorm]: a write and a read change a negative zero
    in an [omitempty] field, which [omitempty] drops, and a text that is no
    UTF-8, which both repair. *)

From Stdlib Require Import Floats.SpecFloat.
From S2P Require Import Prelude Float64 Calendar Models Utf8.

Local Open Scope Z_scope.

Inductive json :=
| JNull
| JBool (b : bool)
| JFloat (x : float64)
| JInt (n : Z)
| JTime (t : instant)
| JStr (s : string)
| JArr (l : list json)
| JObj (l : list (string * json)).

Abbreviation members := (list (string * json)).

(** ** Value codecs *)

Record vcodec (A : Type) := {
  venc : A -> option json;         (* [None]: Marshal returns an error *)
  vdec : json -> option A;         (* [None]: Unmarshal returns an error *)
  vzero : A;                       (* the zero value *)
  vempty : A -> bool;              (* what [omitempty] drops *)
  vnorm : A -> A }.
Arguments venc {A}. Arguments vdec {A}. Arguments vzero {A}.
Arguments vempty {A}. Arguments vnorm {A}.

Class VCodec {A} (c : vcodec A) : Prop := {
  vdec_venc a j : venc c a = Some j -> vdec c j = Some (vnorm c a);
  venc_not_null a j : venc c a = Some j -> j <> JNull;
  vdec_null : vdec c JNull = Some (vzero c);
  vzero_norm : vnorm c (vzero c) = vzero c;
  venc_norm a : venc c (vnorm c a) = venc c a;
  vnorm_norm a : vnorm c (vnorm c a) = vnorm c a;
  vempty_norm a : vempty c (vnorm c a) = vempty c a;
  vempty_zero a : vempty c a = true -> vempty c (vzero c) = true }.

(** Both directions write U+FFFD for a byte that is no part of a character. *)
Definition string_codec : vcodec string :=
  {| venc s := Some (JStr (clean_string s));
     vdec j := match j with JStr s => Some (clean_string s) | JNull => Some "" | _ => None end;
     vzero := ""; vempty s := String.eqb s ""; vnorm := clean_string |}.

Definition bool_codec : vcodec bool :=
  {| venc b := Some (JBool b);
     vdec j := match j with JBool b => Some b | JNull => Some false | _ => None end;
     vzero := false; vempty b := negb b; vnorm b := b |}.

(** An integer read into a float field, and a float never into an int field:
    the server writes ints only from int fields. *)
Definition int_codec : vcodec Z :=
  {| venc n := Some (JInt n);
     vdec j := match j with JInt n => Some n | JNull => Some 0 | _ => None end;
     vzero := 0; vempty n := n =? 0; vnorm n := n |}.

Definition float_codec : vcodec float64 :=
  {| venc x := if f64_finite x then Some (JFloat x) else None;
     vdec j := match j with
               | JFloat x => Some x
               | JInt n => Some (f64_of_Z n)
               | JNull => Some f64_zero
               | _ => None
               end;
     vzero := f64_zero;
     vempty x := match x with S754_zero _ => true | _ => false end;
     vnorm x := x |}.

(** [time.Time.MarshalJSON] refuses a year outside [0,9999]. *)
Definition time_codec : vcodec instant :=
  {| venc t := let y := year (date_of t) in
               if (0 <=? y) && (y <? 10000) then Some (JTime t) else None;
     vdec j := match j with JTime t => Some t | JNull => Some zero_time | _ => None end;
     vzero := zero_time; vempty _ := false; vnorm t := t |}.

Definition list_codec {A} (c : vcodec A) : vcodec (list A) :=
  {| venc l := JArr <$> mapM (venc c) l;
     vdec j := match j with
               | JArr l => mapM (vdec c) l
               | JNull => Some []
               | _ => None
               end;
     vzero := []; vempty l := match l with [] => true | _ => false end;
     vnorm := map (vnorm c) |}.

(** A pointer field: [nil] is [null], which [omitempty] drops. *)
Definition ptr_enc {A} (c : vcodec A) (o : option A) : option json :=
  match o with None => Some JNull | Some a => venc c a end.
Definition ptr_dec {A} (c : vcodec A) (j : json) : option (option A) :=
  match j with JNull => Some None | _ => Some <$> vdec c j end.

#[export] Instance string_codec_law : VCodec string_codec.
Proof.
  split; try done; cbn -[clean_string]; try by intros ? ? [= <-].
  - intros a j [= <-]. cbn -[clean_string]. by rewrite clean_string_idem.
  - intros a. by rewrite clean_string_idem.
  - apply clean_string_idem.
  - apply clean_string_empty.
Qed.
#[export] Instance bool_codec_law : VCodec bool_codec.
Proof. split; try done; by intros ? ? [= <-]. Qed.
#[export] Instance int_codec_law : VCodec int_codec.
Proof. split; try done; by intros ? ? [= <-]. Qed.
#[export] Instance float_codec_law : VCodec float_codec.
Proof. split; try done; intros ? ?; cbn; case_match; try done; by intros [= <-]. Qed.
#[export] Instance time_codec_law : VCodec time_codec.
Proof. split; try done; intros ? ?; cbn; case_match; try done; by intros [= <-]. Qed.

#[export] Instance list_codec_law {A} (c : vcodec A) : VCodec c -> VCodec (list_codec c).
Proof.
  intros Hc. split; try done; cbn.
  - intros l j (js & Hjs & ->)%fmap_Some. revert js Hjs.
    induction l as [|a l IH]; intros js; cbn; [by intros [= <-]|].
    intros (j & Hj & (js' & Hjs' & [= <-])%bind_Some)%bind_Some. cbn.
    rewrite (vdec_venc _ _ Hj). cbn. by rewrite (IH js').
  - by intros l j (js & _ & ->)%fmap_Some.
  - intros l. f_equal. induction l as [|a l IH]; cbn; [done|].
    rewrite venc_norm. by rewrite IH.
  - intros l. rewrite map_map. apply map_ext, vnorm_norm.
  - by intros [].
Qed.

(** ** Struct codecs

    [fenc] lists the members a value is written as; [fdec] reads them back
    from the members of an object, where other fields may surround them. *)

(** The last member named [n]: a later duplicate overwrites. *)
Fixpoint member (n : string) (l : members) : option json :=
  match l with
  | [] => None
  | (m, j) :: l =>
      match member n l with
      | Some j' => Some j'
      | None => if String.eqb m n then Some j else None
      end
  end.

Record fcodec (A : Type) := {
  fnames : list string;
  fenc : A -> option members;
  fdec : members -> option A;
  fzero : A;
  fnorm : A -> A }.
Arguments fnames {A}. Arguments fenc {A}. Arguments fdec {A}.
Arguments fzero {A}. Arguments fnorm {A}.

Definition off_names (ns : list string) (l : members) : Prop :=
  forall m, m ∈ l.*1 -> m ∉ ns.

Class FCodec {A} (c : fcodec A) : Prop := {
  fenc_names a l : fenc c a = Some l -> forall m, m ∈ l.*1 -> m ∈ fnames c;
  fdec_fenc a l l1 l2 :
    fenc c a = Some l -> off_names (fnames c) l1 -> off_names (fnames c) l2 ->
    fdec c (l1 ++ l ++ l2) = Some (fnorm c a);
  fzero_norm : fnorm c (fzero c) = fzero c;
  fenc_norm a : fenc c (fnorm c a) = fenc c a;
  fnorm_norm a : fnorm c (fnorm c a) = fnorm c a }.

Lemma member_app n l1 l2 :
  member n (l1 ++ l2) = match member n l2 with Some j => Some j | None => member n l1 end.
Proof.
  induction l1 as [|[m j] l1 IH]; cbn; [by destruct (member n l2)|].
  rewrite IH. by destruct (member n l2).
Qed.

Lemma member_off n l : n ∉ l.*1 -> member n l = None.
Proof.
  induction l as [|[m j] l IH]; cbn; [done|].
  rewrite not_elem_of_cons. intros [Hne Hl]. rewrite IH by done.
  case_match eqn:E; [|done]. apply String.eqb_eq in E. congruence.
Qed.

Definition field {A} (n : string) (c : vcodec A) : fcodec A :=
  {| fnames := [n];
     fenc a := (fun j => [(n, j)]) <$> venc c a;
     fdec l := match member n l with None => Some (vzero c) | Some j => vdec c j end;
     fzero := vzero c; fnorm := vnorm c |}.

(** [`json:"n,omitempty"`]. *)
Definition field_omit {A} (n : string) (c : vcodec A) : fcodec A :=
  {| fnames := [n];
     fenc a := if vempty c a then Some [] else (fun j => [(n, j)]) <$> venc c a;
     fdec l := match member n l with None => Some (vzero c) | Some j => vdec c j end;
     fzero := vzero c;
     fnorm a := if vempty c a then vzero c else vnorm c a |}.

(** A pointer field, [`json:"n,omitempty"`]. *)
Definition field_ptr {A} (n : string) (c : vcodec A) : fcodec (option A) :=
  {| fnames := [n];
     fenc o := match o with
               | None => Some []
               | Some a => (fun j => [(n, j)]) <$> venc c a
               end;
     fdec l := match member n l with None => Some None | Some j => ptr_dec c j end;
     fzero := None;
     fnorm o := vnorm c <$> o |}.

Definition fpair {A B} (c1 : fcodec A) (c2 : fcodec B) : fcodec (A * B) :=
  {| fnames := fnames c1 ++ fnames c2;
     fenc p := l1 ← fenc c1 p.1; l2 ← fenc c2 p.2; Some (l1 ++ l2);
     fdec l := a ← fdec c1 l; b ← fdec c2 l; Some (a, b);
     fzero := (fzero c1, fzero c2);
     fnorm p := (fnorm c1 p.1, fnorm c2 p.2) |}.

Definition fiso {A B} (f : A -> B) (g : B -> A) (c : fcodec A) : fcodec B :=
  {| fnames := fnames c;
     fenc b := fenc c (g b);
     fdec l := f <$> fdec c l;
     fzero := f (fzero c);
     fnorm b := f (fnorm c (g b)) |}.

(** A struct as a value; a struct is never empty for [omitempty]. *)
Definition struct_codec {A} (c : fcodec A) : vcodec A :=
  {| venc a := JObj <$> fenc c a;
     vdec j := match j with
               | JObj l => fdec c l
               | JNull => Some (fzero c)
               | _ => None
               end;
     vzero := fzero c; vempty _ := false; vnorm := fnorm c |}.

Lemma member_single n j l1 l2 :
  off_names [n] l2 -> member n (l1 ++ [(n, j)] ++ l2) = Some j.
Proof.
  intros H2. rewrite !member_app. rewrite (member_off n l2).
  - cbn. by rewrite String.eqb_refl.
  - intros Hin. by apply (H2 n Hin), list_elem_of_singleton.
Qed.

Lemma member_none n l1 l2 :
  off_names [n] l1 -> off_names [n] l2 -> member n (l1 ++ [] ++ l2) = None.
Proof.
  intros H1 H2.
  assert (forall l, off_names [n] l -> n ∉ l.*1) as Hoff
    by (intros l Hl Hin; by apply (Hl n Hin), list_elem_of_singleton).
  by rewrite !member_app, (member_off n l1), (member_off n l2) by by apply Hoff.
Qed.

Lemma single_names (n : string) (j : json) (m : string) : m ∈ [(n, j)].*1 -> m ∈ [n].
Proof. done. Qed.

Lemma nil_names (m : string) (ns : list string) : m ∈ ([] : members).*1 -> m ∈ ns.
Proof. by intros ?%elem_of_nil. Qed.

#[export] Instance field_law {A} n (c : vcodec A) : VCodec c -> FCodec (field n c).
Proof.
  intros Hc. split; cbn.
  - intros a l (j & Hj & ->)%fmap_Some m. apply single_names.
  - intros a l l1 l2 (j & Hj & ->)%fmap_Some H1 H2.
    rewrite member_single by done. by apply vdec_venc.
  - apply vzero_norm.
  - intros a. by rewrite venc_norm.
  - apply vnorm_norm.
Qed.

#[export] Instance field_omit_law {A} n (c : vcodec A) :
  VCodec c -> FCodec (field_omit n c).
Proof.
  intros Hc. split; cbn.
  - intros a l Hl m. case_match; [injection Hl as <-; apply nil_names|].
    apply fmap_Some in Hl as (j & Hj & ->). apply single_names.
  - intros a l l1 l2 Hl H1 H2. case_match.
    + injection Hl as <-. by rewrite member_none.
    + apply fmap_Some in Hl as (j & Hj & ->).
      rewrite member_single by done. by apply vdec_venc.
  - case_match; [done|]. apply vzero_norm.
  - intros a. destruct (vempty c a) eqn:E.
    + by rewrite (vempty_zero _ E).
    + by rewrite vempty_norm, E, venc_norm.
  - intros a. destruct (vempty c a) eqn:E.
    + by rewrite (vempty_zero _ E).
    + by rewrite vempty_norm, E, vnorm_norm.
Qed.

#[export] Instance field_ptr_law {A} n (c : vcodec A) : VCodec c -> FCodec (field_ptr n c).
Proof.
  intros Hc. split; cbn.
  - intros [a|] l Hl m; [|injection Hl as <-; apply nil_names].
    apply fmap_Some in Hl as (j & Hj & ->). apply single_names.
  - intros [a|] l l1 l2 Hl H1 H2.
    + apply fmap_Some in Hl as (j & Hj & ->). rewrite member_single by done.
      pose proof (venc_not_null _ _ Hj). unfold ptr_dec.
      rewrite (vdec_venc _ _ Hj). by destruct j.
    + injection Hl as <-. by rewrite member_none.
  - done.
  - intros [a|]; cbn; [by rewrite venc_norm|done].
  - intros [a|]; cbn; [by rewrite vnorm_norm|done].
Qed.

Definition disjoint_names (l1 l2 : list string) : bool :=
  forallb (fun n => negb (existsb (String.eqb n) l2)) l1.

Lemma disjoint_names_spec l1 l2 :
  disjoint_names l1 l2 = true -> forall n, n ∈ l1 -> n ∉ l2.
Proof.
  unfold disjoint_names. rewrite forallb_forall. intros H n H1%list_elem_of_In%H H2.
  apply negb_true_iff in H1. apply not_true_iff_false in H1. apply H1.
  apply existsb_exists. exists n. by rewrite String.eqb_refl, <-list_elem_of_In.
Qed.

Lemma fpair_law {A B} (c1 : fcodec A) (c2 : fcodec B) :
  FCodec c1 -> FCodec c2 -> disjoint_names (fnames c1) (fnames c2) = true ->
  FCodec (fpair c1 c2).
Proof.
  intros H1 H2 Hdis. pose proof (disjoint_names_spec _ _ Hdis) as Hd. split; cbn.
  - intros [a b] l (l1 & E1 & (l2 & E2 & [= <-])%bind_Some)%bind_Some m.
    rewrite fmap_app, !elem_of_app.
    intros [Hm|Hm]; [left; by eapply fenc_names in E1|right; by eapply fenc_names in E2].
  - intros [a b] l k1 k2 (l1 & E1 & (l2 & E2 & [= <-])%bind_Some)%bind_Some Hk1 Hk2.
    cbn in *. pose proof (fenc_names _ _ E1) as N1. pose proof (fenc_names _ _ E2) as N2.
    rewrite <-app_assoc. rewrite (fdec_fenc a l1 k1 (l2 ++ k2) E1); cbn.
    + rewrite (app_assoc k1 l1), (fdec_fenc b l2 (k1 ++ l1) k2 E2); [done| |].
      * intros m. rewrite fmap_app, elem_of_app. intros [Hm|Hm].
        -- intros Hin. apply (Hk1 m Hm). rewrite elem_of_app. by right.
        -- by apply Hd, N1.
      * intros m Hm Hin. apply (Hk2 m Hm). rewrite elem_of_app. by right.
    + intros m Hm Hin. apply (Hk1 m Hm). rewrite elem_of_app. by left.
    + intros m. rewrite fmap_app, elem_of_app. intros [Hm|Hm] Hin.
      * by apply (Hd m Hin), N2.
      * apply (Hk2 m Hm). rewrite elem_of_app. by left.
  - by rewrite !fzero_norm.
  - intros [a b]; cbn. by rewrite !fenc_norm.
  - intros [a b]; cbn. by rewrite !fnorm_norm.
Qed.

Lemma fiso_law {A B} (f : A -> B) (g : B -> A) (c : fcodec A) :
  FCodec c -> (forall a, g (f a) = a) -> FCodec (fiso f g c).
Proof.
  intros Hc Hgf. split; cbn.
  - intros b l. apply fenc_names.
  - intros b l l1 l2 Hl H1 H2. by rewrite (fdec_fenc (g b) l l1 l2).
  - by rewrite Hgf, fzero_norm.
  - intros b. by rewrite Hgf, fenc_norm.
  - intros b. by rewrite Hgf, fnorm_norm.
Qed.

#[export] Instance struct_codec_law {A} (c : fcodec A) : FCodec c -> VCodec (struct_codec c).
Proof.
  intros Hc. split; cbn.
  - intros a j (l & Hl & ->)%fmap_Some. pose proof (fdec_fenc a l [] [] Hl) as H.
    rewrite app_nil_l, app_nil_r in H. apply H; intros m Hm; by apply elem_of_nil in Hm.
  - by intros a j (l & Hl & ->)%fmap_Some.
  - done.
  - apply fzero_norm.
  - intros a. by rewrite fenc_norm.
  - apply fnorm_norm.
  - done.
  - done.
Qed.

(** ** Which values can be stored

    PostgreSQL takes a document as [JSONB] unless it holds the character
    U+0000. *)

Definition no_zero (s : string) : bool :=
  forallb (fun b => negb (b =? 0)) (GoStrings.bytes_of s).
#[global] Arguments no_zero _ : simpl never.

Fixpoint jsonb_ok (j : json) : bool :=
  match j with
  | JStr s => no_zero s
  | JArr l => forallb jsonb_ok l
  | JObj l => forallb (fun m => no_zero m.1 && jsonb_ok m.2) l
  | _ => true
  end.
Definition jsonb_members (l : members) : bool :=
  forallb (fun m => no_zero m.1 && jsonb_ok m.2) l.

(** A value that can be marshalled, and stored as a document. *)
Definition writes {A} (c : vcodec A) (a : A) : Prop :=
  exists j, venc c a = Some j /\ jsonb_ok j = true.
Definition fwrites {A} (c : fcodec A) (a : A) : Prop :=
  exists l, fenc c a = Some l /\ jsonb_members l = true.

Lemma writes_string s : writes string_codec s <-> no_zero (clean_string s) = true.
Proof.
  split; [by intros (j & [= <-] & Hj)|]. intros Hs. by eexists.
Qed.

Lemma writes_list {A} (c : vcodec A) l : writes (list_codec c) l <-> Forall (writes c) l.
Proof.
  unfold writes. cbn. split.
  - intros (j & (js & Hjs%mapM_Some & ->)%fmap_Some & Hok). cbn in Hok. revert Hok.
    induction Hjs as [|a j l js Hj _ IH]; cbn; [by constructor|].
    rewrite andb_true_iff. intros [Ho Hok]. constructor; [by exists j|by apply IH].
  - induction 1 as [|a l (j & Hj & Ho) _ (j' & (js & Hjs & ->)%fmap_Some & Hok)]; [by exists (JArr [])|].
    exists (JArr (j :: js)). cbn. rewrite Hj. cbn. rewrite Hjs. cbn in Hok |- *. by rewrite Ho.
Qed.

Lemma writes_single {A} n (c : vcodec A) a :
  no_zero n = true ->
  (exists l, (fun j => [(n, j)]) <$> venc c a = Some l /\ jsonb_members l = true) <-> writes c a.
Proof.
  intros Hn. split.
  - intros (l & (j & Hj & ->)%fmap_Some & Ho). exists j. split; [done|].
    cbn in Ho. rewrite Hn in Ho. cbn in Ho. by rewrite andb_true_r in Ho.
  - intros (j & -> & Ho). eexists. split; [done|]. cbn. by rewrite Hn, Ho.
Qed.

Lemma fwrites_field {A} n (c : vcodec A) a :
  no_zero n = true -> fwrites (field n c) a <-> writes c a.
Proof. apply writes_single. Qed.

Lemma fwrites_omit {A} n (c : vcodec A) a :
  no_zero n = true -> fwrites (field_omit n c) a <-> vempty c a = true \/ writes c a.
Proof.
  intros Hn. unfold fwrites. cbn. destruct (vempty c a).
  - split; [by left|]. intros _. by exists [].
  - rewrite writes_single by done. naive_solver.
Qed.

Lemma fwrites_ptr {A} n (c : vcodec A) o :
  no_zero n = true -> fwrites (field_ptr n c) o <-> (forall a, o = Some a -> writes c a).
Proof.
  intros Hn. unfold fwrites. cbn. destruct o as [a|].
  - rewrite writes_single by done. naive_solver.
  - split; [done|]. intros _. by exists [].
Qed.

Lemma fwrites_pair {A B} (c1 : fcodec A) (c2 : fcodec B) p :
  fwrites (fpair c1 c2) p <-> fwrites c1 p.1 /\ fwrites c2 p.2.
Proof.
  unfold fwrites, jsonb_members. cbn. split.
  - intros (l & (l1 & E1 & (l2 & E2 & [= <-])%bind_Some)%bind_Some & Ho).
    rewrite forallb_app, andb_true_iff in Ho. destruct Ho. split; [by exists l1|by exists l2].
  - intros [(l1 & E1 & O1) (l2 & E2 & O2)]. rewrite E1, E2. eexists. split; [done|].
    by rewrite forallb_app, O1, O2.
Qed.

Lemma writes_struct {A B} (f : A -> B) (g : B -> A) (c : fcodec A) b :
  writes (struct_codec (fiso f g c)) b <-> fwrites c (g b).
Proof.
  split.
  - intros (j & (l & Hl & ->)%fmap_Some & Ho). by exists l.
  - intros (l & Hl & Ho). exists (JObj l). cbn. by rewrite Hl.
Qed.
