(* ===== verification/JsonModels.v ===== *)
(** * The JSON form of the domain model

    The codec of every struct of [internal/models/deposit.go], read off its
    struct tags: member names, [omitempty], pointers and slices.  [marshal] and
    [unmarshal] are [json.Marshal] and [json.Unmarshal] on a deposit; the
    repository uses nothing else of this file. *)

From Stdlib Require Import Floats.SpecFloat.
From S2P Require Import Prelude Float64 Calendar Models Utf8 Json.

Notation "a ⊗ b" := (fpair a b) (at level 60, right associativity).

(** A struct's law: the fields' laws and the disjointness of their names. *)
Ltac solve_fields :=
  repeat (apply fpair_law; [apply _| |reflexivity]); apply _.
Ltac solve_struct :=
  apply struct_codec_law, fiso_law;
  [solve_fields | intros; repeat match goal with p : (_ * _)%type |- _ => destruct p end;
                  reflexivity].

Definition Address_fields :=
  field "street" string_codec ⊗
  field "zip" string_codec ⊗
  field "city" string_codec ⊗
  field "country" string_codec.
Definition Address_codec : vcodec Address :=
  struct_codec (fiso
    (fun '(x1, (x2, (x3, x4))) => Build_Address x1 x2 x3 x4)
    (fun x => (Address_Street x, (Address_ZIP x, (Address_City x, Address_Country
      x))))
    Address_fields).
#[export] Instance Address_codec_law : VCodec Address_codec.
Proof. solve_struct. Qed.

Definition WalletMetadata_fields :=
  field_omit "issuer" string_codec ⊗
  field_omit "issuer_id" string_codec ⊗
  field_omit "wallet_provider" string_codec ⊗
  field_omit "credential_type" string_codec ⊗
  field_omit "credential_format" string_codec ⊗
  field_omit "assurance_level" string_codec ⊗
  field_omit "presentation_id" string_codec ⊗
  field_omit "issuing_country" string_codec ⊗
  field_omit "verified_at" string_codec ⊗
  field_omit "expires_at" string_codec.
Definition WalletMetadata_codec : vcodec WalletMetadata :=
  struct_codec (fiso
    (fun '(x1, (x2, (x3, (x4, (x5, (x6, (x7, (x8, (x9, x10))))))))) =>
      Build_WalletMetadata x1 x2 x3 x4 x5 x6 x7 x8 x9 x10)
    (fun x => (WalletMetadata_Issuer x, (WalletMetadata_IssuerID x,
      (WalletMetadata_WalletProvider x, (WalletMetadata_CredentialType x,
      (WalletMetadata_CredentialFormat x, (WalletMetadata_AssuranceLevel x,
      (WalletMetadata_PresentationID x, (WalletMetadata_IssuingCountry x,
      (WalletMetadata_VerifiedAt x, WalletMetadata_ExpiresAt x))))))))))
    WalletMetadata_fields).
#[export] Instance WalletMetadata_codec_law : VCodec WalletMetadata_codec.
Proof. solve_struct. Qed.

Definition Tenant_fields :=
  field "first_name" string_codec ⊗
  field "last_name" string_codec ⊗
  field "email" string_codec ⊗
  field_omit "tax_id" string_codec ⊗
  field_omit "eid_status" string_codec ⊗
  field_ptr "wallet_metadata" WalletMetadata_codec ⊗
  field_ptr "address" Address_codec.
Definition Tenant_codec : vcodec Tenant :=
  struct_codec (fiso
    (fun '(x1, (x2, (x3, (x4, (x5, (x6, x7)))))) => Build_Tenant x1 x2 x3 x4 x5 x6 x7)
    (fun x => (Tenant_FirstName x, (Tenant_LastName x, (Tenant_Email x, (Tenant_TaxID
      x, (Tenant_EIDStatus x, (Tenant_WalletMetadata x, Tenant_Address x)))))))
    Tenant_fields).
#[export] Instance Tenant_codec_law : VCodec Tenant_codec.
Proof. solve_struct. Qed.

Definition Landlord_fields :=
  field "name" string_codec ⊗
  field_omit "type" string_codec ⊗
  field_omit "iban" string_codec.
Definition Landlord_codec : vcodec Landlord :=
  struct_codec (fiso
    (fun '(x1, (x2, x3)) => Build_Landlord x1 x2 x3)
    (fun x => (Landlord_Name x, (Landlord_Type x, Landlord_IBAN x)))
    Landlord_fields).
#[export] Instance Landlord_codec_law : VCodec Landlord_codec.
Proof. solve_struct. Qed.

Definition Property_fields :=
  field "address" Address_codec ⊗
  field_omit "unit_id" string_codec.
Definition Property_codec : vcodec Property :=
  struct_codec (fiso
    (fun '(x1, x2) => Build_Property x1 x2)
    (fun x => (Property_Address x, Property_UnitID x))
    Property_fields).
#[export] Instance Property_codec_law : VCodec Property_codec.
Proof. solve_struct. Qed.

Definition HistoryEntry_fields :=
  field "state" string_codec ⊗
  field "timestamp" time_codec ⊗
  field_omit "actor" string_codec ⊗
  field_omit "comment" string_codec ⊗
  field_omit "signature" string_codec.
Definition HistoryEntry_codec : vcodec HistoryEntry :=
  struct_codec (fiso
    (fun '(x1, (x2, (x3, (x4, x5)))) => Build_HistoryEntry x1 x2 x3 x4 x5)
    (fun x => (HistoryEntry_State x, (HistoryEntry_Timestamp x, (HistoryEntry_Actor x,
      (HistoryEntry_Comment x, HistoryEntry_Signature x)))))
    HistoryEntry_fields).
#[export] Instance HistoryEntry_codec_law : VCodec HistoryEntry_codec.
Proof. solve_struct. Qed.

Definition InstallmentScheduleEntry_fields :=
  field "installment_number" int_codec ⊗
  field "due_date" string_codec ⊗
  field_omit "paid_date" string_codec ⊗
  field_omit "amount" float_codec.
Definition InstallmentScheduleEntry_codec : vcodec InstallmentScheduleEntry :=
  struct_codec (fiso
    (fun '(x1, (x2, (x3, x4))) => Build_InstallmentScheduleEntry x1 x2 x3 x4)
    (fun x => (InstallmentScheduleEntry_InstallmentNumber x,
      (InstallmentScheduleEntry_DueDate x, (InstallmentScheduleEntry_PaidDate x,
      InstallmentScheduleEntry_Amount x))))
    InstallmentScheduleEntry_fields).
#[export] Instance InstallmentScheduleEntry_codec_law : VCodec InstallmentScheduleEntry_codec.
Proof. solve_struct. Qed.

Definition InstallmentPlan_fields :=
  field "total_installments" int_codec ⊗
  field_omit "installment_amount" float_codec ⊗
  field_omit "schedule" (list_codec InstallmentScheduleEntry_codec).
Definition InstallmentPlan_codec : vcodec InstallmentPlan :=
  struct_codec (fiso
    (fun '(x1, (x2, x3)) => Build_InstallmentPlan x1 x2 x3)
    (fun x => (InstallmentPlan_TotalInstallments x, (InstallmentPlan_InstallmentAmount
      x, InstallmentPlan_Schedule x)))
    InstallmentPlan_fields).
#[export] Instance InstallmentPlan_codec_law : VCodec InstallmentPlan_codec.
Proof. solve_struct. Qed.

Definition DepositData_fields :=
  field "amount" float_codec ⊗
  field "currency" string_codec ⊗
  field "type" string_codec ⊗
  field "lifecycle_state" string_codec ⊗
  field_omit "history" (list_codec HistoryEntry_codec) ⊗
  field_ptr "installment_plan" InstallmentPlan_codec.
Definition DepositData_codec : vcodec DepositData :=
  struct_codec (fiso
    (fun '(x1, (x2, (x3, (x4, (x5, x6))))) => Build_DepositData x1 x2 x3 x4 x5 x6)
    (fun x => (DepositData_Amount x, (DepositData_Currency x, (DepositData_Type x,
      (DepositData_LifecycleState x, (DepositData_History x, DepositData_InstallmentPlan
      x))))))
    DepositData_fields).
#[export] Instance DepositData_codec_law : VCodec DepositData_codec.
Proof. solve_struct. Qed.

Definition Pledge_fields :=
  field_omit "pledge_date" string_codec ⊗
  field_omit "statutory_basis" string_codec ⊗
  field "is_confirmed_by_bank" bool_codec.
Definition Pledge_codec : vcodec Pledge :=
  struct_codec (fiso
    (fun '(x1, (x2, x3)) => Build_Pledge x1 x2 x3)
    (fun x => (Pledge_PledgeDate x, (Pledge_StatutoryBasis x, Pledge_IsConfirmedByBank
      x)))
    Pledge_fields).
#[export] Instance Pledge_codec_law : VCodec Pledge_codec.
Proof. solve_struct. Qed.

Definition InterestRateEntry_fields :=
  field "rate" float_codec ⊗
  field "effective_from" string_codec ⊗
  field_omit "effective_to" string_codec.
Definition InterestRateEntry_codec : vcodec InterestRateEntry :=
  struct_codec (fiso
    (fun '(x1, (x2, x3)) => Build_InterestRateEntry x1 x2 x3)
    (fun x => (InterestRateEntry_Rate x, (InterestRateEntry_EffectiveFrom x,
      InterestRateEntry_EffectiveTo x)))
    InterestRateEntry_fields).
#[export] Instance InterestRateEntry_codec_law : VCodec InterestRateEntry_codec.
Proof. solve_struct. Qed.

Definition Trusteeship_fields :=
  field_omit "account_type" string_codec ⊗
  field_omit "trustee_entity" string_codec ⊗
  field_omit "trust_account_iban" string_codec ⊗
  field "insolvency_protection_confirmed" bool_codec ⊗
  field_omit "insolvency_protection_confirmed_date" string_codec ⊗
  field_omit "statutory_basis" string_codec ⊗
  field_omit "interest_rate" float_codec ⊗
  field_omit "interest_rate_history" (list_codec InterestRateEntry_codec) ⊗
  field_omit "accrued_interest" float_codec ⊗
  field_omit "interest_calculated_at" string_codec ⊗
  field_omit "total_balance" float_codec.
Definition Trusteeship_codec : vcodec Trusteeship :=
  struct_codec (fiso
    (fun '(x1, (x2, (x3, (x4, (x5, (x6, (x7, (x8, (x9, (x10, x11)))))))))) =>
      Build_Trusteeship x1 x2 x3 x4 x5 x6 x7 x8 x9 x10 x11)
    (fun x => (Trusteeship_AccountType x, (Trusteeship_TrusteeEntity x,
      (Trusteeship_TrustAccountIBAN x, (Trusteeship_InsolvencyProtectionConfirmed x,
      (Trusteeship_InsolvencyProtectionConfirmedDate x, (Trusteeship_StatutoryBasis x,
      (Trusteeship_InterestRate x, (Trusteeship_InterestRateHistory x,
      (Trusteeship_AccruedInterest x, (Trusteeship_InterestCalculatedAt x,
      Trusteeship_TotalBalance x)))))))))))
    Trusteeship_fields).
#[export] Instance Trusteeship_codec_law : VCodec Trusteeship_codec.
Proof. solve_struct. Qed.

Definition Provider_fields :=
  field "provider_type" string_codec ⊗
  field "executing_entity" string_codec ⊗
  field_omit "brand_name" string_codec ⊗
  field_omit "provider_id" string_codec ⊗
  field_omit "insurance_policy_number" string_codec.
Definition Provider_codec : vcodec Provider :=
  struct_codec (fiso
    (fun '(x1, (x2, (x3, (x4, x5)))) => Build_Provider x1 x2 x3 x4 x5)
    (fun x => (Provider_ProviderType x, (Provider_ExecutingEntity x,
      (Provider_BrandName x, (Provider_ProviderID x, Provider_InsurancePolicyNumber
      x)))))
    Provider_fields).
#[export] Instance Provider_codec_law : VCodec Provider_codec.
Proof. solve_struct. Qed.

Definition Meta_fields :=
  field "version" string_codec ⊗
  field "timestamp" time_codec ⊗
  field_omit "external_id" string_codec.
Definition Meta_codec : vcodec Meta :=
  struct_codec (fiso
    (fun '(x1, (x2, x3)) => Build_Meta x1 x2 x3)
    (fun x => (Meta_Version x, (Meta_Timestamp x, Meta_ExternalID x)))
    Meta_fields).
#[export] Instance Meta_codec_law : VCodec Meta_codec.
Proof. solve_struct. Qed.

Definition EBICSBTF_fields :=
  field "service_name" string_codec ⊗
  field_omit "service_option" string_codec ⊗
  field_omit "scope" string_codec ⊗
  field_omit "container" string_codec ⊗
  field "msg_name" string_codec ⊗
  field_omit "msg_version" string_codec.
Definition EBICSBTF_codec : vcodec EBICSBTF :=
  struct_codec (fiso
    (fun '(x1, (x2, (x3, (x4, (x5, x6))))) => Build_EBICSBTF x1 x2 x3 x4 x5 x6)
    (fun x => (EBICSBTF_ServiceName x, (EBICSBTF_ServiceOption x, (EBICSBTF_Scope x,
      (EBICSBTF_Container x, (EBICSBTF_MsgName x, EBICSBTF_MsgVersion x))))))
    EBICSBTF_fields).
#[export] Instance EBICSBTF_codec_law : VCodec EBICSBTF_codec.
Proof. solve_struct. Qed.

Definition EBICSMetadata_fields :=
  field "host_id" string_codec ⊗
  field "partner_id" string_codec ⊗
  field "user_id" string_codec ⊗
  field "ebics_version" string_codec ⊗
  field "bank_url" string_codec ⊗
  field_omit "order_type" string_codec ⊗
  field_ptr "btf" EBICSBTF_codec ⊗
  field_omit "signature_class" string_codec ⊗
  field_omit "bank_bic" string_codec.
Definition EBICSMetadata_codec : vcodec EBICSMetadata :=
  struct_codec (fiso
    (fun '(x1, (x2, (x3, (x4, (x5, (x6, (x7, (x8, x9)))))))) => Build_EBICSMetadata x1
      x2 x3 x4 x5 x6 x7 x8 x9)
    (fun x => (EBICSMetadata_HostID x, (EBICSMetadata_PartnerID x,
      (EBICSMetadata_UserID x, (EBICSMetadata_EBICSVersion x, (EBICSMetadata_BankURL x,
      (EBICSMetadata_OrderType x, (EBICSMetadata_BTF x, (EBICSMetadata_SignatureClass x,
      EBICSMetadata_BankBIC x)))))))))
    EBICSMetadata_fields).
#[export] Instance EBICSMetadata_codec_law : VCodec EBICSMetadata_codec.
Proof. solve_struct. Qed.

Definition Transport_fields :=
  field "protocol" string_codec ⊗
  field_ptr "ebics_metadata" EBICSMetadata_codec.
Definition Transport_codec : vcodec Transport :=
  struct_codec (fiso
    (fun '(x1, x2) => Build_Transport x1 x2)
    (fun x => (Transport_Protocol x, Transport_EBICSMetadata x))
    Transport_fields).
#[export] Instance Transport_codec_law : VCodec Transport_codec.
Proof. solve_struct. Qed.

Definition ClaimItem_fields :=
  field "id" string_codec ⊗
  field "category" string_codec ⊗
  field "description" string_codec ⊗
  field "amount_claimed" float_codec ⊗
  field_omit "evidence_refs" (list_codec string_codec) ⊗
  field_omit "room_or_area" string_codec.
Definition ClaimItem_codec : vcodec ClaimItem :=
  struct_codec (fiso
    (fun '(x1, (x2, (x3, (x4, (x5, x6))))) => Build_ClaimItem x1 x2 x3 x4 x5 x6)
    (fun x => (ClaimItem_ID x, (ClaimItem_Category x, (ClaimItem_Description x,
      (ClaimItem_AmountClaimed x, (ClaimItem_EvidenceRefs x, ClaimItem_RoomOrArea
      x))))))
    ClaimItem_fields).
#[export] Instance ClaimItem_codec_law : VCodec ClaimItem_codec.
Proof. solve_struct. Qed.

Definition Settlement_fields :=
  field "initiated_by" string_codec ⊗
  field "initiated_at" time_codec ⊗
  field "last_proposed_by" string_codec ⊗
  field "last_proposed_at" time_codec ⊗
  field_omit "tenancy_end_date" string_codec ⊗
  field_omit "handover_date" string_codec ⊗
  field_omit "handover_protocol_ref" string_codec ⊗
  field "claim_items" (list_codec ClaimItem_codec) ⊗
  field "total_claimed" float_codec ⊗
  field "proposed_tenant_refund" float_codec ⊗
  field "proposed_landlord_retention" float_codec ⊗
  field_omit "response_deadline" string_codec ⊗
  field_omit "escalation_type" string_codec ⊗
  field_omit "external_authority" string_codec ⊗
  field_omit "external_reference" string_codec ⊗
  field_omit "agreed_tenant_refund" float_codec ⊗
  field_omit "agreed_landlord_retention" float_codec.
Definition Settlement_codec : vcodec Settlement :=
  struct_codec (fiso
    (fun '(x1, (x2, (x3, (x4, (x5, (x6, (x7, (x8, (x9, (x10, (x11, (x12, (x13, (x14,
      (x15, (x16, x17)))))))))))))))) => Build_Settlement x1 x2 x3 x4 x5 x6 x7 x8 x9 x10
      x11 x12 x13 x14 x15 x16 x17)
    (fun x => (Settlement_InitiatedBy x, (Settlement_InitiatedAt x,
      (Settlement_LastProposedBy x, (Settlement_LastProposedAt x,
      (Settlement_TenancyEndDate x, (Settlement_HandoverDate x,
      (Settlement_HandoverProtocolRef x, (Settlement_ClaimItems x,
      (Settlement_TotalClaimed x, (Settlement_ProposedTenantRefund x,
      (Settlement_ProposedLandlordRetention x, (Settlement_ResponseDeadline x,
      (Settlement_EscalationType x, (Settlement_ExternalAuthority x,
      (Settlement_ExternalReference x, (Settlement_AgreedTenantRefund x,
      Settlement_AgreedLandlordRetention x)))))))))))))))))
    Settlement_fields).
#[export] Instance Settlement_codec_law : VCodec Settlement_codec.
Proof. solve_struct. Qed.

Definition UtilityReservation_fields :=
  field "released_amount" float_codec ⊗
  field "reserved_amount" float_codec ⊗
  field_omit "monthly_advance" float_codec ⊗
  field "billing_period_end" string_codec ⊗
  field "resolution_deadline" string_codec ⊗
  field_omit "settlement_ref" string_codec ⊗
  field_omit "actual_cost" float_codec ⊗
  field_omit "total_advance_paid" float_codec ⊗
  field_omit "resolved_at" string_codec.
Definition UtilityReservation_codec : vcodec UtilityReservation :=
  struct_codec (fiso
    (fun '(x1, (x2, (x3, (x4, (x5, (x6, (x7, (x8, x9)))))))) =>
      Build_UtilityReservation x1 x2 x3 x4 x5 x6 x7 x8 x9)
    (fun x => (UtilityReservation_ReleasedAmount x, (UtilityReservation_ReservedAmount
      x, (UtilityReservation_MonthlyAdvance x, (UtilityReservation_BillingPeriodEnd x,
      (UtilityReservation_ResolutionDeadline x, (UtilityReservation_SettlementRef x,
      (UtilityReservation_ActualCost x, (UtilityReservation_TotalAdvancePaid x,
      UtilityReservation_ResolvedAt x)))))))))
    UtilityReservation_fields).
#[export] Instance UtilityReservation_codec_law : VCodec UtilityReservation_codec.
Proof. solve_struct. Qed.

Definition Deposit_fields :=
  field "id" string_codec ⊗
  field "meta" Meta_codec ⊗
  field "tenant" Tenant_codec ⊗
  field "landlord" Landlord_codec ⊗
  field "property" Property_codec ⊗
  field "deposit" DepositData_codec ⊗
  field_ptr "pledge" Pledge_codec ⊗
  field_ptr "trusteeship" Trusteeship_codec ⊗
  field_ptr "provider" Provider_codec ⊗
  field_ptr "transport" Transport_codec ⊗
  field_ptr "settlement" Settlement_codec ⊗
  field_ptr "utility_reservation" UtilityReservation_codec.
Definition Deposit_codec : vcodec Deposit :=
  struct_codec (fiso
    (fun '(x1, (x2, (x3, (x4, (x5, (x6, (x7, (x8, (x9, (x10, (x11, x12))))))))))) =>
      Build_Deposit x1 x2 x3 x4 x5 x6 x7 x8 x9 x10 x11 x12)
    (fun x => (Deposit_ID x, (Deposit_Meta x, (Deposit_Tenant x, (Deposit_Landlord x,
      (Deposit_Property x, (Deposit_Deposit x, (Deposit_Pledge x, (Deposit_Trusteeship
      x, (Deposit_Provider x, (Deposit_Transport x, (Deposit_Settlement x,
      Deposit_UtilityReservation x))))))))))))
    Deposit_fields).
#[export] Instance Deposit_codec_law : VCodec Deposit_codec.
Proof. solve_struct. Qed.

Definition WebhookEvent_fields :=
  field "event_type" string_codec ⊗
  field "deposit_id" string_codec ⊗
  field "new_state" string_codec ⊗
  field "timestamp" time_codec ⊗
  field_omit "credential_offer_url" string_codec.
Definition WebhookEvent_codec : vcodec WebhookEvent :=
  struct_codec (fiso
    (fun '(x1, (x2, (x3, (x4, x5)))) => Build_WebhookEvent x1 x2 x3 x4 x5)
    (fun x => (WebhookEvent_EventType x, (WebhookEvent_DepositID x, (WebhookEvent_NewState
      x, (WebhookEvent_Timestamp x, WebhookEvent_CredentialOfferURL x)))))
    WebhookEvent_fields).
#[export] Instance WebhookEvent_codec_law : VCodec WebhookEvent_codec.
Proof. solve_struct. Qed.

(** ** Deposits as documents *)

Definition marshal : Deposit -> option json := venc Deposit_codec.
Definition unmarshal : json -> option Deposit := vdec Deposit_codec.

(** *** What is stored

    What a deposit is after a write and a read, field by field: a text loses
    the bytes that are no UTF-8, a field with [omitempty] the sign of a zero,
    and nothing else changes. *)

Definition omit_zero (x : float64) : float64 :=
  match x with S754_zero _ => f64_zero | _ => x end.

Definition kept_Address (x : Address) : Address :=
  {| Address_Street := clean_string (Address_Street x);
     Address_ZIP := clean_string (Address_ZIP x);
     Address_City := clean_string (Address_City x);
     Address_Country := clean_string (Address_Country x) |}.

Definition kept_WalletMetadata (x : WalletMetadata) : WalletMetadata :=
  {| WalletMetadata_Issuer := clean_string (WalletMetadata_Issuer x);
     WalletMetadata_IssuerID := clean_string (WalletMetadata_IssuerID x);
     WalletMetadata_WalletProvider := clean_string (WalletMetadata_WalletProvider x);
     WalletMetadata_CredentialType := clean_string (WalletMetadata_CredentialType x);
     WalletMetadata_CredentialFormat := clean_string (WalletMetadata_CredentialFormat x);
     WalletMetadata_AssuranceLevel := clean_string (WalletMetadata_AssuranceLevel x);
     WalletMetadata_PresentationID := clean_string (WalletMetadata_PresentationID x);
     WalletMetadata_IssuingCountry := clean_string (WalletMetadata_IssuingCountry x);
     WalletMetadata_VerifiedAt := clean_string (WalletMetadata_VerifiedAt x);
     WalletMetadata_ExpiresAt := clean_string (WalletMetadata_ExpiresAt x) |}.

Definition kept_Tenant (x : Tenant) : Tenant :=
  {| Tenant_FirstName := clean_string (Tenant_FirstName x);
     Tenant_LastName := clean_string (Tenant_LastName x);
     Tenant_Email := clean_string (Tenant_Email x);
     Tenant_TaxID := clean_string (Tenant_TaxID x);
     Tenant_EIDStatus := clean_string (Tenant_EIDStatus x);
     Tenant_WalletMetadata := kept_WalletMetadata <$> Tenant_WalletMetadata x;
     Tenant_Address := kept_Address <$> Tenant_Address x |}.

Definition kept_Landlord (x : Landlord) : Landlord :=
  {| Landlord_Name := clean_string (Landlord_Name x);
     Landlord_Type := clean_string (Landlord_Type x);
     Landlord_IBAN := clean_string (Landlord_IBAN x) |}.

Definition kept_Property (x : Property) : Property :=
  {| Property_Address := kept_Address (Property_Address x);
     Property_UnitID := clean_string (Property_UnitID x) |}.

Definition kept_HistoryEntry (x : HistoryEntry) : HistoryEntry :=
  {| HistoryEntry_State := clean_string (HistoryEntry_State x);
     HistoryEntry_Timestamp := HistoryEntry_Timestamp x;
     HistoryEntry_Actor := clean_string (HistoryEntry_Actor x);
     HistoryEntry_Comment := clean_string (HistoryEntry_Comment x);
     HistoryEntry_Signature := clean_string (HistoryEntry_Signature x) |}.

Definition kept_InstallmentScheduleEntry (x : InstallmentScheduleEntry) : InstallmentScheduleEntry :=
  {| InstallmentScheduleEntry_InstallmentNumber := InstallmentScheduleEntry_InstallmentNumber x;
     InstallmentScheduleEntry_DueDate := clean_string (InstallmentScheduleEntry_DueDate x);
     InstallmentScheduleEntry_PaidDate := clean_string (InstallmentScheduleEntry_PaidDate x);
     InstallmentScheduleEntry_Amount := omit_zero (InstallmentScheduleEntry_Amount x) |}.

Definition kept_InstallmentPlan (x : InstallmentPlan) : InstallmentPlan :=
  {| InstallmentPlan_TotalInstallments := InstallmentPlan_TotalInstallments x;
     InstallmentPlan_InstallmentAmount := omit_zero (InstallmentPlan_InstallmentAmount x);
     InstallmentPlan_Schedule := map kept_InstallmentScheduleEntry (InstallmentPlan_Schedule x) |}.

Definition kept_DepositData (x : DepositData) : DepositData :=
  {| DepositData_Amount := DepositData_Amount x;
     DepositData_Currency := clean_string (DepositData_Currency x);
     DepositData_Type := clean_string (DepositData_Type x);
     DepositData_LifecycleState := clean_string (DepositData_LifecycleState x);
     DepositData_History := map kept_HistoryEntry (DepositData_History x);
     DepositData_InstallmentPlan := kept_InstallmentPlan <$> DepositData_InstallmentPlan x |}.

Definition kept_Pledge (x : Pledge) : Pledge :=
  {| Pledge_PledgeDate := clean_string (Pledge_PledgeDate x);
     Pledge_StatutoryBasis := clean_string (Pledge_StatutoryBasis x);
     Pledge_IsConfirmedByBank := Pledge_IsConfirmedByBank x |}.

Definition kept_InterestRateEntry (x : InterestRateEntry) : InterestRateEntry :=
  {| InterestRateEntry_Rate := InterestRateEntry_Rate x;
     InterestRateEntry_EffectiveFrom := clean_string (InterestRateEntry_EffectiveFrom x);
     InterestRateEntry_EffectiveTo := clean_string (InterestRateEntry_EffectiveTo x) |}.

Definition kept_Trusteeship (x : Trusteeship) : Trusteeship :=
  {| Trusteeship_AccountType := clean_string (Trusteeship_AccountType x);
     Trusteeship_TrusteeEntity := clean_string (Trusteeship_TrusteeEntity x);
     Trusteeship_TrustAccountIBAN := clean_string (Trusteeship_TrustAccountIBAN x);
     Trusteeship_InsolvencyProtectionConfirmed := Trusteeship_InsolvencyProtectionConfirmed x;
     Trusteeship_InsolvencyProtectionConfirmedDate := clean_string (Trusteeship_InsolvencyProtectionConfirmedDate x);
     Trusteeship_StatutoryBasis := clean_string (Trusteeship_StatutoryBasis x);
     Trusteeship_InterestRate := omit_zero (Trusteeship_InterestRate x);
     Trusteeship_InterestRateHistory := map kept_InterestRateEntry (Trusteeship_InterestRateHistory x);
     Trusteeship_AccruedInterest := omit_zero (Trusteeship_AccruedInterest x);
     Trusteeship_InterestCalculatedAt := clean_string (Trusteeship_InterestCalculatedAt x);
     Trusteeship_TotalBalance := omit_zero (Trusteeship_TotalBalance x) |}.

Definition kept_Provider (x : Provider) : Provider :=
  {| Provider_ProviderType := clean_string (Provider_ProviderType x);
     Provider_ExecutingEntity := clean_string (Provider_ExecutingEntity x);
     Provider_BrandName := clean_string (Provider_BrandName x);
     Provider_ProviderID := clean_string (Provider_ProviderID x);
     Provider_InsurancePolicyNumber := clean_string (Provider_InsurancePolicyNumber x) |}.

Definition kept_Meta (x : Meta) : Meta :=
  {| Meta_Version := clean_string (Meta_Version x);
     Meta_Timestamp := Meta_Timestamp x;
     Meta_ExternalID := clean_string (Meta_ExternalID x) |}.

Definition kept_EBICSBTF (x : EBICSBTF) : EBICSBTF :=
  {| EBICSBTF_ServiceName := clean_string (EBICSBTF_ServiceName x);
     EBICSBTF_ServiceOption := clean_string (EBICSBTF_ServiceOption x);
     EBICSBTF_Scope := clean_string (EBICSBTF_Scope x);
     EBICSBTF_Container := clean_string (EBICSBTF_Container x);
     EBICSBTF_MsgName := clean_string (EBICSBTF_MsgName x);
     EBICSBTF_MsgVersion := clean_string (EBICSBTF_MsgVersion x) |}.

Definition kept_EBICSMetadata (x : EBICSMetadata) : EBICSMetadata :=
  {| EBICSMetadata_HostID := clean_string (EBICSMetadata_HostID x);
     EBICSMetadata_PartnerID := clean_string (EBICSMetadata_PartnerID x);
     EBICSMetadata_UserID := clean_string (EBICSMetadata_UserID x);
     EBICSMetadata_EBICSVersion := clean_string (EBICSMetadata_EBICSVersion x);
     EBICSMetadata_BankURL := clean_string (EBICSMetadata_BankURL x);
     EBICSMetadata_OrderType := clean_string (EBICSMetadata_OrderType x);
     EBICSMetadata_BTF := kept_EBICSBTF <$> EBICSMetadata_BTF x;
     EBICSMetadata_SignatureClass := clean_string (EBICSMetadata_SignatureClass x);
     EBICSMetadata_BankBIC := clean_string (EBICSMetadata_BankBIC x) |}.

Definition kept_Transport (x : Transport) : Transport :=
  {| Transport_Protocol := clean_string (Transport_Protocol x);
     Transport_EBICSMetadata := kept_EBICSMetadata <$> Transport_EBICSMetadata x |}.

Definition kept_ClaimItem (x : ClaimItem) : ClaimItem :=
  {| ClaimItem_ID := clean_string (ClaimItem_ID x);
     ClaimItem_Category := clean_string (ClaimItem_Category x);
     ClaimItem_Description := clean_string (ClaimItem_Description x);
     ClaimItem_AmountClaimed := ClaimItem_AmountClaimed x;
     ClaimItem_EvidenceRefs := map clean_string (ClaimItem_EvidenceRefs x);
     ClaimItem_RoomOrArea := clean_string (ClaimItem_RoomOrArea x) |}.

Definition kept_Settlement (x : Settlement) : Settlement :=
  {| Settlement_InitiatedBy := clean_string (Settlement_InitiatedBy x);
     Settlement_InitiatedAt := Settlement_InitiatedAt x;
     Settlement_LastProposedBy := clean_string (Settlement_LastProposedBy x);
     Settlement_LastProposedAt := Settlement_LastProposedAt x;
     Settlement_TenancyEndDate := clean_string (Settlement_TenancyEndDate x);
     Settlement_HandoverDate := clean_string (Settlement_HandoverDate x);
     Settlement_HandoverProtocolRef := clean_string (Settlement_HandoverProtocolRef x);
     Settlement_ClaimItems := map kept_ClaimItem (Settlement_ClaimItems x);
     Settlement_TotalClaimed := Settlement_TotalClaimed x;
     Settlement_ProposedTenantRefund := Settlement_ProposedTenantRefund x;
     Settlement_ProposedLandlordRetention := Settlement_ProposedLandlordRetention x;
     Settlement_ResponseDeadline := clean_string (Settlement_ResponseDeadline x);
     Settlement_EscalationType := clean_string (Settlement_EscalationType x);
     Settlement_ExternalAuthority := clean_string (Settlement_ExternalAuthority x);
     Settlement_ExternalReference := clean_string (Settlement_ExternalReference x);
     Settlement_AgreedTenantRefund := omit_zero (Settlement_AgreedTenantRefund x);
     Settlement_AgreedLandlordRetention := omit_zero (Settlement_AgreedLandlordRetention x) |}.

Definition kept_UtilityReservation (x : UtilityReservation) : UtilityReservation :=
  {| UtilityReservation_ReleasedAmount := UtilityReservation_ReleasedAmount x;
     UtilityReservation_ReservedAmount := UtilityReservation_ReservedAmount x;
     UtilityReservation_MonthlyAdvance := omit_zero (UtilityReservation_MonthlyAdvance x);
     UtilityReservation_BillingPeriodEnd := clean_string (UtilityReservation_BillingPeriodEnd x);
     UtilityReservation_ResolutionDeadline := clean_string (UtilityReservation_ResolutionDeadline x);
     UtilityReservation_SettlementRef := clean_string (UtilityReservation_SettlementRef x);
     UtilityReservation_ActualCost := omit_zero (UtilityReservation_ActualCost x);
     UtilityReservation_TotalAdvancePaid := omit_zero (UtilityReservation_TotalAdvancePaid x);
     UtilityReservation_ResolvedAt := clean_string (UtilityReservation_ResolvedAt x) |}.

Definition stored (x : Deposit) : Deposit :=
  {| Deposit_ID := clean_string (Deposit_ID x);
     Deposit_Meta := kept_Meta (Deposit_Meta x);
     Deposit_Tenant := kept_Tenant (Deposit_Tenant x);
     Deposit_Landlord := kept_Landlord (Deposit_Landlord x);
     Deposit_Property := kept_Property (Deposit_Property x);
     Deposit_Deposit := kept_DepositData (Deposit_Deposit x);
     Deposit_Pledge := kept_Pledge <$> Deposit_Pledge x;
     Deposit_Trusteeship := kept_Trusteeship <$> Deposit_Trusteeship x;
     Deposit_Provider := kept_Provider <$> Deposit_Provider x;
     Deposit_Transport := kept_Transport <$> Deposit_Transport x;
     Deposit_Settlement := kept_Settlement <$> Deposit_Settlement x;
     Deposit_UtilityReservation := kept_UtilityReservation <$> Deposit_UtilityReservation x |}.

(** The normal form of the struct codecs is this one. *)

Lemma omit_string s : (if String.eqb s "" then "" else clean_string s) = clean_string s.
Proof. destruct (String.eqb s "") eqn:E; [|done]. by apply String.eqb_eq in E as ->. Qed.

Lemma omit_float (x : float64) :
  (if match x with S754_zero _ => true | _ => false end then f64_zero else x) = omit_zero x.
Proof. by destruct x. Qed.

Lemma omit_list {A} (f : A -> A) (l : list A) :
  (if match l with [] => true | _ => false end then [] else map f l) = map f l.
Proof. by destruct l. Qed.

Ltac kept :=
  match goal with |- _ ?x = ?f _ => destruct x; unfold f end; cbn -[clean_string String.eqb map f64_zero];
  rewrite ?omit_string, ?omit_float, ?omit_list; try done.
Ltac kept_by l := first [apply l | apply option_fmap_ext; exact l |
  apply map_ext; exact l].

Lemma kept_Address_norm x : vnorm Address_codec x = kept_Address x.
Proof. kept. Qed.
Lemma kept_WalletMetadata_norm x : vnorm WalletMetadata_codec x = kept_WalletMetadata x.
Proof. kept. Qed.
Lemma kept_Tenant_norm x : vnorm Tenant_codec x = kept_Tenant x.
Proof. kept. all: f_equal; first [kept_by kept_WalletMetadata_norm]. Qed.
Lemma kept_Landlord_norm x : vnorm Landlord_codec x = kept_Landlord x.
Proof. kept. Qed.
Lemma kept_Property_norm x : vnorm Property_codec x = kept_Property x.
Proof. kept. all: f_equal; first [kept_by kept_Address_norm]. Qed.
Lemma kept_HistoryEntry_norm x : vnorm HistoryEntry_codec x = kept_HistoryEntry x.
Proof. kept. Qed.
Lemma kept_InstallmentScheduleEntry_norm x : vnorm InstallmentScheduleEntry_codec x = kept_InstallmentScheduleEntry x.
Proof. kept. Qed.
Lemma kept_InstallmentPlan_norm x : vnorm InstallmentPlan_codec x = kept_InstallmentPlan x.
Proof. kept. all: f_equal; first [kept_by kept_InstallmentScheduleEntry_norm]. Qed.
Lemma kept_DepositData_norm x : vnorm DepositData_codec x = kept_DepositData x.
Proof. kept. all: f_equal; first [kept_by kept_HistoryEntry_norm | kept_by kept_InstallmentPlan_norm]. Qed.
Lemma kept_Pledge_norm x : vnorm Pledge_codec x = kept_Pledge x.
Proof. kept. Qed.
Lemma kept_InterestRateEntry_norm x : vnorm InterestRateEntry_codec x = kept_InterestRateEntry x.
Proof. kept. Qed.
Lemma kept_Trusteeship_norm x : vnorm Trusteeship_codec x = kept_Trusteeship x.
Proof. kept. all: f_equal; first [kept_by kept_InterestRateEntry_norm]. Qed.
Lemma kept_Provider_norm x : vnorm Provider_codec x = kept_Provider x.
Proof. kept. Qed.
Lemma kept_Meta_norm x : vnorm Meta_codec x = kept_Meta x.
Proof. kept. Qed.
Lemma kept_EBICSBTF_norm x : vnorm EBICSBTF_codec x = kept_EBICSBTF x.
Proof. kept. Qed.
Lemma kept_EBICSMetadata_norm x : vnorm EBICSMetadata_codec x = kept_EBICSMetadata x.
Proof. kept. all: f_equal; first [kept_by kept_EBICSBTF_norm]. Qed.
Lemma kept_Transport_norm x : vnorm Transport_codec x = kept_Transport x.
Proof. kept. all: f_equal; first [kept_by kept_EBICSMetadata_norm]. Qed.
Lemma kept_ClaimItem_norm x : vnorm ClaimItem_codec x = kept_ClaimItem x.
Proof. kept. Qed.
Lemma kept_Settlement_norm x : vnorm Settlement_codec x = kept_Settlement x.
Proof. kept. all: f_equal; first [kept_by kept_ClaimItem_norm]. Qed.
Lemma kept_UtilityReservation_norm x : vnorm UtilityReservation_codec x = kept_UtilityReservation x.
Proof. kept. Qed.

Lemma stored_norm d : vnorm Deposit_codec d = stored d.
Proof.
  destruct d; unfold stored. cbn -[clean_string String.eqb map f64_zero]. f_equal;
    first [kept_by kept_Meta_norm | kept_by kept_Tenant_norm | kept_by kept_Landlord_norm
      | kept_by kept_Property_norm | kept_by kept_DepositData_norm | kept_by kept_Pledge_norm
      | kept_by kept_Trusteeship_norm | kept_by kept_Provider_norm | kept_by kept_Transport_norm
      | kept_by kept_Settlement_norm | kept_by kept_UtilityReservation_norm].
Qed.

Lemma unmarshal_marshal d j : marshal d = Some j -> unmarshal j = Some (stored d).
Proof. rewrite <-stored_norm. apply vdec_venc. Qed.

Lemma marshal_stored d : marshal (stored d) = marshal d.
Proof. rewrite <-stored_norm. apply venc_norm. Qed.

Lemma stored_ID d : Deposit_ID (stored d) = clean_string (Deposit_ID d).
Proof. done. Qed.

Lemma stored_lifecycle d : lifecycle (stored d) = clean_string (lifecycle d).
Proof. done. Qed.

Lemma stored_history d : history (stored d) = kept_HistoryEntry <$> history d.
Proof. done. Qed.

Lemma stored_Settlement d : Deposit_Settlement (stored d) = kept_Settlement <$> Deposit_Settlement d.
Proof. done. Qed.

Lemma stored_UtilityReservation d :
  Deposit_UtilityReservation (stored d) = kept_UtilityReservation <$> Deposit_UtilityReservation d.
Proof. done. Qed.

Lemma stored_Pledge d : Deposit_Pledge (stored d) = kept_Pledge <$> Deposit_Pledge d.
Proof. done. Qed.

Lemma stored_Tenant d : Deposit_Tenant (stored d) = kept_Tenant (Deposit_Tenant d).
Proof. done. Qed.

(** A second write and read changes nothing. *)

Lemma kept_again {A} (c : vcodec A) (k : A -> A) :
  VCodec c -> (forall x, vnorm c x = k x) -> forall x, k (k x) = k x.
Proof. intros Hc Hk x. rewrite <-!Hk. apply vnorm_norm. Qed.

Lemma stored_stored d : stored (stored d) = stored d.
Proof. apply (kept_again Deposit_codec); [apply _|apply stored_norm]. Qed.

Lemma kept_option_again {A} (c : vcodec A) (k : A -> A) (o : option A) :
  VCodec c -> (forall x, vnorm c x = k x) -> k <$> (k <$> o) = k <$> o.
Proof. intros Hc Hk. destruct o as [a|]; [|done]. cbn. by rewrite (kept_again c k). Qed.

Lemma kept_Tenant_metadata m t :
  kept_Tenant (set_WalletMetadata m (kept_Tenant t)) = kept_Tenant (set_WalletMetadata m t).
Proof.
  destruct t. unfold kept_Tenant. cbn. rewrite !clean_string_idem. f_equal.
  apply (kept_option_again Address_codec); [apply _|apply kept_Address_norm].
Qed.

Lemma kept_DepositData_history l x :
  kept_DepositData (set_History (DepositData_History (kept_DepositData x) ++ l) (kept_DepositData x)) =
  kept_DepositData (set_History (DepositData_History x ++ l) x).
Proof.
  destruct x. unfold kept_DepositData. cbn. rewrite !clean_string_idem. f_equal.
  - rewrite !map_app, map_map. f_equal. apply map_ext.
    apply (kept_again HistoryEntry_codec); [apply _|apply kept_HistoryEntry_norm].
  - apply (kept_option_again InstallmentPlan_codec); [apply _|apply kept_InstallmentPlan_norm].
Qed.

(** A deposit with more history and other metadata of the tenant's wallet. *)
Definition with_presentation (m : option WalletMetadata) (l : list HistoryEntry) (d : Deposit) :
    Deposit :=
  set_DepositData (set_History (history d ++ l) (Deposit_Deposit d))
    (set_Tenant (set_WalletMetadata m (Deposit_Tenant d)) d).

Lemma stored_with_presentation m l d :
  stored (with_presentation m l (stored d)) = stored (with_presentation m l d).
Proof.
  pose proof (stored_stored d) as Hd. destruct d. unfold with_presentation, history, stored.
  cbn -[kept_DepositData kept_Tenant]. f_equal;
    first [ apply kept_Tenant_metadata | apply kept_DepositData_history
          | exact (f_equal Models.Deposit_ID Hd) | exact (f_equal Models.Deposit_Meta Hd)
          | exact (f_equal Models.Deposit_Landlord Hd) | exact (f_equal Models.Deposit_Property Hd)
          | exact (f_equal Models.Deposit_Pledge Hd) | exact (f_equal Models.Deposit_Trusteeship Hd)
          | exact (f_equal Models.Deposit_Provider Hd) | exact (f_equal Models.Deposit_Transport Hd)
          | exact (f_equal Models.Deposit_Settlement Hd) | exact (f_equal Models.Deposit_UtilityReservation Hd) ].
Qed.

(** A document that PostgreSQL takes. *)
Definition storable (d : Deposit) : Prop :=
  exists j, marshal d = Some j /\ jsonb_ok j = true.

Lemma storable_stored d : storable (stored d) <-> storable d.
Proof. unfold storable. by rewrite marshal_stored. Qed.

(** *** What was read

    A deposit that was read has no text to repair: its identifier, state,
    history, pledge and tenant are stored as they are. *)

Definition texts_ok (d : Deposit) : Prop :=
  clean_string (Deposit_ID d) = Deposit_ID d /\
  clean_string (lifecycle d) = lifecycle d /\
  kept_HistoryEntry <$> history d = history d /\
  kept_Pledge <$> Deposit_Pledge d = Deposit_Pledge d /\
  kept_Tenant (Deposit_Tenant d) = Deposit_Tenant d.

(** What every decoded value satisfies. *)
Definition decodes {A} (c : vcodec A) (P : A -> Prop) : Prop :=
  forall j a, vdec c j = Some a -> P a.
Definition fdecodes {A} (c : fcodec A) (P : A -> Prop) : Prop :=
  P (fzero c) /\ forall l a, fdec c l = Some a -> P a.

Lemma decodes_string : decodes string_codec (fun s => clean_string s = s).
Proof.
  intros j s. destruct j; cbn -[clean_string]; try done; intros [= <-]; [done|].
  apply clean_string_idem.
Qed.

Lemma decodes_list {A} (c : vcodec A) P : decodes c P -> decodes (list_codec c) (Forall P).
Proof.
  intros Hc j l. destruct j as [| | | | | |js|]; cbn; try done; [by intros [= <-]|].
  intros Hl%mapM_Some. induction Hl; constructor; [by eapply Hc|done].
Qed.

Lemma fdecodes_field {A} n (c : vcodec A) P : P (vzero c) -> decodes c P -> fdecodes (field n c) P.
Proof. intros Hz Hc. split; [done|]. intros l a. cbn. case_match; [apply Hc|by intros [= <-]]. Qed.

Lemma fdecodes_omit {A} n (c : vcodec A) P :
  P (vzero c) -> decodes c P -> fdecodes (field_omit n c) P.
Proof. intros Hz Hc. split; [done|]. intros l a. cbn. case_match; [apply Hc|by intros [= <-]]. Qed.

Lemma fdecodes_ptr {A} n (c : vcodec A) P :
  decodes c P -> fdecodes (field_ptr n c) (fun o => forall a, o = Some a -> P a).
Proof.
  intros Hc. split; [done|]. intros l o. cbn. case_match; [|by intros [= <-]]. unfold ptr_dec.
  case_match; try (intros (a & Ha & ->)%fmap_Some a' [= <-]; by eapply Hc). by intros [= <-].
Qed.

Lemma fdecodes_pair {A B} (c1 : fcodec A) (c2 : fcodec B) P Q :
  fdecodes c1 P -> fdecodes c2 Q -> fdecodes (fpair c1 c2) (fun p => P p.1 /\ Q p.2).
Proof.
  intros [Z1 H1] [Z2 H2]. split; [done|].
  intros l p (a & Ha & (b & Hb & [= <-])%bind_Some)%bind_Some. split; [by eapply H1|by eapply H2].
Qed.

Lemma fdecodes_any {A} (c : fcodec A) : fdecodes c (fun _ => True).
Proof. done. Qed.

Lemma decodes_struct {A B} (f : A -> B) g (c : fcodec A) (P : A -> Prop) (Q : B -> Prop) :
  fdecodes c P -> (forall a, P a -> Q (f a)) -> decodes (struct_codec (fiso f g c)) Q.
Proof.
  intros [Hz Hc] Hf j b. destruct j; cbn; try done; [intros [= <-]; by apply Hf|].
  intros (a & Ha & ->)%fmap_Some. by eapply Hf, Hc.
Qed.

Ltac decoding c :=
  let field := first
    [ apply fdecodes_field; [|c]; done | apply fdecodes_omit; [|c]; done | apply fdecodes_ptr; c
    | apply fdecodes_any ] in
  eapply decodes_struct; [repeat (apply fdecodes_pair; [field|]); field|].
(** The members of a struct are texts. *)
Ltac texts := decoding ltac:(apply decodes_string);
  intros p Hp; repeat match goal with q : (_ * _)%type |- _ => destruct q end; cbn in Hp;
  cbv beta; unfold kept_Address, kept_WalletMetadata, kept_Pledge, kept_HistoryEntry;
  cbn -[clean_string]; destruct_and?; by f_equal.

Lemma decodes_Address : decodes Address_codec (fun x => kept_Address x = x).
Proof. texts. Qed.
Lemma decodes_WalletMetadata : decodes WalletMetadata_codec (fun x => kept_WalletMetadata x = x).
Proof. texts. Qed.
Lemma decodes_Pledge : decodes Pledge_codec (fun x => kept_Pledge x = x).
Proof. texts. Qed.
Lemma decodes_HistoryEntry : decodes HistoryEntry_codec (fun x => kept_HistoryEntry x = x).
Proof. texts. Qed.

Lemma kept_option {A} (k : A -> A) o : (forall a, o = Some a -> k a = a) -> k <$> o = o.
Proof. destruct o as [a|]; [|done]. cbn. intros H. by rewrite H. Qed.

Lemma decodes_Tenant : decodes Tenant_codec (fun x => kept_Tenant x = x).
Proof.
  decoding ltac:(first [apply decodes_string|apply decodes_WalletMetadata|apply decodes_Address]).
  intros (x1 & x2 & x3 & x4 & x5 & x6 & x7) Hp. cbn in Hp. unfold kept_Tenant.
  cbn -[clean_string]. destruct_and?. by f_equal; try apply kept_option.
Qed.

Lemma decodes_DepositData : decodes DepositData_codec (fun x =>
  clean_string (DepositData_LifecycleState x) = DepositData_LifecycleState x /\
  Forall (fun h => kept_HistoryEntry h = h) (DepositData_History x)).
Proof.
  decoding ltac:(first [apply decodes_string|apply decodes_list, decodes_HistoryEntry]).
  intros (x1 & x2 & x3 & x4 & x5 & x6) Hp. cbn in Hp. cbn -[clean_string]. by destruct_and?.
Qed.

Lemma unmarshal_texts j d : unmarshal j = Some d -> texts_ok d.
Proof.
  revert j d. change (decodes Deposit_codec texts_ok).
  decoding ltac:(first [apply decodes_string|apply decodes_Tenant|apply decodes_DepositData
    |apply decodes_Pledge]).
  intros (x1 & x2 & x3 & x4 & x5 & x6 & x7 & x8 & x9 & x10 & x11 & x12) Hp. cbn in Hp.
  destruct_and?. unfold texts_ok, lifecycle, history. cbn -[clean_string].
  split_and!; [done|done| |by apply kept_option|done].
  match goal with H : Forall _ _ |- _ => induction H; [done|]; cbn; by f_equal end.
Qed.

Arguments marshal _ : simpl never.
Arguments unmarshal _ : simpl never.
Arguments stored _ : simpl never.

(** ** Property *)

(** C30: a deposit that json.Marshal accepts comes back from its document as a normal form that
    is given field by field, independently of the JSON codecs: every text with invalid UTF-8
    replaced by U+FFFD, a zero amount without its sign where omitempty drops it, and everything
    else, nested structs, lists and pointers included, unchanged. The normal form marshals to
    the very same document, is its own normal form, and has only valid texts. *)
Theorem marshal_round_trip d j :
  marshal d = Some j ->
  unmarshal j = Some (stored d) /\ marshal (stored d) = Some j /\
  stored (stored d) = stored d /\ texts_ok (stored d).
Proof.
  intros Hj. pose proof (unmarshal_marshal d j Hj) as Hu. split; [done|].
  split; [by rewrite marshal_stored|]. split; [apply stored_stored|by eapply unmarshal_texts].
Qed.
