(* ===== verification/Runtime.v ===== *)
(** * What the server gets from its surroundings

    Results of Go calls, and the environment of one call into a store: the
    readings of [time.Now], the identifiers [uuid.NewString] returns, the random
    bytes, and which database calls fail. *)

From S2P Require Import Prelude Calendar.

Inductive error :=
| ErrNotFound      (* db.ErrNotFound *)
| ErrNoRows        (* pgx.ErrNoRows *)
| ErrDriver        (* any other error of a database call *)
| ErrMarshal
| ErrUnmarshal.

(** The result of a Go call: a value, an error, or a panic. *)
Inductive result (A : Type) :=
| Ok (a : A)
| Err (e : error)
| Panic.
Arguments Ok {A}. Arguments Err {A}. Arguments Panic {A}.

Definition is_ok {A} (r : result A) : bool := match r with Ok _ => true | _ => false end.

(** The fate of a database call: it works, it fails without effect, or it takes
    effect and the reply is lost. *)
Inductive fault := FaultNone | FaultFail | FaultLost.

Record env := {
  env_now : nat -> instant;      (* the n-th reading of the clock *)
  env_uuid : nat -> string;      (* the n-th fresh identifier *)
  env_rand : nat -> option (list Z);  (* the n-th read of crypto/rand, or its error *)
  env_fault : nat -> fault }.    (* the fate of the n-th database call *)

Definition no_faults (e : env) : Prop := forall n, env_fault e n = FaultNone.

(** A constant clock, numbered identifiers and no faults: the environment of
    the examples. *)
Definition plain_env (t : instant) (u : string) : env :=
  {| env_now _ := t; env_uuid n := u +:+ pretty n; env_rand _ := Some [];
     env_fault _ := FaultNone |}.

Lemma plain_env_no_faults t u : no_faults (plain_env t u).
Proof. done. Qed.
