(* ===== verification/Postgres.v ===== *)
(** * Database calls and transactions

    A small monad for code that talks to PostgreSQL through pgx: a state of
    tables [T], an optional open transaction with its own view of them, the
    counters that index the readings of the environment, and results that are
    errors or panics.  [with_tx] is [pool.Begin] with the deferred
    [tx.Rollback]: whatever the body does, what it has not committed is
    dropped. *)

From S2P Require Import Prelude Calendar Runtime.

(** A [TIMESTAMPTZ] column keeps microseconds. *)
Definition timestamptz (t : instant) : instant := (t / 1000 * 1000)%Z.

Section Monad.
Context {T : Type}.

Record conn := {
  cn_db : T;               (* the committed tables *)
  cn_tx : option T;        (* the view of the open transaction *)
  cn_calls : nat; cn_clock : nat; cn_uuids : nat }.

Definition pg (A : Type) : Type := env -> conn -> result A * conn.

Definition set_tx (t : option T) (c : conn) : conn :=
  {| cn_db := cn_db c; cn_tx := t; cn_calls := cn_calls c;
     cn_clock := cn_clock c; cn_uuids := cn_uuids c |}.
Definition set_db (t : T) (c : conn) : conn :=
  {| cn_db := t; cn_tx := cn_tx c; cn_calls := cn_calls c;
     cn_clock := cn_clock c; cn_uuids := cn_uuids c |}.
Definition tick (c : conn) : conn :=
  {| cn_db := cn_db c; cn_tx := cn_tx c; cn_calls := S (cn_calls c);
     cn_clock := cn_clock c; cn_uuids := cn_uuids c |}.

#[export] Instance pg_ret : MRet pg := fun A a _ c => (Ok a, c).
#[export] Instance pg_bind : MBind pg := fun A B k m e c =>
  match m e c with
  | (Ok a, c) => k a e c
  | (Err x, c) => (Err x, c)
  | (Panic, c) => (Panic, c)
  end.

Definition fail {A} (x : error) : pg A := fun _ c => (Err x, c).
Definition of_option {A} (x : error) (o : option A) : pg A :=
  match o with Some a => mret a | None => fail x end.
(** A nil dereference in code the store calls back. *)
Definition of_deref {A} (o : option A) : pg A :=
  match o with Some a => mret a | None => fun _ c => (Panic, c) end.

(** [time.Now().UTC()] and [uuid.NewString()]. *)
Definition now : pg instant := fun e c =>
  (Ok (env_now e (cn_clock c)),
   {| cn_db := cn_db c; cn_tx := cn_tx c; cn_calls := cn_calls c;
      cn_clock := S (cn_clock c); cn_uuids := cn_uuids c |}).
Definition newUUID : pg string := fun e c =>
  (Ok (env_uuid e (cn_uuids c)),
   {| cn_db := cn_db c; cn_tx := cn_tx c; cn_calls := cn_calls c;
      cn_clock := cn_clock c; cn_uuids := S (cn_uuids c) |}).

(** [if errors.Is(err, x) { return y }]. *)
Definition replace_error {A} (x y : error) (m : pg A) : pg A := fun e c =>
  match m e c with
  | (Err z, c) =>
      (Err (match x, z with
            | ErrNotFound, ErrNotFound | ErrNoRows, ErrNoRows | ErrDriver, ErrDriver
            | ErrMarshal, ErrMarshal | ErrUnmarshal, ErrUnmarshal => y
            | _, _ => z
            end), c)
  | p => p
  end.

(** One statement, inside the open transaction if there is one and
    committed on its own otherwise. *)
Definition put (t : T) (c : conn) : conn :=
  match cn_tx c with Some _ => set_tx (Some t) c | None => set_db t c end.

Definition call {A} (f : T -> error + (A * T)) : pg A := fun e c =>
  match env_fault e (cn_calls c) with
  | FaultFail => (Err ErrDriver, tick c)
  | k =>
      match f (default (cn_db c) (cn_tx c)) with
      | inr (a, t) =>
          (match k with FaultLost => Err ErrDriver | _ => Ok a end, put t (tick c))
      | inl x => (Err x, tick c)
      end
  end.

Definition begin_ : pg unit := fun e c =>
  match env_fault e (cn_calls c) with
  | FaultNone => (Ok tt, set_tx (Some (cn_db c)) (tick c))
  | _ => (Err ErrDriver, tick c)
  end.

Definition commit : pg unit := fun e c =>
  let done_ := set_tx None (set_db (default (cn_db c) (cn_tx c)) (tick c)) in
  match env_fault e (cn_calls c) with
  | FaultNone => (Ok tt, done_)
  | FaultFail => (Err ErrDriver, set_tx None (tick c))
  | FaultLost => (Err ErrDriver, done_)
  end.

(** [defer tx.Rollback(ctx)]; after a commit there is nothing to drop. *)
Definition deferred_rollback {A} (body : pg A) : pg A := fun e c =>
  let '(r, c) := body e c in (r, set_tx None c).

Definition with_tx {A} (body : pg A) : pg A :=
  begin_ ≫= fun _ => deferred_rollback body.

Definition start (t : T) : conn :=
  {| cn_db := t; cn_tx := None; cn_calls := 0; cn_clock := 0; cn_uuids := 0 |}.

Definition run {A} (m : pg A) (e : env) (t : T) : result A * T :=
  let '(r, c) := m e (start t) in (r, cn_db c).

(** A body that does not commit leaves the committed tables alone, whatever
    statements it runs: [quiet]. *)
Definition quiet {A} (m : pg A) : Prop :=
  forall e c t, cn_tx c = Some t ->
    cn_db (m e c).2 = cn_db c /\ is_Some (cn_tx (m e c).2).

Lemma quiet_ret {A} (a : A) : quiet (mret a).
Proof. intros e c t Ht. by split; [|exists t]. Qed.

Lemma quiet_bind {A B} (m : pg A) (k : A -> pg B) :
  quiet m -> (forall a, quiet (k a)) -> quiet (m ≫= k).
Proof.
  intros Hm Hk e c t Ht. unfold mbind, pg_bind.
  destruct (Hm e c t Ht) as [Hdb [t' Ht']].
  destruct (m e c) as [[a|x|] c'] eqn:E; cbn in *; [|by eauto..].
  destruct (Hk a e c' t' Ht') as [-> ?]. by rewrite Hdb.
Qed.

Lemma quiet_call {A} (f : T -> error + (A * T)) : quiet (call f).
Proof.
  intros e c t Ht. unfold call, put.
  destruct (env_fault e _); [|by cbn; rewrite Ht|];
    (destruct (f _) as [x|[a t']]; cbn; rewrite Ht; cbn; by eauto).
Qed.

(** Symbolic execution: one rule per statement.  The predicate speaks of the
    outcome of the whole computation and admits every error. *)
Lemma wp_call {A B} (f : T -> error + (A * T)) (k : A -> pg B) e c
    (P : result B * conn -> Prop) :
  (forall x c', cn_db c' = cn_db c \/ cn_tx c = None -> P (Err x, c')) ->
  (forall a t, f (default (cn_db c) (cn_tx c)) = inr (a, t) ->
     P (k a e (put t (tick c)))) ->
  P ((call f ≫= k) e c).
Proof.
  intros Herr Hok. unfold mbind, pg_bind, call.
  assert (forall x, P (Err x, tick c)) as Hsame by (intros x; apply Herr; by left).
  destruct (env_fault e _); [| apply Hsame |];
    (destruct (f _) as [x|[a t]] eqn:Ef; cbn; [apply Hsame|]).
  - by apply Hok.
  - apply Herr. by destruct c as [? [] ? ? ?]; [left|right].
Qed.

Lemma wp_of_option {A B} (o : option A) y (k : A -> pg B) e c
    (P : result B * conn -> Prop) :
  (forall x c', cn_db c' = cn_db c \/ cn_tx c = None -> P (Err x, c')) ->
  (forall a, o = Some a -> P (k a e c)) ->
  P ((of_option y o ≫= k) e c).
Proof. intros Herr Hok. destruct o; [by apply Hok|]. apply Herr. by left. Qed.

Lemma wp_of_deref {A B} (o : option A) (k : A -> pg B) e c
    (P : result B * conn -> Prop) :
  (o = None -> P (Panic, c)) -> (forall a, o = Some a -> P (k a e c)) ->
  P ((of_deref o ≫= k) e c).
Proof. intros Hn Hok. destruct o; [by apply Hok|by apply Hn]. Qed.

Definition tock (c : conn) : conn :=
  {| cn_db := cn_db c; cn_tx := cn_tx c; cn_calls := cn_calls c;
     cn_clock := S (cn_clock c); cn_uuids := cn_uuids c |}.

Lemma now_bind {B} (k : instant -> pg B) e c :
  (now ≫= k) e c = k (env_now e (cn_clock c)) e (tock c).
Proof. done. Qed.

Lemma wp_replace {A B} x y (m : pg A) (k : A -> pg B) e c
    (P : result B * conn -> Prop) :
  (forall x c', cn_db c' = cn_db c \/ cn_tx c = None -> P (Err x, c')) ->
  (cn_tx c = None \/ cn_db (m e c).2 = cn_db c) ->
  P ((m ≫= k) e c) -> P ((replace_error x y m ≫= k) e c).
Proof.
  intros Herr Hq. unfold mbind, pg_bind, replace_error.
  destruct (m e c) as [[a|z|] c'] eqn:E; try done. intros _. apply Herr.
  destruct Hq as [|<-]; [by right|by left].
Qed.

Lemma wp_fail {A B} y (k : A -> pg B) e c (P : result B * conn -> Prop) :
  (forall x c', cn_db c' = cn_db c \/ cn_tx c = None -> P (Err x, c')) ->
  P ((fail y ≫= k) e c).
Proof. intros Herr. apply Herr. by left. Qed.

(** A commit publishes the transaction's view, whether or not the reply
    arrives. *)
Lemma wp_commit {B} (k : unit -> pg B) e c (P : result B * conn -> Prop) :
  (forall x c', cn_db c' = cn_db c \/ cn_db c' = default (cn_db c) (cn_tx c) -> P (Err x, c')) ->
  (forall c', cn_db c' = default (cn_db c) (cn_tx c) -> P (k tt e c')) ->
  P ((commit ≫= k) e c).
Proof.
  intros Herr Hok. unfold mbind, pg_bind, commit.
  destruct (env_fault e _); cbn; [by apply Hok|by apply Herr; left|by apply Herr; right].
Qed.

Lemma run_tx {A} (body : pg A) e t (Q : result A -> T -> Prop) :
  (forall x, Q (Err x) t) ->
  (fun p => Q p.1 (cn_db p.2)) (body e (set_tx (Some t) (tick (start t)))) ->
  let '(r, t') := run (with_tx body) e t in Q r t'.
Proof.
  intros Herr Hbody. unfold run, with_tx, mbind, pg_bind, begin_, deferred_rollback.
  cbn [start cn_calls cn_db]. destruct (env_fault e 0); [|apply Herr|apply Herr].
  cbn. change {| cn_db := t; cn_tx := Some t; cn_calls := 1; cn_clock := 0; cn_uuids := 0 |}
    with (set_tx (Some t) (tick (start t))).
  by destruct (body e _) as [r c].
Qed.

Lemma newUUID_bind {B} (k : string -> pg B) e c :
  (newUUID ≫= k) e c =
  k (env_uuid e (cn_uuids c)) e
    {| cn_db := cn_db c; cn_tx := cn_tx c; cn_calls := cn_calls c;
       cn_clock := cn_clock c; cn_uuids := S (cn_uuids c) |}.
Proof. done. Qed.

Lemma call_no_panic {A} (f : T -> error + (A * T)) e c : (call f e c).1 <> Panic.
Proof. unfold call. destruct (env_fault e _); [|done|]; by destruct (f _) as [|[]]. Qed.

(** And without faults. *)
Lemma call_ok {A B} (f : T -> error + (A * T)) (k : A -> pg B) e c a t :
  no_faults e -> f (default (cn_db c) (cn_tx c)) = inr (a, t) ->
  (call f ≫= k) e c = k a e (put t (tick c)).
Proof. intros He Hf. unfold mbind, pg_bind, call. by rewrite He, Hf. Qed.

Lemma call_err {A} (f : T -> error + (A * T)) e c x :
  no_faults e -> f (default (cn_db c) (cn_tx c)) = inl x ->
  call f e c = (Err x, tick c).
Proof. intros He Hf. unfold call. by rewrite He, Hf. Qed.

Lemma replace_ok {A} x y (m : pg A) e c a c' :
  m e c = (Ok a, c') -> replace_error x y m e c = (Ok a, c').
Proof. unfold replace_error. by intros ->. Qed.

Lemma quiet_now : quiet now.
Proof. intros e c t Ht. cbn. by rewrite Ht. Qed.

Lemma quiet_fail {A} x : quiet (@fail A x).
Proof. intros e c t Ht. cbn. by rewrite Ht. Qed.

Lemma quiet_replace {A} x y (m : pg A) : quiet m -> quiet (replace_error x y m).
Proof.
  intros Hm e c t Ht. specialize (Hm e c t Ht). unfold replace_error.
  by destruct (m e c) as [[] ?].
Qed.

Lemma quiet_of_option {A} x (o : option A) : quiet (of_option x o).
Proof. destruct o; [apply quiet_ret|apply quiet_fail]. Qed.

Lemma quiet_of_deref {A} (o : option A) : quiet (of_deref o).
Proof. destruct o; [apply quiet_ret|]. intros e c t Ht. cbn. by rewrite Ht. Qed.
End Monad.
Arguments conn : clear implicits.
Arguments pg : clear implicits.

Create HintDb quiet.
#[export] Hint Resolve quiet_ret quiet_call quiet_now quiet_fail quiet_of_option
  quiet_of_deref : quiet.

(** Splits a body into its statements. *)
Ltac solve_quiet :=
  repeat first [apply quiet_bind; [|intros ?] | apply quiet_replace]; eauto with quiet.
