(* ===== verification/Repository.v ===== *)
(** * The deposit repository: [internal/db/repository.go], [postgres.go]

    [Repository] is the Go interface: what the handlers call.
    [RepositoryLaws] is what an implementation promises, on the abstract state
    [repo_view]: the readable deposits by key.  [PostgresRepo] implements it on
    the tables of [migrations/001_init.sql]; [postgres_laws] discharges the
    promise, faults of database calls included. *)

From S2P Require Import Prelude Float64 Calendar Models Utf8 Json JsonModels Runtime Postgres.

Abbreviation patch_fn := (option (Deposit -> option Deposit)) (only parsing).

(** ** The interface *)

Class Repository (S : Type) := {
  repo_Create : env -> Deposit -> S -> result Deposit * S;
  repo_GetByID : env -> string -> S -> result Deposit * S;
  repo_UpdateState : env -> string -> LifecycleState -> HistoryEntry -> patch_fn ->
                     S -> result Deposit * S }.

(** The deposit [Create] stores: identifier, state, timestamp and history are
    the server's, whatever the request said. *)
Definition requested_entry (t : instant) : HistoryEntry :=
  {| HistoryEntry_State := StateRequested; HistoryEntry_Timestamp := t;
     HistoryEntry_Actor := "TENANT"; HistoryEntry_Comment := "";
     HistoryEntry_Signature := "" |}.

Definition create_deposit (id : string) (t : instant) (d : Deposit) : Deposit :=
  let d := set_ID id d in
  let d := set_DepositData (set_LifecycleState StateRequested (Deposit_Deposit d)) d in
  let d := set_Meta (set_Timestamp t (Deposit_Meta d)) d in
  set_DepositData (set_History [requested_entry t] (Deposit_Deposit d)) d.

(** What [UpdateState] does to a deposit after the patch. *)
Definition set_entry_Timestamp (t : instant) (h : HistoryEntry) : HistoryEntry :=
  {| HistoryEntry_State := HistoryEntry_State h; HistoryEntry_Timestamp := t;
     HistoryEntry_Actor := HistoryEntry_Actor h;
     HistoryEntry_Comment := HistoryEntry_Comment h;
     HistoryEntry_Signature := HistoryEntry_Signature h |}.

Definition advance (newState : LifecycleState) (entry : HistoryEntry) (t : instant)
    (d : Deposit) : Deposit :=
  let d := set_DepositData (set_LifecycleState newState (Deposit_Deposit d)) d in
  set_DepositData
    (set_History (history d ++ [set_entry_Timestamp t entry]) (Deposit_Deposit d)) d.

(** [if patch != nil { patch(&d) }]; [None] is a nil dereference. *)
Definition apply_patch (p : patch_fn) (d : Deposit) : option Deposit :=
  match p with Some f => f d | None => Some d end.

(** A text that a text column takes: UTF-8 without a zero byte. *)
Definition sql_text (s : string) : bool := utf8_valid s && no_zero s.
#[global] Arguments sql_text _ : simpl never.

(** The texts of an update that go into columns of their own. *)
Definition sql_entry (newState : LifecycleState) (en : HistoryEntry) : bool :=
  sql_text newState && sql_text (HistoryEntry_Actor en) &&
  sql_text (HistoryEntry_Comment en) && sql_text (HistoryEntry_Signature en).

(** ** What an implementation promises *)

Class RepositoryLaws (S : Type) `{Repository S} := {
  repo_key : string -> option string;
  repo_view : S -> gmap string Deposit;

  repo_get_pure e id s : (repo_GetByID e id s).2 = s;
  repo_get_no_panic e id s : (repo_GetByID e id s).1 <> Panic;
  repo_get_ok e id s d :
    (repo_GetByID e id s).1 = Ok d ->
    exists k, repo_key id = Some k /\ repo_view s !! k = Some d;
  repo_get_present e id s k d :
    no_faults e -> repo_key id = Some k -> repo_view s !! k = Some d ->
    (repo_GetByID e id s).1 = Ok d;

  (** [UpdateState] is all or nothing, and an error reply leaves open which. *)
  repo_update_cases e id ns en p s :
    let '(r, s') := repo_UpdateState e id ns en p s in
    (s' = s /\ is_ok r = false /\
     (r = Panic -> exists k d, repo_key id = Some k /\ repo_view s !! k = Some d /\
                               apply_patch p d = None)) \/
    (exists k d0 d1, repo_key id = Some k /\ repo_view s !! k = Some d0 /\
       apply_patch p d0 = Some d1 /\ sql_entry ns en = true /\
       repo_view s' = <[k := stored (advance ns en (env_now e 0) d1)]> (repo_view s) /\
       (r = Ok (advance ns en (env_now e 0) d1) \/ exists x, r = Err x));
  repo_update_commits e id ns en p s k d0 d1 :
    no_faults e -> repo_key id = Some k -> repo_view s !! k = Some d0 ->
    apply_patch p d0 = Some d1 -> sql_entry ns en = true ->
    storable (advance ns en (env_now e 0) d1) ->
    (repo_UpdateState e id ns en p s).1 = Ok (advance ns en (env_now e 0) d1);

  repo_create_cases e d s :
    let '(r, s') := repo_Create e d s in
    let d' := create_deposit (env_uuid e 0) (env_now e 0) d in
    (repo_view s' = repo_view s /\ exists x, r = Err x) \/
    (exists k, repo_key (env_uuid e 0) = Some k /\ repo_view s !! k = None /\
       repo_view s' = <[k := stored d']> (repo_view s) /\
       (r = Ok d' \/ exists x, r = Err x));

  (** What is read has been repaired, and what is written can be stored. *)
  repo_view_texts s k d : repo_view s !! k = Some d -> texts_ok d;
  repo_update_marshals e id ns en p s k d :
    repo_view (repo_UpdateState e id ns en p s).2 !! k = Some d ->
    repo_view s !! k = Some d \/ storable d;
  repo_create_marshals e d0 s k d :
    repo_view (repo_Create e d0 s).2 !! k = Some d ->
    repo_view s !! k = Some d \/ storable d }.

(** ** The tables of [001_init.sql] *)

Record deposit_row := { row_lifecycle_state : string; row_data : json }.

(** A row of the audit log; [comment] and [signature] may be NULL. *)
Record history_row := {
  hist_deposit_id : string;
  hist_state : string;
  hist_timestamp : instant;
  hist_actor : string;
  hist_comment : option string;
  hist_signature : option string }.

Record tables := {
  t_deposits : gmap string deposit_row;
  t_history : list history_row }.

Section PostgresRepo.
(** PostgreSQL's reading of a text as a [UUID], in canonical form; an id that
    is not one makes the query fail. *)
Context (uuid_key : string -> option string).

(** ** Statements

    A statement fails when PostgreSQL refuses one of its parameters: a text
    that is no UTF-8 or holds a zero byte, a document with the character U+0000. *)

Definition insert_deposit (id state : string) (data : json) (t : tables) :
    error + (unit * tables) :=
  if negb (sql_text state && jsonb_ok data) then inl ErrDriver else
  match uuid_key id with
  | None => inl ErrDriver
  | Some k =>
      match t_deposits t !! k with
      | Some _ => inl ErrDriver       (* primary key *)
      | None =>
          inr (tt, {| t_deposits := <[k := {| row_lifecycle_state := state;
                                             row_data := data |}]> (t_deposits t);
                     t_history := t_history t |})
      end
  end.

Definition insert_history (id state : string) (ts : instant) (actor : string)
    (comment signature : option string) (t : tables) : error + (unit * tables) :=
  if negb (sql_text state && sql_text actor && sql_text (default "" comment) &&
           sql_text (default "" signature)) then inl ErrDriver else
  match uuid_key id with
  | None => inl ErrDriver
  | Some k =>
      match t_deposits t !! k with
      | None => inl ErrDriver         (* foreign key *)
      | Some _ =>
          inr (tt, {| t_deposits := t_deposits t;
                     t_history := t_history t ++
                       [{| hist_deposit_id := k; hist_state := state;
                           hist_timestamp := timestamptz ts; hist_actor := actor;
                           hist_comment := comment; hist_signature := signature |}] |})
      end
  end.

(** [SELECT data FROM deposits WHERE id = $1 (FOR UPDATE)]. *)
Definition select_data (id : string) (t : tables) : error + (json * tables) :=
  match uuid_key id with
  | None => inl ErrDriver
  | Some k =>
      match t_deposits t !! k with
      | None => inl ErrNoRows
      | Some r => inr (row_data r, t)
      end
  end.

Definition update_deposit (id state : string) (data : json) (t : tables) :
    error + (unit * tables) :=
  if negb (sql_text state && jsonb_ok data) then inl ErrDriver else
  match uuid_key id with
  | None => inl ErrDriver
  | Some k =>
      match t_deposits t !! k with
      | None => inr (tt, t)            (* no row: nothing is updated *)
      | Some _ =>
          inr (tt, {| t_deposits := <[k := {| row_lifecycle_state := state;
                                             row_data := data |}]> (t_deposits t);
                     t_history := t_history t |})
      end
  end.

(** ** The operations *)

Definition Create (d : Deposit) : pg tables Deposit :=
  id ← newUUID;
  t ← now;
  let d := create_deposit id t d in
  raw ← of_option ErrMarshal (marshal d);
  _ ← call (insert_deposit (Deposit_ID d) StateRequested raw);
  _ ← call (insert_history (Deposit_ID d) StateRequested t "TENANT" None None);
  mret d.

Definition GetByID (id : string) : pg tables Deposit :=
  raw ← replace_error ErrNoRows ErrNotFound (call (select_data id));
  of_option ErrUnmarshal (unmarshal raw).

Definition update_body (id : string) (newState : LifecycleState) (entry : HistoryEntry)
    (patch : patch_fn) : pg tables Deposit :=
  raw ← replace_error ErrNoRows ErrNotFound (call (select_data id));
  d ← of_option ErrUnmarshal (unmarshal raw);
  d ← of_deref (apply_patch patch d);
  t ← now;
  let d := advance newState entry t d in
  updated ← of_option ErrMarshal (marshal d);
  _ ← call (update_deposit id newState updated);
  _ ← call (insert_history id newState t (HistoryEntry_Actor entry)
              (Some (HistoryEntry_Comment entry)) (Some (HistoryEntry_Signature entry)));
  mret d.

Definition UpdateState (id : string) (newState : LifecycleState) (entry : HistoryEntry)
    (patch : patch_fn) : pg tables Deposit :=
  with_tx (d ← update_body id newState entry patch; _ ← commit; mret d).

#[export] Instance PostgresRepo : Repository tables := {|
  repo_Create e d := run (Create d) e;
  repo_GetByID e id := run (GetByID id) e;
  repo_UpdateState e id ns en p := run (UpdateState id ns en p) e |}.
End PostgresRepo.

(** ** The promise, discharged *)

Definition pg_view (t : tables) : gmap string Deposit :=
  omap (fun r => unmarshal (row_data r)) (t_deposits t).

Section PostgresLaws.
Context (uuid_key : string -> option string).

Lemma pg_view_lookup t k :
  pg_view t !! k = r ← t_deposits t !! k; unmarshal (row_data r).
Proof. apply lookup_omap. Qed.

Lemma pg_view_insert t k s j d h :
  unmarshal j = Some d ->
  pg_view {| t_deposits := <[k := {| row_lifecycle_state := s; row_data := j |}]>
                             (t_deposits t); t_history := h |} =
  <[k := d]> (pg_view t).
Proof. intros H. unfold pg_view. cbn [t_deposits]. by apply omap_insert_Some. Qed.

(** The committed effect of the statements of an update. *)
Definition updated_tables (k : string) (d : Deposit) (j : json) (ns : string) (t0 : instant)
    (en : HistoryEntry) (t : tables) : tables :=
  {| t_deposits := <[k := {| row_lifecycle_state := ns; row_data := j |}]> (t_deposits t);
     t_history := t_history t ++
       [{| hist_deposit_id := k; hist_state := ns; hist_timestamp := timestamptz t0;
           hist_actor := HistoryEntry_Actor en;
           hist_comment := Some (HistoryEntry_Comment en);
           hist_signature := Some (HistoryEntry_Signature en) |}] |}.

(** What the body of an update does before its commit: it fails, or it read
    the row, applied the patch and wrote row and history. *)
Lemma update_body_cases id ns en p e c t (m := update_body uuid_key id ns en p e c) :
  cn_tx c = Some t -> cn_clock c = 0 ->
  (is_ok m.1 = false /\
   (m.1 = Panic -> exists k d, uuid_key id = Some k /\ pg_view t !! k = Some d /\
                               apply_patch p d = None)) \/
  (exists k d0 d1 j (d2 := advance ns en (env_now e 0) d1),
     uuid_key id = Some k /\ pg_view t !! k = Some d0 /\ apply_patch p d0 = Some d1 /\
     marshal d2 = Some j /\ jsonb_ok j = true /\ sql_entry ns en = true /\ m.1 = Ok d2 /\
     cn_tx m.2 = Some (updated_tables k d2 j ns (env_now e 0) en t)).
Proof.
  intros Ht Hc. destruct c as [db tx calls clock uuids]. cbn in Ht, Hc. subst tx clock.
  subst m. unfold update_body. apply wp_replace; [by left| |].
  { right. by eapply quiet_call. }
  apply wp_call; [by left|]. intros raw t1 Hsel. cbn in Hsel.
  unfold select_data in Hsel.
  destruct (uuid_key id) as [k|] eqn:Ek; [|done].
  destruct (t_deposits t !! k) as [row|] eqn:Er; [|done]. injection Hsel as <- <-.
  apply wp_of_option; [by left|]. intros d0 Eu.
  assert (pg_view t !! k = Some d0) as Hv by (rewrite pg_view_lookup, Er; done).
  apply wp_of_deref; [intros Hn; left; split; [done|by eauto 10]|]. intros d1 Ep.
  rewrite now_bind.
  apply wp_of_option; [by left|]. intros j Ej.
  apply wp_call; [by left|]. intros [] t2 Hup.
  apply wp_call; [by left|]. intros [] t3 Hins.
  cbn in Hup, Hins. unfold update_deposit in Hup. unfold insert_history in Hins.
  destruct (sql_text ns && jsonb_ok j) eqn:Hj; [|done]. cbn in Hup.
  apply andb_true_iff in Hj as [Hns Hj].
  change (sql_text ns && _ && _ && _) with (sql_entry ns en) in Hins.
  destruct (sql_entry ns en) eqn:Hen; [|done]. cbn in Hins.
  rewrite Ek in Hup, Hins. rewrite Er in Hup. injection Hup as <-.
  cbn in Hins. rewrite lookup_insert_eq in Hins. injection Hins as <-.
  right. by eexists k, d0, d1, j.
Qed.

Lemma pg_view_updated k d j ns t0 en t :
  marshal d = Some j ->
  pg_view (updated_tables k d j ns t0 en t) = <[k := stored d]> (pg_view t).
Proof. intros Hj. apply pg_view_insert. by apply unmarshal_marshal. Qed.

(** The transaction as a whole: either nothing is committed, or exactly the
    tables of one update. *)
Lemma UpdateState_cases id ns en p e t :
  let '(r, t') := run (UpdateState uuid_key id ns en p) e t in
  (t' = t /\ is_ok r = false /\
   (r = Panic -> exists k d, uuid_key id = Some k /\ pg_view t !! k = Some d /\
                             apply_patch p d = None)) \/
  (exists k d0 d1 j (d2 := advance ns en (env_now e 0) d1),
     uuid_key id = Some k /\ pg_view t !! k = Some d0 /\ apply_patch p d0 = Some d1 /\
     marshal d2 = Some j /\ jsonb_ok j = true /\ sql_entry ns en = true /\
     t' = updated_tables k d2 j ns (env_now e 0) en t /\
     (r = Ok d2 \/ r = Err ErrDriver)).
Proof.
  unfold run, UpdateState, with_tx, mbind at 1, pg_bind at 1.
  unfold begin_. cbn [start cn_calls cn_db].
  destruct (env_fault e 0); [|by left|by left].
  unfold deferred_rollback.
  set (c1 := set_tx (Some t) _).
  pose proof (update_body_cases id ns en p e c1 t eq_refl eq_refl) as Hb.
  assert (quiet (update_body uuid_key id ns en p)) as Hq
    by (unfold update_body; solve_quiet).
  destruct (Hq e c1 t eq_refl) as [Hdb [t1 Ht1]]. cbn [c1 set_tx cn_db start] in Hdb.
  unfold mbind at 1, pg_bind at 1.
  destruct (update_body uuid_key id ns en p e c1) as [r c2]. cbn in Hb, Hdb, Ht1.
  destruct Hb as [[Hno Hp]|(k & d0 & d1 & j & Hk & Hv & Ha & Hj & Ho & He & -> & Htx)].
  - destruct r; [done| |]; cbn; by left.
  - cbn. unfold commit, mbind, pg_bind.
    destruct (env_fault e (cn_calls c2)); cbn; [right|by left|right];
      rewrite Htx; cbn; eexists k, d0, d1, j; repeat split; eauto.
Qed.

Lemma GetByID_cases id e t :
  let '(r, t') := run (GetByID uuid_key id) e t in
  t' = t /\ r <> Panic /\
  (forall d, r = Ok d -> exists k, uuid_key id = Some k /\ pg_view t !! k = Some d).
Proof.
  unfold run, GetByID, mbind, pg_bind, replace_error, call, start, put, select_data.
  cbn [cn_calls cn_tx cn_db default].
  assert (forall x, t = t /\ @Err Deposit x <> Panic /\ (forall d, Err x = Ok d ->
    exists k, uuid_key id = Some k /\ pg_view t !! k = Some d)) as Herr
    by (intros x; split; [done|]; split; [done|]; by intros d [=]).
  destruct (env_fault e 0); cbn; [|apply Herr|];
    (destruct (uuid_key id) as [k|] eqn:Ek; cbn; [|apply Herr]);
    (destruct (t_deposits t !! k) as [row|] eqn:Er; cbn; [|apply Herr]);
    [|apply Herr].
  assert (pg_view t !! k = unmarshal (row_data row)) as Hv by (by rewrite pg_view_lookup, Er).
  unfold of_option. destruct (unmarshal (row_data row)) as [d|]; cbn; [|done].
  split; [done|]. split; [done|]. intros d' [= <-]. by eauto.
Qed.

Lemma GetByID_present id e t k d :
  no_faults e -> uuid_key id = Some k -> pg_view t !! k = Some d ->
  run (GetByID uuid_key id) e t = (Ok d, t).
Proof.
  intros He Hk Hv. rewrite pg_view_lookup in Hv.
  apply bind_Some in Hv as (row & Hr & Hu).
  unfold run, GetByID, mbind, pg_bind, replace_error, call, select_data. cbn.
  rewrite He, Hk, Hr. cbn. unfold of_option. by rewrite Hu.
Qed.

Lemma GetByID_absent id e t k :
  no_faults e -> uuid_key id = Some k -> t_deposits t !! k = None ->
  run (GetByID uuid_key id) e t = (Err ErrNotFound, t).
Proof.
  intros He Hk Hr. unfold run, GetByID, mbind, pg_bind, replace_error, call, select_data.
  cbn. by rewrite He, Hk, Hr.
Qed.

Lemma UpdateState_commits id ns en p e t k d0 d1 :
  no_faults e -> uuid_key id = Some k -> pg_view t !! k = Some d0 ->
  apply_patch p d0 = Some d1 -> sql_entry ns en = true ->
  storable (advance ns en (env_now e 0) d1) ->
  (run (UpdateState uuid_key id ns en p) e t).1 = Ok (advance ns en (env_now e 0) d1).
Proof.
  intros He Hk Hv Hp Hen (j & Hj & Ho). rewrite pg_view_lookup in Hv.
  apply bind_Some in Hv as (row & Hr & Hu). pose proof Hen as Hen'. unfold sql_entry in Hen'.
  rewrite !andb_true_iff in Hen'. destruct Hen' as [[[Hns _] _] _].
  unfold run, UpdateState, with_tx, mbind, pg_bind, begin_, deferred_rollback,
    update_body, mbind, pg_bind, replace_error, call, select_data.
  cbn [start cn_calls cn_db cn_tx set_tx tick default]. rewrite !He. cbn. rewrite Hk, Hr. cbn.
  unfold of_option, of_deref. rewrite Hu. cbn. rewrite Hp. cbn. rewrite Hj. cbn.
  rewrite He. unfold update_deposit. rewrite Hns, Ho, Hk, Hr. cbn.
  rewrite He. unfold insert_history. cbn [default].
  change (sql_text ns && _ && _ && _) with (sql_entry ns en). rewrite Hen, Hk. cbn. rewrite lookup_insert_eq. cbn.
  unfold commit. cbn. by rewrite He.
Qed.

Lemma Create_cases d e t :
  let '(r, t') := run (Create uuid_key d) e t in
  let d' := create_deposit (env_uuid e 0) (env_now e 0) d in
  (t' = t /\ exists x, r = Err x) \/
  (exists k j h, uuid_key (env_uuid e 0) = Some k /\ t_deposits t !! k = None /\
     marshal d' = Some j /\ jsonb_ok j = true /\
     t' = {| t_deposits := <[k := {| row_lifecycle_state := StateRequested;
                                    row_data := j |}]> (t_deposits t);
             t_history := t_history t ++ h |} /\
     (h = [] /\ (exists x, r = Err x) \/
      h = [{| hist_deposit_id := k; hist_state := StateRequested;
              hist_timestamp := timestamptz (env_now e 0); hist_actor := "TENANT";
              hist_comment := None; hist_signature := None |}] /\
      (r = Ok d' \/ exists x, r = Err x))).
Proof.
  unfold run, Create, newUUID, now, mbind, pg_bind, of_option. cbn [start].
  set (d' := create_deposit _ _ d).
  assert (Deposit_ID d' = env_uuid e 0) as Hid by (by destruct d).
  clearbody d'. destruct (marshal d') as [j|] eqn:Ej; cbn [mret pg_ret]; [|cbn; left; by eauto].
  rewrite Hid. unfold call, insert_deposit, insert_history. cbn [default].
  change (sql_text StateRequested) with true. change (sql_text "TENANT") with true.
  change (sql_text "") with true. cbn -[jsonb_ok].
  destruct (jsonb_ok j) eqn:Hj; cbn; [|by destruct (env_fault e 0); cbn; left; eauto].
  destruct (env_fault e 0) eqn:F0; [|cbn; left; by eauto|];
    (destruct (uuid_key _) as [k|] eqn:Ek; [|cbn; left; by eauto]);
    (destruct (t_deposits t !! k) eqn:El; [cbn; left; by eauto|]); cbn.
  - destruct (env_fault e 1); cbn; rewrite ?lookup_insert_eq; cbn; right;
      [eexists k, j, _|exists k, j, []; rewrite app_nil_r|eexists k, j, _];
      (split_and!; [done..|reflexivity|]); eauto 10.
  - right. exists k, j, []. rewrite app_nil_r. split_and!; [done..|reflexivity|]. by eauto.
Qed.
End PostgresLaws.

Lemma written_marshals t k0 s d0 j h k d :
  marshal d0 = Some j -> jsonb_ok j = true ->
  pg_view {| t_deposits := <[k0 := {| row_lifecycle_state := s; row_data := j |}]>
      (t_deposits t); t_history := h |} !! k = Some d ->
  pg_view t !! k = Some d \/ storable d.
Proof.
  intros Hj Ho. rewrite (pg_view_insert _ _ _ _ (stored d0)) by by apply unmarshal_marshal.
  intros [[_ <-]|[_ ?]]%lookup_insert_Some; [right|by left].
  apply storable_stored. by exists j.
Qed.

(** PostgreSQL keeps the promise. *)
#[export] Instance postgres_laws (uuid_key : string -> option string) :
  @RepositoryLaws tables (PostgresRepo uuid_key).
Proof.
  refine {| repo_key := uuid_key; repo_view := pg_view |}; cbn.
  - intros e id t. pose proof (GetByID_cases uuid_key id e t) as H.
    destruct (run _ e t). by destruct H.
  - intros e id t. pose proof (GetByID_cases uuid_key id e t) as H.
    destruct (run _ e t). by destruct H as (_ & ? & _).
  - intros e id t d. pose proof (GetByID_cases uuid_key id e t) as H.
    destruct (run _ e t). destruct H as (_ & _ & H). apply H.
  - intros e id t k d He Hk Hv. by rewrite (GetByID_present uuid_key id e t k d).
  - intros e id ns en p t. pose proof (UpdateState_cases uuid_key id ns en p e t) as H.
    destruct (run _ e t) as [r t'].
    destruct H as [H|(k & d0 & d1 & j & Hk & Hv & Hp & Hj & _ & He & -> & Hr)]; [by left|right].
    exists k, d0, d1. rewrite (pg_view_updated _ _ _ _ _ _ _ Hj).
    destruct Hr as [->| ->]; eauto 10.
  - intros. by eapply UpdateState_commits.
  - intros e d t. pose proof (Create_cases uuid_key d e t) as H.
    destruct (run _ e t) as [r t'].
    destruct H as [[-> H]|(k & j & h & Hk & Hf & Hj & _ & -> & Hr)]; [by left|right].
    exists k. rewrite pg_view_lookup, Hf. rewrite (pg_view_insert _ _ _ _ (stored
      (create_deposit (env_uuid e 0) (env_now e 0) d))) by by apply unmarshal_marshal.
    destruct t. by destruct Hr as [[-> Hr]|[-> Hr]]; eauto 10.
  - intros t k d. rewrite pg_view_lookup. intros (row & _ & Hu)%bind_Some.
    by eapply unmarshal_texts.
  - intros e id ns en p t k d. pose proof (UpdateState_cases uuid_key id ns en p e t) as H.
    destruct (run _ e t) as [r t'].
    destruct H as [[-> _]|(k0 & d0 & d1 & j & _ & _ & _ & Hj & Ho & _ & -> & _)]; [by left|].
    by eapply written_marshals.
  - intros e d0 t k d. pose proof (Create_cases uuid_key d0 e t) as H.
    destruct (run _ e t) as [r t'].
    destruct H as [[-> _]|(k0 & j & h & _ & _ & Hj & Ho & -> & _)]; [by left|].
    by eapply written_marshals.
Defined.

(** ** The tables agree with each other

    The state column, the document and the audit log are written by separate
    statements; [tables_ok] is their agreement. *)

Definition entry_key (h : HistoryEntry) : string * instant * string * string * string :=
  (HistoryEntry_State h, timestamptz (HistoryEntry_Timestamp h), HistoryEntry_Actor h,
   HistoryEntry_Comment h, HistoryEntry_Signature h).
(** NULL stands for the empty text. *)
Definition audit_key (r : history_row) : string * instant * string * string * string :=
  (hist_state r, hist_timestamp r, hist_actor r,
   default "" (hist_comment r), default "" (hist_signature r)).

(** The audit rows of a deposit, in insertion order. *)
Definition audit_trail (k : string) (t : tables) :
    list (string * instant * string * string * string) :=
  audit_key <$> filter (fun r => hist_deposit_id r = k) (t_history t).

(** A deposit and its audit rows: the log is the history of the document, or
    the history without its first entry (its INSERT failed in [Create]). *)
Definition audited (trail : list (string * instant * string * string * string)) (d : Deposit) : Prop :=
  trail = entry_key <$> history d \/ trail = entry_key <$> drop 1 (history d).

Definition row_ok (t : tables) (k : string) (row : deposit_row) : Prop :=
  exists d, unmarshal (row_data row) = Some d /\
    row_lifecycle_state row = lifecycle d /\
    HistoryEntry_State <$> last (history d) = Some (lifecycle d) /\
    audited (audit_trail k t) d.

Definition tables_ok (t : tables) : Prop :=
  (forall r, r ∈ t_history t -> is_Some (t_deposits t !! hist_deposit_id r)) /\
  (forall k row, t_deposits t !! k = Some row -> row_ok t k row).

Definition empty_tables : tables := {| t_deposits := ∅; t_history := [] |}.

Lemma history_create id t d : history (create_deposit id t d) = [requested_entry t].
Proof. by destruct d as [? [] ? ? ? []]. Qed.
Lemma lifecycle_create id t d : lifecycle (create_deposit id t d) = StateRequested.
Proof. by destruct d as [? [] ? ? ? []]. Qed.
Lemma history_advance ns en t d :
  history (advance ns en t d) = history d ++ [set_entry_Timestamp t en].
Proof. by destruct d as [? [] ? ? ? []]. Qed.
Lemma lifecycle_advance ns en t d : lifecycle (advance ns en t d) = ns.
Proof. by destruct d as [? [] ? ? ? []]. Qed.
Lemma Settlement_advance ns en t d :
  Deposit_Settlement (advance ns en t d) = Deposit_Settlement d.
Proof. by destruct d. Qed.
Lemma UtilityReservation_advance ns en t d :
  Deposit_UtilityReservation (advance ns en t d) = Deposit_UtilityReservation d.
Proof. by destruct d. Qed.

Create Rewrite HintDb deposit.
#[export] Hint Rewrite history_create lifecycle_create history_advance lifecycle_advance
  Settlement_advance UtilityReservation_advance stored_Settlement stored_UtilityReservation
  stored_Pledge stored_Tenant stored_ID : deposit.

Lemma clean_sql_text s : sql_text s = true -> clean_string s = s.
Proof. unfold sql_text. intros [Hs _]%andb_true_iff. by apply clean_string_valid. Qed.

(** State and history as they are stored: the texts of an accepted update
    need no repair. *)
Lemma lifecycle_stored_create id t d : lifecycle (stored (create_deposit id t d)) = StateRequested.
Proof. by rewrite stored_lifecycle, lifecycle_create. Qed.

Lemma history_stored_create id t d :
  history (stored (create_deposit id t d)) = [requested_entry t].
Proof. by rewrite stored_history, history_create. Qed.

Lemma lifecycle_stored_advance ns en t d :
  sql_entry ns en = true -> lifecycle (stored (advance ns en t d)) = ns.
Proof.
  unfold sql_entry. rewrite !andb_true_iff, stored_lifecycle, lifecycle_advance.
  intros [[[? _] _] _]. by apply clean_sql_text.
Qed.

Lemma kept_sql_entry ns en :
  HistoryEntry_State en = ns -> sql_entry ns en = true -> kept_HistoryEntry en = en.
Proof.
  unfold sql_entry, kept_HistoryEntry. rewrite !andb_true_iff. intros <- [[[? ?] ?] ?].
  rewrite !clean_sql_text by done. by destruct en.
Qed.

Lemma history_stored_advance ns en t d0 d1 :
  texts_ok d0 -> history d1 = history d0 -> HistoryEntry_State en = ns ->
  sql_entry ns en = true ->
  history (stored (advance ns en t d1)) = history d0 ++ [set_entry_Timestamp t en].
Proof.
  intros (_ & _ & Hh & _) Hd He Hs. rewrite stored_history, history_advance, fmap_app, Hd, Hh.
  cbn. by rewrite (kept_sql_entry ns (set_entry_Timestamp t en)).
Qed.

#[export] Hint Rewrite lifecycle_stored_create history_stored_create : deposit.
#[export] Hint Rewrite lifecycle_stored_advance using done : deposit.

Lemma audit_trail_app k deps h t :
  audit_trail k {| t_deposits := deps; t_history := t_history t ++ h |} =
  audit_trail k t ++ audit_trail k {| t_deposits := deps; t_history := h |}.
Proof. unfold audit_trail. cbn [t_history]. by rewrite filter_app, fmap_app. Qed.

Lemma audit_trail_one k deps r :
  audit_trail k {| t_deposits := deps; t_history := [r] |} =
  if decide (hist_deposit_id r = k) then [audit_key r] else [].
Proof.
  unfold audit_trail. cbn [t_history]. rewrite filter_cons. by case_decide.
Qed.

Lemma audited_advance trail d1 d0 ns en t :
  texts_ok d0 -> history d1 = history d0 -> HistoryEntry_State en = ns -> sql_entry ns en = true ->
  history d0 <> [] -> audited trail d0 ->
  audited (trail ++ [entry_key (set_entry_Timestamp t en)]) (stored (advance ns en t d1)).
Proof.
  intros Ht Hh He Hs Hne Ha. unfold audited in *. rewrite (history_stored_advance _ _ _ d0) by done.
  destruct (history d0) as [|h l]; [done|]. cbn [drop app].
  destruct Ha as [->| ->]; [left|right]; cbn [drop];
    by rewrite <-(fmap_app entry_key _ [set_entry_Timestamp t en]).
Qed.

Lemma audit_trail_none k deps h :
  (forall r, r ∈ h -> hist_deposit_id r <> k) ->
  audit_trail k {| t_deposits := deps; t_history := h |} = [].
Proof.
  unfold audit_trail. cbn [t_history]. induction h as [|r h IH]; [done|]. intros Hr.
  rewrite filter_cons_False by (apply Hr; by left). apply IH. intros r' H'. apply Hr. by right.
Qed.

(** Adding a row for [k] and its audit rows keeps the others as they were. *)
Lemma tables_ok_insert t k row h :
  tables_ok t ->
  (forall r, r ∈ h -> hist_deposit_id r = k) ->
  let t' := {| t_deposits := <[k := row]> (t_deposits t); t_history := t_history t ++ h |} in
  row_ok t' k row -> tables_ok t'.
Proof.
  intros [Hfk Hrows] Hh t' Hrow. split; cbn.
  - intros r [Hr|Hr]%elem_of_app.
    + rewrite lookup_insert_is_Some'. right. by apply Hfk.
    + by rewrite (Hh r Hr), lookup_insert_eq.
  - intros k' row'. rewrite lookup_insert_Some. intros [[<- <-]|[Hne Hl]]; [done|].
    destruct (Hrows k' row' Hl) as (d & Hu & Hs & Hl' & Ha). exists d.
    split_and!; [done..|]. unfold t'. rewrite audit_trail_app, audit_trail_none, app_nil_r.
    + done.
    + intros r Hr. by rewrite (Hh r Hr).
Qed.

Lemma create_preserves uuid_key e d t :
  tables_ok t -> tables_ok (run (Create uuid_key d) e t).2.
Proof.
  intros Hok. pose proof (Create_cases uuid_key d e t) as H.
  destruct (run _ e t) as [r t'].
  destruct H as [[-> _]|(k & j & h & Hk & Hfresh & Hj & _ & -> & Hr)]; [done|]. cbn [snd].
  assert (forall deps, audit_trail k {| t_deposits := deps; t_history := t_history t |} = [])
    as Hnone.
  { intros deps. apply audit_trail_none. intros r' Hr' <-. destruct Hok as [Hfk _].
    specialize (Hfk r' Hr'). by rewrite Hfresh in Hfk; destruct Hfk. }
  apply tables_ok_insert; [done| |].
  - intros r'. destruct Hr as [[-> _]|[-> _]]; [by intros ?%elem_of_nil|].
    by intros ->%list_elem_of_singleton.
  - exists (stored (create_deposit (env_uuid e 0) (env_now e 0) d)).
    split; [by apply unmarshal_marshal|]. unfold audited. autorewrite with deposit.
    split; [done|]. split; [done|]. rewrite audit_trail_app.
    unfold audit_trail at 1 3. cbn [t_history]. change (_ <$> filter _ (t_history t)) with
      (audit_trail k {| t_deposits := ∅; t_history := t_history t |}).
    rewrite Hnone. destruct Hr as [[-> _]|[-> _]]; [by right|left].
    by rewrite audit_trail_one, decide_True.
Qed.

(** An update whose entry names the new state and whose patch leaves the
    history of the deposit it meets alone. *)
Lemma update_preserves uuid_key e id ns en p t :
  HistoryEntry_State en = ns ->
  (forall k d d', uuid_key id = Some k -> pg_view t !! k = Some d -> apply_patch p d = Some d' ->
     history d' = history d) ->
  tables_ok t -> tables_ok (run (UpdateState uuid_key id ns en p) e t).2.
Proof.
  intros He Hp Hok. pose proof (UpdateState_cases uuid_key id ns en p e t) as H.
  destruct (run _ e t) as [r t'].
  destruct H as [[-> _]|(k & d0 & d1 & j & Hk & Hv & Ha & Hj & _ & Hs & -> & _)]; [done|]. cbn [snd].
  pose proof Hv as (row & Hr & Hu)%(eq_trans (eq_sym (pg_view_lookup _ _)))%bind_Some.
  pose proof Hok as [_ Hrows].
  destruct (Hrows k row Hr) as (d & Hu' & Hl & Hst & Haud).
  rewrite Hu in Hu'. injection Hu' as <-.
  assert (texts_ok d0) as Ht by by eapply unmarshal_texts.
  assert (history d1 = history d0) as Hh by by eapply Hp.
  apply tables_ok_insert; [done|by intros r' ->%list_elem_of_singleton|].
  exists (stored (advance ns en (env_now e 0) d1)).
  split; [by apply unmarshal_marshal|]. split; [by rewrite lifecycle_stored_advance|].
  rewrite (history_stored_advance _ _ _ d0), lifecycle_stored_advance, last_snoc by done.
  split; [by rewrite <-He|].
  rewrite audit_trail_app, audit_trail_one, decide_True by done. cbn [hist_deposit_id].
  rewrite <-He at 1. apply (audited_advance _ d1 d0); try done.
  intros Hnil. by rewrite Hnil in Hst.
Qed.

Lemma get_preserves uuid_key e id t :
  tables_ok t -> tables_ok (run (GetByID uuid_key id) e t).2.
Proof.
  pose proof (GetByID_cases uuid_key id e t) as H. destruct (run _ e t). by destruct H as [-> _].
Qed.

Lemma empty_tables_ok : tables_ok empty_tables.
Proof. split; cbn; [by intros r ?%elem_of_nil|intros k row H; by rewrite lookup_empty in H]. Qed.

(** C34: UpdateState takes effect as a whole or not at all, at whichever database call it is
    interrupted: either the committed tables are untouched and the call failed, or the row and
    one audit entry were written together from the deposit that was read, and the caller gets
    that deposit or, when only the commit's reply was lost, an error. *)
Theorem UpdateState_is_atomic uuid_key id ns en p e t :
  let '(r, t') := run (UpdateState uuid_key id ns en p) e t in
  (t' = t /\ is_ok r = false) \/
  exists k d0 d1 j (d2 := advance ns en (env_now e 0) d1),
    uuid_key id = Some k /\ pg_view t !! k = Some d0 /\ apply_patch p d0 = Some d1 /\
    marshal d2 = Some j /\ t' = updated_tables k d2 j ns (env_now e 0) en t /\
    (r = Ok d2 \/ r = Err ErrDriver).
Proof.
  pose proof (UpdateState_cases uuid_key id ns en p e t) as H.
  destruct (run _ e t) as [r t']. destruct H as [(-> & Hr & _)|H]; [by left|right].
  destruct H as (k & d0 & d1 & j & ? & ? & ? & ? & _ & _ & ? & ?). by exists k, d0, d1, j.
Qed.
