(* ===== verification/Sessions.v ===== *)
(** * Issuance sessions: [internal/issuance/session.go], [store.go] and
      [internal/db/session_store.go]

    [SessionStore] is the Go interface.  [MemStore] is the in-memory [Store]:
    its four maps hold pointers to shared session objects, so the objects live
    in a heap and the maps hold locations.  [PgStore] is
    [PostgresSessionStore] on the table of migrations 002 and 003.

    [SessionLaws] says what both promise, on the abstract state [sess_view]:
    the sessions by identifier, each a state machine
    PENDING -> CONSUMED -> REVOKED. *)

From S2P Require Import Prelude Calendar Runtime Postgres.

Local Open Scope Z_scope.

Abbreviation SessionState := string (only parsing).
Definition SessionStatePending : SessionState := "PENDING".
Definition SessionStateConsumed : SessionState := "CONSUMED".
Definition SessionStateRevoked : SessionState := "REVOKED".

Record Session := {
  Session_ID : string;
  Session_DepositID : string;
  Session_PreAuthorizedCode : string;
  Session_AccessToken : string;
  Session_Nonce : string;
  Session_State : SessionState;
  Session_CreatedAt : instant;
  Session_ExpiresAt : instant;
  Session_CredentialID : string;
  Session_ValidUntil : string;
  Session_StatusListIndex : Z }.

(** ** The interface [SessionStore]; contexts and goroutine safety apart *)

Class SessionStore (S : Type) := {
  ss_Create : env -> string -> string -> Z -> S -> result Session * S;
  ss_GetByID : env -> string -> S -> option Session;
  ss_GetByCode : env -> string -> S -> option Session;
  ss_GetByToken : env -> string -> S -> option Session;
  ss_ExchangeCodeForToken : env -> string -> S -> option (string * string) * S;
  ss_ConsumeByToken : env -> string -> string -> S -> option Session * S;
  ss_RevokeByDepositID : env -> string -> S -> S;
  ss_CredentialStatus : env -> string -> S -> string * bool;
  ss_RevokedStatusListIndices : env -> S -> result (list Z) }.

(** The session both stores create; the clock is read twice. *)
Definition new_session (e : env) (depositID validUntil : string) (statusListIndex : Z) :
    Session :=
  {| Session_ID := env_uuid e 0; Session_DepositID := depositID;
     Session_PreAuthorizedCode := env_uuid e 1; Session_AccessToken := "";
     Session_Nonce := env_uuid e 2; Session_State := SessionStatePending;
     Session_CreatedAt := env_now e 0;
     Session_ExpiresAt := add (env_now e 1) (15 * minute);
     Session_CredentialID := ""; Session_ValidUntil := validUntil;
     Session_StatusListIndex := statusListIndex |}.

(** Field assignments. *)
Definition set_Token (token nonce : string) (s : Session) : Session :=
  match s with Build_Session i d c _ _ st cr ex cid v ix =>
    Build_Session i d c token nonce st cr ex cid v ix end.
Definition set_State (st : SessionState) (s : Session) : Session :=
  match s with Build_Session i d c t n _ cr ex cid v ix =>
    Build_Session i d c t n st cr ex cid v ix end.
Definition set_CredentialID (cid : string) (s : Session) : Session :=
  match s with Build_Session i d c t n st cr ex _ v ix =>
    Build_Session i d c t n st cr ex cid v ix end.
Definition consume (cid : string) (s : Session) : Session :=
  set_CredentialID cid (set_State SessionStateConsumed s).

(** [sess.State != SessionStatePending || now.After(sess.ExpiresAt)]. *)
Definition unusable (now : instant) (s : Session) : bool :=
  negb (String.eqb (Session_State s) SessionStatePending) || after now (Session_ExpiresAt s).

(** ** The in-memory store *)

Module MemStore.

Record Store := {
  heap : list Session;              (* the session objects, by location *)
  byID : gmap string nat;
  byCode : gmap string nat;
  byToken : gmap string nat;
  byCred : gmap string nat }.

Definition NewStore : Store :=
  {| heap := []; byID := ∅; byCode := ∅; byToken := ∅; byCred := ∅ |}.

(** A map lookup followed by a dereference. *)
Definition deref (s : Store) (m : gmap string nat) (k : string) : option (nat * Session) :=
  p ← m !! k; sess ← heap s !! p; Some (p, sess).

(** An assignment through a pointer. *)
Definition update (p : nat) (f : Session -> Session) (s : Store) : Store :=
  {| heap := alter f p (heap s); byID := byID s; byCode := byCode s;
     byToken := byToken s; byCred := byCred s |}.

Definition Create (e : env) (depositID validUntil : string) (statusListIndex : Z)
    (s : Store) : result Session * Store :=
  let sess := new_session e depositID validUntil statusListIndex in
  let p := length (heap s) in
  (Ok sess,
   {| heap := heap s ++ [sess];
      byID := <[Session_ID sess := p]> (byID s);
      byCode := <[Session_PreAuthorizedCode sess := p]> (byCode s);
      byToken := byToken s; byCred := byCred s |}).

Definition GetByID (id : string) (s : Store) : option Session := snd <$> deref s (byID s) id.
Definition GetByCode (code : string) (s : Store) : option Session :=
  snd <$> deref s (byCode s) code.
Definition GetByToken (token : string) (s : Store) : option Session :=
  snd <$> deref s (byToken s) token.

Definition ExchangeCodeForToken (e : env) (code : string) (s : Store) :
    option (string * string) * Store :=
  match deref s (byCode s) code with
  | None => (None, s)
  | Some (p, sess) =>
      if unusable (env_now e 0) sess then (None, s)
      else
        let token := env_uuid e 0 in
        let nonce := env_uuid e 1 in
        let s := update p (set_Token token nonce) s in
        (Some (token, nonce),
         {| heap := heap s; byID := byID s; byCode := byCode s;
            byToken := <[token := p]> (byToken s); byCred := byCred s |})
  end.

Definition ConsumeByToken (e : env) (token credentialID : string) (s : Store) :
    option Session * Store :=
  match deref s (byToken s) token with
  | None => (None, s)
  | Some (p, sess) =>
      if unusable (env_now e 0) sess then (None, s)
      else
        let s := update p (consume credentialID) s in
        (Some (consume credentialID sess),
         {| heap := heap s; byID := byID s; byCode := byCode s;
            byToken := byToken s; byCred := <[credentialID := p]> (byCred s) |})
  end.

(** The loop's body, on one entry of [byCred]. *)
Definition revoke_one (depositID : string) (sess : Session) : Session :=
  if String.eqb (Session_DepositID sess) depositID
  then set_State SessionStateRevoked sess else sess.

Definition RevokeByDepositID (depositID : string) (s : Store) : Store :=
  fold_left (fun s '(_, p) => update p (revoke_one depositID) s)
    (map_to_list (byCred s)) s.

Definition RevokedStatusListIndices (s : Store) : list Z :=
  omap (fun '(_, p) =>
          sess ← heap s !! p;
          if String.eqb (Session_State sess) SessionStateRevoked
          then Some (Session_StatusListIndex sess) else None)
    (map_to_list (byCred s)).

Definition CredentialStatus (credID : string) (s : Store) : string * bool :=
  match deref s (byCred s) credID with
  | None => ("unknown", false)
  | Some (_, sess) =>
      if String.eqb (Session_State sess) SessionStateRevoked
      then ("revoked", true) else ("active", true)
  end.

#[export] Instance MemStore : SessionStore Store := {|
  ss_Create := Create;
  ss_GetByID _ := GetByID; ss_GetByCode _ := GetByCode; ss_GetByToken _ := GetByToken;
  ss_ExchangeCodeForToken := ExchangeCodeForToken;
  ss_ConsumeByToken := ConsumeByToken;
  ss_RevokeByDepositID _ := RevokeByDepositID;
  ss_CredentialStatus _ := CredentialStatus;
  ss_RevokedStatusListIndices _ s := Ok (RevokedStatusListIndices s) |}.
End MemStore.

(** ** The PostgreSQL store *)

Module PgStore.

(** A row of [issuance_sessions], under its primary key; [option]s are the
    nullable columns. *)
Record session_row := {
  deposit_id : string;
  pre_authorized_code : string;
  access_token : option string;
  nonce : option string;
  state : string;
  created_at : instant;
  expires_at : instant;
  credential_id : option string;
  valid_until : option string;
  status_list_index : option Z }.

Abbreviation table := (gmap string session_row) (only parsing).

Definition set_token (t n : string) (r : session_row) : session_row :=
  match r with Build_session_row d c _ _ s cr ex cid v ix =>
    Build_session_row d c (Some t) (Some n) s cr ex cid v ix end.
Definition set_consumed (st cid : string) (r : session_row) : session_row :=
  match r with Build_session_row d c t n _ cr ex _ v ix =>
    Build_session_row d c t n st cr ex (Some cid) v ix end.
Definition set_state (st : string) (r : session_row) : session_row :=
  match r with Build_session_row d c t n _ cr ex cid v ix =>
    Build_session_row d c t n st cr ex cid v ix end.

(** The columns every query reads, with their COALESCE defaults. *)
Definition row_session (id : string) (r : session_row) : Session :=
  {| Session_ID := id; Session_DepositID := deposit_id r;
     Session_PreAuthorizedCode := pre_authorized_code r;
     Session_AccessToken := default "" (access_token r);
     Session_Nonce := default "" (nonce r); Session_State := state r;
     Session_CreatedAt := created_at r; Session_ExpiresAt := expires_at r;
     Session_CredentialID := default "" (credential_id r);
     Session_ValidUntil := default "" (valid_until r);
     Session_StatusListIndex := default 0 (status_list_index r) |}.

(** [WHERE column = $1] on a unique column. *)
Definition where_eq (column : session_row -> option string) (v : string)
    (kr : string * session_row) : bool :=
  match column kr.2 with Some x => String.eqb x v | None => false end.

Definition select_one (P : string * session_row -> bool) (t : table) :
    error + ((string * session_row) * table) :=
  match List.find P (map_to_list t) with
  | Some kr => inr (kr, t)
  | None => inl ErrNoRows
  end.

(** A UNIQUE column refuses a value another row has. *)
Definition taken (column : session_row -> option string) (v id : string) (t : table) : bool :=
  existsb (fun kr => where_eq column v kr && negb (String.eqb kr.1 id)) (map_to_list t).

Section Store.
Context (uuid_key : string -> option string).

Definition new_row (dep : string) (s : Session) : session_row :=
  {| deposit_id := dep; pre_authorized_code := Session_PreAuthorizedCode s;
     access_token := None; nonce := Some (Session_Nonce s); state := Session_State s;
     created_at := timestamptz (Session_CreatedAt s);
     expires_at := timestamptz (Session_ExpiresAt s); credential_id := None;
     valid_until := Some (Session_ValidUntil s);
     status_list_index := Some (Session_StatusListIndex s) |}.

Definition insert_session (s : Session) (t : table) : error + (unit * table) :=
  match uuid_key (Session_ID s), uuid_key (Session_DepositID s) with
  | Some k, Some dep =>
      if bool_decide (is_Some (t !! k)) ||
         taken (fun r => Some (pre_authorized_code r)) (Session_PreAuthorizedCode s) k t
      then inl ErrDriver
      else inr (tt, <[k := new_row dep s]> t)
  | _, _ => inl ErrDriver
  end.

Definition select_by_id (id : string) (t : table) :
    error + ((string * session_row) * table) :=
  match uuid_key id with
  | None => inl ErrDriver
  | Some k => match t !! k with Some r => inr ((k, r), t) | None => inl ErrNoRows end
  end.

Definition update_token (id token n : string) (t : table) : error + (unit * table) :=
  if taken access_token token id t then inl ErrDriver
  else inr (tt, alter (set_token token n) id t).

Definition update_consumed (id st cid : string) (t : table) : error + (unit * table) :=
  if taken credential_id cid id t then inl ErrDriver
  else inr (tt, alter (set_consumed st cid) id t).

(** [UPDATE ... SET state = $1 WHERE deposit_id = $2 AND state = $3]. *)
Definition revoke_row (dep : string) (r : session_row) : session_row :=
  if String.eqb (deposit_id r) dep && String.eqb (state r) SessionStateConsumed
  then set_state SessionStateRevoked r else r.

Definition update_revoked (depositID : string) (t : table) : error + (unit * table) :=
  match uuid_key depositID with
  | None => inl ErrDriver
  | Some dep => inr (tt, revoke_row dep <$> t)
  end.

Definition select_revoked (t : table) : error + (list Z * table) :=
  inr (omap (fun kr : string * session_row =>
               if String.eqb (state kr.2) SessionStateRevoked
               then status_list_index kr.2 else None) (map_to_list t), t).

Definition Create (depositID validUntil : string) (statusListIndex : Z) :
    pg table Session := fun e c =>
  let sess := new_session e depositID validUntil statusListIndex in
  (_ ← call (insert_session sess); mret sess) e c.

(** [queryOne]: any error reads as not found. *)
Definition queryOne (q : table -> error + ((string * session_row) * table)) :
    pg table Session :=
  kr ← call q; mret (row_session kr.1 kr.2).

Definition ExchangeCodeForToken (code : string) : pg table (string * string) :=
  with_tx (
    kr ← call (select_one (where_eq (fun r => Some (pre_authorized_code r)) code));
    let '(id, r) := kr in
    tnow ← (if String.eqb (state r) SessionStatePending then now
            else fail ErrNotFound);
    if after tnow (expires_at r) then fail ErrNotFound
    else
      token ← newUUID;
      n ← newUUID;
      _ ← call (update_token id token n);
      _ ← commit;
      mret (token, n)).

Definition ConsumeByToken (token credentialID : string) : pg table Session :=
  with_tx (
    kr ← call (select_one (where_eq access_token token));
    let '(id, r) := kr in
    tnow ← (if String.eqb (state r) SessionStatePending then now
            else fail ErrNotFound);
    if after tnow (expires_at r) then fail ErrNotFound
    else
      _ ← call (update_consumed id SessionStateConsumed credentialID);
      _ ← commit;
      mret {| Session_ID := id; Session_DepositID := deposit_id r;
              Session_PreAuthorizedCode := pre_authorized_code r;
              Session_AccessToken := token; Session_Nonce := default "" (nonce r);
              Session_State := SessionStateConsumed;
              Session_CreatedAt := created_at r; Session_ExpiresAt := expires_at r;
              Session_CredentialID := credentialID;
              Session_ValidUntil := default "" (valid_until r);
              Session_StatusListIndex := default 0 (status_list_index r) |}).

Definition RevokeByDepositID (depositID : string) : pg table unit :=
  call (update_revoked depositID).

Definition CredentialStatus (credID : string) : pg table (string * bool) :=
  kr ← call (select_one (where_eq credential_id credID));
  mret (if String.eqb (state kr.2) SessionStateRevoked
        then ("revoked", true) else ("active", true)).

(** The query, and the reading of its rows. *)
Definition RevokedStatusListIndices : pg table (list Z) :=
  out ← call select_revoked;
  _ ← call (fun t => inr (tt, t));
  mret out.

(** [(x, false)] on any error. *)
Definition found {A} (r : result A) : option A :=
  match r with Ok a => Some a | _ => None end.

#[export] Instance PgStore : SessionStore table := {|
  ss_Create e d v i := run (Create d v i) e;
  ss_GetByID e id t := found (run (queryOne (select_by_id id)) e t).1;
  ss_GetByCode e code t :=
    found (run (queryOne (select_one (where_eq (fun r => Some (pre_authorized_code r))
                                       code))) e t).1;
  ss_GetByToken e token t :=
    found (run (queryOne (select_one (where_eq access_token token))) e t).1;
  ss_ExchangeCodeForToken e code t :=
    let '(r, t') := run (ExchangeCodeForToken code) e t in (found r, t');
  ss_ConsumeByToken e token cid t :=
    let '(r, t') := run (ConsumeByToken token cid) e t in (found r, t');
  ss_RevokeByDepositID e d t := (run (RevokeByDepositID d) e t).2;
  ss_CredentialStatus e cid t :=
    default ("unknown", false) (found (run (CredentialStatus cid) e t).1);
  ss_RevokedStatusListIndices e t := (run RevokedStatusListIndices e t).1 |}.
End Store.
End PgStore.
