(* ===== verification/SessionLaws.v ===== *)
(** * What a session store promises, and that both stores keep it

    [SessionLaws] on the sessions by identifier; [MemLaws] proves it of the
    in-memory store through the aliasing of its four maps, [PgLaws] of the
    table and its transactions. *)

From S2P Require Import Prelude Calendar Runtime Postgres Sessions.

Local Open Scope Z_scope.

(** ** The abstract store: sessions by identifier *)

Abbreviation sessions := (gmap string Session) (only parsing).

(** Revocation of what was issued for a deposit; a pending session stays. *)
Definition revoke_issued (dep : string) (s : Session) : Session :=
  if String.eqb (Session_DepositID s) dep && negb (String.eqb (Session_State s) SessionStatePending)
  then set_State SessionStateRevoked s else s.

Definition known_state (st : string) : Prop :=
  st = SessionStatePending \/ st = SessionStateConsumed \/ st = SessionStateRevoked.

(** No issued credential carries [cid]. *)
Definition cred_fresh (cid : string) (m : sessions) : Prop :=
  forall i s, m !! i = Some s -> Session_State s <> SessionStatePending ->
    Session_CredentialID s <> cid.

Definition created (dep validUntil : string) (ix : Z) (e : env) (s : Session) : Prop :=
  Session_DepositID s = dep /\ Session_State s = SessionStatePending /\
  Session_ValidUntil s = validUntil /\ Session_StatusListIndex s = ix /\
  Session_CredentialID s = "" /\ Session_ExpiresAt s <= env_now e 1 + 15 * minute.

Class SessionLaws (S : Type) `{SessionStore S} := {
  sess_view : S -> sessions;
  sess_inv : S -> Prop;
  sess_key : string -> option string;     (* the deposit an identifier names *)

  sess_view_id s i x : sess_inv s -> sess_view s !! i = Some x -> Session_ID x = i;
  sess_view_state s i x : sess_inv s -> sess_view s !! i = Some x -> known_state (Session_State x);

  sess_create_no_panic e id vu ix s : (ss_Create e id vu ix s).1 <> Panic;
  sess_indices_no_panic e s : ss_RevokedStatusListIndices e s <> Panic;
  sess_create_cases e id vu ix s :
    sess_inv s -> sess_view s !! env_uuid e 0 = None ->
    let '(r, s') := ss_Create e id vu ix s in
    sess_inv s' /\
    ((sess_view s' = sess_view s /\ is_ok r = false) \/
     (exists i x dep, sess_view s !! i = None /\ sess_view s' = <[i := x]> (sess_view s) /\
        sess_key id = Some dep /\ created dep vu ix e x));

  sess_exchange_cases e code s :
    sess_inv s ->
    let '(r, s') := ss_ExchangeCodeForToken e code s in
    sess_inv s' /\
    ((sess_view s' = sess_view s /\ r = None) \/
     (exists i x, sess_view s !! i = Some x /\ unusable (env_now e 0) x = false /\
        sess_view s' = <[i := set_Token (env_uuid e 0) (env_uuid e 1) x]> (sess_view s) /\
        (r = Some (env_uuid e 0, env_uuid e 1) \/ r = None)));

  sess_consume_cases e token cid s :
    sess_inv s -> cred_fresh cid (sess_view s) ->
    let '(r, s') := ss_ConsumeByToken e token cid s in
    sess_inv s' /\
    ((sess_view s' = sess_view s /\ r = None) \/
     (exists i x, sess_view s !! i = Some x /\ unusable (env_now e 0) x = false /\
        sess_view s' = <[i := consume cid x]> (sess_view s) /\
        ((exists y, r = Some y /\ Session_ID y = i) \/ r = None)));

  (** The session a token reads is the one it consumes. *)
  sess_consume_read e e' token cid s x y :
    sess_inv s -> cred_fresh cid (sess_view s) -> ss_GetByToken e token s = Some x ->
    (ss_ConsumeByToken e' token cid s).1 = Some y ->
    sess_view s !! Session_ID x = Some x /\ unusable (env_now e' 0) x = false /\
    sess_view (ss_ConsumeByToken e' token cid s).2 =
      <[Session_ID x := consume cid x]> (sess_view s);

  sess_revoke_cases e id s :
    sess_inv s ->
    let s' := ss_RevokeByDepositID e id s in
    sess_inv s' /\
    (sess_view s' = sess_view s \/
     exists dep, sess_key id = Some dep /\ sess_view s' = revoke_issued dep <$> sess_view s);
  sess_revoke_works e id s dep :
    sess_inv s -> no_faults e -> sess_key id = Some dep ->
    sess_view (ss_RevokeByDepositID e id s) = revoke_issued dep <$> sess_view s;

  sess_revoked_indices e s l :
    sess_inv s -> ss_RevokedStatusListIndices e s = Ok l ->
    forall ix, ix ∈ l <-> exists i x, sess_view s !! i = Some x /\
      Session_State x = SessionStateRevoked /\ Session_StatusListIndex x = ix;
  sess_status e s i x :
    sess_inv s -> no_faults e -> sess_view s !! i = Some x ->
    Session_State x <> SessionStatePending ->
    ss_CredentialStatus e (Session_CredentialID x) s =
    (if String.eqb (Session_State x) SessionStateRevoked then "revoked" else "active", true) }.

Lemma unusable_false now x :
  unusable now x = false <->
  Session_State x = SessionStatePending /\ now <= Session_ExpiresAt x.
Proof.
  unfold unusable, after. rewrite orb_false_iff, negb_false_iff, String.eqb_eq, Z.ltb_ge. done.
Qed.

(** Assignments keep the other fields. *)
Lemma set_Token_fields t n x (y := set_Token t n x) :
  Session_ID y = Session_ID x /\ Session_State y = Session_State x /\
  Session_CredentialID y = Session_CredentialID x /\
  Session_DepositID y = Session_DepositID x /\
  Session_StatusListIndex y = Session_StatusListIndex x.
Proof. by destruct x. Qed.
Lemma consume_fields c x (y := consume c x) :
  Session_ID y = Session_ID x /\ Session_State y = SessionStateConsumed /\
  Session_CredentialID y = c /\ Session_DepositID y = Session_DepositID x /\
  Session_StatusListIndex y = Session_StatusListIndex x.
Proof. by destruct x. Qed.
Lemma set_State_fields st x (y := set_State st x) :
  Session_ID y = Session_ID x /\ Session_State y = st /\
  Session_CredentialID y = Session_CredentialID x /\
  Session_DepositID y = Session_DepositID x /\
  Session_StatusListIndex y = Session_StatusListIndex x.
Proof. by destruct x. Qed.
Lemma revoke_issued_fields d x (y := revoke_issued d x) :
  Session_ID y = Session_ID x /\ Session_CredentialID y = Session_CredentialID x /\
  Session_DepositID y = Session_DepositID x /\
  Session_StatusListIndex y = Session_StatusListIndex x /\
  (Session_State y = SessionStatePending <-> Session_State x = SessionStatePending).
Proof.
  subst y. unfold revoke_issued. destruct (String.eqb (Session_DepositID x) d); [|done].
  destruct (String.eqb (Session_State x) SessionStatePending) eqn:E; [done|].
  apply String.eqb_neq in E. by destruct x.
Qed.

(** ** The in-memory store *)

Module MemLaws.
Import MemStore.

(** [byID] indexes every object, [byCred] the issued ones; tokens and codes
    point to objects. *)
Record inv (s : Store) : Prop := {
  inv_id id p : byID s !! id = Some p <->
    exists x, heap s !! p = Some x /\ Session_ID x = id;
  inv_cred c p : byCred s !! c = Some p <->
    exists x, heap s !! p = Some x /\ Session_State x <> SessionStatePending /\
              Session_CredentialID x = c;
  inv_state p x : heap s !! p = Some x -> known_state (Session_State x) }.

Definition view (s : Store) : sessions := omap (fun p => heap s !! p) (byID s).

Lemma mem_view_lookup s i x :
  inv s -> view s !! i = Some x <-> exists p, heap s !! p = Some x /\ Session_ID x = i.
Proof.
  intros Hi. unfold view. rewrite lookup_omap. split.
  - intros (p & Hp & Hx)%bind_Some. exists p. split; [done|].
    apply (inv_id _ Hi) in Hp as (x' & Hx' & Hid). naive_solver.
  - intros (p & Hx & Hid). apply bind_Some. exists p. split; [|done].
    apply (inv_id _ Hi). by exists x.
Qed.

(** Views agree when heaps do, object by object. *)
Lemma view_ext s m :
  inv s -> (forall i x, m !! i = Some x <-> exists p, heap s !! p = Some x /\ Session_ID x = i) ->
  view s = m.
Proof.
  intros Hi Hm. apply map_eq. intros i. apply option_eq. intros x.
  by rewrite (mem_view_lookup _ _ _ Hi), Hm.
Qed.

Lemma heap_unique s p q x y :
  inv s -> heap s !! p = Some x -> heap s !! q = Some y -> Session_ID x = Session_ID y -> p = q.
Proof.
  intros Hi Hp Hq Hid.
  assert (byID s !! Session_ID x = Some p) as H1 by (apply (inv_id _ Hi); by exists x).
  assert (byID s !! Session_ID x = Some q) as H2 by (apply (inv_id _ Hi); by exists y).
  congruence.
Qed.

Lemma deref_spec s m k p x :
  deref s m k = Some (p, x) <-> m !! k = Some p /\ heap s !! p = Some x.
Proof.
  unfold deref. rewrite bind_Some. split.
  - intros (q & Hq & (y & Hy & [= -> ->])%bind_Some). done.
  - intros [Hq Hy]. exists p. split; [done|]. apply bind_Some. by exists x.
Qed.

Lemma lookup_alter_cases {A} (f : A -> A) (l : list A) p q y :
  alter f p l !! q = Some y <->
  exists x, l !! q = Some x /\ y = if decide (p = q) then f x else x.
Proof.
  destruct (decide (p = q)) as [->|Hne].
  - rewrite list_lookup_alter_eq, fmap_Some. done.
  - rewrite list_lookup_alter_ne by done. naive_solver.
Qed.

(** An assignment through one pointer, seen from outside. *)
Lemma view_alter s s' p x f :
  inv s -> inv s' -> heap s !! p = Some x -> Session_ID (f x) = Session_ID x ->
  heap s' = alter f p (heap s) -> view s' = <[Session_ID x := f x]> (view s).
Proof.
  intros Hi Hi' Hx Hf Hh. apply view_ext; [done|]. intros i y. rewrite Hh.
  setoid_rewrite lookup_alter_cases. rewrite lookup_insert_Some. split.
  - intros [[<- <-]|[Hne Hy]].
    + exists p. split; [|done]. exists x. by rewrite decide_True.
    + apply (mem_view_lookup _ _ _ Hi) in Hy as (q & Hq & <-). exists q.
      split; [|done]. exists y. split; [done|]. rewrite decide_False; [done|].
      intros ->. congruence.
  - intros (q & (z & Hz & ->) & <-). case_decide as Hpq.
    + subst q. left. rewrite Hx in Hz. injection Hz as <-. done.
    + right. split; [|by apply mem_view_lookup; [|exists q]].
      intros Hid. by apply Hpq, (heap_unique s p q x z).
Qed.

Lemma inv_alter s s' p x f :
  inv s -> heap s !! p = Some x -> Session_ID (f x) = Session_ID x ->
  known_state (Session_State (f x)) ->
  heap s' = alter f p (heap s) -> byID s' = byID s ->
  (forall c q, byCred s' !! c = Some q <->
     exists y, heap s' !! q = Some y /\ Session_State y <> SessionStatePending /\
               Session_CredentialID y = c) ->
  inv s'.
Proof.
  intros Hi Hx Hf Hst Hh Hb Hc. split; [|done|].
  - intros i q. rewrite Hb, (inv_id _ Hi), Hh. setoid_rewrite lookup_alter_cases. split.
    + intros (y & Hy & <-). exists (if decide (p = q) then f y else y).
      split; [by eauto|]. case_decide; [|done]. subst q. naive_solver.
    + intros (y & (z & Hz & ->) & <-). exists z. split; [done|].
      case_decide; [|done]. subst q. naive_solver.
  - intros q y. rewrite Hh, lookup_alter_cases. intros (z & Hz & ->).
    case_decide; [subst q; naive_solver|]. by eapply (inv_state _ Hi).
Qed.

Lemma mem_create_cases e id vu ix s :
  inv s -> view s !! env_uuid e 0 = None ->
  let '(r, s') := Create e id vu ix s in
  let x := new_session e id vu ix in
  inv s' /\ view s' = <[Session_ID x := x]> (view s).
Proof.
  intros Hi Hf. unfold Create.
  set (x := new_session e id vu ix). set (s' := {| heap := _ |}).
  assert (forall p y, heap s' !! p = Some y <->
            heap s !! p = Some y \/ (p = length (heap s) /\ x = y)) as Hh.
  { intros p y. unfold s'; cbn. rewrite lookup_snoc_Some. split; [|intros [H|H]]; auto.
    - intros [[_ H]|H]; auto.
    - left. split; [by eapply lookup_lt_Some|done]. }
  assert (forall p y, heap s !! p = Some y -> Session_ID y <> Session_ID x) as Hne.
  { intros p y Hy Hid. assert (view s !! env_uuid e 0 = Some y) as Hv
      by (apply mem_view_lookup; [done|]; by exists p). congruence. }
  assert (inv s') as Hi'.
  { split.
    - intros i p. setoid_rewrite Hh. unfold s'; cbn [byID]. rewrite lookup_insert_Some.
      rewrite (inv_id _ Hi). naive_solver.
    - intros c p. setoid_rewrite Hh. unfold s'; cbn [byCred]. rewrite (inv_cred _ Hi).
      naive_solver.
    - intros p y [Hy|[-> <-]]%Hh; [by eapply (inv_state _ Hi)|by left]. }
  split; [done|]. apply view_ext; [done|]. intros i y. setoid_rewrite Hh.
  rewrite lookup_insert_Some, (mem_view_lookup _ _ _ Hi). naive_solver.
Qed.

Lemma mem_exchange_cases e code s :
  inv s ->
  let '(r, s') := ExchangeCodeForToken e code s in
  inv s' /\
  ((view s' = view s /\ r = None) \/
   (exists i x, view s !! i = Some x /\ unusable (env_now e 0) x = false /\
      view s' = <[i := set_Token (env_uuid e 0) (env_uuid e 1) x]> (view s) /\
      r = Some (env_uuid e 0, env_uuid e 1))).
Proof.
  intros Hi. unfold ExchangeCodeForToken.
  destruct (deref s (byCode s) code) as [[p x]|] eqn:E; [|by split; [|left]].
  apply deref_spec in E as [Hp Hx].
  destruct (unusable (env_now e 0) x) eqn:Eu; [by split; [|left]|].
  set (f := set_Token _ _). set (s' := {| heap := _ |}).
  destruct (set_Token_fields (env_uuid e 0) (env_uuid e 1) x) as (Hid & Hst & Hcr & _).
  fold f in Hid, Hst, Hcr.
  assert (inv s') as Hi'.
  { eapply (inv_alter s s' p x f); try done.
    - rewrite Hst. by eapply (inv_state _ Hi).
    - intros c q. cbn [s' byCred heap update]. rewrite (inv_cred _ Hi).
      setoid_rewrite lookup_alter_cases. split.
      + intros (y & Hy & Hs & Hc). eexists. split; [by eauto|].
        case_decide; [subst q|done]. assert (y = x) as -> by congruence. by rewrite Hst, Hcr.
      + intros (y & (z & Hz & ->) & Hs & Hc). exists z. split; [done|].
        case_decide; [subst q|done]. assert (z = x) as -> by congruence.
        by rewrite Hst in Hs; rewrite Hcr in Hc. }
  split; [done|]. right. exists (Session_ID x), x. split; [|split; [done|split; [|done]]].
  - apply mem_view_lookup; [done|]. by exists p.
  - by apply (view_alter s s' p x f).
Qed.

Lemma mem_consume_cases e token cid s :
  inv s -> cred_fresh cid (view s) ->
  let '(r, s') := ConsumeByToken e token cid s in
  inv s' /\
  ((view s' = view s /\ r = None) \/
   (exists i x, view s !! i = Some x /\ unusable (env_now e 0) x = false /\
      view s' = <[i := consume cid x]> (view s) /\ r = Some (consume cid x))).
Proof.
  intros Hi Hf. unfold ConsumeByToken.
  destruct (deref s (byToken s) token) as [[p x]|] eqn:E; [|by split; [|left]].
  apply deref_spec in E as [Hp Hx].
  destruct (unusable (env_now e 0) x) eqn:Eu; [by split; [|left]|].
  set (s' := {| heap := _ |}).
  destruct (consume_fields cid x) as (Hid & Hst & Hcr & _).
  apply unusable_false in Eu as Hpend. destruct Hpend as [Hpend _].
  assert (inv s') as Hi'.
  { eapply (inv_alter s s' p x (consume cid)); try done.
    - rewrite Hst. by right; left.
    - intros c q. cbn [s' byCred heap update]. rewrite lookup_insert_Some, (inv_cred _ Hi).
      setoid_rewrite lookup_alter_cases. split.
      + intros [[<- <-]|(Hne & y & Hy & Hs & Hc)].
        * exists (consume cid x). split; [exists x; by rewrite decide_True|].
          by rewrite Hst.
        * exists y. split; [|done]. exists y. split; [done|]. rewrite decide_False; [done|].
          intros ->. assert (y = x) as -> by congruence. done.
      + intros (y & (z & Hz & ->) & Hs & Hc). case_decide as Hpq.
        * subst q. assert (z = x) as -> by congruence. left. by rewrite <-Hc, Hcr.
        * right. split; [|by exists z]. intros ->.
          apply (Hf (Session_ID z) z); [|done|done]. apply mem_view_lookup; [done|]. by exists q. }
  split; [done|]. right. exists (Session_ID x), x. split; [|split; [done|split; [|done]]].
  - apply mem_view_lookup; [done|]. by exists p.
  - by apply (view_alter s s' p x (consume cid)).
Qed.

Lemma mem_consume_read e token cid s x y :
  inv s -> cred_fresh cid (view s) -> GetByToken token s = Some x ->
  (ConsumeByToken e token cid s).1 = Some y ->
  view s !! Session_ID x = Some x /\ unusable (env_now e 0) x = false /\
  view (ConsumeByToken e token cid s).2 = <[Session_ID x := consume cid x]> (view s).
Proof.
  intros Hi Hf Hg Hr. pose proof (mem_consume_cases e token cid s Hi Hf) as Hc.
  unfold GetByToken, ConsumeByToken in *.
  destruct (deref s (byToken s) token) as [[p x']|] eqn:E; [|done]. injection Hg as ->.
  apply deref_spec in E as [_ Hx].
  assert (view s !! Session_ID x = Some x) as Hv by (apply mem_view_lookup; eauto).
  destruct (unusable (env_now e 0) x) eqn:Eu; [done|]. split; [done|]. split; [done|].
  destruct Hc as [_ [[_ ?]|(i & z & Hz & _ & Hz' & Hcz)]]; [done|]. cbn [snd]. rewrite Hz'.
  apply (inj Some), (f_equal Session_ID) in Hcz.
  pose proof (consume_fields cid x) as [Hx1 _]. pose proof (consume_fields cid z) as [Hz1 _].
  apply (mem_view_lookup _ _ _ Hi) in Hz as Hz2. destruct Hz2 as (_ & _ & <-).
  by replace z with x by congruence.
Qed.

(** The revocation loop assigns through every pointer of [byCred]; assigning
    twice is assigning once. *)
Lemma revoke_loop dep (l : list (string * nat)) s q :
  let s' := fold_left (fun s '(_, p) => update p (revoke_one dep) s) l s in
  heap s' !! q = (if decide (q ∈ l.*2) then revoke_one dep else id) <$> heap s !! q /\
  byID s' = byID s /\ byCode s' = byCode s /\ byToken s' = byToken s /\ byCred s' = byCred s.
Proof.
  assert (forall x, revoke_one dep (revoke_one dep x) = revoke_one dep x) as Hidem.
  { intros x. unfold revoke_one.
    destruct (String.eqb (Session_DepositID x) dep) eqn:E; [|by rewrite E].
    destruct x; cbn in *. by rewrite E. }
  revert s. induction l as [|[c p] l IH]; intros s; cbn [fold_left].
  - cbn. by destruct (heap s !! q).
  - destruct (IH (update p (revoke_one dep) s)) as (Hq & ? & ? & ? & ?).
    split; [|done]. rewrite Hq. cbn [update heap fmap list_fmap].
    destruct (decide (p = q)) as [->|Hne].
    + rewrite list_lookup_alter_eq, (decide_True (P := q ∈ _ :: _)) by by left.
      destruct (heap s !! q); [|done]. cbn. case_decide; [|done]. by rewrite Hidem.
    + rewrite list_lookup_alter_ne by done. f_equal.
      apply decide_ext. cbn. rewrite elem_of_cons. naive_solver.
Qed.

Lemma revoke_spec dep s :
  inv s ->
  inv (RevokeByDepositID dep s) /\ view (RevokeByDepositID dep s) = revoke_issued dep <$> view s.
Proof.
  intros Hi. set (s' := RevokeByDepositID dep s).
  assert (forall p, heap s' !! p = revoke_issued dep <$> heap s !! p) as Hh.
  { intros p. destruct (revoke_loop dep (map_to_list (byCred s)) s p) as [Hp _].
    unfold s', RevokeByDepositID. rewrite Hp. destruct (heap s !! p) as [x|] eqn:Hx; [|done].
    cbn. f_equal. unfold revoke_issued, revoke_one. case_decide as Hin.
    - apply list_elem_of_fmap in Hin as ([c q] & -> & Hc%elem_of_map_to_list).
      apply (inv_cred _ Hi) in Hc as (y & Hy & Hs & _). cbn in *.
      assert (y = x) as -> by congruence. apply String.eqb_neq in Hs. rewrite Hs.
      by rewrite andb_true_r.
    - destruct (decide (Session_State x = SessionStatePending)) as [->|Hs].
      + by rewrite andb_false_r.
      + destruct Hin. apply list_elem_of_fmap. exists (Session_CredentialID x, p).
        split; [done|]. apply elem_of_map_to_list, (inv_cred _ Hi). by exists x. }
  destruct (revoke_loop dep (map_to_list (byCred s)) s 0%nat) as (_ & Hb & _ & _ & Hc).
  assert (forall p y, heap s' !! p = Some y <->
            exists x, heap s !! p = Some x /\ y = revoke_issued dep x) as Hh'.
  { intros p y. rewrite Hh, fmap_Some. done. }
  assert (inv s') as Hi'.
  { split.
    - intros i p. unfold s' at 1, RevokeByDepositID. rewrite Hb, (inv_id _ Hi).
      setoid_rewrite Hh'. split.
      + intros (x & Hx & <-). exists (revoke_issued dep x). split; [by eauto|].
        apply revoke_issued_fields.
      + intros (y & (x & Hx & ->) & <-). exists x. split; [done|].
        symmetry. apply revoke_issued_fields.
    - intros c p. unfold s' at 1, RevokeByDepositID. rewrite Hc, (inv_cred _ Hi).
      setoid_rewrite Hh'. split.
      + intros (x & Hx & Hs & <-). exists (revoke_issued dep x).
        destruct (revoke_issued_fields dep x) as (_ & ? & _ & _ & Hst). rewrite Hst. by eauto.
      + intros (y & (x & Hx & ->) & Hs & <-). exists x.
        destruct (revoke_issued_fields dep x) as (_ & ? & _ & _ & Hst).
        rewrite Hst in Hs. by eauto.
    - intros p y (x & Hx & ->)%Hh'. apply (inv_state _ Hi) in Hx. unfold revoke_issued.
      case_match; [|done]. destruct (set_State_fields SessionStateRevoked x) as (_ & -> & _).
      by right; right. }
  split; [done|]. apply view_ext; [done|]. intros i y. setoid_rewrite Hh'.
  rewrite lookup_fmap, fmap_Some. setoid_rewrite (mem_view_lookup _ _ _ Hi).
  pose proof (fun x => proj1 (revoke_issued_fields dep x)) as Hid. split.
  - intros (x & (p & Hx & <-) & ->). exists p. split; [by eauto|]. apply Hid.
  - intros (p & (x & Hx & ->) & <-). exists x. split; [|done]. exists p. by rewrite Hid.
Qed.

Lemma mem_revoked_indices s ix :
  inv s ->
  ix ∈ RevokedStatusListIndices s <->
  exists i x, view s !! i = Some x /\ Session_State x = SessionStateRevoked /\
              Session_StatusListIndex x = ix.
Proof.
  intros Hi. unfold RevokedStatusListIndices. rewrite list_elem_of_omap. split.
  - intros ([c p] & Hc%elem_of_map_to_list & Hx).
    apply bind_Some in Hx as (x & Hx & Hif).
    destruct (String.eqb _ _) eqn:E; [|done]. apply String.eqb_eq in E. injection Hif as <-.
    exists (Session_ID x), x. split; [|done]. apply mem_view_lookup; [done|]. by exists p.
  - intros (i & x & Hv & Hst & <-). apply (mem_view_lookup _ _ _ Hi) in Hv as (p & Hp & _).
    exists (Session_CredentialID x, p). split.
    + apply elem_of_map_to_list, (inv_cred _ Hi). exists x. split; [done|]. by rewrite Hst.
    + apply bind_Some. exists x. split; [done|]. by rewrite Hst, String.eqb_refl.
Qed.

Lemma mem_status s i x :
  inv s -> view s !! i = Some x -> Session_State x <> SessionStatePending ->
  CredentialStatus (Session_CredentialID x) s =
  (if String.eqb (Session_State x) SessionStateRevoked then "revoked" else "active", true).
Proof.
  intros Hi Hv Hs. apply (mem_view_lookup _ _ _ Hi) in Hv as (p & Hp & _).
  unfold CredentialStatus.
  assert (deref s (byCred s) (Session_CredentialID x) = Some (p, x)) as ->.
  { apply deref_spec. split; [|done]. apply (inv_cred _ Hi). by exists x. }
  by destruct (String.eqb _ _).
Qed.

#[export] Instance mem_laws : SessionLaws Store.
Proof.
  refine {| sess_view := view; sess_inv := inv; sess_key := Some |}; cbn.
  - intros s i x Hi Hv. by apply (mem_view_lookup _ _ _ Hi) in Hv as (p & _ & ?).
  - intros s i x Hi Hv. apply (mem_view_lookup _ _ _ Hi) in Hv as (p & Hp & _).
    by eapply (inv_state _ Hi).
  - done.
  - done.
  - intros e id vu ix s Hi Hf. pose proof (mem_create_cases e id vu ix s Hi Hf) as H.
    unfold Create in *. destruct H as [H1 H2]. split; [done|]. right.
    eexists _, _, id. split; [exact Hf|]. split; [exact H2|]. split; [done|].
    repeat split. cbn. unfold add. lia.
  - intros e code s Hi. pose proof (mem_exchange_cases e code s Hi) as H.
    destruct (ExchangeCodeForToken e code s) as [r s'].
    destruct H as [? [H|(i & x & ? & ? & ? & ?)]]; split; auto. right. exists i, x. auto.
  - intros e token cid s Hi Hf. pose proof (mem_consume_cases e token cid s Hi Hf) as H.
    destruct (ConsumeByToken e token cid s) as [r s'].
    destruct H as [? [H|(i & x & Hx & ? & ? & ->)]]; split; auto. right. exists i, x.
    split_and!; auto. left. eexists. split; [done|].
    destruct (consume_fields cid x) as [-> _].
    by apply (mem_view_lookup _ _ _ Hi) in Hx as (p & _ & ?).
  - intros e e' token cid s x y. by apply mem_consume_read.
  - intros e id s Hi. destruct (revoke_spec id s Hi) as [? ?]. split; [done|]. by right; eauto.
  - intros e id s dep Hi _ [= <-]. by apply revoke_spec.
  - intros e s l Hi [= <-] ix. by apply mem_revoked_indices.
  - intros e s i x Hi _ Hv Hs. by eapply mem_status.
Defined.

Lemma inv_new : inv NewStore.
Proof.
  split; unfold NewStore; cbn.
  - intros i p. rewrite lookup_empty. split; [done|]. by intros (x & Hx & _).
  - intros c p. rewrite lookup_empty. split; [done|]. by intros (x & Hx & _).
  - intros p x Hx. done.
Qed.
End MemLaws.

(** ** The PostgreSQL store *)

Module PgLaws.
Import PgStore.

Record inv (t : gmap string session_row) : Prop := {
  inv_state i r : t !! i = Some r -> known_state (state r);
  inv_index i r : t !! i = Some r -> is_Some (status_list_index r);
  inv_issued i r : t !! i = Some r -> state r <> SessionStatePending -> is_Some (credential_id r);
  inv_unique i j r r' c :
    t !! i = Some r -> t !! j = Some r' ->
    credential_id r = Some c -> credential_id r' = Some c -> i = j }.

Definition view (t : gmap string session_row) : sessions :=
  map_imap (fun id r => Some (row_session id r)) t.

Lemma pgs_view_lookup t i : view t !! i = row_session i <$> t !! i.
Proof. unfold view. rewrite map_lookup_imap. by destruct (t !! i). Qed.

Lemma view_insert t i r : view (<[i := r]> t) = <[i := row_session i r]> (view t).
Proof.
  apply map_eq. intros j. rewrite pgs_view_lookup, !lookup_insert. case_decide; [by subst|].
  by rewrite pgs_view_lookup.
Qed.

Lemma alter_insert (f : session_row -> session_row) (t : gmap string session_row) i r :
  t !! i = Some r -> alter f i t = <[i := f r]> t.
Proof.
  intros Hr. apply map_eq. intros j. destruct (decide (i = j)) as [->|Hne].
  - by rewrite lookup_alter_eq, lookup_insert_eq, Hr.
  - by rewrite lookup_alter_ne, lookup_insert_ne.
Qed.

Lemma select_one_spec P t kr t' :
  select_one P t = inr (kr, t') -> t' = t /\ t !! kr.1 = Some kr.2 /\ P kr = true.
Proof.
  unfold select_one. destruct (List.find _ _) as [kr'|] eqn:E; [|done]. intros [= <- <-].
  apply List.find_some in E as [Hin HP]. split; [done|]. split; [|done].
  apply list_elem_of_In in Hin. destruct kr'. by apply elem_of_map_to_list.
Qed.

Lemma where_eq_spec column v kr : where_eq column v kr = true <-> column kr.2 = Some v.
Proof.
  unfold where_eq. destruct (column kr.2) as [x|]; [|done].
  rewrite String.eqb_eq. split; congruence.
Qed.

Lemma taken_false column v i (t : gmap string session_row) :
  taken column v i t = false ->
  forall j r, t !! j = Some r -> column r = Some v -> j = i.
Proof.
  unfold taken. intros H j r Hr Hc. apply not_true_iff_false in H.
  destruct (decide (j = i)) as [|Hne]; [done|]. destruct H.
  apply existsb_exists. exists (j, r). split.
  - by apply list_elem_of_In, elem_of_map_to_list.
  - apply andb_true_iff. split; [by apply where_eq_spec|]. cbn.
    apply negb_true_iff. by apply String.eqb_neq.
Qed.

Lemma inv_insert (t : gmap string session_row) i r :
  inv t -> known_state (state r) -> is_Some (status_list_index r) ->
  (state r <> SessionStatePending -> is_Some (credential_id r)) ->
  (forall j r' c, t !! j = Some r' -> credential_id r = Some c ->
     credential_id r' = Some c -> j = i) ->
  inv (<[i := r]> t).
Proof.
  intros Hi H1 H2 H3 H4. split.
  - intros j r'. rewrite lookup_insert_Some. intros [[<- <-]|[_ H]]; [done|].
    by eapply (inv_state _ Hi).
  - intros j r'. rewrite lookup_insert_Some. intros [[<- <-]|[_ H]]; [done|].
    by eapply (inv_index _ Hi).
  - intros j r'. rewrite lookup_insert_Some. intros [[<- <-]|[_ H]]; [done|].
    by eapply (inv_issued _ Hi).
  - intros j k r1 r2 c. rewrite !lookup_insert_Some.
    intros [[<- <-]|[Hj H]] [[<- <-]|[Hk H']] Hc1 Hc2; [done| | |].
    + symmetry. by eapply H4.
    + by eapply H4.
    + by eapply (inv_unique _ Hi).
Qed.

Section Laws.
Context (uuid_key : string -> option string).

Lemma insert_session_ok s t t' :
  insert_session uuid_key s t = inr (tt, t') ->
  exists k dep, uuid_key (Session_DepositID s) = Some dep /\ t !! k = None /\
    t' = <[k := new_row dep s]> t.
Proof.
  unfold insert_session. destruct (uuid_key (Session_ID s)) as [k|]; [|done].
  destruct (uuid_key (Session_DepositID s)) as [dep|]; [|done].
  destruct (bool_decide (is_Some (t !! k))) eqn:Ek; [done|]. destruct (taken _ _ _ _); [done|].
  intros [= <-]. apply bool_decide_eq_false, eq_None_not_Some in Ek. by exists k, dep.
Qed.

(** The statements of an operation that is not a transaction. *)
Lemma run_call {A B} (f : gmap string session_row -> error + (A * gmap string session_row))
    (k : A -> B) e t :
  let '(r, t') := run (a ← call f; mret (k a)) e t in
  (t' = t /\ (exists x, r = Err x) /\
   (no_faults e -> exists x, f t = inl x)) \/
  (exists a, f t = inr (a, t') /\ (r = Ok (k a) \/ exists x, r = Err x) /\
   (no_faults e -> r = Ok (k a))).
Proof.
  unfold run, mbind, pg_bind, call. cbn [start cn_calls cn_tx cn_db default].
  destruct (env_fault e 0) eqn:F; destruct (f t) as [x|[a t1]]; cbn.
  - left. by eauto.
  - right. exists a. auto.
  - left. split_and!; [done|by eauto|]. intros He. by rewrite He in F.
  - left. split_and!; [done|by eauto|]. intros He. by rewrite He in F.
  - left. by eauto.
  - right. exists a. split_and!; [done|by eauto|]. intros He. by rewrite He in F.
Qed.

Lemma pg_create_cases e id vu ix t :
  inv t ->
  let '(r, t') := run (Create uuid_key id vu ix) e t in
  inv t' /\
  ((view t' = view t /\ is_ok r = false) \/
   (exists i x dep, view t !! i = None /\ view t' = <[i := x]> (view t) /\
      uuid_key id = Some dep /\ created dep vu ix e x)).
Proof.
  intros Hi. set (x0 := new_session e id vu ix).
  pose proof (run_call (insert_session uuid_key x0) (fun _ => x0) e t) as H.
  unfold run, Create in *. fold x0.
  destruct ((_ ← call (insert_session uuid_key x0); mret x0) e (start t)) as [r c].
  destruct H as [(-> & (x & ->) & _)|([] & H & _)]; [by split; [|left]|].
  apply insert_session_ok in H as (k & dep & Hd & Hk & ->).
  split.
  - apply inv_insert; [done|by left|done|done|done].
  - right. eexists k, _, dep. split; [by rewrite pgs_view_lookup, Hk|].
    split; [apply view_insert|]. split; [done|]. repeat split. cbn. unfold timestamptz.
    unfold add. dlia.
Qed.

(** A failed statement leaves the committed rows. *)
Ltac solve_tx_err :=
  let x := fresh in let c := fresh in let Hdb := fresh in
  intros x c [Hdb|[=]]; cbn [fst snd]; rewrite Hdb; by split; [|left].

Lemma row_unusable id r now :
  unusable now (row_session id r) =
  negb (String.eqb (state r) SessionStatePending) || after now (expires_at r).
Proof. by destruct r. Qed.

Lemma pg_exchange_cases e code t :
  inv t ->
  let '(r, t') := run (ExchangeCodeForToken code) e t in
  inv t' /\
  ((view t' = view t /\ found r = None) \/
   (exists i x, view t !! i = Some x /\ unusable (env_now e 0) x = false /\
      view t' = <[i := set_Token (env_uuid e 0) (env_uuid e 1) x]> (view t) /\
      (found r = Some (env_uuid e 0, env_uuid e 1) \/ found r = None))).
Proof.
  intros Hi. apply run_tx; [intros x; by split; [|left]|].
  apply wp_call; [solve_tx_err|].
  intros [i r] t1 [-> [Hr _]]%select_one_spec. cbn in Hr.
  destruct (String.eqb (state r) SessionStatePending) eqn:Est; last first.
  { apply wp_fail. solve_tx_err. }
  rewrite now_bind. cbn [tick put set_tx start cn_clock cn_tx cn_db].
  destruct (after _ _) eqn:Eaf; [by split; [|left]|].
  rewrite !newUUID_bind. cbn [cn_uuids tock].
  apply wp_call; [solve_tx_err|].
  intros [] t2 Hup. unfold update_token in Hup. destruct (taken _ _ _ _); [done|].
  injection Hup as <-. cbn [default cn_tx tock].
  set (t2 := alter _ i t).
  assert (t2 = <[i := set_token (env_uuid e 0) (env_uuid e 1) r]> t) as Ht2
    by by apply alter_insert.
  assert (inv t2) as Hi2.
  { rewrite Ht2. destruct r. apply inv_insert; [done|..]; cbn in *.
    - exact (inv_state _ Hi _ _ Hr).
    - exact (inv_index _ Hi _ _ Hr).
    - exact (inv_issued _ Hi _ _ Hr).
    - intros j r' c Hj Hc Hc'. by eapply (inv_unique _ Hi). }
  assert (exists j x, view t !! j = Some x /\ unusable (env_now e 0) x = false /\
    view t2 = <[j := set_Token (env_uuid e 0) (env_uuid e 1) x]> (view t)) as Hx.
  { exists i, (row_session i r). rewrite pgs_view_lookup, Hr, row_unusable, Est. cbn.
    split; [done|]. split; [done|]. rewrite Ht2, view_insert. by destruct r. }
  apply wp_commit; cbn.
  - intros x c Hc; cbn [fst snd]; destruct Hc as [->| ->]; [by split; [|left]|]. split; [done|]. right.
    destruct Hx as (j & y & ? & ? & ?). exists j, y. auto.
  - intros c Hc; cbn [fst snd]. rewrite Hc. split; [done|]. right. destruct Hx as (j & y & ? & ? & ?). exists j, y. auto.
Qed.

Lemma pg_consume_cases e token cid t :
  inv t ->
  let '(r, t') := run (ConsumeByToken token cid) e t in
  inv t' /\
  ((view t' = view t /\ found r = None) \/
   (exists i x, view t !! i = Some x /\ unusable (env_now e 0) x = false /\
      view t' = <[i := consume cid x]> (view t) /\
      (exists r0, select_one (where_eq access_token token) t = inr ((i, r0), t)) /\
      ((exists y, found r = Some y /\ Session_ID y = i) \/ found r = None))).
Proof.
  intros Hi. apply run_tx; [intros x; by split; [|left]|].
  apply wp_call; [solve_tx_err|].
  intros [i r] t1 Hsel. cbn [default start set_tx tick cn_tx] in Hsel.
  pose proof (select_one_spec _ _ _ _ Hsel) as [-> [Hr _]]. cbn in Hr.
  destruct (String.eqb (state r) SessionStatePending) eqn:Est; last first.
  { apply wp_fail. solve_tx_err. }
  rewrite now_bind. cbn [tick put set_tx start cn_clock cn_tx cn_db].
  destruct (after _ _) eqn:Eaf; [by split; [|left]|].
  apply wp_call; [solve_tx_err|].
  intros [] t2 Hup. unfold update_consumed in Hup.
  destruct (taken _ _ _ _) eqn:Etk; [done|].
  injection Hup as <-. cbn [default cn_tx tock]. cbn [default cn_tx tock] in Etk.
  set (t2 := alter _ i t).
  assert (t2 = <[i := set_consumed SessionStateConsumed cid r]> t) as Ht2
    by by apply alter_insert.
  assert (inv t2) as Hi2.
  { rewrite Ht2. apply inv_insert; [done|..].
    - destruct r. by right; left.
    - destruct r. by eapply (inv_index _ Hi) in Hr.
    - by destruct r.
    - intros j r' c Hj Hc Hc'. destruct r. injection Hc as <-.
      by eapply taken_false. }
  assert (exists j x, view t !! j = Some x /\ unusable (env_now e 0) x = false /\
    view t2 = <[j := consume cid x]> (view t) /\ j = i) as Hx.
  { exists i, (row_session i r). rewrite pgs_view_lookup, Hr, row_unusable, Est. cbn.
    split; [done|]. split; [done|]. split; [|done]. rewrite Ht2, view_insert. by destruct r. }
  apply wp_commit; cbn.
  - intros x c Hc; cbn [fst snd]; destruct Hc as [->| ->]; [by split; [|left]|]. split; [done|]. right.
    destruct Hx as (j & y & ? & ? & ? & ->). exists i, y. split_and!; [done..|by exists r|by right].
  - intros c Hc; cbn [fst snd]. rewrite Hc. split; [done|]. right. destruct Hx as (j & y & ? & ? & ? & ->).
    exists i, y. split_and!; [done..|by exists r|]. left. by eexists.
Qed.

Lemma found_one e (q : gmap string session_row -> error + ((string * session_row) * gmap string session_row)) t x :
  found (run (queryOne q) e t).1 = Some x ->
  exists i r t', q t = inr ((i, r), t') /\ x = row_session i r.
Proof.
  unfold run, queryOne, mbind, pg_bind, call. cbn [start cn_calls cn_tx cn_db default].
  destruct (env_fault e 0); [|done|]; (destruct (q t) as [|[[i r] t']] eqn:E; cbn; [done|]);
    [|done]. intros [= <-]. by exists i, r, t'.
Qed.

Lemma pg_consume_read e e' token cid t x y :
  inv t -> found (run (queryOne (select_one (where_eq access_token token))) e t).1 = Some x ->
  found (run (ConsumeByToken token cid) e' t).1 = Some y ->
  view t !! Session_ID x = Some x /\ unusable (env_now e' 0) x = false /\
  view (run (ConsumeByToken token cid) e' t).2 = <[Session_ID x := consume cid x]> (view t).
Proof.
  intros Hi (i & r & t1 & Hs & ->)%found_one Hr. pose proof (pg_consume_cases e' token cid t Hi) as H.
  destruct (run _ e' t) as [z t2]. cbn [fst snd] in *.
  destruct H as [_ [[_ H]|(j & x & Hx & Hu & Hv & (r0 & Hs0) & _)]]; [by rewrite H in Hr|].
  rewrite Hs in Hs0. injection Hs0 as <- <- _. rewrite pgs_view_lookup in Hx.
  pose proof (select_one_spec _ _ _ _ Hs) as (_ & Hrow & _). cbn in Hrow. rewrite Hrow in Hx.
  injection Hx as <-. cbn [row_session Session_ID]. by rewrite pgs_view_lookup, Hrow.
Qed.

Lemma revoke_row_spec dep r :
  credential_id (revoke_row dep r) = credential_id r /\
  status_list_index (revoke_row dep r) = status_list_index r /\
  (known_state (state r) -> known_state (state (revoke_row dep r)) /\
     (state (revoke_row dep r) <> SessionStatePending -> state r <> SessionStatePending) /\
     forall i, row_session i (revoke_row dep r) = revoke_issued dep (row_session i r)).
Proof.
  unfold revoke_row, revoke_issued. destruct r as [d c tk n st cr ex cid v ix]; cbn.
  destruct (String.eqb d dep); cbn; [|done].
  split; [by case_match|]. split; [by case_match|].
  intros [-> |[-> | ->]]; cbn; (split; [|done]); [by left|by right; right|by right; right].
Qed.

Lemma revoke_effect dep t :
  inv t -> inv (revoke_row dep <$> t) /\
           view (revoke_row dep <$> t) = revoke_issued dep <$> view t.
Proof.
  intros Hi. split.
  - split; [intros i r|intros i r|intros i r|intros i j r r' c]; rewrite !lookup_fmap.
    + intros (r0 & Hr & ->)%fmap_Some. apply revoke_row_spec. by eapply (inv_state _ Hi).
    + intros (r0 & Hr & ->)%fmap_Some. destruct (revoke_row_spec dep r0) as (_ & -> & _).
      by eapply (inv_index _ Hi).
    + intros (r0 & Hr & ->)%fmap_Some Hs.
      destruct (revoke_row_spec dep r0) as (-> & _ & H).
      apply (inv_issued _ Hi _ _ Hr). apply H; [by eapply (inv_state _ Hi)|done].
    + intros (r0 & Hr & ->)%fmap_Some (r1 & Hr1 & ->)%fmap_Some.
      destruct (revoke_row_spec dep r0) as (-> & _ & _).
      destruct (revoke_row_spec dep r1) as (-> & _ & _). by apply (inv_unique _ Hi).
  - apply map_eq. intros i. rewrite pgs_view_lookup, !lookup_fmap, pgs_view_lookup.
    destruct (t !! i) as [r|] eqn:Hr; [|done]. cbn. f_equal.
    apply revoke_row_spec. by eapply (inv_state _ Hi).
Qed.

Lemma revoke_cases e id t :
  let '(r, t') := run (RevokeByDepositID uuid_key id) e t in
  t' = t /\ (no_faults e -> uuid_key id = None) \/
  exists dep, uuid_key id = Some dep /\ t' = revoke_row dep <$> t.
Proof.
  unfold run, RevokeByDepositID, call, update_revoked. cbn [start cn_calls cn_tx cn_db default].
  destruct (env_fault e 0) eqn:F.
  - destruct (uuid_key id) as [dep|]; cbn; [right; by eauto|by left].
  - left. split; [done|]. intros He. by rewrite He in F.
  - destruct (uuid_key id) as [dep|]; cbn; [right; by eauto|by left].
Qed.

Lemma pg_revoked_indices e t l :
  inv t -> (run RevokedStatusListIndices e t).1 = Ok l ->
  forall ix, ix ∈ l <-> exists i x, view t !! i = Some x /\
    Session_State x = SessionStateRevoked /\ Session_StatusListIndex x = ix.
Proof.
  intros Hi Hl ix.
  assert (l = omap (fun kr : string * session_row =>
            if String.eqb (state kr.2) SessionStateRevoked
            then status_list_index kr.2 else None) (map_to_list t)) as ->.
  { unfold run, RevokedStatusListIndices, mbind, pg_bind, call in Hl.
    cbn [start cn_calls cn_tx cn_db default tick] in Hl. unfold select_revoked in Hl.
    destruct (env_fault e 0); cbn in Hl; [|done|done].
    destruct (env_fault e 1); cbn in Hl; [by injection Hl|done|done]. }
  rewrite list_elem_of_omap. split.
  - intros ([i r] & Hr%elem_of_map_to_list & Hx). cbn in Hx.
    destruct (String.eqb _ _) eqn:E; [|done]. apply String.eqb_eq in E.
    exists i, (row_session i r). rewrite pgs_view_lookup, Hr. split; [done|]. split; [done|].
    cbn. by rewrite Hx.
  - intros (i & x & Hv & Hs & <-). rewrite pgs_view_lookup in Hv.
    apply fmap_Some in Hv as (r & Hr & ->). cbn in Hs.
    destruct (inv_index _ Hi _ _ Hr) as [n Hn].
    exists (i, r). split; [by apply elem_of_map_to_list|]. cbn.
    by rewrite Hs, String.eqb_refl, Hn.
Qed.

Lemma pg_status e t i x :
  inv t -> no_faults e -> view t !! i = Some x -> Session_State x <> SessionStatePending ->
  default ("unknown", false)
    (found (run (CredentialStatus (Session_CredentialID x)) e t).1) =
  (if String.eqb (Session_State x) SessionStateRevoked then "revoked" else "active", true).
Proof.
  intros Hi He Hv Hs. rewrite pgs_view_lookup in Hv. apply fmap_Some in Hv as (r & Hr & ->).
  destruct (inv_issued _ Hi _ _ Hr Hs) as [c Hc]. cbn. rewrite Hc. cbn.
  unfold run, CredentialStatus, mbind, pg_bind, call, select_one.
  cbn [start cn_calls cn_tx cn_db default tick]. rewrite He.
  destruct (List.find _ _) as [[j r']|] eqn:E; cbn.
  - apply List.find_some in E as [Hin HP]. apply list_elem_of_In, elem_of_map_to_list in Hin.
    apply where_eq_spec in HP. cbn in HP.
    assert (i = j) as <- by by eapply (inv_unique _ Hi).
    assert (r' = r) as -> by congruence. by destruct (String.eqb _ _).
  - exfalso. pose proof (List.find_none _ _ E (i, r)) as Hn.
    assert (where_eq credential_id c (i, r) = true) as Ht by by apply where_eq_spec.
    rewrite Hn in Ht; [done|]. by apply list_elem_of_In, elem_of_map_to_list.
Qed.
End Laws.

#[export] Instance pg_laws (uuid_key : string -> option string) :
  @SessionLaws (gmap string session_row) (PgStore uuid_key).
Proof.
  refine {| sess_view := view; sess_inv := inv; sess_key := uuid_key |}; cbn.
  - intros t i x _ Hv. rewrite pgs_view_lookup in Hv. by apply fmap_Some in Hv as (r & _ & ->).
  - intros t i x Hi Hv. rewrite pgs_view_lookup in Hv. apply fmap_Some in Hv as (r & Hr & ->).
    by eapply (inv_state _ Hi).
  - intros e id vu ix t. unfold run, Create, mbind, pg_bind.
    pose proof (call_no_panic (insert_session uuid_key (new_session e id vu ix)) e (start t)) as Hn.
    by destruct (call _ e (start t)) as [[] ?].
  - intros e t. unfold run, RevokedStatusListIndices, mbind, pg_bind.
    pose proof (call_no_panic select_revoked e (start t)) as Hn.
    destruct (call _ e (start t)) as [[l| |] c]; [|done|done]. cbn.
    pose proof (call_no_panic (fun t : gmap string session_row => inr (tt, t)) e c) as Hn'.
    by destruct (call _ e c) as [[] ?].
  - intros e id vu ix t Hi _. by apply pg_create_cases.
  - intros e code t Hi. pose proof (pg_exchange_cases e code t Hi) as H.
    by destruct (run _ e t).
  - intros e token cid t Hi _. pose proof (pg_consume_cases e token cid t Hi) as H.
    destruct (run _ e t). destruct H as [? [?|(i & x & ? & ? & ? & _ & ?)]]; split; auto.
    right. by exists i, x.
  - intros e e' token cid t x y Hi _ Hg Hr. pose proof (pg_consume_read e e' token cid t x y Hi Hg) as H.
    destruct (run (ConsumeByToken _ _) e' t). by apply H.
  - intros e id t Hi. pose proof (revoke_cases uuid_key e id t) as H.
    destruct (run _ e t) as [r t']. cbn. destruct H as [[-> _]|(dep & Hd & ->)]; [by auto|].
    destruct (revoke_effect dep t Hi). split; [done|]. right. by exists dep.
  - intros e id t dep Hi He Hd. pose proof (revoke_cases uuid_key e id t) as H.
    destruct (run _ e t) as [r t']. cbn. destruct H as [[_ H]|(dep' & Hd' & ->)].
    + by rewrite H in Hd.
    + assert (dep' = dep) as -> by congruence. by apply revoke_effect.
  - intros e t l Hi Hl. by apply (pg_revoked_indices e).
  - intros e t i x Hi He Hv Hs. by eapply pg_status.
Defined.

Lemma inv_empty : inv ∅.
Proof. split; intros *; rewrite lookup_empty; done. Qed.
End PgLaws.
