(* ===== verification/SessionFlow.v ===== *)
(** * The issuance flow through a session store

    What a store promises to a wallet that follows the flow while the database
    answers: the identifier and the code of a new session lead to it, the code
    is exchanged for a token, the token leads to the session and consumes it.
    Both stores keep the promise, as long as the identifiers drawn are new. *)

From S2P Require Import Prelude Calendar Runtime Postgres Sessions SessionLaws.

Local Open Scope Z_scope.

(** No session has [v] as its [f]. *)
Definition unused (f : Session -> string) (v : string) (m : sessions) : Prop :=
  forall i x, m !! i = Some x -> f x <> v.

Lemma unused_cred_fresh cid m : unused Session_CredentialID cid m -> cred_fresh cid m.
Proof. intros H i x Hx _. by eapply H. Qed.

(** The stored form of the session that [Create] makes: the database keeps
    microseconds. *)
Definition offered (dep validUntil : string) (ix : Z) (e : env) (x : Session) : Prop :=
  created dep validUntil ix e x /\ Session_ID x = env_uuid e 0 /\
  Session_PreAuthorizedCode x = env_uuid e 1 /\
  env_now e 1 + 14 * minute <= Session_ExpiresAt x.

Class SessionFlow (S : Type) `{SessionLaws S} := {
  (** The identifier and the code, or the token, of a session lead to it. *)
  by_code : S -> Session -> Prop;
  by_token : S -> Session -> Prop;

  flow_create e id vu ix s dep :
    sess_inv s -> no_faults e -> sess_key id = Some dep ->
    sess_key (env_uuid e 0) = Some (env_uuid e 0) ->
    sess_view s !! env_uuid e 0 = None ->
    unused Session_PreAuthorizedCode (env_uuid e 1) (sess_view s) ->
    exists r x s', ss_Create e id vu ix s = (Ok r, s') /\ Session_ID r = env_uuid e 0 /\
      sess_inv s' /\ by_code s' x /\ offered dep vu ix e x;
  flow_by_id e s x :
    no_faults e -> by_code s x -> ss_GetByID e (Session_ID x) s = Some x;
  flow_exchange e s x :
    sess_inv s -> no_faults e -> by_code s x -> unusable (env_now e 0) x = false ->
    unused Session_AccessToken (env_uuid e 0) (sess_view s) ->
    exists s', ss_ExchangeCodeForToken e (Session_PreAuthorizedCode x) s =
        (Some (env_uuid e 0, env_uuid e 1), s') /\
      sess_inv s' /\ by_token s' (set_Token (env_uuid e 0) (env_uuid e 1) x);
  flow_by_token e s x :
    no_faults e -> by_token s x -> ss_GetByToken e (Session_AccessToken x) s = Some x;
  flow_consume e s x cid :
    sess_inv s -> no_faults e -> by_token s x -> unusable (env_now e 0) x = false ->
    unused Session_CredentialID cid (sess_view s) ->
    exists r s', ss_ConsumeByToken e (Session_AccessToken x) cid s = (Some r, s') /\
      sess_inv s' /\ sess_view s' = <[Session_ID x := consume cid x]> (sess_view s) }.

(** ** The in-memory store *)

Module MemFlow.
Import MemStore MemLaws.

Definition leads (m : gmap string nat) (k : string) (s : Store) (x : Session) : Prop :=
  exists p, m !! k = Some p /\ heap s !! p = Some x.

Lemma leads_deref m k s x : leads m k s x -> exists p, deref s m k = Some (p, x).
Proof. intros (p & Hp & Hx). exists p. by apply deref_spec. Qed.

#[export] Instance mem_flow : SessionFlow Store.
Proof.
  refine {| by_code s x := leads (byID s) (Session_ID x) s x /\
              leads (byCode s) (Session_PreAuthorizedCode x) s x;
            by_token s x := leads (byToken s) (Session_AccessToken x) s x |}; cbn.
  - intros e id vu ix s dep Hi _ [= <-] _ Hn _. set (x := new_session e id vu ix).
    destruct (mem_create_cases e id vu ix s Hi Hn) as [Hi' _].
    eexists x, x, _. split; [reflexivity|]. split; [done|]. split; [exact Hi'|].
    assert (forall l : list Session, (l ++ [x]) !! length l = Some x) as Hx.
    { intros l. by apply list_lookup_middle. }
    split; [split; exists (length (heap s)); cbn; by rewrite lookup_insert_eq|].
    repeat split; cbn; unfold add, minute, second in *; lia.
  - intros e s x _ [Hx _]. unfold GetByID. by destruct (leads_deref _ _ _ _ Hx) as [p ->].
  - intros e s x Hi _ [_ Hx] Hu _. pose proof (mem_exchange_cases e (Session_PreAuthorizedCode x) s Hi) as Hc.
    destruct (leads_deref _ _ _ _ Hx) as [p Hp]. unfold ExchangeCodeForToken in *. rewrite Hp, Hu in *.
    eexists. split; [reflexivity|]. split; [exact (proj1 Hc)|]. exists p. apply deref_spec in Hp as [_ Hp].
    cbn. split; [destruct x; apply lookup_insert_eq|].
    by rewrite list_lookup_alter_eq, Hp.
  - intros e s x _ Hx. unfold GetByToken. by destruct (leads_deref _ _ _ _ Hx) as [p ->].
  - intros e s x cid Hi _ Hx Hu Hf%unused_cred_fresh.
    pose proof (mem_consume_cases e (Session_AccessToken x) cid s Hi Hf) as Hc.
    destruct (leads_deref _ _ _ _ Hx) as [p Hp]. unfold ConsumeByToken in *. rewrite Hp, Hu in *.
    destruct Hc as [Hi' [[_ ?]|(i & y & Hy & _ & Hv & Hr)]]; [done|].
    eexists _, _. split; [reflexivity|]. split; [exact Hi'|]. rewrite Hv.
    apply deref_spec in Hp as [_ Hp].
    assert (view s !! Session_ID x = Some x) as Hv' by (apply mem_view_lookup; eauto).
    assert (i = Session_ID x) as ->; [|by replace y with x by congruence].
    apply (mem_view_lookup _ _ _ Hi) in Hy as (q & _ & <-).
    apply (inj Some), (f_equal Session_ID) in Hr. by destruct x, y.
Qed.
End MemFlow.

(** ** The PostgreSQL store *)

Module PgFlow.
Import PgStore PgLaws.

Section Flow.
Context (uuid_key : string -> option string).
Implicit Types t : gmap string session_row.

(** The only row with [v] in [column] is that of [x], under its identifier. *)
Definition only_row (column : session_row -> option string) (v : string) t (x : Session) : Prop :=
  exists r, t !! Session_ID x = Some r /\ row_session (Session_ID x) r = x /\ column r = Some v /\
    forall j r', t !! j = Some r' -> column r' = Some v -> j = Session_ID x.

Lemma select_only column v t x :
  only_row column v t x ->
  exists r, select_one (where_eq column v) t = inr ((Session_ID x, r), t) /\
    t !! Session_ID x = Some r /\ row_session (Session_ID x) r = x.
Proof.
  intros (r & Hr & Hx & Hc & Hu). exists r. split; [|done]. unfold select_one.
  destruct (List.find _ _) as [[j r']|] eqn:Hf.
  - apply List.find_some in Hf as [Hin HP]. apply where_eq_spec in HP.
    apply list_elem_of_In, elem_of_map_to_list in Hin.
    assert (j = Session_ID x) as -> by by eapply Hu. by replace r' with r by congruence.
  - pose proof (List.find_none _ _ Hf (Session_ID x, r)) as Hn.
    assert (where_eq column v (Session_ID x, r) = true) as Ht by by apply where_eq_spec.
    rewrite Hn in Ht; [done|]. by apply list_elem_of_In, elem_of_map_to_list.
Qed.

(** A column that no session shows a value of has room for it. *)
Lemma not_taken column f v i t :
  (forall j r, column r = Some v -> f (row_session j r) = v) -> unused f v (view t) ->
  taken column v i t = false.
Proof.
  intros Hf Hu. unfold taken. apply not_true_iff_false. intros (kr & Hin & Hc)%existsb_exists.
  apply andb_true_iff in Hc as [Hc%where_eq_spec _].
  apply list_elem_of_In in Hin. destruct kr as [j r]. apply elem_of_map_to_list in Hin.
  apply (Hu j (row_session j r)); [by rewrite pgs_view_lookup, Hin|]. by apply Hf.
Qed.

Definition code_column (r : session_row) : option string := Some (pre_authorized_code r).

(** *** Statements that work *)

Section Works.
Context {T A B : Type} (e : env) (He : no_faults e).

Lemma call_works (f : T -> error + (A * T)) (k : A -> pg T B) c a (t : T) :
  f (default (cn_db c) (cn_tx c)) = inr (a, t) -> (call f ≫= k) e c = k a e (put t (tick c)).
Proof. intros Hf. unfold mbind, pg_bind, call. by rewrite He, Hf. Qed.

Lemma commit_works (k : unit -> pg T B) c :
  (commit ≫= k) e c = k tt e (set_tx None (set_db (default (cn_db c) (cn_tx c)) (tick c))).
Proof. unfold mbind, pg_bind, commit. by rewrite He. Qed.

Lemma tx_works (body : pg T B) (t : T) r c :
  body e (set_tx (Some t) (tick (start t))) = (r, c) -> run (with_tx body) e t = (r, cn_db c).
Proof.
  intros Hb. unfold run, with_tx, mbind, pg_bind, begin_. rewrite He.
  cbn [start cn_db]. unfold deferred_rollback. change (cn_db (start t)) with t. by rewrite Hb.
Qed.
End Works.

Lemma found_query e (q : gmap string session_row -> error + ((string * session_row) * gmap string session_row)) t i r :
  no_faults e -> q t = inr ((i, r), t) -> found (run (queryOne q) e t).1 = Some (row_session i r).
Proof.
  intros He Hq. unfold run, queryOne. rewrite (call_works e He q _ _ (i, r) t) by done. done.
Qed.

Lemma row_usable x r now :
  row_session (Session_ID x) r = x -> unusable now x = false ->
  String.eqb (state r) SessionStatePending = true /\ after now (expires_at r) = false.
Proof.
  intros <-. rewrite row_unusable. intros [H1%negb_false_iff H2]%orb_false_iff. done.
Qed.

Lemma exchange_runs e t x :
  no_faults e -> only_row code_column (Session_PreAuthorizedCode x) t x ->
  unusable (env_now e 0) x = false -> unused Session_AccessToken (env_uuid e 0) (view t) ->
  exists r, t !! Session_ID x = Some r /\ row_session (Session_ID x) r = x /\
    run (ExchangeCodeForToken (Session_PreAuthorizedCode x)) e t =
      (Ok (env_uuid e 0, env_uuid e 1),
       <[Session_ID x := set_token (env_uuid e 0) (env_uuid e 1) r]> t).
Proof.
  intros He Hx Hu Hf. destruct (select_only _ _ _ _ Hx) as (r & Hs & Hr & Hrow).
  exists r. split; [done|]. split; [done|]. destruct (row_usable x r _ Hrow Hu) as [Hp Ha].
  etransitivity; [apply (tx_works e He)|].
  - erewrite (call_works e He) by exact Hs. cbn [fst snd]. rewrite Hp, now_bind.
    cbn [cn_clock set_tx tick start put cn_tx tock]. rewrite Ha. rewrite !newUUID_bind.
    cbn [cn_uuids tock put set_tx cn_tx tick start].
    erewrite (call_works e He); [rewrite (commit_works e He); reflexivity|].
    unfold update_token. cbn [default cn_tx].
    erewrite (not_taken access_token Session_AccessToken); [reflexivity| |exact Hf].
    intros j r' Hr'. cbn. by rewrite Hr'.
  - cbn. by rewrite (alter_insert _ t _ _ Hr).
Qed.

Lemma consume_runs e t x cid :
  no_faults e -> only_row access_token (Session_AccessToken x) t x ->
  unusable (env_now e 0) x = false -> unused Session_CredentialID cid (view t) ->
  exists r s, t !! Session_ID x = Some r /\ row_session (Session_ID x) r = x /\
    run (ConsumeByToken (Session_AccessToken x) cid) e t =
      (Ok s, <[Session_ID x := set_consumed SessionStateConsumed cid r]> t).
Proof.
  intros He Hx Hu Hf. destruct (select_only _ _ _ _ Hx) as (r & Hs & Hr & Hrow).
  exists r. eexists. split; [done|]. split; [done|]. destruct (row_usable x r _ Hrow Hu) as [Hp Ha].
  etransitivity; [apply (tx_works e He)|].
  - erewrite (call_works e He) by exact Hs. cbn [fst snd]. rewrite Hp, now_bind.
    cbn [cn_clock set_tx tick start put cn_tx tock]. rewrite Ha.
    cbn [cn_uuids tock put set_tx cn_tx tick start].
    erewrite (call_works e He); [rewrite (commit_works e He); reflexivity|].
    unfold update_consumed. cbn [default cn_tx].
    erewrite (not_taken credential_id Session_CredentialID); [reflexivity| |exact Hf].
    intros j r' Hr'. cbn. by rewrite Hr'.
  - cbn. by rewrite (alter_insert _ t _ _ Hr).
Qed.

Lemma row_session_id i r x : row_session i r = x -> Session_ID x = i.
Proof. by intros <-. Qed.

Lemma insert_works e id vu ix t dep :
  uuid_key (env_uuid e 0) = Some (env_uuid e 0) -> uuid_key id = Some dep ->
  view t !! env_uuid e 0 = None -> unused Session_PreAuthorizedCode (env_uuid e 1) (view t) ->
  insert_session uuid_key (new_session e id vu ix) t =
    inr (tt, <[env_uuid e 0 := new_row dep (new_session e id vu ix)]> t).
Proof.
  intros Hk Hd Hn Hc. unfold insert_session. cbn [new_session Session_ID Session_DepositID].
  rewrite Hk, Hd. rewrite pgs_view_lookup in Hn. apply fmap_None in Hn.
  rewrite bool_decide_eq_false_2 by (rewrite Hn; apply is_Some_None).
  cbn [orb]. erewrite (not_taken _ Session_PreAuthorizedCode); [done| |exact Hc].
  intros j r [= Hr]. exact Hr.
Qed.

(** After an insertion under a fresh key a value nobody has belongs to the new
    row only. *)
Lemma only_inserted column f v t i r :
  (forall j r, column r = Some v -> f (row_session j r) = v) -> unused f v (view t) ->
  column r = Some v -> only_row column v (<[i := r]> t) (row_session i r).
Proof.
  intros Hf Hu Hc. exists r. cbn [row_session Session_ID]. rewrite lookup_insert_eq.
  split_and!; try done. intros j r' [[-> _]|[_ Hj]]%lookup_insert_Some Hc'; [done|].
  exfalso. apply (Hu j (row_session j r')); [by rewrite pgs_view_lookup, Hj|]. by apply Hf.
Qed.

Lemma flow_create_runs e id vu ix t dep :
  no_faults e -> uuid_key (env_uuid e 0) = Some (env_uuid e 0) -> uuid_key id = Some dep ->
  view t !! env_uuid e 0 = None -> unused Session_PreAuthorizedCode (env_uuid e 1) (view t) ->
  run (Create uuid_key id vu ix) e t =
    (Ok (new_session e id vu ix), <[env_uuid e 0 := new_row dep (new_session e id vu ix)]> t).
Proof.
  intros He Hk Hd Hn Hc. unfold run, Create. rewrite (call_works e He _ _ _ tt
    (<[env_uuid e 0 := new_row dep (new_session e id vu ix)]> t)); [done|].
  by apply insert_works.
Qed.

#[export] Instance pg_flow : @SessionFlow _ (PgStore uuid_key) (pg_laws uuid_key).
Proof.
  refine {| by_code t x := uuid_key (Session_ID x) = Some (Session_ID x) /\
              only_row code_column (Session_PreAuthorizedCode x) t x;
            by_token t x := only_row access_token (Session_AccessToken x) t x |}; cbn.
  - intros e id vu ix t dep Hi He Hd Hk Hn Hc.
    pose proof (pg_create_cases uuid_key e id vu ix t Hi) as Hcases.
    rewrite (flow_create_runs e id vu ix t dep) in * by done.
    set (r := new_row dep (new_session e id vu ix)) in *.
    exists (new_session e id vu ix), (row_session (env_uuid e 0) r), (<[env_uuid e 0 := r]> t).
    split; [done|]. split; [done|]. split; [exact (proj1 Hcases)|]. split.
    + split; [exact Hk|]. apply (only_inserted code_column Session_PreAuthorizedCode); [|exact Hc|done].
      intros j r' [= Hr']. exact Hr'.
    + repeat split; cbn; unfold timestamptz, add, minute, second; dlia.
  - intros e t x He [Hk (r & Hr & Hx & _)]. rewrite (found_query e _ t (Session_ID x) r He); [by rewrite Hx|].
    unfold select_by_id. by rewrite Hk, Hr.
  - intros e t x Hi He [Hk Hx] Hu Hf.
    destruct (exchange_runs e t x He Hx Hu Hf) as (r & Hr & Hrow & Hrun).
    pose proof (pg_exchange_cases e (Session_PreAuthorizedCode x) t Hi) as Hcases.
    rewrite Hrun in *. eexists. split; [reflexivity|]. split; [exact (proj1 Hcases)|].
    replace (set_Token (env_uuid e 0) (env_uuid e 1) x) with
      (row_session (Session_ID x) (set_token (env_uuid e 0) (env_uuid e 1) r))
      by (rewrite <-Hrow; by destruct r).
    destruct r. apply (only_inserted access_token Session_AccessToken (env_uuid e 0));
      [|exact Hf|done]. intros j r' Hr'. cbn. by rewrite Hr'.
  - intros e t x He Hx. destruct (select_only _ _ _ _ Hx) as (r & Hs & _ & Hrow).
    rewrite (found_query e _ t (Session_ID x) r He); [by rewrite Hrow|exact Hs].
  - intros e t x cid Hi He Hx Hu Hf.
    destruct (consume_runs e t x cid He Hx Hu Hf) as (r & s & Hr & Hrow & Hrun).
    pose proof (pg_consume_cases e (Session_AccessToken x) cid t Hi) as Hcases.
    rewrite Hrun in *. eexists _, _. split; [reflexivity|]. split; [exact (proj1 Hcases)|].
    rewrite view_insert. f_equal. rewrite <-Hrow. by destruct r.
Qed.
End Flow.
End PgFlow.
