(* ===== verification/SessionSafety.v ===== *)
(** * Sequences of session operations

    Any store that keeps [SessionLaws] issues at most one credential per
    session and never forgets a revocation, whatever the operations, their
    order, the clock and the database faults. *)

From S2P Require Import Prelude Calendar Runtime Postgres Sessions SessionLaws.

Local Open Scope Z_scope.

Inductive sess_op :=
| SCreate (e : env) (depositID validUntil : string) (ix : Z)
| SExchange (e : env) (code : string)
| SConsume (e : env) (token credentialID : string)
| SRevoke (e : env) (depositID : string).

(** Progress of one session: the state only moves forward and an issued
    credential keeps its identifier. *)
Definition state_rank (st : string) : Z :=
  if String.eqb st SessionStatePending then 0
  else if String.eqb st SessionStateConsumed then 1 else 2.

Definition sess_le (x y : Session) : Prop :=
  Session_DepositID y = Session_DepositID x /\
  Session_StatusListIndex y = Session_StatusListIndex x /\
  state_rank (Session_State x) <= state_rank (Session_State y) /\
  (Session_State x <> SessionStatePending -> Session_CredentialID y = Session_CredentialID x).

Lemma rank_pending st : state_rank st <= 0 -> st = SessionStatePending.
Proof.
  unfold state_rank. destruct (String.eqb st SessionStatePending) eqn:E.
  - by apply String.eqb_eq in E.
  - destruct (String.eqb st SessionStateConsumed); intros Hle; exfalso; lia.
Qed.

#[export] Instance sess_le_preorder : PreOrder sess_le.
Proof.
  split.
  - intros x. by repeat split.
  - intros x y z (H1 & H2 & H3 & H4) (K1 & K2 & K3 & K4).
    split; [by rewrite K1|]. split; [by rewrite K2|]. split; [lia|].
    intros Hx. rewrite K4; [by apply H4|]. intros Hy. apply Hx.
    rewrite Hy in H3. by apply rank_pending.
Qed.

Section Safety.
Context {S : Type} `{SessionLaws S}.

(** An operation, with the identifier of the session it consumed. *)
Definition run_sess_op (s : S) (o : sess_op) : list string * S :=
  match o with
  | SCreate e d v ix => ([], (ss_Create e d v ix s).2)
  | SExchange e code => ([], (ss_ExchangeCodeForToken e code s).2)
  | SConsume e token cid =>
      let '(r, s') := ss_ConsumeByToken e token cid s in
      (match r with Some x => [Session_ID x] | None => [] end, s')
  | SRevoke e d => ([], ss_RevokeByDepositID e d s)
  end.

Fixpoint run_sess_ops (s : S) (ops : list sess_op) : list string * S :=
  match ops with
  | [] => ([], s)
  | o :: ops =>
      let '(l1, s1) := run_sess_op s o in
      let '(l2, s2) := run_sess_ops s1 ops in
      (l1 ++ l2, s2)
  end.

(** [uuid.NewString] does not repeat an identifier in use. *)
Definition op_fresh (s : S) (o : sess_op) : Prop :=
  match o with
  | SCreate e _ _ _ => sess_view s !! env_uuid e 0 = None
  | SConsume _ _ cid => cred_fresh cid (sess_view s)
  | _ => True
  end.

Fixpoint ops_fresh (s : S) (ops : list sess_op) : Prop :=
  match ops with
  | [] => True
  | o :: ops => op_fresh s o /\ ops_fresh (run_sess_op s o).2 ops
  end.

(** [m] grew into [m']. *)
Definition view_le (m m' : gmap string Session) : Prop :=
  forall i x, m !! i = Some x -> exists y, m' !! i = Some y /\ sess_le x y.

Lemma view_le_refl m : view_le m m.
Proof. intros i x Hx. by exists x. Qed.

Lemma view_le_insert m i x y :
  m !! i = Some x -> sess_le x y -> view_le m (<[i := y]> m).
Proof.
  intros Hx Hle j z Hz. destruct (decide (i = j)) as [->|Hne].
  - rewrite lookup_insert_eq. exists y. split; [done|]. by simplify_eq.
  - rewrite lookup_insert_ne by done. by exists z.
Qed.

Lemma consume_le c x : Session_State x = SessionStatePending -> sess_le x (consume c x).
Proof. intros Hp. destruct x; cbn in *; subst. repeat split; cbn; by lia || done. Qed.

Lemma set_Token_le t n x : sess_le x (set_Token t n x).
Proof. by destruct x. Qed.

Lemma revoke_issued_le d x : known_state (Session_State x) -> sess_le x (revoke_issued d x).
Proof.
  intros Hk. unfold revoke_issued. case_match; [|done].
  destruct x; cbn in *. repeat split; cbn.
  destruct Hk as [->|[->| ->]]; cbn; lia.
Qed.

Lemma op_step s o :
  sess_inv s -> op_fresh s o ->
  sess_inv (run_sess_op s o).2 /\ view_le (sess_view s) (sess_view (run_sess_op s o).2) /\
  forall i, i ∈ (run_sess_op s o).1 ->
    (exists x, sess_view s !! i = Some x /\ Session_State x = SessionStatePending) /\
    (exists y, sess_view (run_sess_op s o).2 !! i = Some y /\
               Session_State y <> SessionStatePending).
Proof.
  intros Hi Hf. destruct o as [e d v ix|e code|e token cid|e d]; cbn in *.
  - pose proof (sess_create_cases e d v ix s Hi Hf) as Hc.
    destruct (ss_Create e d v ix s) as [r s']. cbn.
    destruct Hc as [Hi' [[-> _]|(i & x & dep & Hn & -> & _)]];
      (split; [done|]; split; [|by intros ? ?%elem_of_nil]); [apply view_le_refl|].
    intros j y Hy. exists y. rewrite lookup_insert_ne by congruence. by split.
  - pose proof (sess_exchange_cases e code s Hi) as Hc.
    destruct (ss_ExchangeCodeForToken e code s) as [r s']. cbn.
    destruct Hc as [Hi' [[-> _]|(i & x & Hx & _ & -> & _)]];
      (split; [done|]; split; [|by intros ? ?%elem_of_nil]); [apply view_le_refl|].
    eapply view_le_insert; [done|]. apply set_Token_le.
  - pose proof (sess_consume_cases e token cid s Hi Hf) as Hc.
    destruct (ss_ConsumeByToken e token cid s) as [r s']. cbn.
    destruct Hc as [Hi' [[-> ->]|(i & x & Hx & Hu & -> & Hr)]].
    + split; [done|]. split; [apply view_le_refl|]. by intros ? ?%elem_of_nil.
    + apply unusable_false in Hu as [Hp _]. split; [done|].
      split; [eapply view_le_insert; [done|by apply consume_le]|].
      intros j Hj. destruct Hr as [(y & -> & Hid)| ->]; [|by apply elem_of_nil in Hj].
      apply list_elem_of_singleton in Hj as ->. rewrite Hid. split; [by exists x|].
      exists (consume cid x). rewrite lookup_insert_eq. split; [done|]. by destruct x.
  - destruct (sess_revoke_cases e d s Hi) as [Hi' Hr].
    split; [done|]. split; [|by intros ? ?%elem_of_nil].
    destruct Hr as [->|(dep & _ & ->)]; [apply view_le_refl|].
    intros i x Hx. exists (revoke_issued dep x). rewrite lookup_fmap, Hx. split; [done|].
    apply revoke_issued_le. exact (sess_view_state s i x Hi Hx).
Qed.

Lemma ops_step ops s :
  sess_inv s -> ops_fresh s ops ->
  sess_inv (run_sess_ops s ops).2 /\ view_le (sess_view s) (sess_view (run_sess_ops s ops).2).
Proof.
  revert s. induction ops as [|o ops IH]; intros s Hi; cbn; [split; [done|apply view_le_refl]|].
  intros [Hf Hfs]. destruct (op_step s o Hi Hf) as (Hi1 & Hle1 & _).
  destruct (run_sess_op s o) as [l1 s1]. cbn in *.
  destruct (IH s1 Hi1 Hfs) as [Hi2 Hle2].
  destruct (run_sess_ops s1 ops) as [l2 s2]. cbn in *. split; [done|].
  intros i x (y & Hy & Hxy)%Hle1. apply Hle2 in Hy as (z & Hz & Hyz).
  exists z. split; [done|]. by etrans.
Qed.

(** Only sessions that are pending at the start are consumed later. *)
Lemma consumed_were_pending ops s i x :
  sess_inv s -> ops_fresh s ops -> i ∈ (run_sess_ops s ops).1 ->
  sess_view s !! i = Some x -> Session_State x = SessionStatePending.
Proof.
  revert s x. induction ops as [|o ops IH]; intros s x Hi; cbn.
  - by intros _ ?%elem_of_nil.
  - intros [Hf Hfs]. destruct (op_step s o Hi Hf) as (Hi1 & Hle1 & Hc).
    destruct (run_sess_op s o) as [l1 s1]. cbn in *. specialize (IH s1).
    destruct (run_sess_ops s1 ops) as [l2 s2]. cbn in *.
    intros [Hin|Hin]%elem_of_app Hx.
    + destruct (Hc i Hin) as [(x' & Hx' & Hp) _]. congruence.
    + destruct (Hle1 i x Hx) as (y & Hy & _ & _ & Hr & _).
      apply rank_pending. rewrite (IH y) in Hr by done. exact Hr.
Qed.

(** C9: in every sequence of operations on a session store, whatever the clock and the database
    faults, each session is consumed at most once, so at most one credential is recorded as
    issued for it; proved against the interface that both the in-memory and the PostgreSQL store
    implement. Assumed: the identifiers drawn for sessions and credentials are new. *)
Theorem single_issuance ops s :
  sess_inv s -> ops_fresh s ops -> NoDup (run_sess_ops s ops).1.
Proof.
  revert s. induction ops as [|o ops IH]; intros s Hi; cbn; [intros _; constructor|].
  intros [Hf Hfs]. destruct (op_step s o Hi Hf) as (Hi1 & Hle1 & Hc).
  assert (NoDup (run_sess_op s o).1) as Hnd.
  { destruct o; cbn; try constructor. destruct (ss_ConsumeByToken _ _ _ _) as [[]?]; cbn;
      [apply NoDup_singleton|constructor]. }
  destruct (run_sess_op s o) as [l1 s1]. cbn in *. specialize (IH s1 Hi1 Hfs).
  pose proof (consumed_were_pending ops s1) as Hp.
  destruct (run_sess_ops s1 ops) as [l2 s2]. cbn in *.
  apply NoDup_app. split; [done|]. split; [|done].
  intros i H1 H2. destruct (Hc i H1) as [_ (y & Hy & Hn)]. by apply Hn, (Hp i y).
Qed.

(** A revoked session stays revoked: after any sequence of operations its index is among
    the revoked indices and its credential's status is revoked; for both stores. *)
Theorem revocation_permanent ops s i x e :
  sess_inv s -> ops_fresh s ops ->
  sess_view s !! i = Some x -> Session_State x = SessionStateRevoked ->
  let s' := (run_sess_ops s ops).2 in
  (forall l, ss_RevokedStatusListIndices e s' = Ok l -> Session_StatusListIndex x ∈ l) /\
  (no_faults e -> ss_CredentialStatus e (Session_CredentialID x) s' = ("revoked", true)).
Proof.
  intros Hi Hf Hx Hst s'. destruct (ops_step ops s Hi Hf) as [Hi' Hle].
  destruct (Hle i x Hx) as (y & Hy & Hdep & Hix & Hr & Hcr). fold s' in Hi', Hy.
  assert (Session_State y = SessionStateRevoked) as Hsy.
  { destruct (sess_view_state s' i y Hi' Hy) as [E|[E|E]]; [| |done];
      rewrite Hst, E in Hr; by cbn in Hr. }
  split.
  - intros l Hl. apply (sess_revoked_indices e s' l Hi' Hl). exists i, y. by split_and!.
  - intros He. rewrite <-Hcr by by rewrite Hst.
    rewrite (sess_status e s' i y Hi' He Hy) by by rewrite Hsy.
    by rewrite Hsy.
Qed.
End Safety.
