(* ===== verification/JsonText.v ===== *)
(** * The text of JSON: [json.Marshal] and [json.Unmarshal] of package
      encoding/json

    Texts are lists of bytes.  Strings are escaped and repaired as Go does:
    bytes that are no UTF-8 become U+FFFD, the characters of HTML markup are
    written as [\u] escapes.  Numbers are those of [Decimal].  Nesting is limited
    to 10000 levels, as in Go's scanner; reading a list is bounded by the length
    of the text, which is always enough. *)

From S2P Require Import Prelude Float64 Calendar Fmt Decimal Models Base64 Utf8 Json.

Local Open Scope Z_scope.

(** ** Writing *)

Definition hex_byte (n : Z) : Z := if n <? 10 then 48 + n else 87 + n.

Definition escape_ascii (a : Z) : list Z :=
  if (a =? 34) || (a =? 92) then [92; a]
  else if a =? 8 then [92; 98]
  else if a =? 12 then [92; 102]
  else if a =? 10 then [92; 110]
  else if a =? 13 then [92; 114]
  else if a =? 9 then [92; 116]
  else if (a <? 32) || (a =? 60) || (a =? 62) || (a =? 38)
  then [92; 117; 48; 48; hex_byte (a / 16); hex_byte (a mod 16)]
  else [a].

(** U+2028 and U+2029 are escaped, too. *)
Definition escape_rune (u : option (list Z)) : list Z :=
  match u with
  | None => [92; 117; 102; 102; 102; 100]
  | Some [a] => escape_ascii a
  | Some u =>
      if bool_decide (u = [226; 128; 168]) then [92; 117; 50; 48; 50; 56]
      else if bool_decide (u = [226; 128; 169]) then [92; 117; 50; 48; 50; 57]
      else u
  end.

Definition quoted (s : string) : list Z :=
  34 :: mjoin (escape_rune <$> runes (GoStrings.bytes_of s)) ++ [34].

Fixpoint commas (ts : list (list Z)) : list Z :=
  match ts with
  | [] => []
  | [t] => t
  | t :: ts => t ++ 44 :: commas ts
  end.

(** [t.UTC().Format(time.RFC3339Nano)]: no trailing zeros of a second. *)
Definition format_rfc3339_nano (t : instant) : string :=
  let s := t mod day / second in
  let '(f, e) := trim 9 (t mod second) (-9) in
  format_date (date_of t) +:+ "T" +:+
  pad2 (s / 3600) (":" +:+ pad2 (s / 60 mod 60) (":" +:+ pad2 (s mod 60)
    ((if t mod second =? 0 then ""
      else GoStrings.string_of (46 :: fixed (Z.to_nat (- e)) f)) +:+ "Z"))).

(** Infinite and NaN floats are refused. *)
Fixpoint json_text (j : json) : option (list Z) :=
  match j with
  | JNull => Some (GoStrings.bytes_of "null")
  | JBool b => Some (GoStrings.bytes_of (if b then "true" else "false"))
  | JFloat x => if f64_finite x then Some (float_text x) else None
  | JInt n => Some (int_text n)
  | JTime t => Some (quoted (format_rfc3339_nano t))
  | JStr s => Some (quoted s)
  | JArr l => ts ← mapM json_text l; Some (91 :: commas ts ++ [93])
  | JObj l =>
      ts ← mapM (fun m => t ← json_text m.2; Some (quoted m.1 ++ 58 :: t)) l;
      Some (123 :: commas ts ++ [125])
  end.

(** ** Reading strings *)

Definition hex_value (b : Z) : option Z :=
  if (48 <=? b) && (b <=? 57) then Some (b - 48)
  else if (97 <=? b) && (b <=? 102) then Some (b - 87)
  else if (65 <=? b) && (b <=? 70) then Some (b - 55)
  else None.
Definition hex4 (a b c d : Z) : option Z :=
  a ← hex_value a; b ← hex_value b; c ← hex_value c; d ← hex_value d;
  Some (((a * 16 + b) * 16 + c) * 16 + d).

Definition is_surrogate (r : Z) : bool := (55296 <=? r) && (r <? 57344).
(** [utf16.DecodeRune]. *)
Definition surrogate_pair (r r2 : Z) : option Z :=
  if (55296 <=? r) && (r <? 56320) && (56320 <=? r2) && (r2 <? 57344)
  then Some ((r - 55296) * 1024 + (r2 - 56320) + 65536) else None.

Definition simple_escape (e : Z) : option Z :=
  if (e =? 34) || (e =? 92) || (e =? 47) then Some e
  else if e =? 98 then Some 8
  else if e =? 102 then Some 12
  else if e =? 110 then Some 10
  else if e =? 114 then Some 13
  else if e =? 116 then Some 9
  else None.

Definition prepend (u : list Z) (x : option (list Z * list Z)) : option (list Z * list Z) :=
  '(s, r) ← x; Some (u ++ s, r).

(** The second half of a surrogate pair, [\u] and four digits. *)
Definition low_half (r b1 b2 g1 g2 g3 g4 : Z) : option Z :=
  if (b1 =? 92) && (b2 =? 117) then r2 ← hex4 g1 g2 g3 g4; surrogate_pair r r2 else None.

(** The bytes of a string after its opening quote, and the rest of the text. *)
Fixpoint read_string (l : list Z) : option (list Z * list Z) :=
  match l with
  | [] => None
  | c :: l1 =>
      if c =? 34 then Some ([], l1)
      else if c =? 92 then
        match l1 with
        | [] => None
        | e :: l2 =>
            if e =? 117 then
              match l2 with
              | h1 :: h2 :: h3 :: h4 :: l3 =>
                  r ← hex4 h1 h2 h3 h4;
                  if is_surrogate r then
                    match l3 with
                    | b1 :: b2 :: g1 :: g2 :: g3 :: g4 :: l4 =>
                        match low_half r b1 b2 g1 g2 g3 g4 with
                        | Some x => prepend (utf8 x) (read_string l4)
                        | None => prepend replacement (read_string l3)
                        end
                    | _ => prepend replacement (read_string l3)
                    end
                  else prepend (utf8 r) (read_string l3)
              | _ => None
              end
            else b ← simple_escape e; prepend [b] (read_string l2)
        end
      else if c <? 32 then None
      else prepend [c] (read_string l1)
  end.

(** ** Reading values *)

Definition is_space (b : Z) : bool := (b =? 32) || (b =? 9) || (b =? 10) || (b =? 13).
Fixpoint skip_space (l : list Z) : list Z :=
  match l with
  | [] => []
  | b :: l' => if is_space b then skip_space l' else l
  end.

Fixpoint strip (w l : list Z) : option (list Z) :=
  match w, l with
  | [], _ => Some l
  | a :: w, b :: l => if a =? b then strip w l else None
  | _, _ => None
  end.

(** A number as a document: an integer, or a float, infinite if out of range. *)
Definition number (t : literal) : json :=
  match t with Whole n => JInt n | Dec s c e => JFloat (read_dec s c e) end.

Section Lists.
Context {A : Type} (p : list Z -> option (A * list Z)) (close : Z).

(** Items up to the closing bracket. *)
Fixpoint items (fuel : nat) (l : list Z) : option (list A * list Z) :=
  match fuel with
  | O => None
  | S fuel =>
      '(a, r) ← p l;
      match skip_space r with
      | [] => None
      | c :: r =>
          if c =? 44 then '(l', r') ← items fuel r; Some (a :: l', r')
          else if c =? close then Some ([a], r) else None
      end
  end.

(** A list after its opening bracket. *)
Definition read_list (l : list Z) : option (list A * list Z) :=
  match skip_space l with
  | [] => None
  | c :: r => if c =? close then Some ([], r) else items (length l) l
  end.
End Lists.

Definition read_member (p : list Z -> option (json * list Z)) (l : list Z) :
    option ((string * json) * list Z) :=
  match skip_space l with
  | 34 :: l' =>
      '(s, r) ← read_string l';
      match skip_space r with
      | 58 :: r' => '(j, r'') ← p r'; Some ((GoStrings.string_of (clean s), j), r'')
      | _ => None
      end
  | _ => None
  end.

(** A value that starts with the byte [c], and the rest of the text. *)
Fixpoint read_value (depth : nat) (l : list Z) : option (json * list Z) :=
  match skip_space l with
  | [] => None
  | c :: l' =>
      if c =? 34 then '(s, r) ← read_string l'; Some (JStr (GoStrings.string_of (clean s)), r)
      else if c =? 91 then
        match depth with
        | O => None
        | S depth => '(js, r) ← read_list (read_value depth) 93 l'; Some (JArr js, r)
        end
      else if c =? 123 then
        match depth with
        | O => None
        | S depth =>
            '(ms, r) ← read_list (read_member (read_value depth)) 125 l'; Some (JObj ms, r)
        end
      else if c =? 110 then r ← strip (GoStrings.bytes_of "ull") l'; Some (JNull, r)
      else if c =? 116 then r ← strip (GoStrings.bytes_of "rue") l'; Some (JBool true, r)
      else if c =? 102 then r ← strip (GoStrings.bytes_of "alse") l'; Some (JBool false, r)
      else '(t, r) ← read_literal (c :: l'); Some (number t, r)
  end.

Definition max_depth : nat := Z.to_nat 10000.

Definition read_json (l : list Z) : option json :=
  '(j, r) ← read_value max_depth l;
  match skip_space r with [] => Some j | _ => None end.

(** [Unmarshal] into [any]: every number is a float64 and in range. *)
Definition finite_float (x : float64) : option json :=
  if f64_finite x then Some (JFloat x) else None.
Fixpoint any (j : json) : option json :=
  match j with
  | JFloat x => finite_float x
  | JInt n => finite_float (f64_of_Z n)
  | JArr l => JArr <$> mapM any l
  | JObj l => JObj <$> mapM (fun m => j ← any m.2; Some (m.1, j)) l
  | _ => Some j
  end.
Definition json_any (l : list Z) : option json := read_json l ≫= any.

(** ** Escapes are read back *)

Lemma prepend_app u v x : prepend u (prepend v x) = prepend (u ++ v) x.
Proof. destruct x as [[s r]|]; [|done]. cbn. by rewrite app_assoc. Qed.

Lemma read_string_raw u l :
  Forall (fun b => 32 <= b /\ b <> 34 /\ b <> 92) u ->
  read_string (u ++ l) = prepend u (read_string l).
Proof.
  induction 1 as [|b u (H1 & H2 & H3) _ IH]; cbn [app]; [by destruct (read_string l) as [[]|]|].
  cbn [read_string]. rewrite IH.
  destruct (Z.eqb_spec b 34); [done|]. destruct (Z.eqb_spec b 92); [done|].
  destruct (Z.ltb_spec b 32); [lia|]. by rewrite prepend_app.
Qed.

Lemma hex_value_byte n : 0 <= n < 16 -> hex_value (hex_byte n) = Some n.
Proof.
  intros Hn. unfold hex_value, hex_byte. destruct (Z.ltb_spec n 10).
  - rewrite (proj2 (Z.leb_le 48 _)), (proj2 (Z.leb_le _ 57)) by lia. cbn [andb]. f_equal. lia.
  - rewrite (proj2 (Z.leb_le 48 _)), (proj2 (Z.leb_gt _ 57)) by lia. cbn [andb].
    rewrite (proj2 (Z.leb_le 97 _)), (proj2 (Z.leb_le _ 102)) by lia. cbn [andb]. f_equal. lia.
Qed.

Lemma read_escape_ascii a l :
  0 <= a < 128 -> read_string (escape_ascii a ++ l) = prepend [a] (read_string l).
Proof.
  intros Ha. unfold escape_ascii.
  destruct (Z.eqb_spec a 34) as [->|H1]; [done|]. destruct (Z.eqb_spec a 92) as [->|H2]; [done|].
  cbn [orb]. destruct (Z.eqb_spec a 8) as [->|]; [done|]. destruct (Z.eqb_spec a 12) as [->|]; [done|].
  destruct (Z.eqb_spec a 10) as [->|]; [done|]. destruct (Z.eqb_spec a 13) as [->|]; [done|].
  destruct (Z.eqb_spec a 9) as [->|]; [done|].
  destruct ((a <? 32) || (a =? 60) || (a =? 62) || (a =? 38)) eqn:Hh.
  - cbn [app read_string Z.eqb Pos.eqb]. unfold hex4.
    rewrite !hex_value_byte by dlia. cbn [hex_value Z.leb Z.compare Pos.compare Pos.compare_cont
      andb mbind option_bind]. change (48 - 48) with 0.
    replace (((0 * 16 + 0) * 16 + a / 16) * 16 + a mod 16) with a by dlia.
    unfold is_surrogate. rewrite (proj2 (Z.leb_gt 55296 _)) by lia. cbn [andb].
    unfold utf8. by rewrite (proj2 (Z.ltb_lt a 128)) by lia.
  - rewrite !orb_false_iff, Z.ltb_ge in Hh. apply read_string_raw. repeat constructor; lia.
Qed.

Lemma read_escape_rune u l :
  match u with Some u => is_rune u = true | None => True end ->
  read_string (escape_rune u ++ l) = prepend (default replacement u) (read_string l).
Proof.
  destruct u as [u|]; [|done]. intros Hu. cbn [default]. unfold escape_rune.
  destruct u as [|a [|b u']]; [done| |].
  - apply read_escape_ascii. cbn in Hu. lia.
  - case_bool_decide as H1; [by rewrite H1|]. case_bool_decide as H2; [by rewrite H2|].
    apply read_string_raw. eapply Forall_impl; [apply (rune_high _ _ _ Hu)|]. cbn. lia.
Qed.

Lemma read_escapes b us l :
  splits b us ->
  read_string (mjoin (escape_rune <$> us) ++ 34 :: l) =
  Some (mjoin (default replacement <$> us), l).
Proof.
  induction 1 as [|a b us _ IH|u b us Hu _ IH]; [done| |].
  - change (read_string ((escape_rune None ++ mjoin (escape_rune <$> us)) ++ 34 :: l) =
      Some (replacement ++ mjoin (default replacement <$> us), l)).
    by rewrite <-app_assoc, read_escape_rune, IH.
  - change (read_string ((escape_rune (Some u) ++ mjoin (escape_rune <$> us)) ++ 34 :: l) =
      Some (u ++ mjoin (default replacement <$> us), l)).
    by rewrite <-app_assoc, read_escape_rune, IH.
Qed.

Lemma read_quoted s l :
  read_string (mjoin (escape_rune <$> runes (GoStrings.bytes_of s)) ++ 34 :: l) =
  Some (clean (GoStrings.bytes_of s), l).
Proof. eapply read_escapes, runes_split, bytes_of_bytes. Qed.

Lemma clean_string_of s :
  GoStrings.string_of (clean (clean (GoStrings.bytes_of s))) = clean_string s.
Proof. unfold clean_string. by rewrite clean_clean by apply bytes_of_bytes. Qed.

(** ** Documents *)

Lemma json_ind' (P : json -> Prop) :
  P JNull -> (forall b, P (JBool b)) -> (forall x, P (JFloat x)) -> (forall n, P (JInt n)) ->
  (forall t, P (JTime t)) -> (forall s, P (JStr s)) ->
  (forall l, Forall P l -> P (JArr l)) ->
  (forall l, Forall (fun m => P m.2) l -> P (JObj l)) ->
  forall j, P j.
Proof.
  intros Hn Hb Hf Hi Ht Hs Ha Ho. fix IH 1. intros [|b|x|n|t|s|l|l].
  - exact Hn.
  - apply Hb.
  - apply Hf.
  - apply Hi.
  - apply Ht.
  - apply Hs.
  - apply Ha. induction l as [|j l IHl]; constructor; [apply IH|exact IHl].
  - apply Ho. induction l as [|[n j] l IHl]; constructor; [apply IH|exact IHl].
Qed.

Fixpoint depth (j : json) : nat :=
  match j with
  | JArr l => S (foldr (fun j d => Nat.max (depth j) d) O l)
  | JObj l => S (foldr (fun m d => Nat.max (depth m.2) d) O l)
  | _ => O
  end.

(** Every float of a document is a binary64. *)
Fixpoint real_floats (j : json) : Prop :=
  match j with
  | JFloat x => f64_valid x
  | JArr l => foldr (fun j p => real_floats j /\ p) True l
  | JObj l => foldr (fun m p => real_floats m.2 /\ p) True l
  | _ => True
  end.

(** What a document is when its text is read: times are strings, strings are
    valid UTF-8, a float without fraction or exponent is an integer. *)
Fixpoint reread (j : json) : json :=
  match j with
  | JFloat x => number (float_literal x)
  | JTime t => JStr (clean_string (format_rfc3339_nano t))
  | JStr s => JStr (clean_string s)
  | JArr l => JArr (map reread l)
  | JObj l => JObj (map (fun m => (clean_string m.1, reread m.2)) l)
  | _ => j
  end.

(** The first byte of a value. *)
Definition starts (c : Z) : Prop := c ∈ [34; 45; 91; 102; 110; 116; 123] \/ 48 <= c <= 57.

Lemma text_starts j b :
  real_floats j -> json_text j = Some b -> exists c b', b = c :: b' /\ starts c.
Proof.
  unfold starts. destruct j as [|[]|x|n|t|s|l|l]; cbn [json_text]; intros Hr.
  - intros [= <-]. eexists _, _. split; [reflexivity|]. left. set_solver.
  - intros [= <-]. eexists _, _. split; [reflexivity|]. left. set_solver.
  - intros [= <-]. eexists _, _. split; [reflexivity|]. left. set_solver.
  - destruct (f64_finite x) eqn:Hx; [|done]. intros [= <-].
    destruct (float_text_head x) as (c & l & -> & Hc); [done|]. exists c, l.
    split; [done|]. destruct Hc as [->|]; [left; set_solver|by right].
  - intros [= <-]. destruct (int_text_head n) as (c & l & -> & Hc). exists c, l.
    split; [done|]. destruct Hc as [->|]; [left; set_solver|by right].
  - intros [= <-]. eexists _, _. split; [reflexivity|]. left. set_solver.
  - intros [= <-]. eexists _, _. split; [reflexivity|]. left. set_solver.
  - intros (ts & _ & [= <-])%bind_Some. eexists _, _. split; [reflexivity|]. left. set_solver.
  - intros (ts & _ & [= <-])%bind_Some. eexists _, _. split; [reflexivity|]. left. set_solver.
Qed.

Lemma starts_cases c :
  starts c -> is_space c = false /\ c <> 93 /\ c <> 125.
Proof.
  unfold starts, is_space. rewrite !elem_of_cons, elem_of_nil. intros H.
  assert (c <> 32 /\ c <> 9 /\ c <> 10 /\ c <> 13 /\ c <> 93 /\ c <> 125) by lia. lia.
Qed.

Lemma skip_start c l : is_space c = false -> skip_space (c :: l) = c :: l.
Proof. intros Hc. cbn. by rewrite Hc. Qed.

(** [p] reads back every printed item. *)
Section ReadLists.
Context {A : Type} (p : list Z -> option (A * list Z)) (close : Z).
Context (Hclose : is_space close = false) (Hcomma : close <> 44).

Definition reads_item (t : list Z) (a : A) : Prop :=
  forall c r, c = 44 \/ c = close -> p (t ++ c :: r) = Some (a, c :: r).

Lemma read_items ts xs r fuel :
  ts <> [] -> Forall2 reads_item ts xs -> (length ts <= fuel)%nat ->
  items p close fuel (commas ts ++ close :: r) = Some (xs, r).
Proof.
  intros Hne H. revert fuel Hne. induction H as [|t x ts xs Hp H IH]; intros fuel Hne Hf; [done|].
  destruct fuel as [|fuel]; [cbn in Hf; lia|]. cbn in Hf. destruct ts as [|t' ts].
  - apply Forall2_nil_inv_l in H as ->. cbn [commas items].
    rewrite Hp by by right. cbn [mbind option_bind]. rewrite skip_start by done.
    rewrite (proj2 (Z.eqb_neq close 44)) by done. by rewrite Z.eqb_refl.
  - change (commas (t :: t' :: ts)) with (t ++ 44 :: commas (t' :: ts)).
    rewrite <-app_assoc. cbn [items app]. rewrite Hp by by left. cbn [mbind option_bind].
    rewrite skip_start by done. cbn [Z.eqb Pos.eqb]. by rewrite IH by (done || lia).
Qed.

Lemma commas_length ts :
  Forall (fun t => t <> []) ts -> (length ts <= length (commas ts))%nat.
Proof.
  induction 1 as [|t ts Ht H IH]; [done|]. destruct t as [|b t]; [done|].
  destruct ts as [|t' ts]; [cbn; lia|]. cbn [commas app length] in *.
  rewrite length_app. cbn [length]. lia.
Qed.

Lemma read_list_back ts xs r :
  Forall (fun t => exists c t', t = c :: t' /\ is_space c = false /\ c <> close) ts ->
  Forall2 reads_item ts xs ->
  read_list p close (commas ts ++ close :: r) = Some (xs, r).
Proof.
  intros Hs H. unfold read_list. destruct ts as [|t ts].
  - apply Forall2_nil_inv_l in H as ->. cbn [commas app]. rewrite skip_start by done.
    by rewrite Z.eqb_refl.
  - pose proof Hs as [(c & t' & Ht & Hc1 & Hc2) _]%Forall_cons.
    assert (exists l, commas (t :: ts) = c :: l) as [l Hl].
    { destruct ts; cbn [commas]; rewrite Ht; by eexists. }
    rewrite Hl. cbn [app]. rewrite skip_start by done.
    rewrite (proj2 (Z.eqb_neq c close)) by done.
    change (c :: l ++ close :: r) with ((c :: l) ++ close :: r). rewrite <-Hl.
    apply read_items; [done..|]. rewrite length_app. cbn [length].
    pose proof (commas_length (t :: ts)) as Hlen. etrans; [apply Hlen|lia].
    eapply Forall_impl; [done|]. by intros ? (? & ? & -> & _).
Qed.
End ReadLists.

(** ** Texts read back *)

(** What follows a value. *)
Definition follows (r : list Z) : Prop :=
  match r with [] => True | c :: _ => c = 44 \/ c = 93 \/ c = 125 end.

Lemma follows_ends r : follows r -> ends r.
Proof. destruct r; [done|]. by intros [->|[->| ->]]. Qed.

Definition value_reads_back (j : json) : Prop :=
  forall b d r, real_floats j -> json_text j = Some b -> (depth j <= d)%nat -> follows r ->
    read_value d (b ++ r) = Some (reread j, r).

Lemma read_value_number d c l t r :
  c = 45 \/ 48 <= c <= 57 -> read_literal (c :: l) = Some (t, r) ->
  read_value d (c :: l) = Some (number t, r).
Proof.
  intros Hc Hl. assert (is_space c = false) as Hs by (unfold is_space; lia).
  destruct d; cbn [read_value]; rewrite skip_start by done;
    repeat match goal with |- context [c =? ?n] =>
      rewrite (proj2 (Z.eqb_neq c n)) by lia end; by rewrite Hl.
Qed.

Lemma read_value_string d s r :
  read_value d (quoted s ++ r) = Some (JStr (clean_string s), r).
Proof.
  unfold quoted. cbn [app]. rewrite <-app_assoc. cbn [app].
  destruct d; cbn [read_value]; rewrite skip_start by done; cbn [Z.eqb Pos.eqb];
    rewrite read_quoted; cbn [mbind option_bind]; by rewrite clean_string_of.
Qed.

Lemma max_depths {A} (f : A -> nat) l d :
  (foldr (fun x d => Nat.max (f x) d) O l <= d)%nat <-> Forall (fun x => (f x <= d)%nat) l.
Proof.
  induction l as [|x l IH]; cbn; [split; [constructor|lia]|].
  rewrite Forall_cons, <-IH. lia.
Qed.

Lemma all_props {A} (P : A -> Prop) l : foldr (fun x p => P x /\ p) True l <-> Forall P l.
Proof. induction l as [|x l IH]; cbn; [split; [constructor|done]|]. by rewrite Forall_cons, IH. Qed.

Lemma list_reads_back l : Forall value_reads_back l -> value_reads_back (JArr l).
Proof.
  intros Hl b d r Hr Hb Hd Hf. cbn [json_text] in Hb.
  apply bind_Some in Hb as (ts & Hts & [= <-]). cbn [depth real_floats] in *.
  destruct d as [|d]; [lia|]. apply le_S_n, max_depths in Hd. apply all_props in Hr.
  cbn [app read_value reread]. rewrite skip_start by done. cbn [Z.eqb Pos.eqb].
  rewrite <-app_assoc. cbn [app]. apply mapM_Some in Hts.
  rewrite (read_list_back _ 93 eq_refl ltac:(done) ts (map reread l)); [done| |].
  - clear Hl Hd. induction Hts as [|j t l ts Ht Hts IH]; [constructor|].
    apply Forall_cons in Hr as [Hj Hr]. constructor; [|by apply IH].
    destruct (text_starts j t Hj Ht) as (c & t' & -> & Hc). apply starts_cases in Hc as (? & ? & _).
    by exists c, t'.
  - induction Hts as [|j t l ts Ht Hts IH]; cbn [map]; [constructor|].
    apply Forall_cons in Hr as [Hj Hr]. apply Forall_cons in Hl as [Hbj Hl].
    apply Forall_cons in Hd as [Hdj Hd]. constructor; [|by apply IH].
    intros c r' Hc. apply Hbj; [done..|]. cbn. lia.
Qed.

Lemma object_reads_back l : Forall (fun m => value_reads_back m.2) l -> value_reads_back (JObj l).
Proof.
  intros Hl b d r Hr Hb Hd Hf. cbn [json_text] in Hb.
  apply bind_Some in Hb as (ts & Hts & [= <-]). cbn [depth real_floats] in *.
  destruct d as [|d]; [lia|]. apply le_S_n, (max_depths (fun m : string * json => depth m.2)) in Hd.
  apply (all_props (fun m : string * json => real_floats m.2)) in Hr.
  cbn [app read_value reread]. rewrite skip_start by done. cbn [Z.eqb Pos.eqb].
  rewrite <-app_assoc. cbn [app]. apply mapM_Some in Hts.
  rewrite (read_list_back _ 125 eq_refl ltac:(done) ts
    (map (fun m => (clean_string m.1, reread m.2)) l)); [done| |].
  - clear Hl Hd Hr. induction Hts as [|m t l ts Ht Hts IH]; constructor; [|done].
    apply bind_Some in Ht as (t' & _ & [= <-]). by eexists _, _.
  - induction Hts as [|[n j] t l ts Ht Hts IH]; cbn [map fst snd]; [constructor|].
    apply Forall_cons in Hr as [Hj Hr]. apply Forall_cons in Hl as [Hbj Hl].
    apply Forall_cons in Hd as [Hdj Hd]. constructor; [|by apply IH].
    apply bind_Some in Ht as (t' & Ht & [= <-]). cbn [fst snd] in *.
    intros c r' Hc. unfold read_member, quoted. cbn [app]. rewrite skip_start by done.
    rewrite <-!app_assoc. cbn [app]. rewrite read_quoted. cbn [mbind option_bind].
    rewrite skip_start by done. rewrite (Hbj t' d (c :: r')) by (done || cbn; lia).
    cbn [mbind option_bind]. by rewrite clean_string_of.
Qed.

Lemma all_read_back j : value_reads_back j.
Proof.
  induction j as [|b|x|n|t|s|l Hl|l Hl] using json_ind'.
  - intros b d r _ [= <-] _ _. by destruct d.
  - intros b' d r _ [= <-] _ _. by destruct b, d.
  - intros b d r Hr Hb _ Hf. cbn [json_text] in Hb. destruct (f64_finite x) eqn:Hx; [|done].
    injection Hb as <-. destruct (read_float_text x r) as [Hl _]; [done|by apply follows_ends|].
    destruct (float_text_head x) as (c & l & Hc & Hs); [done|]. rewrite Hc in *.
    by apply read_value_number.
  - intros b d r _ [= <-] _ Hf. pose proof (read_int_text n r (follows_ends r Hf)) as Hl.
    destruct (int_text_head n) as (c & l & Hc & Hs). rewrite Hc in *.
    exact (read_value_number d c (l ++ r) _ r Hs Hl).
  - intros b d r _ [= <-] _ _. apply read_value_string.
  - intros b d r _ [= <-] _ _. apply read_value_string.
  - by apply list_reads_back.
  - by apply object_reads_back.
Qed.

(** A text without surrounding values, and as Go's [any]. *)
Fixpoint as_any (j : json) : json :=
  match j with
  | JInt n => JFloat (f64_of_Z n)
  | JTime t => JStr (clean_string (format_rfc3339_nano t))
  | JStr s => JStr (clean_string s)
  | JArr l => JArr (map as_any l)
  | JObj l => JObj (map (fun m => (clean_string m.1, as_any m.2)) l)
  | _ => j
  end.

(** Every integer is in the range of a float64. *)
Fixpoint float_ints (j : json) : Prop :=
  match j with
  | JInt n => f64_finite (f64_of_Z n) = true
  | JArr l => foldr (fun j p => float_ints j /\ p) True l
  | JObj l => foldr (fun m p => float_ints m.2 /\ p) True l
  | _ => True
  end.

Lemma any_number t x : literal_float t = x -> f64_finite x = true -> any (number t) = Some (JFloat x).
Proof.
  intros <- Hx. unfold finite_float in *. destruct t as [n|s c e]; cbn [number any literal_float] in *.
  - rewrite read_dec_integer in *. unfold finite_float. by rewrite Hx.
  - unfold finite_float. by rewrite Hx.
Qed.

Lemma any_reread j b :
  real_floats j -> float_ints j -> json_text j = Some b -> any (reread j) = Some (as_any j).
Proof.
  revert b. induction j as [|b|x|n|t|s|l Hl|l Hl] using json_ind'; intros b' Hr Hi; try done;
    cbn [json_text real_floats float_ints] in *.
  - destruct (f64_finite x) eqn:Hx; [|done]. intros _.
    destruct (read_float_text x [] (conj Hr Hx) I) as [_ Hl]. by apply any_number.
  - intros _. cbn. unfold finite_float. by rewrite Hi.
  - intros (ts & Hts%mapM_Some & _)%bind_Some. apply all_props in Hr, Hi.
    cbn [reread any as_any]. apply fmap_Some. exists (map as_any l). split; [|done].
    apply mapM_Some. induction Hts as [|j t l ts Ht Hts IH]; cbn [map]; [constructor|].
    rewrite !Forall_cons in *. destruct Hl, Hr, Hi. constructor; [by eauto|by apply IH].
  - intros (ts & Hts%mapM_Some & _)%bind_Some.
    apply (all_props (fun m : string * json => real_floats m.2)) in Hr.
    apply (all_props (fun m : string * json => float_ints m.2)) in Hi.
    cbn [reread any as_any]. apply fmap_Some. eexists. split; [|done].
    apply mapM_Some. induction Hts as [|[n j] t l ts Ht Hts IH]; cbn [map]; [constructor|].
    rewrite !Forall_cons in *. destruct Hl, Hr, Hi. constructor; [|by apply IH].
    apply bind_Some in Ht as (t' & Ht & _). cbn [fst snd] in *.
    by rewrite (H t') by done.
Qed.

Lemma read_json_text j b :
  json_text j = Some b -> real_floats j -> (depth j <= max_depth)%nat ->
  read_json b = Some (reread j).
Proof.
  intros Hb Hr Hd. unfold read_json. rewrite <-(app_nil_r b).
  by rewrite (all_read_back j b max_depth []) by done.
Qed.

Lemma json_any_text j b :
  json_text j = Some b -> real_floats j -> float_ints j -> (depth j <= max_depth)%nat ->
  json_any b = Some (as_any j).
Proof.
  intros Hb Hr Hi Hd. unfold json_any. rewrite (read_json_text j) by done. cbn.
  by eapply any_reread.
Qed.

(** ** A text is bytes *)

Ltac byte_list := repeat (apply Forall_cons; split; [unfold is_byte; lia|]); try apply Forall_nil_2.

Lemma escape_ascii_bytes a : 0 <= a < 128 -> Forall is_byte (escape_ascii a).
Proof.
  intros Ha. unfold escape_ascii, hex_byte.
  destruct ((a =? 34) || (a =? 92)); [byte_list|].
  repeat (match goal with |- context [if a =? ?n then _ else _] => destruct (a =? n) end;
    [byte_list|]).
  destruct ((a <? 32) || (a =? 60) || (a =? 62) || (a =? 38)); [|byte_list].
  destruct (Z.ltb_spec (a / 16) 10), (Z.ltb_spec (a mod 16) 10); repeat constructor; dlia.
Qed.

Lemma escape_rune_bytes u :
  match u with Some u => is_rune u = true /\ Forall is_byte u | None => True end ->
  Forall is_byte (escape_rune u).
Proof.
  destruct u as [u|]; [|intros _; byte_list]. intros [Hu Hb]. unfold escape_rune.
  destruct u as [|a [|b u]]; [done| |].
  - apply escape_ascii_bytes. cbn in Hu. lia.
  - repeat (case_bool_decide; [byte_list|]). done.
Qed.

Lemma quoted_bytes s : Forall is_byte (quoted s).
Proof.
  unfold quoted. apply Forall_cons. split; [unfold is_byte; lia|].
  apply Forall_app. split; [|byte_list]. apply Forall_join, Forall_fmap.
  pose proof (bytes_of_bytes s) as Hb. pose proof (runes_split _ Hb) as Hs. revert Hb.
  induction Hs as [|a l us _ IH|u l us Hu _ IH]; intros Hb; constructor.
  - byte_list.
  - apply IH. by apply Forall_cons in Hb as [_ Hb].
  - apply escape_rune_bytes. split; [done|]. by apply Forall_app in Hb as [Hb _].
  - apply IH. by apply Forall_app in Hb as [_ Hb].
Qed.

Lemma fixed_bytes k n : Forall is_byte (fixed k n).
Proof.
  revert n. induction k as [|k IH]; intros n; cbn [fixed]; [constructor|].
  apply Forall_app. split; [apply IH|]. repeat constructor; dlia.
Qed.

Lemma minus_bytes s l : Forall is_byte l -> Forall is_byte (minus s ++ l).
Proof. destruct s; [|done]. intros Hl. constructor; [unfold is_byte; lia|done]. Qed.

Lemma float_text_bytes x : Forall is_byte (float_text x).
Proof.
  destruct x as [s|s| |s m e]; cbn [float_text]; [|constructor|constructor|].
  - apply minus_bytes. byte_list.
  - destruct (shortest s m e) as [c x]. apply minus_bytes. unfold scientific, plain, dec.
    destruct (use_scientific m e); [|destruct (0 <=? x)].
    + apply Forall_app. split; [apply fixed_bytes|]. apply Forall_app. split.
      * case_match; [constructor|]. constructor; [unfold is_byte; lia|apply fixed_bytes].
      * constructor; [unfold is_byte; lia|].
        constructor; [unfold is_byte; case_match; lia|apply fixed_bytes].
    + apply fixed_bytes.
    + apply Forall_app. split; [apply fixed_bytes|].
      constructor; [unfold is_byte; lia|apply fixed_bytes].
Qed.

Lemma commas_bytes ts : Forall (Forall is_byte) ts -> Forall is_byte (commas ts).
Proof.
  induction 1 as [|t ts Ht H IH]; [constructor|]. destruct ts as [|t' ts]; [done|].
  apply Forall_app. split; [done|]. constructor; [unfold is_byte; lia|done].
Qed.

Lemma between_bytes a l b :
  is_byte a -> Forall is_byte l -> is_byte b -> Forall is_byte (a :: l ++ [b]).
Proof. intros. constructor; [done|]. apply Forall_app. split; [done|]. by constructor. Qed.

Lemma json_text_bytes j b : json_text j = Some b -> Forall is_byte b.
Proof.
  revert b. induction j as [|b|x|n|t|s|l Hl|l Hl] using json_ind'; intros b'; cbn [json_text].
  - intros Hb. apply (inj Some) in Hb as <-. apply bytes_of_bytes.
  - intros Hb. apply (inj Some) in Hb as <-. apply bytes_of_bytes.
  - case_match; [|done]. intros [= <-]. apply float_text_bytes.
  - intros [= <-]. apply minus_bytes, fixed_bytes.
  - intros [= <-]. apply quoted_bytes.
  - intros [= <-]. apply quoted_bytes.
  - intros (ts & Hts%mapM_Some & [= <-])%bind_Some. apply between_bytes; [done| |done].
    apply commas_bytes. induction Hts as [|j t l ts Ht Hts IH]; constructor;
      apply Forall_cons in Hl as [Hj Hl]; [by apply Hj|by apply IH].
  - intros (ts & Hts%mapM_Some & [= <-])%bind_Some. apply between_bytes; [done| |done].
    apply commas_bytes. induction Hts as [|m t l ts Ht Hts IH]; constructor;
      apply Forall_cons in Hl as [Hm Hl]; [|by apply IH].
    apply bind_Some in Ht as (t' & Ht & Heq). apply (inj Some) in Heq as <-.
    apply Forall_app. split; [apply quoted_bytes|].
    constructor; [unfold is_byte; lia|by apply Hm].
Qed.


(** ** Texts that survive *)

(** Every string of a document is valid UTF-8 and every number a finite float:
    it is read back as it is. *)
Fixpoint printable (j : json) : Prop :=
  match j with
  | JStr s => utf8_valid s = true
  | JFloat x => f64_valid x
  | JInt _ | JTime _ => False
  | JArr l => foldr (fun j p => printable j /\ p) True l
  | JObj l => foldr (fun m p => (utf8_valid m.1 = true /\ printable m.2) /\ p) True l
  | _ => True
  end.

Lemma printable_same j : printable j -> real_floats j /\ float_ints j /\ as_any j = j.
Proof.
  induction j as [|b|x|n|t|s|l Hl|l Hl] using json_ind'; cbn [printable]; try done.
  - intros Hs. cbn. by rewrite clean_string_valid.
  - intros Hp%all_props. cbn [real_floats float_ints as_any]. rewrite !all_props.
    assert (Forall (fun j => real_floats j /\ float_ints j /\ as_any j = j) l) as H.
    { rewrite Forall_forall in *. auto. }
    split_and!; [by eapply Forall_impl; [exact H|]; intros ? (? & ? & ?)..|].
    f_equal. induction H as [|j l (_ & _ & Hj) _ IH]; [done|]. cbn.
    apply Forall_cons in Hl as [_ Hl], Hp as [_ Hp]. by rewrite Hj, IH.
  - intros Hp. apply (all_props (fun m : string * json => utf8_valid m.1 = true /\ printable m.2)) in Hp.
    cbn [real_floats float_ints as_any].
    rewrite (all_props (fun m : string * json => real_floats m.2)).
    rewrite (all_props (fun m : string * json => float_ints m.2)).
    assert (Forall (fun m : string * json => utf8_valid m.1 = true /\ real_floats m.2 /\
      float_ints m.2 /\ as_any m.2 = m.2) l) as H.
    { rewrite Forall_forall in *. intros m Hm. destruct (Hp m Hm). split; [done|]. by apply Hl. }
    split_and!; [by eapply Forall_impl; [exact H|]; intros ? (? & ? & ? & ?)..|].
    f_equal. induction H as [|[n j] l (Hn & _ & _ & Hj) _ IH]; [done|]. cbn [map fst snd] in *.
    apply Forall_cons in Hl as [_ Hl], Hp as [_ Hp].
    rewrite clean_string_valid by done. by rewrite Hj, IH.
Qed.

Lemma printable_reads_back j b :
  json_text j = Some b -> printable j -> (depth j <= max_depth)%nat -> json_any b = Some j.
Proof.
  intros Hb (Hr & Hi & Ha)%printable_same Hd. rewrite (json_any_text j b) by done. by rewrite Ha.
Qed.

#[global] Arguments json_text _ : simpl never.
#[global] Arguments read_json _ : simpl never.
#[global] Arguments json_any _ : simpl never.
