(* ===== verification/Unmarshal.v ===== *)
(** * Reading a JSON text into a struct: [json.Unmarshal] with a flat struct

    The payloads of tokens and webhooks are read into structs of strings,
    numbers and lists of strings.  A member belongs to the field whose name it
    has up to case; later members overwrite earlier ones; [null] leaves a field
    as it is; a value of another kind leaves the field as it is, too, and
    [Unmarshal] goes on and reports an error in the end. *)

From S2P Require Import Prelude Float64 Calendar Fmt Decimal Models Json Base64 Utf8 JsonText.

Local Open Scope Z_scope.

(** ** Names up to case *)

Definition upper (a : Z) : Z := if (97 <=? a) && (a <=? 122) then a - 32 else a.

(** The only characters beyond ASCII that fold to ASCII: the long s and the
    Kelvin sign. *)
Definition fold_rune (u : option (list Z)) : list Z :=
  match u with
  | Some [a] => [upper a]
  | Some [197; 191] => [83]
  | Some [226; 132; 170] => [75]
  | Some u => u
  | None => replacement
  end.
Definition fold_name (s : string) : list Z := mjoin (fold_rune <$> runes (GoStrings.bytes_of s)).
Definition same_name (n k : string) : bool := bool_decide (fold_name n = fold_name k).

(** ** Values *)

Definition into_string (s : string) (j : json) : option string :=
  match j with JStr s => Some s | JNull => Some s | _ => None end.
Definition into_int64 (n : Z) (j : json) : option Z :=
  match j with
  | JInt n => if (- 2 ^ 63 <=? n) && (n <? 2 ^ 63) then Some n else None
  | JNull => Some n
  | _ => None
  end.
Definition into_float (x : float64) (j : json) : option float64 :=
  match j with
  | JFloat _ | JInt _ => match any j with Some (JFloat x) => Some x | _ => None end
  | JNull => Some x
  | _ => None
  end.

(** A slice of strings: its memory and its length.  An array is read into the
    memory, where a [null] finds what an earlier array left; an empty array and
    [null] drop the memory. *)
Definition strings_target : Type := list string * nat.
Definition slice_of (t : strings_target) : list string := take t.2 t.1.

Fixpoint into_elements (memory : list string) (l : list json) : option (list string) :=
  match l with
  | [] => Some memory
  | j :: l =>
      x ← into_string (default "" (head memory)) j;
      cons x <$> into_elements (tail memory) l
  end.
Definition into_strings (t : strings_target) (j : json) : option strings_target :=
  match j with
  | JArr [] | JNull => Some ([], O)
  | JArr l => m ← into_elements t.1 l; Some (m, length l)
  | _ => None
  end.

(** ** Members *)

(** The field [name] of a document, and whether all its values were of the
    right kind. *)
Definition member_into {A} (into : A -> json -> option A) (name : string)
    (r : A * bool) (m : string * json) : A * bool :=
  if same_name name m.1
  then match into r.1 m.2 with Some a => (a, r.2) | None => (r.1, false) end
  else r.
Definition read_field {A} (into : A -> json -> option A) (zero : A) (name : string)
    (l : list (string * json)) : A * bool :=
  fold_left (member_into into name) l (zero, true).

(** The members of a text; [null] has none. *)
Definition read_object (l : list Z) : option (list (string * json)) :=
  match read_json l with
  | Some (JObj l) => Some l
  | Some JNull => Some []
  | _ => None
  end.

(** ** Lemmas *)

Section Fields.
Context {A : Type} (into : A -> json -> option A) (name : string).

Lemma read_field_nil zero : read_field into zero name [] = (zero, true).
Proof. done. Qed.

Lemma read_field_other zero k j l :
  same_name name k = false -> read_field into zero name ((k, j) :: l) = read_field into zero name l.
Proof. unfold read_field, member_into. cbn. by intros ->. Qed.

Lemma read_field_here zero k j l a :
  same_name name k = true -> into zero j = Some a ->
  read_field into zero name ((k, j) :: l) = read_field into a name l.
Proof. unfold read_field, member_into. cbn. by intros -> ->. Qed.
End Fields.

Lemma into_elements_strings ss : into_elements [] (JStr <$> ss) = Some ss.
Proof. induction ss as [|s ss IH]; [done|]. cbn. change (JStr <$> ss) with (map JStr ss) in *. by rewrite IH. Qed.

Lemma into_strings_all ss : slice_of <$> into_strings ([], O) (JArr (JStr <$> ss)) = Some ss.
Proof.
  destruct ss as [|s ss]; [done|]. unfold into_strings.
  change (JArr (JStr <$> s :: ss)) with (JArr (JStr s :: (JStr <$> ss))). cbv iota beta.
  change (JStr s :: (JStr <$> ss)) with (JStr <$> s :: ss). cbn [fst].
  rewrite into_elements_strings. cbn. unfold slice_of. cbn. f_equal.
  by rewrite length_fmap, firstn_all.
Qed.

(** *** Flat documents read back *)

(** Texts, integers and lists of texts, all in UTF-8. *)
Definition flat_text (j : json) : bool := match j with JStr s => utf8_valid s | _ => false end.
Definition flat (j : json) : bool :=
  match j with JInt _ => true | JArr l => forallb flat_text l | _ => flat_text j end.

Lemma json_text_array l :
  json_text (JArr l) = ts ← mapM json_text l; Some (91 :: commas ts ++ [93]).
Proof. done. Qed.

Lemma array_has_text l : Forall (fun j => is_Some (json_text j)) l -> is_Some (json_text (JArr l)).
Proof. rewrite json_text_array. intros [ts Hts]%mapM_is_Some. rewrite Hts. by eexists. Qed.

Lemma flat_texts l :
  forallb flat_text l = true ->
  is_Some (mapM json_text l) /\ map reread l = l /\ foldr (fun j p => real_floats j /\ p) True l /\
  foldr (fun j d => Nat.max (depth j) d) O l = O.
Proof.
  induction l as [|j l IH]; [by intros _; split_and!; [eexists|..]|].
  intros [Hj Hl]%andb_true_iff. destruct (IH Hl) as ([ts Hts] & Hr & Hf & Hd). destruct j; try done. cbn in Hj.
  cbn -[quoted]. rewrite clean_string_valid by done. rewrite Hts, Hr, Hd.
  split_and!; [by eexists|done..].
Qed.

Lemma flat_same j :
  flat j = true ->
  is_Some (json_text j) /\ reread j = j /\ real_floats j /\ (depth j <= 1)%nat.
Proof.
  destruct j as [|b|x|n|t|s|l|l]; try done; cbn [flat flat_text].
  - intros _. split_and!; [by eexists|done|done|cbn; lia].
  - intros Hs. cbn [reread]. rewrite clean_string_valid by done.
    split_and!; [by eexists|done|done|cbn; lia].
  - intros ([ts Hts] & Hr & Hf & Hd)%flat_texts. cbn [reread real_floats depth]. rewrite Hr, Hd.
    rewrite json_text_array, Hts. split_and!; [by eexists|done|done|lia].
Qed.

Lemma read_flat_object l :
  forallb (fun m => utf8_valid m.1 && flat m.2) l = true ->
  exists b, json_text (JObj l) = Some b /\ Forall is_byte b /\ read_object b = Some l.
Proof.
  intros Hl. assert (is_Some (mapM (fun m : string * json =>
      t ← json_text m.2; Some (quoted m.1 ++ 58 :: t)) l) /\
    map (fun m => (clean_string m.1, reread m.2)) l = l /\
    foldr (fun m p => real_floats m.2 /\ p) True l /\
    (foldr (fun m d => Nat.max (depth m.2) d) O l <= 1)%nat) as ([ts Hts] & Hr & Hf & Hd).
  { induction l as [|[n j] l IH]; [by split_and!; [eexists|..|cbn; lia]|].
    apply andb_true_iff in Hl as [[Hn Hj]%andb_true_iff Hl].
    destruct (flat_same j Hj) as ([t Ht] & Hr & Hf & Hd), (IH Hl) as ([ts Hts] & Hrs & Hfs & Hds). cbn -[quoted clean_string].
    rewrite Ht. cbn -[quoted clean_string]. rewrite Hts, clean_string_valid, Hr, Hrs by done.
    split_and!; [by eexists|done|done|done|]. by apply Nat.max_lub. }
  eassert (json_text (JObj l) = Some _) as Hb.
  { change (json_text (JObj l)) with
      (ts ← mapM (fun m => t ← json_text m.2; Some (quoted m.1 ++ 58 :: t)) l;
       Some (123 :: commas ts ++ [125])). by rewrite Hts. }
  eexists. split; [exact Hb|]. split; [by eapply json_text_bytes|].
  unfold read_object. rewrite (read_json_text (JObj l)); try done; [cbn [reread]; by rewrite Hr|].
  cbn [depth]. unfold max_depth. lia.
Qed.

(** Goes through a document with literal names. *)
Ltac read_fields :=
  repeat first
    [ rewrite read_field_other by (vm_compute; reflexivity)
    | rewrite read_field_nil
    | erewrite read_field_here; [|vm_compute; reflexivity|] ].
