(* ===== verification/Targets.v ===== *)
(** * Reading a JSON text into nested structs

    [json.Decoder.Decode] of a request body: it reads the first value of the
    body and stores it in a variable, value by value.  A target is a Go type
    with its memory: a slice keeps, behind its length, what an earlier array
    left there, and a pointer keeps what it points to, so that a member that
    occurs twice is read into what the first occurrence stored.  A value of
    another kind leaves its place as it is; the decoder goes on and reports an
    error in the end.

    A struct's targets are built field by field, next to the codec that
    [json.Marshal] uses for the same tags; [Reads] says that the two fit. *)

From S2P Require Import Prelude Float64 Calendar Decimal Models Json Base64 Utf8 JsonText Unmarshal.

Local Open Scope Z_scope.

(** ** Targets *)

Record target (A : Type) := {
  mem : Type;
  fresh : mem;                          (* the zero value *)
  store : mem -> json -> mem * bool;    (* [false]: an error is reported *)
  get : mem -> A }.
Arguments mem {A}. Arguments fresh {A}. Arguments store {A}. Arguments get {A}.

(** A value that is its own memory. *)
Definition plain {A} (zero : A) (into : A -> json -> option A) : target A :=
  {| mem := A; fresh := zero; get m := m;
     store m j := match into m j with Some a => (a, true) | None => (m, false) end |}.

Definition into_bool (b : bool) (j : json) : option bool :=
  match j with JBool b => Some b | JNull => Some b | _ => None end.

Definition string_target : target string := plain "" into_string.
Definition bool_target : target bool := plain false into_bool.
Definition float_target : target float64 := plain f64_zero into_float.

(** The elements of an array go into the memory from its start. *)
Fixpoint store_elements {M} (st : M -> json -> M * bool) (zero : M) (memory : list M)
    (l : list json) : list M * bool :=
  match l with
  | [] => (memory, true)
  | j :: l =>
      let '(m, ok) := st (default zero (head memory)) j in
      let '(ms, oks) := store_elements st zero (tail memory) l in (m :: ms, ok && oks)
  end.

(** A slice: its memory and its length. *)
Definition list_target {A} (t : target A) : target (list A) :=
  {| mem := list (mem t) * nat; fresh := ([], O);
     get m := get t <$> take m.2 m.1;
     store m j :=
       match j with
       | JArr [] | JNull => (([], O), true)
       | JArr l => let '(ms, ok) := store_elements (store t) (fresh t) m.1 l in
                   ((ms, length l), ok)
       | _ => (m, false)
       end |}.

(** A pointer: [null] makes it nil, every other value allocates. *)
Definition ptr_target {A} (t : target A) : target (option A) :=
  {| mem := option (mem t); fresh := None; get m := get t <$> m;
     store m j :=
       match j with
       | JNull => (None, true)
       | _ => let '(x, ok) := store t (default (fresh t) m) j in (Some x, ok)
       end |}.

(** *** Structs *)

Record targets (A : Type) := {
  tmem : Type;
  tnames : list string;
  tfresh : tmem;
  tstore : tmem -> string * json -> tmem * bool;   (* one member of an object *)
  tget : tmem -> A }.
Arguments tmem {A}. Arguments tnames {A}. Arguments tfresh {A}.
Arguments tstore {A}. Arguments tget {A}.

(** The field [n], whose name is compared up to case. *)
Definition at_field {A} (n : string) (t : target A) : targets A :=
  {| tmem := mem t; tnames := [n]; tfresh := fresh t; tget := get t;
     tstore m j := if same_name n j.1 then store t m j.2 else (m, true) |}.

Definition both {A B} (t1 : targets A) (t2 : targets B) : targets (A * B) :=
  {| tmem := tmem t1 * tmem t2; tnames := tnames t1 ++ tnames t2;
     tfresh := (tfresh t1, tfresh t2); tget m := (tget t1 m.1, tget t2 m.2);
     tstore m j :=
       let '(m1, ok1) := tstore t1 m.1 j in
       let '(m2, ok2) := tstore t2 m.2 j in ((m1, m2), ok1 && ok2) |}.

Definition as_struct {A B} (f : A -> B) (t : targets A) : targets B :=
  {| tmem := tmem t; tnames := tnames t; tfresh := tfresh t; tstore := tstore t;
     tget m := f (tget t m) |}.

Definition store_members {A} (t : targets A) (m : tmem t * bool) (l : members) : tmem t * bool :=
  fold_left (fun m j => let '(m', ok) := tstore t m.1 j in (m', m.2 && ok)) l m.

Definition struct_target {A} (t : targets A) : target A :=
  {| mem := tmem t; fresh := tfresh t; get := tget t;
     store m j :=
       match j with
       | JObj l => store_members t (m, true) l
       | JNull => (m, true)
       | _ => (m, false)
       end |}.

(** ** Bodies *)

(** The first value of a text; what follows it is not looked at. *)
Definition first_value (l : list Z) : option json := fst <$> read_value max_depth l.

(** What is left in a zero variable, and whether an error is returned. *)
Definition read_into {A} (t : target A) (body : list Z) : A * bool :=
  match first_value body with
  | None => (get t (fresh t), false)
  | Some j => let '(m, ok) := store t (fresh t) j in (get t m, ok)
  end.

Lemma first_value_whole b j : read_json b = Some j -> first_value b = Some j.
Proof.
  unfold read_json, first_value. intros ([j' r] & Hv & Hr)%bind_Some. cbn in Hr.
  destruct (skip_space r); simplify_eq. by rewrite Hv.
Qed.

Lemma first_value_object b m l : read_object b = Some (m :: l) -> first_value b = Some (JObj (m :: l)).
Proof.
  unfold read_object. destruct (read_json b) as [j|] eqn:Hj; [|done]. intros Hl.
  apply first_value_whole. rewrite Hj. by destruct j; simplify_eq.
Qed.

Lemma read_into_value {A} (t : target A) b j m :
  first_value b = Some j -> store t (fresh t) j = (m, true) -> read_into t b = (get t m, true).
Proof. unfold read_into. by intros -> ->. Qed.

(** ** What [json.Marshal] wrote is read back *)

Class Reads {A} (c : vcodec A) (t : target A) : Prop := {
  reads_enc a j : venc c a = Some j -> printable j ->
    exists m, store t (fresh t) (reread j) = (m, true) /\ get t m = vnorm c a;
  reads_fresh : get t (fresh t) = vzero c }.

#[export] Instance reads_string : Reads string_codec string_target.
Proof.
  split; [|done]. intros s j [= <-] _. exists (clean_string s). split; [|done].
  cbn -[clean_string]. by rewrite clean_string_idem.
Qed.

#[export] Instance reads_bool : Reads bool_codec bool_target.
Proof. split; [|done]. intros b j [= <-] _. by exists b. Qed.

Lemma into_float_reread x y :
  f64_valid x -> f64_finite x = true -> into_float y (reread (JFloat x)) = Some x.
Proof.
  intros Hv Hx. assert (json_text (JFloat x) = Some (float_text x)) as Hb.
  { unfold json_text. by rewrite Hx. }
  pose proof (any_reread (JFloat x) _ Hv I Hb) as Ha. cbn [reread as_any] in *.
  destruct (float_literal x); cbn [number into_float] in *; by rewrite Ha.
Qed.

#[export] Instance reads_float : Reads float_codec float_target.
Proof.
  split; [|done]. intros x j. cbn [float_codec venc]. destruct (f64_finite x) eqn:Hx; [|done].
  intros [= <-] Hv. exists x. split; [|done]. cbn [float_target plain store fresh].
  by rewrite into_float_reread.
Qed.

#[export] Instance reads_list {A} (c : vcodec A) t : Reads c t -> Reads (list_codec c) (list_target t).
Proof.
  intros Hr. split; [|done]. intros l j (js & Hjs & ->)%fmap_Some Hp.
  cbn [reread]. assert (exists ms, store_elements (store t) (fresh t) [] (map reread js) = (ms, true) /\
    get t <$> ms = vnorm c <$> l /\ length ms = length js) as (ms & Hms & Hg & Hl).
  { revert js Hjs Hp. induction l as [|a l IH]; intros js; cbn.
    - intros [= <-] _. by exists [].
    - intros (j & Hj & (js' & Hjs & [= <-])%bind_Some)%bind_Some [Hp1 Hp2].
      destruct (reads_enc a j Hj Hp1) as (m & Hm & Hg), (IH js' Hjs Hp2) as (ms & Hms & Hgs & Hl).
      exists (m :: ms). cbn. rewrite Hm, Hms. split; [done|]. cbn. by rewrite Hg, Hgs, Hl. }
  destruct js as [|j js].
  - exists ([], O). split; [done|]. cbn. destruct ms; [|done]. by destruct l.
  - exists (ms, length (map reread (j :: js))). cbn -[store_elements] in *. rewrite Hms. split; [done|].
    cbn. rewrite length_map, <-Hl. by rewrite firstn_all.
Qed.

(** *** Fields *)

Class FReads {A} (c : fcodec A) (t : targets A) : Prop := {
  freads_names : tnames t = fnames c;
  freads_off m k j : Forall (fun n => same_name n k = false) (tnames t) ->
    tstore t m (k, j) = (m, true);
  freads_enc a l : fenc c a = Some l -> Forall (fun m => printable m.2) l ->
    exists m, store_members t (tfresh t, true) (map (fun m => (m.1, reread m.2)) l) = (m, true) /\
      tget t m = fnorm c a;
  freads_fresh : tget t (tfresh t) = fzero c }.

Lemma same_name_refl n : same_name n n = true.
Proof. by apply bool_decide_eq_true. Qed.

Lemma store_one {A} n (t : target A) c a j :
  Reads c t -> venc c a = Some j -> printable j ->
  exists m, store_members (at_field n t) (fresh t, true) [(n, reread j)] = (m, true) /\
    get t m = vnorm c a.
Proof.
  intros Hr Hj Hp. destruct (reads_enc a j Hj Hp) as (m & Hm & Hg). exists m.
  cbn. rewrite same_name_refl, Hm. by split.
Qed.

#[export] Instance freads_field {A} n (c : vcodec A) t :
  Reads c t -> FReads (field n c) (at_field n t).
Proof.
  intros Hr. split; [done| | |apply Hr].
  - intros m k j Hn%Forall_inv. cbn. by rewrite Hn.
  - intros a l (j & Hj & ->)%fmap_Some Hp%Forall_inv. by apply (store_one n t c).
Qed.

#[export] Instance freads_omit {A} n (c : vcodec A) t :
  Reads c t -> FReads (field_omit n c) (at_field n t).
Proof.
  intros Hr. split; [done| | |apply Hr].
  - intros m k j Hn%Forall_inv. cbn. by rewrite Hn.
  - intros a l. cbn [field_omit fenc fnorm]. destruct (vempty c a).
    + intros [= <-] _. exists (fresh t). split; [done|]. apply Hr.
    + intros (j & Hj & ->)%fmap_Some Hp%Forall_inv. by apply (store_one n t c).
Qed.

Lemma store_ptr {A} (t : target A) m j :
  j <> JNull ->
  store (ptr_target t) m j = let '(x, ok) := store t (default (fresh t) m) j in (Some x, ok).
Proof. by destruct j. Qed.

Lemma reread_null j : reread j = JNull -> j = JNull.
Proof. destruct j; try done. cbn. by destruct (float_literal x). Qed.

#[export] Instance freads_ptr {A} n (c : vcodec A) t :
  VCodec c -> Reads c t -> FReads (field_ptr n c) (at_field n (ptr_target t)).
Proof.
  intros Hc Hr. split; [done| | |done].
  - intros m k j Hn%Forall_inv. cbn. by rewrite Hn.
  - intros [a|] l; cbn [field_ptr fenc fnorm]; [|intros [= <-] _; by exists None].
    intros (j & Hj & ->)%fmap_Some Hp%Forall_inv.
    destruct (reads_enc a j Hj Hp) as (m & Hm & Hg). exists (Some m).
    cbn -[store]. rewrite same_name_refl, store_ptr by (by intros ?%reread_null; eapply venc_not_null).
    cbn [default]. change (fresh (ptr_target t)) with (@None (mem t)). cbn [from_option].
    rewrite Hm. split; [done|]. cbn. by rewrite Hg.
Qed.

Lemma store_off {A} (t : targets A) (c : fcodec A) m l :
  FReads c t -> Forall (fun j => Forall (fun n => same_name n j.1 = false) (tnames t)) l ->
  store_members t (m, true) l = (m, true).
Proof.
  intros Hc Hl. induction Hl as [|[k j] l Hk _ IH]; [done|]. unfold store_members in *. cbn.
  by rewrite (freads_off (c := c)).
Qed.

Lemma store_app {A} (t : targets A) m l1 l2 :
  store_members t m (l1 ++ l2) = store_members t (store_members t m l1) l2.
Proof. apply fold_left_app. Qed.

Lemma store_both {A B} (t1 : targets A) (t2 : targets B) l m1 m2 ok1 ok2 :
  store_members (both t1 t2) ((m1, m2), ok1 && ok2) l =
  let '(x1, o1) := store_members t1 (m1, ok1) l in
  let '(x2, o2) := store_members t2 (m2, ok2) l in ((x1, x2), o1 && o2).
Proof.
  revert m1 m2 ok1 ok2. induction l as [|j l IH]; intros m1 m2 ok1 ok2; [done|].
  unfold store_members in *. cbn. destruct (tstore t1 m1 j) as [y1 b1], (tstore t2 m2 j) as [y2 b2].
  rewrite <-IH. f_equal. by destruct ok1, ok2, b1, b2.
Qed.

Definition apart (ns1 ns2 : list string) : bool :=
  forallb (fun n => forallb (fun k => negb (same_name n k) && negb (same_name k n)) ns2) ns1.

Lemma apart_spec ns1 ns2 n k :
  apart ns1 ns2 = true -> n ∈ ns1 -> k ∈ ns2 -> same_name n k = false /\ same_name k n = false.
Proof.
  unfold apart. rewrite forallb_forall. intros H Hn%list_elem_of_In Hk%list_elem_of_In.
  apply H in Hn. rewrite forallb_forall in Hn. apply Hn, andb_true_iff in Hk as [H1 H2].
  by rewrite !negb_true_iff in *.
Qed.

Lemma freads_both {A B} (c1 : fcodec A) (c2 : fcodec B) t1 t2 :
  FCodec c1 -> FCodec c2 -> FReads c1 t1 -> FReads c2 t2 ->
  apart (fnames c1) (fnames c2) = true -> FReads (fpair c1 c2) (both t1 t2).
Proof.
  intros Hc1 Hc2 H1 H2 Hap. split.
  - cbn. by rewrite (freads_names (c := c1)), (freads_names (c := c2)).
  - intros [m1 m2] k j Hn%Forall_app. cbn.
    by rewrite (freads_off (c := c1)), (freads_off (c := c2)) by apply Hn.
  - intros [a b] l. cbn [fpair fenc fst snd].
    intros (l1 & E1 & (l2 & E2 & [= <-])%bind_Some)%bind_Some [Hp1 Hp2]%Forall_app.
    destruct (freads_enc a l1 E1 Hp1) as (m1 & Hm1 & Hg1), (freads_enc b l2 E2 Hp2) as (m2 & Hm2 & Hg2).
    pose proof (fenc_names _ _ E1) as N1. pose proof (fenc_names _ _ E2) as N2.
    exists (m1, m2). split; [|cbn; by rewrite Hg1, Hg2].
    etransitivity; [apply (store_both t1 t2 _ (tfresh t1) (tfresh t2) true true)|].
    rewrite map_app, !store_app, Hm1.
    assert (store_members t1 (m1, true) (map (fun m => (m.1, reread m.2)) l2) = (m1, true)) as ->.
    { apply (store_off t1 c1); [done|]. apply Forall_map, Forall_forall. intros [k j] Hin.
      rewrite (freads_names (c := c1)). apply Forall_forall. intros n Hn.
      refine (proj1 (apart_spec _ _ n k Hap Hn _)). apply N2, list_elem_of_fmap. by exists (k, j). }
    assert (store_members t2 (tfresh t2, true) (map (fun m => (m.1, reread m.2)) l1) = (tfresh t2, true))
      as E.
    { apply (store_off t2 c2); [done|]. apply Forall_map, Forall_forall. intros [k j] Hin.
      rewrite (freads_names (c := c2)). apply Forall_forall. intros n Hn.
      refine (proj2 (apart_spec _ _ k n Hap _ Hn)). apply N1, list_elem_of_fmap. by exists (k, j). }
    by rewrite E, Hm2.
  - cbn. by rewrite (freads_fresh (c := c1)), (freads_fresh (c := c2)).
Qed.

Lemma freads_struct {A B} (f : A -> B) (g : B -> A) (c : fcodec A) t :
  FReads c t -> Reads (struct_codec (fiso f g c)) (struct_target (as_struct f t)).
Proof.
  intros Hc. split; [|cbn; by rewrite (freads_fresh (c := c))].
  intros b j (l & Hl & ->)%fmap_Some Hp. cbn [fiso fenc] in Hl.
  apply (all_props (fun m : string * json => utf8_valid m.1 = true /\ printable m.2)) in Hp.
  destruct (freads_enc (g b) l Hl) as (m & Hm & Hg).
  { eapply Forall_impl; [exact Hp|]. by intros ? [_ ?]. }
  exists m. cbn [reread struct_target store]. split; [|cbn; by rewrite Hg].
  etransitivity; [|exact Hm]. change (tstore (as_struct f t)) with (tstore t).
  unfold store_members. cbn [as_struct tstore tfresh fresh]. f_equal.
  apply map_ext_Forall. eapply Forall_impl; [exact Hp|]. intros [n j] [Hn _]. cbn [fst snd] in *.
  by rewrite clean_string_valid.
Qed.

(** A body that [json.Marshal] wrote. *)
Lemma read_into_marshalled {A} (c : vcodec A) (t : target A) a j b :
  Reads c t -> venc c a = Some j -> printable j -> (depth j <= max_depth)%nat ->
  json_text j = Some b -> read_into t b = (vnorm c a, true).
Proof.
  intros Hr Hj Hp Hd Hb. unfold read_into.
  rewrite (first_value_whole b (reread j)).
  - destruct (reads_enc a j Hj Hp) as (m & -> & <-). done.
  - apply read_json_text; [done|by apply printable_same|done].
Qed.

(** ** How deep a written document is *)

Class Shallow {A} (c : vcodec A) (k : nat) : Prop :=
  shallow a j : venc c a = Some j -> (depth j <= k)%nat.
Class FShallow {A} (c : fcodec A) (k : nat) : Prop :=
  fshallow a l : fenc c a = Some l -> Forall (fun m => (depth m.2 <= k)%nat) l.

#[export] Instance shallow_string : Shallow string_codec 0.
Proof. by intros s j [= <-]. Qed.
#[export] Instance shallow_bool : Shallow bool_codec 0.
Proof. by intros b j [= <-]. Qed.
#[export] Instance shallow_float : Shallow float_codec 0.
Proof. intros x j. cbn. case_match; [|done]. by intros [= <-]. Qed.

Lemma depths_below {A} (f : A -> nat) l k :
  Forall (fun x => (f x <= k)%nat) l -> (foldr (fun x d => Nat.max (f x) d) O l <= k)%nat.
Proof. induction 1; cbn; lia. Qed.

#[export] Instance shallow_list {A} (c : vcodec A) k : Shallow c k -> Shallow (list_codec c) (S k).
Proof.
  intros Hc l j (js & Hjs%mapM_Some & ->)%fmap_Some. cbn [depth].
  apply le_n_S, depths_below. induction Hjs as [|a j l js Hj _ IH]; constructor; [|done].
  by apply (shallow a).
Qed.

#[export] Instance fshallow_field {A} n (c : vcodec A) k : Shallow c k -> FShallow (field n c) k.
Proof.
  intros Hc a l (j & Hj & ->)%fmap_Some. constructor; [|constructor]. by apply (shallow a).
Qed.

#[export] Instance fshallow_omit {A} n (c : vcodec A) k : Shallow c k -> FShallow (field_omit n c) k.
Proof.
  intros Hc a l. cbn. case_match; [by intros [= <-]|]. by apply (fshallow_field n c k).
Qed.

#[export] Instance fshallow_ptr {A} n (c : vcodec A) k : Shallow c k -> FShallow (field_ptr n c) k.
Proof. intros Hc [a|] l; [|by intros [= <-]]. by apply (fshallow_field n c k). Qed.

#[export] Instance fshallow_pair {A B} (c1 : fcodec A) (c2 : fcodec B) k1 k2 :
  FShallow c1 k1 -> FShallow c2 k2 -> FShallow (fpair c1 c2) (Nat.max k1 k2).
Proof.
  intros H1 H2 [a b] l (l1 & E1%H1 & (l2 & E2%H2 & [= <-])%bind_Some)%bind_Some.
  apply Forall_app. split; (eapply Forall_impl; [done|]); cbn; lia.
Qed.

#[export] Instance shallow_struct {A B} (f : A -> B) (g : B -> A) (c : fcodec A) k :
  FShallow c k -> Shallow (struct_codec (fiso f g c)) (S k).
Proof.
  intros Hc b j (l & Hl%Hc & ->)%fmap_Some. cbn [depth]. apply le_n_S.
  by apply (depths_below (fun m : string * json => depth m.2)).
Qed.

Lemma read_back {A} (c : vcodec A) (t : target A) k a j b :
  Reads c t -> Shallow c k -> (k <= max_depth)%nat -> venc c a = Some j -> printable j ->
  json_text j = Some b -> read_into t b = (vnorm c a, true).
Proof.
  intros Hr Hs Hk Hj Hp Hb. apply (read_into_marshalled c t a j b); try done.
  etransitivity; [by apply (Hs a)|done].
Qed.
