(* ===== verification/Sha256.v ===== *)
(** * SHA-256 and its HMAC: [crypto/sha256], [crypto/hmac] of the Go library

    Messages, keys and digests are lists of bytes, integers in 0..255; a word is
    an integer below 2^32.  The server digests disclosures and presentations,
    the SDK checks the HMAC of a webhook. *)

From S2P Require Import Prelude Base64.

Local Open Scope Z_scope.

Module Sha2.

(** ** Constants: fractional parts of the roots of the first primes *)

(** The low 32 bits. *)
Definition mask : Z := 4294967295.
Definition word (n : Z) : Z := Z.land n mask.

Definition is_prime (n : Z) : bool :=
  forallb (fun d => negb (n mod d =? 0)) (map Z.of_nat (seq 2 (Z.to_nat n - 2))).
Definition primes : list Z := List.filter is_prime (map Z.of_nat (seq 2 310)).

(** The integer cube root, bit by bit. *)
Definition cbrt (n : Z) : Z :=
  fold_left (fun r b => let r' := r + 2 ^ Z.of_nat b in if r' ^ 3 <=? n then r' else r)
    (rev (seq 0 36)) 0.

Definition initial : list Z :=
  Eval vm_compute in map (fun p => word (Z.sqrt (p * 2 ^ 64))) (take 8 primes).
Definition round_constants : list Z :=
  Eval vm_compute in map (fun p => word (cbrt (p * 2 ^ 96))) primes.

(** ** Words *)

Definition rotr (n x : Z) : Z := Z.lor (Z.shiftr x n) (word (Z.shiftl x (32 - n))).
Definition lnot32 (x : Z) : Z := Z.lxor x mask.
Definition ch (x y z : Z) : Z := Z.lxor (Z.land x y) (Z.land (lnot32 x) z).
Definition maj (x y z : Z) : Z := Z.lxor (Z.land x y) (Z.lxor (Z.land x z) (Z.land y z)).
Definition big_sigma (i j k x : Z) : Z := Z.lxor (rotr i x) (Z.lxor (rotr j x) (rotr k x)).
Definition small_sigma (i j k x : Z) : Z :=
  Z.lxor (rotr i x) (Z.lxor (rotr j x) (Z.shiftr x k)).

(** Big-endian bytes of a word, and words of bytes. *)
Definition bytes_of_word (w : Z) : list Z :=
  [w / 2 ^ 24 mod 256; w / 2 ^ 16 mod 256; w / 2 ^ 8 mod 256; w mod 256].
Fixpoint words_of_bytes (l : list Z) : list Z :=
  match l with
  | a :: b :: c :: d :: l => (((a * 256 + b) * 256 + c) * 256 + d) :: words_of_bytes l
  | _ => []
  end.

(** ** Padding: a one bit, zeros, the length in bits *)

Definition padding (len : nat) : list Z :=
  let bits := (8 * Z.of_nat len) mod 2 ^ 64 in
  128 :: replicate (Z.to_nat ((55 - Z.of_nat len) mod 64)) 0 ++
  bytes_of_word (bits / 2 ^ 32) ++ bytes_of_word (bits mod 2 ^ 32).

(** ** The compression of one block *)

(** The message schedule, newest word first. *)
Definition next_word (w : list Z) : Z :=
  word (small_sigma 17 19 10 (nth 1 w 0) + nth 6 w 0 + small_sigma 7 18 3 (nth 14 w 0) +
        nth 15 w 0).
Definition schedule (block : list Z) : list Z :=
  rev (Nat.iter 48 (fun w => next_word w :: w) (rev (words_of_bytes block))).

(** The working variables [a..h] as a list. *)
Definition round (v : list Z) (kw : Z * Z) : list Z :=
  match v with
  | [a; b; c; d; e; f; g; h] =>
      let t1 := h + big_sigma 6 11 25 e + ch e f g + kw.1 + kw.2 in
      let t2 := big_sigma 2 13 22 a + maj a b c in
      [word (t1 + t2); a; b; c; word (d + t1); e; f; g]
  | _ => v
  end.
Definition compress (h block : list Z) : list Z :=
  zip_with (fun x y => word (x + y)) h
    (fold_left round (zip round_constants (schedule block)) h).

Fixpoint blocks (n : nat) (h l : list Z) : list Z :=
  match n with O => h | S n => blocks n (compress h (take 64 l)) (drop 64 l) end.

(** ** Lemmas: 32 bytes; padded messages are whole blocks *)

Lemma padded_length len : (64 | len + length (padding len))%nat.
Proof.
  unfold padding. cbn [length]. rewrite !length_app, length_replicate. cbn [length bytes_of_word].
  set (z := (55 - Z.of_nat len) mod 64).
  exists (Z.to_nat ((Z.of_nat len + 9 + z) / 64)). unfold z. dlia.
Qed.

Lemma round_length v kw : length v = 8%nat -> length (round v kw) = 8%nat.
Proof. intros. by do 9 (destruct v as [|? v]; try done). Qed.

Lemma compress_length h b : length h = 8%nat -> length (compress h b) = 8%nat.
Proof.
  intros Hh. unfold compress. rewrite length_zip_with. rewrite Hh.
  set (l := zip _ _). clearbody l. revert h Hh.
  induction l as [|kw l IH]; intros h Hh; cbn [fold_left]; [by rewrite Hh|].
  by apply IH, round_length.
Qed.

Lemma blocks_length n h l : length h = 8%nat -> length (blocks n h l) = 8%nat.
Proof.
  revert h l. induction n as [|n IH]; intros h l Hh; cbn [blocks]; [done|].
  by apply IH, compress_length.
Qed.

Lemma bytes_of_word_bytes w : Forall is_byte (bytes_of_word w).
Proof. repeat constructor; apply Z.mod_pos_bound; lia. Qed.
End Sha2.

(** [sha256.Sum256]. *)
Definition Sum256 (msg : list Z) : list Z :=
  let l := msg ++ Sha2.padding (length msg) in
  mjoin (Sha2.bytes_of_word <$> Sha2.blocks (length l / 64) Sha2.initial l).

(** [hmac.New(sha256.New, key)] of a message. *)
Definition hmac_key_block (key : list Z) : list Z :=
  let k := if (64 <? Z.of_nat (length key)) then Sum256 key else key in
  k ++ replicate (64 - length k) 0.
Definition hmac (key msg : list Z) : list Z :=
  let k := hmac_key_block key in
  Sum256 (map (Z.lxor 92) k ++ Sum256 (map (Z.lxor 54) k ++ msg)).

Lemma Sum256_bytes l : Forall is_byte (Sum256 l).
Proof.
  unfold Sum256. apply Forall_join, Forall_fmap, Forall_true. intros. apply Sha2.bytes_of_word_bytes.
Qed.

Lemma Sum256_length l : length (Sum256 l) = 32%nat.
Proof.
  unfold Sum256. pose proof (Sha2.blocks_length (length (l ++ Sha2.padding (length l)) / 64) Sha2.initial
    (l ++ Sha2.padding (length l)) eq_refl) as H. revert H. generalize (Sha2.blocks
    (length (l ++ Sha2.padding (length l)) / 64) Sha2.initial (l ++ Sha2.padding (length l))).
  intros v Hv. by do 9 (destruct v as [|? v]; try done).
Qed.

Lemma hmac_bytes k m : Forall is_byte (hmac k m).
Proof. apply Sum256_bytes. Qed.

Lemma hmac_key_block_length k : length (hmac_key_block k) = 64%nat.
Proof.
  unfold hmac_key_block. rewrite length_app, length_replicate.
  destruct (Z.ltb_spec 64 (Z.of_nat (length k))); rewrite ?Sum256_length; lia.
Qed.

#[global] Arguments Sum256 _ : simpl never.
#[global] Arguments hmac _ _ : simpl never.
#[global] Opaque Sum256 hmac.

(** ** Test vectors: FIPS 180-4 and RFC 4231 *)

Example Sum256_empty :
  GoStrings.hex (Sum256 []) = "e3b0c44298fc1c149afbf4c8996fb92427ae41e4649b934ca495991b7852b855".
Proof. vm_compute. reflexivity. Qed.
Example Sum256_abc :
  GoStrings.hex (Sum256 (GoStrings.bytes_of "abc")) =
  "ba7816bf8f01cfea414140de5dae2223b00361a396177a9cb410ff61f20015ad".
Proof. vm_compute. reflexivity. Qed.
Example Sum256_two_blocks :
  GoStrings.hex (Sum256 (GoStrings.bytes_of
    "abcdbcdecdefdefgefghfghighijhijkijkljklmklmnlmnomnopnopq")) =
  "248d6a61d20638b8e5c026930c3e6039a33ce45964ff2167f6ecedd419db06c1".
Proof. vm_compute. reflexivity. Qed.
Example hmac_jefe :
  GoStrings.hex (hmac (GoStrings.bytes_of "Jefe")
    (GoStrings.bytes_of "what do ya want for nothing?")) =
  "5bdcc146bf60754e6a042426089575c75a003f089d2739839dec58b964ec3843".
Proof. vm_compute. reflexivity. Qed.
Example hmac_long_key :
  GoStrings.hex (hmac (replicate 131 170)
    (GoStrings.bytes_of "Test Using Larger Than Block-Size Key - Hash Key First")) =
  "60e431591ee0b67f0d8a26aacbf5b77f8e0bc6213728c5140546040f0ee37f54".
Proof. vm_compute. reflexivity. Qed.
