(* ===== verification/SdkModels.v ===== *)
(** * The data model of the Go SDK: [sdk-examples/go/models/models.go]

    Its structs with their JSON form, in module [Sdk]; the laws of the codecs
    say that what is written is read back. *)

From Stdlib Require Import Floats.SpecFloat.
From stdpp Require Import sorting.
From S2P Require Import Prelude Float64 Calendar Models Json JsonModels Base64 JsonText.

Local Open Scope Z_scope.

(** ** Values of type [any] and maps of them *)

Lemma any_any j j' : any j = Some j' -> any j' = Some j'.
Proof.
  revert j'. induction j as [|b|x|n|t|s|l Hl|l Hl] using json_ind'; intros j'; cbn [any];
    unfold finite_float.
  - by intros [= <-].
  - by intros [= <-].
  - case_match eqn:Hx; [|done]. intros [= <-]. cbn. unfold finite_float. by rewrite Hx.
  - case_match eqn:Hx; [|done]. intros [= <-]. cbn. unfold finite_float. by rewrite Hx.
  - by intros [= <-].
  - by intros [= <-].
  - intros (l' & Hm%mapM_Some & ->)%fmap_Some. cbn [any]. apply fmap_Some. exists l'.
    split; [|done]. apply mapM_Some. induction Hm as [|x y l l' Hx _ IH]; [constructor|].
    apply Forall_cons in Hl as [Hy Hl]. constructor; [by apply Hy|by apply IH].
  - intros (l' & Hm%mapM_Some & ->)%fmap_Some. cbn [any]. apply fmap_Some. exists l'.
    split; [|done]. apply mapM_Some. induction Hm as [|x y l l' Hx _ IH]; [constructor|].
    apply Forall_cons in Hl as [Hy Hl]. constructor; [|by apply IH].
    apply bind_Some in Hx as (j & Hj & [= <-]). cbn. by rewrite (Hy j Hj).
Qed.

#[global] Instance json_eq_dec : EqDecision json.
Proof.
  unfold EqDecision, Decision. fix go 1. intros [|b|x|n|t|s|l|l] [|b'|x'|n'|t'|s'|l'|l']; try (right; discriminate).
  - left. reflexivity.
  - destruct (decide (b = b')); [left|right]; congruence.
  - destruct (decide (x = x')); [left|right]; congruence.
  - destruct (decide (n = n')); [left|right]; congruence.
  - destruct (decide (t = t')); [left|right]; congruence.
  - destruct (decide (s = s')); [left|right]; congruence.
  - assert (forall l', {l = l'} + {l <> l'}) as H;
      [|destruct (H l'); [left|right]; congruence].
    clear l'. induction l as [|x l IH]; intros [|y l'];
      [left; reflexivity|right; discriminate|right; discriminate|].
    destruct (go x y); [|right; congruence]. destruct (IH l'); [left|right]; congruence.
  - assert (forall l', {l = l'} + {l <> l'}) as H;
      [|destruct (H l'); [left|right]; congruence].
    clear l'. induction l as [|[k x] l IH]; intros [|[k' y] l'];
      [left; reflexivity|right; discriminate|right; discriminate|].
    destruct (decide (k = k')); [|right; congruence].
    destruct (go x y); [|right; congruence]. destruct (IH l'); [left|right]; congruence.
Defined.

(** A value of type [any] is one that [Unmarshal] can produce. *)
Definition map_values (m : gmap string json) : option (gmap string json) :=
  if bool_decide (map_Forall (fun _ j => any j = Some j) m) then Some m else None.

Definition key_le (x y : string * json) : Prop := String.leb x.1 y.1 = true.
#[global] Instance key_le_dec x y : Decision (key_le x y).
Proof. unfold key_le. apply _. Defined.

(** [map[string]interface{}]: the keys are written in order; [omitempty] drops
    an empty map. *)
Definition map_codec : vcodec (gmap string json) :=
  {| venc m := (fun m => JObj (merge_sort key_le (map_to_list m))) <$> map_values m;
     vdec j := match j with
               | JObj l => list_to_map <$> mapM (fun m => j ← any m.2; Some (m.1, j)) (reverse l)
               | JNull => Some ∅
               | _ => None
               end;
     vzero := ∅; vempty m := bool_decide (m = ∅); vnorm m := m |}.

#[export] Instance map_codec_law : VCodec map_codec.
Proof.
  split; try done.
  - intros m j. cbn [venc map_codec]. unfold map_values. case_bool_decide as Hm; [|done].
    intros [= <-]. cbn [vdec map_codec vnorm].
    set (l := merge_sort key_le (map_to_list m)).
    assert (l ≡ₚ map_to_list m) as Hl by apply merge_sort_Permutation.
    assert (mapM (fun x => j ← any x.2; Some (x.1, j)) (reverse l) = Some (reverse l)) as ->.
    { apply mapM_Some. assert (Forall (fun x => any x.2 = Some x.2) (reverse l)) as Hf.
      { rewrite reverse_Permutation, Hl. apply Forall_forall. intros [k v] Hin.
        apply elem_of_map_to_list in Hin. by apply (Hm k v). }
      induction Hf as [|[k v] x Hx _ IH]; constructor; [|done]. cbn in *. by rewrite Hx. }
    cbn. f_equal. transitivity (list_to_map (M := gmap string json) (map_to_list m));
      [|apply list_to_map_to_list]. apply list_to_map_proper.
    + rewrite reverse_Permutation, Hl. apply NoDup_fst_map_to_list.
    + by rewrite reverse_Permutation.
  - intros m j. cbn. unfold map_values. case_bool_decide; [|done]. by intros [= <-].
Qed.

Module Sdk.

Record WalletMetadata := {
  WalletMetadata_Issuer : string;
  WalletMetadata_IssuerID : string;
  WalletMetadata_WalletProvider : string;
  WalletMetadata_CredentialType : string;
  WalletMetadata_CredentialFormat : string;
  WalletMetadata_AssuranceLevel : string;
  WalletMetadata_PresentationID : string;
  WalletMetadata_IssuingCountry : string;
  WalletMetadata_VerifiedAt : string;
  WalletMetadata_ExpiresAt : string }.
Definition WalletMetadata_fields :=
  field_omit "issuer" string_codec ⊗
  field_omit "issuer_id" string_codec ⊗
  field_omit "wallet_provider" string_codec ⊗
  field_omit "credential_type" string_codec ⊗
  field_omit "credential_format" string_codec ⊗
  field_omit "assurance_level" string_codec ⊗
  field_omit "presentation_id" string_codec ⊗
  field_omit "issuing_country" string_codec ⊗
  field_omit "verified_at" string_codec ⊗
  field_omit "expires_at" string_codec.
Definition WalletMetadata_codec : vcodec WalletMetadata :=
  struct_codec (fiso
    (fun '(x1, (x2, (x3, (x4, (x5, (x6, (x7, (x8, (x9, x10))))))))) => Build_WalletMetadata
    x1 x2 x3 x4 x5 x6 x7 x8 x9 x10)
    (fun x => (WalletMetadata_Issuer x, (WalletMetadata_IssuerID x,
    (WalletMetadata_WalletProvider x, (WalletMetadata_CredentialType x,
    (WalletMetadata_CredentialFormat x, (WalletMetadata_AssuranceLevel x,
    (WalletMetadata_PresentationID x, (WalletMetadata_IssuingCountry x,
    (WalletMetadata_VerifiedAt x, WalletMetadata_ExpiresAt x))))))))))
    WalletMetadata_fields).
#[global] Instance sdk_WalletMetadata_law : VCodec WalletMetadata_codec.
Proof. solve_struct. Qed.

Record Address := {
  Address_Street : string;
  Address_Zip : string;
  Address_City : string;
  Address_Country : string }.
Definition Address_fields :=
  field "street" string_codec ⊗
  field "zip" string_codec ⊗
  field "city" string_codec ⊗
  field "country" string_codec.
Definition Address_codec : vcodec Address :=
  struct_codec (fiso
    (fun '(x1, (x2, (x3, x4))) => Build_Address x1 x2 x3 x4)
    (fun x => (Address_Street x, (Address_Zip x, (Address_City x, Address_Country x))))
    Address_fields).
#[global] Instance sdk_Address_law : VCodec Address_codec.
Proof. solve_struct. Qed.

Record Tenant := {
  Tenant_FirstName : string;
  Tenant_LastName : string;
  Tenant_Email : string;
  Tenant_TaxID : string;
  Tenant_EIDStatus : string;
  Tenant_WalletMetadata : option WalletMetadata;
  Tenant_Address : Address }.
Definition Tenant_fields :=
  field "first_name" string_codec ⊗
  field "last_name" string_codec ⊗
  field "email" string_codec ⊗
  field_omit "tax_id" string_codec ⊗
  field "eid_status" string_codec ⊗
  field_ptr "wallet_metadata" WalletMetadata_codec ⊗
  field "address" Address_codec.
Definition Tenant_codec : vcodec Tenant :=
  struct_codec (fiso
    (fun '(x1, (x2, (x3, (x4, (x5, (x6, x7)))))) => Build_Tenant x1 x2 x3 x4 x5 x6 x7)
    (fun x => (Tenant_FirstName x, (Tenant_LastName x, (Tenant_Email x, (Tenant_TaxID x,
    (Tenant_EIDStatus x, (Tenant_WalletMetadata x, Tenant_Address x)))))))
    Tenant_fields).
#[global] Instance sdk_Tenant_law : VCodec Tenant_codec.
Proof. solve_struct. Qed.

Record Landlord := {
  Landlord_Name : string;
  Landlord_Type : string;
  Landlord_IBAN : string }.
Definition Landlord_fields :=
  field "name" string_codec ⊗
  field "type" string_codec ⊗
  field_omit "iban" string_codec.
Definition Landlord_codec : vcodec Landlord :=
  struct_codec (fiso
    (fun '(x1, (x2, x3)) => Build_Landlord x1 x2 x3)
    (fun x => (Landlord_Name x, (Landlord_Type x, Landlord_IBAN x)))
    Landlord_fields).
#[global] Instance sdk_Landlord_law : VCodec Landlord_codec.
Proof. solve_struct. Qed.

Record Property := {
  Property_Address : Address;
  Property_UnitID : string }.
Definition Property_fields :=
  field "address" Address_codec ⊗
  field_omit "unit_id" string_codec.
Definition Property_codec : vcodec Property :=
  struct_codec (fiso
    (fun '(x1, x2) => Build_Property x1 x2)
    (fun x => (Property_Address x, Property_UnitID x))
    Property_fields).
#[global] Instance sdk_Property_law : VCodec Property_codec.
Proof. solve_struct. Qed.

Record InstallmentScheduleEntry := {
  InstallmentScheduleEntry_InstallmentNumber : Z;
  InstallmentScheduleEntry_DueDate : string;
  InstallmentScheduleEntry_PaidDate : string;
  InstallmentScheduleEntry_Amount : float64 }.
Definition InstallmentScheduleEntry_fields :=
  field "installment_number" int_codec ⊗
  field "due_date" string_codec ⊗
  field_omit "paid_date" string_codec ⊗
  field_omit "amount" float_codec.
Definition InstallmentScheduleEntry_codec : vcodec InstallmentScheduleEntry :=
  struct_codec (fiso
    (fun '(x1, (x2, (x3, x4))) => Build_InstallmentScheduleEntry x1 x2 x3 x4)
    (fun x => (InstallmentScheduleEntry_InstallmentNumber x,
    (InstallmentScheduleEntry_DueDate x, (InstallmentScheduleEntry_PaidDate x,
    InstallmentScheduleEntry_Amount x))))
    InstallmentScheduleEntry_fields).
#[global] Instance sdk_InstallmentScheduleEntry_law : VCodec InstallmentScheduleEntry_codec.
Proof. solve_struct. Qed.

Record InstallmentPlan := {
  InstallmentPlan_TotalInstallments : Z;
  InstallmentPlan_InstallmentAmount : float64;
  InstallmentPlan_Schedule : list InstallmentScheduleEntry }.
Definition InstallmentPlan_fields :=
  field "total_installments" int_codec ⊗
  field_omit "installment_amount" float_codec ⊗
  field_omit "schedule" (list_codec InstallmentScheduleEntry_codec).
Definition InstallmentPlan_codec : vcodec InstallmentPlan :=
  struct_codec (fiso
    (fun '(x1, (x2, x3)) => Build_InstallmentPlan x1 x2 x3)
    (fun x => (InstallmentPlan_TotalInstallments x, (InstallmentPlan_InstallmentAmount x,
    InstallmentPlan_Schedule x)))
    InstallmentPlan_fields).
#[global] Instance sdk_InstallmentPlan_law : VCodec InstallmentPlan_codec.
Proof. solve_struct. Qed.

Record DepositDetails := {
  DepositDetails_Amount : float64;
  DepositDetails_Currency : string;
  DepositDetails_Type : string;
  DepositDetails_LifecycleState : string;
  DepositDetails_InstallmentPlan : option InstallmentPlan }.
Definition DepositDetails_fields :=
  field "amount" float_codec ⊗
  field "currency" string_codec ⊗
  field "type" string_codec ⊗
  field "lifecycle_state" string_codec ⊗
  field_ptr "installment_plan" InstallmentPlan_codec.
Definition DepositDetails_codec : vcodec DepositDetails :=
  struct_codec (fiso
    (fun '(x1, (x2, (x3, (x4, x5)))) => Build_DepositDetails x1 x2 x3 x4 x5)
    (fun x => (DepositDetails_Amount x, (DepositDetails_Currency x, (DepositDetails_Type x,
    (DepositDetails_LifecycleState x, DepositDetails_InstallmentPlan x)))))
    DepositDetails_fields).
#[global] Instance sdk_DepositDetails_law : VCodec DepositDetails_codec.
Proof. solve_struct. Qed.

Record Pledge := {
  Pledge_PledgeDate : string;
  Pledge_StatutoryBasis : string;
  Pledge_IsConfirmedByBank : bool }.
Definition Pledge_fields :=
  field_omit "pledge_date" string_codec ⊗
  field "statutory_basis" string_codec ⊗
  field "is_confirmed_by_bank" bool_codec.
Definition Pledge_codec : vcodec Pledge :=
  struct_codec (fiso
    (fun '(x1, (x2, x3)) => Build_Pledge x1 x2 x3)
    (fun x => (Pledge_PledgeDate x, (Pledge_StatutoryBasis x, Pledge_IsConfirmedByBank x)))
    Pledge_fields).
#[global] Instance sdk_Pledge_law : VCodec Pledge_codec.
Proof. solve_struct. Qed.

Record InterestRateEntry := {
  InterestRateEntry_Rate : float64;
  InterestRateEntry_EffectiveFrom : string;
  InterestRateEntry_EffectiveTo : string }.
Definition InterestRateEntry_fields :=
  field "rate" float_codec ⊗
  field "effective_from" string_codec ⊗
  field_omit "effective_to" string_codec.
Definition InterestRateEntry_codec : vcodec InterestRateEntry :=
  struct_codec (fiso
    (fun '(x1, (x2, x3)) => Build_InterestRateEntry x1 x2 x3)
    (fun x => (InterestRateEntry_Rate x, (InterestRateEntry_EffectiveFrom x,
    InterestRateEntry_EffectiveTo x)))
    InterestRateEntry_fields).
#[global] Instance sdk_InterestRateEntry_law : VCodec InterestRateEntry_codec.
Proof. solve_struct. Qed.

Record Trusteeship := {
  Trusteeship_AccountType : string;
  Trusteeship_TrusteeEntity : string;
  Trusteeship_TrustAccountIBAN : string;
  Trusteeship_InsolvencyProtectionConfirmed : bool;
  Trusteeship_InsolvencyProtectionConfirmedDate : string;
  Trusteeship_StatutoryBasis : string;
  Trusteeship_InterestRate : float64;
  Trusteeship_InterestRateHistory : list InterestRateEntry;
  Trusteeship_AccruedInterest : float64;
  Trusteeship_InterestCalculatedAt : string;
  Trusteeship_TotalBalance : float64 }.
Definition Trusteeship_fields :=
  field_omit "account_type" string_codec ⊗
  field_omit "trustee_entity" string_codec ⊗
  field_omit "trust_account_iban" string_codec ⊗
  field "insolvency_protection_confirmed" bool_codec ⊗
  field_omit "insolvency_protection_confirmed_date" string_codec ⊗
  field_omit "statutory_basis" string_codec ⊗
  field_omit "interest_rate" float_codec ⊗
  field_omit "interest_rate_history" (list_codec InterestRateEntry_codec) ⊗
  field_omit "accrued_interest" float_codec ⊗
  field_omit "interest_calculated_at" string_codec ⊗
  field_omit "total_balance" float_codec.
Definition Trusteeship_codec : vcodec Trusteeship :=
  struct_codec (fiso
    (fun '(x1, (x2, (x3, (x4, (x5, (x6, (x7, (x8, (x9, (x10, x11)))))))))) =>
    Build_Trusteeship x1 x2 x3 x4 x5 x6 x7 x8 x9 x10 x11)
    (fun x => (Trusteeship_AccountType x, (Trusteeship_TrusteeEntity x,
    (Trusteeship_TrustAccountIBAN x, (Trusteeship_InsolvencyProtectionConfirmed x,
    (Trusteeship_InsolvencyProtectionConfirmedDate x, (Trusteeship_StatutoryBasis x,
    (Trusteeship_InterestRate x, (Trusteeship_InterestRateHistory x,
    (Trusteeship_AccruedInterest x, (Trusteeship_InterestCalculatedAt x,
    Trusteeship_TotalBalance x)))))))))))
    Trusteeship_fields).
#[global] Instance sdk_Trusteeship_law : VCodec Trusteeship_codec.
Proof. solve_struct. Qed.

Record Provider := {
  Provider_ProviderType : string;
  Provider_ExecutingEntity : string;
  Provider_BrandName : string;
  Provider_InsurancePolicyNumber : string;
  Provider_CustomFields : gmap string json }.
Definition Provider_fields :=
  field "provider_type" string_codec ⊗
  field "executing_entity" string_codec ⊗
  field_omit "brand_name" string_codec ⊗
  field_omit "insurance_policy_number" string_codec ⊗
  field_omit "custom_fields" map_codec.
Definition Provider_codec : vcodec Provider :=
  struct_codec (fiso
    (fun '(x1, (x2, (x3, (x4, x5)))) => Build_Provider x1 x2 x3 x4 x5)
    (fun x => (Provider_ProviderType x, (Provider_ExecutingEntity x, (Provider_BrandName x,
    (Provider_InsurancePolicyNumber x, Provider_CustomFields x)))))
    Provider_fields).
#[global] Instance sdk_Provider_law : VCodec Provider_codec.
Proof. solve_struct. Qed.

Record HistoryEntry := {
  HistoryEntry_State : string;
  HistoryEntry_Timestamp : instant;
  HistoryEntry_Actor : string;
  HistoryEntry_Comment : string }.
Definition HistoryEntry_fields :=
  field "state" string_codec ⊗
  field "timestamp" time_codec ⊗
  field "actor" string_codec ⊗
  field_omit "comment" string_codec.
Definition HistoryEntry_codec : vcodec HistoryEntry :=
  struct_codec (fiso
    (fun '(x1, (x2, (x3, x4))) => Build_HistoryEntry x1 x2 x3 x4)
    (fun x => (HistoryEntry_State x, (HistoryEntry_Timestamp x, (HistoryEntry_Actor x,
    HistoryEntry_Comment x))))
    HistoryEntry_fields).
#[global] Instance sdk_HistoryEntry_law : VCodec HistoryEntry_codec.
Proof. solve_struct. Qed.

Record Meta := {
  Meta_Version : string;
  Meta_Timestamp : instant;
  Meta_ExternalID : string }.
Definition Meta_fields :=
  field "version" string_codec ⊗
  field "timestamp" time_codec ⊗
  field_omit "external_id" string_codec.
Definition Meta_codec : vcodec Meta :=
  struct_codec (fiso
    (fun '(x1, (x2, x3)) => Build_Meta x1 x2 x3)
    (fun x => (Meta_Version x, (Meta_Timestamp x, Meta_ExternalID x)))
    Meta_fields).
#[global] Instance sdk_Meta_law : VCodec Meta_codec.
Proof. solve_struct. Qed.

Record Deposit := {
  Deposit_Meta : Meta;
  Deposit_Tenant : Tenant;
  Deposit_Landlord : Landlord;
  Deposit_Property : Property;
  Deposit_DepositDetails : DepositDetails;
  Deposit_Pledge : option Pledge;
  Deposit_Trusteeship : option Trusteeship;
  Deposit_Provider : Provider;
  Deposit_History : list HistoryEntry }.
Definition Deposit_fields :=
  field "meta" Meta_codec ⊗
  field "tenant" Tenant_codec ⊗
  field "landlord" Landlord_codec ⊗
  field "property" Property_codec ⊗
  field "deposit_details" DepositDetails_codec ⊗
  field_ptr "pledge" Pledge_codec ⊗
  field_ptr "trusteeship" Trusteeship_codec ⊗
  field "provider" Provider_codec ⊗
  field "history" (list_codec HistoryEntry_codec).
Definition Deposit_codec : vcodec Deposit :=
  struct_codec (fiso
    (fun '(x1, (x2, (x3, (x4, (x5, (x6, (x7, (x8, x9)))))))) => Build_Deposit x1 x2 x3 x4 x5
    x6 x7 x8 x9)
    (fun x => (Deposit_Meta x, (Deposit_Tenant x, (Deposit_Landlord x, (Deposit_Property x,
    (Deposit_DepositDetails x, (Deposit_Pledge x, (Deposit_Trusteeship x, (Deposit_Provider
    x, Deposit_History x)))))))))
    Deposit_fields).
#[global] Instance sdk_Deposit_law : VCodec Deposit_codec.
Proof. solve_struct. Qed.

Definition marshal : Deposit -> option json := venc Deposit_codec.
Definition unmarshal : json -> option Deposit := vdec Deposit_codec.
End Sdk.
