(* ===== verification/Signer.v ===== *)
(** * The signing key: [Signer] of [internal/issuance/credential.go]

    The key and its identifier are drawn once, on first use, by whoever comes
    first; [sync.Once] runs the initialisation at most once and lets the others
    wait for it, so one use is one step.  When the generation fails it panics,
    and counts as done. *)

From S2P Require Import Prelude Runtime.

(** What [ecdsa.GenerateKey] and [uuid.NewString] return if they are called. *)
Record draw (K : Type) := { draw_key : option K; draw_uuid : string }.
Arguments draw_key {K}. Arguments draw_uuid {K}.

Record Signer (K : Type) := {
  Signer_once : bool;        (* the Once has run *)
  Signer_key : option K;     (* nil until then *)
  Signer_KeyID : string }.
Arguments Signer_once {K}. Arguments Signer_key {K}. Arguments Signer_KeyID {K}.

Definition DefaultSigner {K} : Signer K :=
  {| Signer_once := false; Signer_key := None; Signer_KeyID := "" |}.

Section Signer.
Context {K P : Type} (public : K -> P).
Implicit Types (s : Signer K) (d : draw K).

Definition init d s : result unit * Signer K :=
  if Signer_once s then (Ok tt, s)
  else
    match draw_key d with
    | None => (Panic, {| Signer_once := true; Signer_key := Signer_key s;
                         Signer_KeyID := Signer_KeyID s |})
    | Some key => (Ok tt, {| Signer_once := true; Signer_key := Some key;
                             Signer_KeyID := draw_uuid d |})
    end.

(** The field of a nil key panics. *)
Definition PublicKey d s : result P * Signer K :=
  match init d s with
  | (Ok _, s) => (match Signer_key s with Some key => Ok (public key) | None => Panic end, s)
  | (_, s) => (Panic, s)
  end.

(** [BuildSDJWT] and [BuildStatusListJWT] initialise the signer, put its KeyID
    into the header and sign with its key; a nil key panics there. *)
Definition signing d s : result (string * K) * Signer K :=
  match init d s with
  | (Ok _, s) =>
      (match Signer_key s with Some key => Ok (Signer_KeyID s, key) | None => Panic end, s)
  | (_, s) => (Panic, s)
  end.

(** What a use of the signer shows: [JWKS] the public key and the identifier
    read after it, the builders the identifier in the header and the key. *)
Inductive use := UseJWKS | UseSign.
Inductive shown := Published (kid : string) (key : P) | Signed (kid : string) (key : K).

Definition use_signer (u : use) d s : result shown * Signer K :=
  match u with
  | UseJWKS =>
      match PublicKey d s with
      | (Ok p, s) => (Ok (Published (Signer_KeyID s) p), s)
      | (_, s) => (Panic, s)
      end
  | UseSign =>
      match signing d s with
      | (Ok (kid, key), s) => (Ok (Signed kid key), s)
      | (_, s) => (Panic, s)
      end
  end.

Fixpoint uses (l : list (use * draw K)) s : list (result shown) * Signer K :=
  match l with
  | [] => ([], s)
  | (u, d) :: l =>
      let '(r, s) := use_signer u d s in
      let '(rs, s) := uses l s in (r :: rs, s)
  end.

(** What [u] shows of a key and its identifier. *)
Definition shows (kid : string) (key : K) (u : use) : shown :=
  match u with UseJWKS => Published kid (public key) | UseSign => Signed kid key end.

Lemma uses_ready l kid key s :
  Signer_once s = true -> Signer_key s = Some key -> Signer_KeyID s = kid ->
  uses l s = (map (fun u => Ok (shows kid key u.1)) l, s).
Proof.
  intros Ho Hk <-. induction l as [|[[] d] l IH]; [done| |]; cbn [uses map fst];
    unfold use_signer, PublicKey, signing, init; by rewrite Ho, Hk, IH.
Qed.

Lemma uses_broken l s :
  Signer_once s = true -> Signer_key s = None -> uses l s = (map (fun _ => Panic) l, s).
Proof.
  intros Ho Hk. induction l as [|[[] d] l IH]; [done| |]; cbn [uses map];
    unfold use_signer, PublicKey, signing, init; by rewrite Ho, Hk, IH.
Qed.

(** The signer draws its key once: in every sequence of uses of a fresh signer, whatever
    later draws would give, each published key and each signature is that of the first draw,
    under its identifier; and when the first draw fails, it is never repeated and every use
    panics. *)
Theorem signer_never_changes u d l :
  (uses ((u, d) :: l) DefaultSigner).1 =
    match draw_key d with
    | Some key => map (fun u => Ok (shows (draw_uuid d) key u.1)) ((u, d) :: l)
    | None => map (fun _ => Panic) ((u, d) :: l)
    end.
Proof.
  destruct d as [[key|] kid]; cbn [draw_key draw_uuid].
  - destruct u; cbn; by rewrite (uses_ready l kid key).
  - destruct u; cbn; by rewrite (uses_broken l).
Qed.
End Signer.
