(* ===== verification/StatusList.v ===== *)
(** * The revocation bitstring: [internal/issuance/statuslist.go] and
      [internal/db/statuslist_store.go]

    Index allocation (in memory, an int64 counter; in PostgreSQL, a one-row
    table) and the W3C Bitstring Status List: [bitstring] is the loop of
    [BuildEncodedList] on the 16384 bytes, then gzip (a parameter: the standard
    library's compressor) and unpadded base64url.  [BuildStatusListJWT] is the
    signed document around it; signing is a parameter. *)

From S2P Require Import Prelude Calendar Runtime Postgres Base64.

Local Open Scope Z_scope.

(** ** Index allocation *)

Class IndexAllocator (S : Type) := {
  AllocateIndex : env -> S -> result Z * S }.

(** What an allocator promises: indices grow from [next_index], so no index is
    handed out twice, while [can_allocate]. *)
Class IndexAllocatorLaws (S : Type) `{IndexAllocator S} := {
  next_index : S -> Z;
  alloc_no_panic e s : (AllocateIndex e s).1 <> Panic;
  alloc_works e s :
    no_faults e -> 0 <= next_index s < 2 ^ 63 - 1 -> is_ok (AllocateIndex e s).1 = true;
  alloc_ok e s n :
    0 <= next_index s < 2 ^ 63 - 1 -> (AllocateIndex e s).1 = Ok n ->
    n = next_index s /\ next_index (AllocateIndex e s).2 = n + 1;
  alloc_failed e s :
    0 <= next_index s < 2 ^ 63 - 1 -> is_ok (AllocateIndex e s).1 = false ->
    next_index s <= next_index (AllocateIndex e s).2 <= next_index s + 1 }.

(** Two's complement of an int64. *)
Definition int64 (n : Z) : Z := (n + 2 ^ 63) mod 2 ^ 64 - 2 ^ 63.

Lemma int64_small n : - 2 ^ 63 <= n < 2 ^ 63 -> int64 n = n.
Proof. intros H. unfold int64. rewrite Z.mod_small; lia. Qed.

(** [int(a.counter.Add(1) - 1)] *)
Module MemIndexAllocator.
Record t := { counter : Z }.
Definition AllocateIndex (s : t) : result Z * t :=
  let new := int64 (counter s + 1) in
  (Ok (int64 (new - 1)), {| counter := new |}).
End MemIndexAllocator.

#[export] Instance mem_allocator : IndexAllocator MemIndexAllocator.t :=
  {| AllocateIndex _ := MemIndexAllocator.AllocateIndex |}.

#[export] Instance mem_allocator_laws : IndexAllocatorLaws MemIndexAllocator.t.
Proof.
  refine {| next_index := MemIndexAllocator.counter |}; cbn; [done|done| |done].
  intros e [c] n Hc [= <-]; cbn in *.
  rewrite (int64_small (c + 1)) by lia. rewrite int64_small by lia. lia.
Defined.

(** The table [status_list_counter]; a BIGINT out of range is an error. *)
Module PgIndexAllocator.
Record t := { row_next_index : Z }.
Definition update_returning (s : t) : error + (Z * t) :=
  let n := row_next_index s + 1 in
  if (n <? 2 ^ 63) then inr (n - 1, {| row_next_index := n |}) else inl ErrDriver.
Definition AllocateIndex (e : env) (s : t) : result Z * t :=
  run (call update_returning) e s.
End PgIndexAllocator.

#[export] Instance pg_allocator : IndexAllocator PgIndexAllocator.t :=
  {| AllocateIndex := PgIndexAllocator.AllocateIndex |}.

#[export] Instance pg_allocator_laws : IndexAllocatorLaws PgIndexAllocator.t.
Proof.
  refine {| next_index := PgIndexAllocator.row_next_index |}; cbn;
    intros e [c]; cbn [PgIndexAllocator.row_next_index];
    unfold PgIndexAllocator.AllocateIndex, run, call, PgIndexAllocator.update_returning;
    cbn [start cn_calls cn_tx cn_db default PgIndexAllocator.row_next_index].
  - destruct (env_fault e 0); [|done|]; by destruct (_ <? _).
  - intros He Hc. rewrite He, (proj2 (Z.ltb_lt (c + 1) (2 ^ 63))) by lia. done.
  - intros n Hc. rewrite (proj2 (Z.ltb_lt (c + 1) (2 ^ 63))) by lia.
    destruct (env_fault e 0); cbn; [|done|done]. intros [= <-]. lia.
  - intros Hc. rewrite (proj2 (Z.ltb_lt (c + 1) (2 ^ 63))) by lia.
    destruct (env_fault e 0); cbn; [done|lia|lia].
Defined.

Section Allocations.
Context {S : Type} `{IndexAllocatorLaws S}.

(** The indices a run of allocations hands out. *)
Fixpoint allocate_all (envs : list env) (s : S) : list Z * S :=
  match envs with
  | [] => ([], s)
  | e :: envs =>
      let '(r, s) := AllocateIndex e s in
      let '(l, s) := allocate_all envs s in
      (match r with Ok n => n :: l | _ => l end, s)
  end.

Lemma allocate_bounds envs s :
  0 <= next_index s -> next_index s + Z.of_nat (length envs) <= 2 ^ 63 - 1 ->
  NoDup (allocate_all envs s).1 /\
  forall n, n ∈ (allocate_all envs s).1 ->
    next_index s <= n < next_index s + Z.of_nat (length envs).
Proof.
  revert s. induction envs as [|e envs IH]; intros s Hlo Hhi; cbn -[Z.of_nat].
  - split; [constructor|]. by intros n ?%elem_of_nil.
  - cbn [length] in Hhi. rewrite Nat2Z.inj_succ in *.
    pose proof (alloc_ok e s) as Hok. pose proof (alloc_failed e s) as Hno.
    destruct (AllocateIndex e s) as [r s1]. cbn [fst snd] in *.
    specialize (IH s1). destruct (allocate_all envs s1) as [l s2]. cbn [fst] in *.
    destruct (is_ok r) eqn:Er.
    + destruct r as [n| |]; try done. destruct (Hok n) as [-> Hn]; [lia|done|].
      rewrite Hn in IH. destruct IH as [Hnd Hb]; [lia|lia|]. split.
      * constructor; [|done]. intros Hin. apply Hb in Hin. lia.
      * intros m [->|Hm]%elem_of_cons; [lia|]. apply Hb in Hm. lia.
    + destruct Hno as [Ha Hb]; [lia|done|]. destruct IH as [Hnd Hb']; [lia|lia|].
      destruct r; try done; (split; [done|]); intros m Hm%Hb'; lia.
Qed.
End Allocations.

(** ** The bitstring *)

Definition StatusListSize : Z := 131072.

(** [bitstring[idx/8] |= 1 << uint(7-idx%8)] on a byte. *)
Definition set_bit (idx : Z) (bs : list Z) : list Z :=
  alter (fun b => Z.land (Z.lor b (Z.shiftl 1 (7 - idx mod 8))) 255) (Z.to_nat (idx / 8)) bs.

Definition set_revoked (bs : list Z) (idx : Z) : list Z :=
  if (idx <? 0) || (StatusListSize <=? idx) then bs else set_bit idx bs.

Definition bitstring (revokedIndices : list Z) : list Z :=
  fold_left set_revoked revokedIndices (replicate (Z.to_nat (StatusListSize / 8)) 0).

(** A verifier's reading: bit 0 is the most significant bit of byte 0. *)
Definition bit_at (bs : list Z) (i : Z) : bool :=
  match bs !! Z.to_nat (i / 8) with
  | Some b => Z.testbit b (7 - i mod 8)
  | None => false
  end.

Lemma byte_bit k n : 0 <= n < 8 -> 0 <= k < 8 ->
  Z.testbit (Z.land (Z.lor 0 (Z.shiftl 1 k)) 255) n = (n =? k).
Proof.
  intros Hn Hk. rewrite Z.land_spec, Z.lor_0_l, Z.shiftl_spec by lia.
  change 255 with (Z.ones 8). rewrite Z.ones_spec_low by lia. rewrite andb_true_r.
  destruct (Z.eqb_spec n k) as [->|Hne]; [by rewrite Z.sub_diag|].
  destruct (decide (n < k)); [by rewrite Z.testbit_neg_r by lia|].
  apply Z.bits_above_log2; [lia|]. cbn. lia.
Qed.

Lemma set_bit_spec idx bs i :
  0 <= idx -> 0 <= i -> (Z.to_nat (i / 8) < length bs)%nat ->
  bit_at (set_bit idx bs) i = bit_at bs i || (i =? idx).
Proof.
  intros Hidx Hi Hlen. unfold bit_at, set_bit.
  destruct (decide (idx / 8 = i / 8)) as [Heq|Hne].
  - rewrite Heq, list_lookup_alter_eq.
    destruct (lookup_lt_is_Some_2 bs (Z.to_nat (i / 8)) Hlen) as [b ->]. cbn.
    assert (0 <= i mod 8 < 8) by (apply Z.mod_pos_bound; lia).
    assert (0 <= idx mod 8 < 8) by (apply Z.mod_pos_bound; lia).
    rewrite Z.land_spec, Z.lor_spec. change 255 with (Z.ones 8).
    rewrite Z.ones_spec_low, andb_true_r by lia. f_equal.
    pose proof (byte_bit (7 - idx mod 8) (7 - i mod 8)) as Hb.
    rewrite Z.land_spec, Z.lor_0_l in Hb. change 255 with (Z.ones 8) in Hb.
    rewrite Z.ones_spec_low, andb_true_r in Hb by lia. rewrite Hb by lia.
    apply eq_true_iff_eq. rewrite !Z.eqb_eq. dlia.
  - rewrite list_lookup_alter_ne by dlia.
    assert ((i =? idx) = false) as -> by (apply Z.eqb_neq; congruence).
    by rewrite orb_false_r.
Qed.

Lemma set_revoked_length bs idx : length (set_revoked bs idx) = length bs.
Proof. unfold set_revoked. case_match; [done|]. apply length_alter. Qed.

Lemma set_revoked_spec bs idx i :
  length bs = Z.to_nat (StatusListSize / 8) -> 0 <= i < StatusListSize ->
  bit_at (set_revoked bs idx) i = bit_at bs i || (i =? idx).
Proof.
  intros Hlen Hi. unfold set_revoked.
  destruct ((idx <? 0) || (StatusListSize <=? idx)) eqn:E.
  - assert ((i =? idx) = false) as ->; [|by rewrite orb_false_r].
    apply Z.eqb_neq. intros ->. apply orb_true_iff in E as [E%Z.ltb_lt|E%Z.leb_le]; lia.
  - apply orb_false_iff in E as [E1%Z.ltb_ge E2%Z.leb_gt].
    apply set_bit_spec; [done|lia|]. rewrite Hlen. unfold StatusListSize in *. dlia.
Qed.

Lemma bitstring_loop l bs i :
  length bs = Z.to_nat (StatusListSize / 8) -> 0 <= i < StatusListSize ->
  bit_at (fold_left set_revoked l bs) i = bit_at bs i || existsb (Z.eqb i) l.
Proof.
  intros Hlen Hi. revert bs Hlen. induction l as [|x l IH]; intros bs Hlen; cbn [fold_left existsb].
  - by rewrite orb_false_r.
  - rewrite IH by by rewrite set_revoked_length.
    by rewrite set_revoked_spec, orb_assoc.
Qed.

Lemma bit_at_zeros n i : bit_at (replicate n 0) i = false.
Proof.
  unfold bit_at. destruct (replicate n 0 !! _) as [b|] eqn:E; [|done].
  apply lookup_replicate in E as [-> _]. apply Z.testbit_0_l.
Qed.

Lemma bitstring_length l : length (bitstring l) = Z.to_nat (StatusListSize / 8).
Proof.
  unfold bitstring. generalize (length_replicate (Z.to_nat (StatusListSize / 8)) 0).
  generalize (replicate (Z.to_nat (StatusListSize / 8)) 0).
  induction l as [|x l IH]; intros bs Hbs; cbn; [done|].
  apply IH. by rewrite set_revoked_length.
Qed.

Lemma bitstring_bit l i :
  0 <= i < StatusListSize -> bit_at (bitstring l) i = true <-> i ∈ l.
Proof.
  intros Hi. unfold bitstring. rewrite bitstring_loop, bit_at_zeros, orb_false_l.
  - rewrite existsb_exists. setoid_rewrite Z.eqb_eq. setoid_rewrite <-list_elem_of_In.
    naive_solver.
  - by rewrite length_replicate.
  - done.
Qed.

Lemma set_revoked_bytes bs idx : Forall is_byte bs -> Forall is_byte (set_revoked bs idx).
Proof.
  intros Hbs. unfold set_revoked, set_bit. case_match; [done|].
  apply Forall_alter; [done|]. intros b _ _. unfold is_byte.
  change 255 with (Z.ones 8). rewrite Z.land_ones by lia. apply Z.mod_pos_bound. lia.
Qed.

Lemma bitstring_bytes l : Forall is_byte (bitstring l).
Proof.
  unfold bitstring.
  assert (Forall is_byte (replicate (Z.to_nat (StatusListSize / 8)) 0)) as H
    by by apply Forall_replicate.
  revert H. generalize (replicate (Z.to_nat (StatusListSize / 8)) 0).
  induction l as [|x l IH]; intros bs Hbs; cbn; [done|]. by apply IH, set_revoked_bytes.
Qed.

(** ** The credential around it *)

Record statusListSubject := {
  statusListSubject_ID : string;
  statusListSubject_Type : string;
  statusListSubject_StatusPurpose : string;
  statusListSubject_EncodedList : string }.

Record statusListVC := {
  statusListVC_Context : list string;
  statusListVC_ID : string;
  statusListVC_Type : list string;
  statusListVC_Issuer : string;
  statusListVC_ValidFrom : string;
  statusListVC_CredentialSubject : statusListSubject }.

(** [jwt.RegisteredClaims] as far as it is set; a NumericDate is whole
    seconds. *)
Record RegisteredClaims := {
  Issuer : string; Subject : string; ID : string; IssuedAt : Z; ExpiresAt : Z }.

Record statusListVCClaims := {
  statusListVCClaims_Registered : RegisteredClaims;
  statusListVCClaims_VC : statusListVC }.

Definition NumericDate (t : instant) : Z := t / second.

Section Encoding.
(** [compress/gzip]: a writer in memory, which may report an error. *)
Context (gzip : list Z -> option (list Z)).

Definition BuildEncodedList (revokedIndices : list Z) : option string :=
  EncodeToString <$> gzip (bitstring revokedIndices).

Section Signing.
(** The header fields [typ] and [kid], the claims, and the signed text. *)
Context (sign : string -> string -> statusListVCClaims -> option string) (KeyID : string).

Definition status_list_claims (issuerURL encodedList : string) (now : instant) :
    statusListVCClaims :=
  let statusListURL := issuerURL +:+ "/v1/status-list/revocation" in
  {| statusListVCClaims_Registered :=
       {| Issuer := issuerURL; Subject := statusListURL; ID := statusListURL;
          IssuedAt := NumericDate now; ExpiresAt := NumericDate (add now (24 * hour)) |};
     statusListVCClaims_VC :=
       {| statusListVC_Context := ["https://www.w3.org/ns/credentials/v2"];
          statusListVC_ID := statusListURL;
          statusListVC_Type := ["VerifiableCredential"; "BitstringStatusListCredential"];
          statusListVC_Issuer := issuerURL;
          statusListVC_ValidFrom := format_rfc3339 now;
          statusListVC_CredentialSubject :=
            {| statusListSubject_ID := statusListURL +:+ "#list";
               statusListSubject_Type := "BitstringStatusList";
               statusListSubject_StatusPurpose := "revocation";
               statusListSubject_EncodedList := encodedList |} |} |}.

Definition BuildStatusListJWT (issuerURL : string) (revokedIndices : list Z)
    (now : instant) : option string :=
  encodedList ← BuildEncodedList revokedIndices;
  sign "vc+ld+jwt" KeyID (status_list_claims issuerURL encodedList now).
End Signing.
End Encoding.

(** ** Properties *)

(** C33: an allocator never hands out an index twice, whatever calls fail, as long as its
    counter fits an int64; for the in-memory and the PostgreSQL allocator. *)
Theorem allocated_indices_unique {S} `{IndexAllocatorLaws S} envs s :
  0 <= next_index s -> next_index s + Z.of_nat (length envs) <= 2 ^ 63 - 1 ->
  NoDup (allocate_all envs s).1.
Proof. intros Hlo Hhi. by destruct (allocate_bounds envs s Hlo Hhi). Qed.

(** [gunzip] undoes [gzip]. *)
Definition inflates (gzip gunzip : list Z -> option (list Z)) : Prop :=
  forall x y, Forall is_byte x -> gzip x = Some y -> Forall is_byte y /\ gunzip y = Some x.

(** The encoded list decodes to a bitstring of 131072 bits in which, by the W3C reading (most
    significant bit first), the bit of an index of the list is set exactly when the index was
    among the revoked ones. *)
Theorem published_list_reads_back gzip gunzip (l : list Z) (s : string) :
  inflates gzip gunzip -> BuildEncodedList gzip l = Some s ->
  exists bs, DecodeString s ≫= gunzip = Some bs /\
    length bs = Z.to_nat (StatusListSize / 8) /\
    forall i, 0 <= i < StatusListSize -> bit_at bs i = true <-> i ∈ l.
Proof.
  intros Hgz Hs. apply fmap_Some in Hs as (y & Hy & ->).
  destruct (Hgz _ _ (bitstring_bytes l) Hy) as [Hbytes Hun]. exists (bitstring l).
  rewrite decode_encode by done. cbn. split; [done|].
  split; [apply bitstring_length|]. intros i Hi. by apply bitstring_bit.
Qed.

(** Revoking an index beyond the list leaves the published list unchanged. *)
Theorem index_beyond_list_is_dropped gzip (l1 l2 : list Z) (idx : Z) :
  StatusListSize <= idx ->
  BuildEncodedList gzip (l1 ++ idx :: l2) = BuildEncodedList gzip (l1 ++ l2).
Proof.
  intros Hidx. unfold BuildEncodedList, bitstring. rewrite !fold_left_app. cbn [fold_left].
  unfold set_revoked at 2. by rewrite (proj2 (Z.leb_le StatusListSize idx)), orb_true_r.
Qed.
