(* ===== verification/VpSessions.v ===== *)
(** * Presentation sessions and requests: [internal/verification/vp.go]

    The store of a landlord's open presentation requests (in memory only), and
    the request itself, a constant Presentation Exchange query with the
    session's nonce in it. *)

From S2P Require Import Prelude Calendar Runtime.

Local Open Scope Z_scope.

Record VpSession := {
  VpSession_ID : string;
  VpSession_DepositID : string;
  VpSession_Nonce : string;
  VpSession_ResponseURI : string;
  VpSession_CreatedAt : instant;
  VpSession_ExpiresAt : instant }.

(** ** The store: sessions are not changed once created *)

Module VpStore.
Abbreviation Store := (gmap string VpSession) (only parsing).

Definition NewStore : Store := ∅.

Definition new_session (e : env) (depositID responseURI : string) : VpSession :=
  {| VpSession_ID := env_uuid e 0; VpSession_DepositID := depositID;
     VpSession_Nonce := env_uuid e 1; VpSession_ResponseURI := responseURI;
     VpSession_CreatedAt := env_now e 0;
     VpSession_ExpiresAt := add (env_now e 1) (10 * minute) |}.

Definition Create (e : env) (depositID responseURI : string) (s : Store) : VpSession * Store :=
  let sess := new_session e depositID responseURI in
  (sess, <[VpSession_ID sess := sess]> s).

Definition GetByID (id : string) (s : Store) : option VpSession := s !! id.

Definition Delete (id : string) (s : Store) : Store := delete id s.
End VpStore.

(** ** Presentation Exchange *)

Record FieldFilter := { FieldFilter_Type : string; FieldFilter_Const : string }.

Record Field := {
  Field_Path : list string;
  Field_Filter : option FieldFilter;
  Field_Optional : bool }.

Record Constraints := {
  Constraints_Fields : list Field;
  Constraints_LimitDisclosure : string }.

Record InputDescriptor := {
  InputDescriptor_ID : string;
  InputDescriptor_Format : gmap string (list string);   (* the algorithms of a format *)
  InputDescriptor_Constraints : Constraints }.

Record PresentationDefinition := {
  PresentationDefinition_ID : string;
  PresentationDefinition_InputDescriptors : list InputDescriptor }.

Record VpRequest := {
  VpRequest_ClientID : string;
  VpRequest_ResponseType : string;
  VpRequest_ResponseMode : string;
  VpRequest_ResponseURI : string;
  VpRequest_Nonce : string;
  VpRequest_State : string;
  VpRequest_PresentationDefinition : PresentationDefinition }.

Definition field (path : string) : Field :=
  {| Field_Path := [path]; Field_Filter := None; Field_Optional := false |}.

Definition BuildVpRequest (clientID responseURI nonce state : string) : VpRequest :=
  {| VpRequest_ClientID := clientID; VpRequest_ResponseType := "vp_token";
     VpRequest_ResponseMode := "direct_post"; VpRequest_ResponseURI := responseURI;
     VpRequest_Nonce := nonce; VpRequest_State := state;
     VpRequest_PresentationDefinition :=
       {| PresentationDefinition_ID := "deposit-pledge-attestation-pd";
          PresentationDefinition_InputDescriptors :=
            [{| InputDescriptor_ID := "deposit-pledge-attestation";
                InputDescriptor_Format := {["vc+sd-jwt" := ["ES256"]]};
                InputDescriptor_Constraints :=
                  {| Constraints_Fields :=
                       [{| Field_Path := ["$.vct"];
                           Field_Filter := Some {| FieldFilter_Type := "string";
                             FieldFilter_Const := "DepositPledgeAttestation" |};
                           Field_Optional := false |};
                        field "$.deposit_id"; field "$.pledge_date"; field "$.statutory_basis";
                        field "$.issuing_bank"; field "$.deposit_amount";
                        {| Field_Path := ["$.pledged_until"]; Field_Filter := None;
                           Field_Optional := true |}];
                     Constraints_LimitDisclosure := "required" |} |}] |} |}.
