(* ===== verification/Server.v ===== *)
(** * Handlers as programs

    An HTTP handler is a program over the events the server can cause: calls
    into the stores, readings of the clock, background tasks.  [exec] gives an
    event its effect on the [world]; [run] executes one handler from start to
    end; [step] executes one event of one of several handlers in flight, so
    that requests interleave at every call into a store. *)

From S2P Require Import Prelude Float64 Calendar Models Runtime Repository Sessions StatusList.
From S2P Require Import VpSessions.

Local Open Scope Z_scope.

(** What a goroutine started by a handler will do: post a webhook, or generate
    a PDF and mail it. *)
Inductive task :=
| PostWebhook (event : WebhookEvent)
| MailReceipt (d : Deposit)
| MailReleaseReceipt (d : Deposit).

Inductive event : Type -> Type :=
| Now : event instant
| RepoCreate (d : Deposit) : event (result Deposit)
| RepoGetByID (id : string) : event (result Deposit)
| RepoUpdateState (id : string) (ns : LifecycleState) (en : HistoryEntry) (p : patch_fn) :
    event (result Deposit)
| SessCreate (depositID validUntil : string) (ix : Z) : event (result Session)
| SessGetByID (id : string) : event (option Session)
| SessGetByToken (token : string) : event (option Session)
| SessExchange (code : string) : event (option (string * string))
| SessConsume (token credentialID : string) : event (option Session)
| SessRevoke (depositID : string) : event unit
| SessStatus (credID : string) : event (string * bool)
| SessRevokedIndices : event (result (list Z))
| Allocate : event (result Z)
| NewUUID : event string
| RandRead : event (option (list Z))
| Spawn (t : task) : event unit
| VpCreate (depositID responseURI : string) : event VpSession
| VpGetByID (id : string) : event (option VpSession)
| VpDelete (id : string) : event unit.

Inductive prog (R : Type) :=
| Ret (r : R)
| Crash                                  (* a panic: the request dies *)
| Vis {X : Type} (e : event X) (k : X -> prog R).
Arguments Ret {R}. Arguments Crash {R}. Arguments Vis {R X}.

#[export] Instance prog_ret : MRet prog := fun R r => Ret r.
Fixpoint prog_bind_ {A B} (k : A -> prog B) (p : prog A) : prog B :=
  match p with
  | Ret a => k a
  | Crash => Crash
  | Vis e h => Vis e (fun x => prog_bind_ k (h x))
  end.
#[export] Instance prog_bind : MBind prog := fun A B k p => prog_bind_ k p.

Definition emit {X} (e : event X) : prog X := Vis e Ret.

(** A call that returns a value and an error; a panic in it kills the
    handler. *)
Definition try {A} (e : event (result A)) : prog (A + error) :=
  Vis e (fun r => match r with Ok a => Ret (inl a) | Err x => Ret (inr x) | Panic => Crash end).

Section World.
Context {RS SS AS : Type} `{Repository RS} `{SessionStore SS} `{IndexAllocator AS}.

Record world := {
  w_repo : RS;
  w_sessions : SS;
  w_alloc : AS;
  w_vp : VpStore.Store;
  w_outbox : list task }.

Definition set_repo (r : RS) (w : world) : world :=
  {| w_repo := r; w_sessions := w_sessions w; w_alloc := w_alloc w; w_vp := w_vp w;
     w_outbox := w_outbox w |}.
Definition set_sessions (s : SS) (w : world) : world :=
  {| w_repo := w_repo w; w_sessions := s; w_alloc := w_alloc w; w_vp := w_vp w;
     w_outbox := w_outbox w |}.
Definition set_alloc (a : AS) (w : world) : world :=
  {| w_repo := w_repo w; w_sessions := w_sessions w; w_alloc := a; w_vp := w_vp w;
     w_outbox := w_outbox w |}.
Definition set_vp (v : VpStore.Store) (w : world) : world :=
  {| w_repo := w_repo w; w_sessions := w_sessions w; w_alloc := w_alloc w; w_vp := v;
     w_outbox := w_outbox w |}.
Definition spawn (t : task) (w : world) : world :=
  {| w_repo := w_repo w; w_sessions := w_sessions w; w_alloc := w_alloc w; w_vp := w_vp w;
     w_outbox := w_outbox w ++ [t] |}.

Definition in_repo {A} (p : A * RS) (w : world) : A * world := (p.1, set_repo p.2 w).
Definition in_sessions {A} (p : A * SS) (w : world) : A * world := (p.1, set_sessions p.2 w).

Definition exec {X} (ev : event X) (e : env) (w : world) : X * world :=
  match ev in event X return X * world with
  | Now => (env_now e 0, w)
  | RepoCreate d => in_repo (repo_Create e d (w_repo w)) w
  | RepoGetByID id => in_repo (repo_GetByID e id (w_repo w)) w
  | RepoUpdateState id ns en p => in_repo (repo_UpdateState e id ns en p (w_repo w)) w
  | SessCreate d v ix => in_sessions (ss_Create e d v ix (w_sessions w)) w
  | SessGetByID id => (ss_GetByID e id (w_sessions w), w)
  | SessGetByToken token => (ss_GetByToken e token (w_sessions w), w)
  | SessExchange code => in_sessions (ss_ExchangeCodeForToken e code (w_sessions w)) w
  | SessConsume token cid => in_sessions (ss_ConsumeByToken e token cid (w_sessions w)) w
  | SessRevoke d => (tt, set_sessions (ss_RevokeByDepositID e d (w_sessions w)) w)
  | SessStatus cid => (ss_CredentialStatus e cid (w_sessions w), w)
  | SessRevokedIndices => (ss_RevokedStatusListIndices e (w_sessions w), w)
  | Allocate => let '(r, a) := AllocateIndex e (w_alloc w) in (r, set_alloc a w)
  | NewUUID => (env_uuid e 0, w)
  | RandRead => (env_rand e 0, w)
  | Spawn t => (tt, spawn t w)
  | VpCreate d uri => let '(x, v) := VpStore.Create e d uri (w_vp w) in (x, set_vp v w)
  | VpGetByID id => (VpStore.GetByID id (w_vp w), w)
  | VpDelete id => (tt, set_vp (VpStore.Delete id (w_vp w)) w)
  end.

(** One handler alone; [None] is a panic.  Each event has its own
    environment. *)
Fixpoint run {R} (p : prog R) (envs : nat -> env) (w : world) : option R * world :=
  match p with
  | Ret r => (Some r, w)
  | Crash => (None, w)
  | Vis ev k =>
      let '(x, w) := exec ev (envs 0%nat) w in
      run (k x) (fun n => envs (S n)) w
  end.

(** Handlers in flight: the scheduler lets the [i]-th do its next event. *)
Definition step_prog {R} (p : prog R) (e : env) (w : world) : prog R * world :=
  match p with
  | Vis ev k => let '(x, w) := exec ev e w in (k x, w)
  | p => (p, w)
  end.

Definition step {R} (i : nat) (e : env) (c : list (prog R) * world) : list (prog R) * world :=
  match c.1 !! i with
  | Some p => let '(p, w) := step_prog p e c.2 in (<[i := p]> c.1, w)
  | None => c
  end.

Fixpoint steps {R} (sched : list (nat * env)) (c : list (prog R) * world) :
    list (prog R) * world :=
  match sched with
  | [] => c
  | (i, e) :: sched => steps sched (step i e c)
  end.
End World.
Arguments world : clear implicits.

(** A program that only looks at the clock. *)
Fixpoint only_now {R} (p : prog R) : Prop :=
  match p with
  | Ret _ => True
  | Crash => False
  | Vis ev k =>
      match ev in event X return (X -> prog R) -> Prop with
      | Now => fun k => forall t, only_now (k t)
      | _ => fun _ => False
      end k
  end.

Lemma only_now_bind {A B} (p : prog A) (k : A -> prog B) :
  only_now p -> (forall a, only_now (k a)) -> only_now (p ≫= k).
Proof.
  intros Hp Hk. induction p as [a| |X ev h IH]; [apply Hk|done|].
  destruct ev; try done. intros t. apply IH, Hp.
Qed.
