(* ===== verification/Receipt.v ===== *)
(** * Receipts: [internal/receipt/pdf.go]

    The two documents as sequences of calls into the PDF library, whose
    operations are a parameter.  What a document says is independent of its
    layout: the texts of its cells, from top to bottom. *)

From S2P Require Import Prelude Float64 Calendar Fmt Models Runtime Repository Sessions StatusList.
From S2P Require Import Server.

Local Open Scope Z_scope.

Module Receipt.

(** ** The PDF library *)

(** The operations of [fpdf.Fpdf] that are used, with the arguments that vary;
    cells are never filled and have no link. *)
Record fpdf := {
  doc : Type;
  New : doc;                                   (* fpdf.New("P", "mm", "A4", "") *)
  SetMargins : float64 -> float64 -> float64 -> doc -> doc;
  AddPage : doc -> doc;
  GetPageSize : doc -> float64 * float64;
  SetFont : string -> string -> float64 -> doc -> doc;
  CellFormat : float64 -> float64 -> string -> string -> Z -> string -> doc -> doc;
  Ln : float64 -> doc -> doc;
  SetDrawColor : Z -> Z -> Z -> doc -> doc;
  SetTextColor : Z -> Z -> Z -> doc -> doc;
  Line : float64 -> float64 -> float64 -> float64 -> doc -> doc;
  GetY : doc -> float64;
  SetXY : float64 -> float64 -> doc -> doc;
  MultiCell : float64 -> float64 -> string -> string -> string -> doc -> doc;
  Output : doc -> option string }.
Arguments New {_}. Arguments SetMargins {_}. Arguments AddPage {_}.
Arguments GetPageSize {_}. Arguments SetFont {_}. Arguments CellFormat {_}. Arguments Ln {_}.
Arguments SetDrawColor {_}. Arguments SetTextColor {_}. Arguments Line {_}. Arguments GetY {_}.
Arguments SetXY {_}. Arguments MultiCell {_}. Arguments Output {_}.

#[local] Notation "f ▷ g" := (g f) (at level 50, left associativity, only parsing).

Definition mm (n : Z) : float64 := f64_of_Z n.

Definition formatDepositType (t : DepositType) : string :=
  if String.eqb t DepositTypeCash then "Cash Equivalent (Barkaution)"
  else if String.eqb t DepositTypeBankGuarantee then "Bank Guarantee (Bankbürgschaft)"
  else if String.eqb t DepositTypeInsurance then "Insurance (Kautionsversicherung)"
  else t.

(** [max] of the package. *)
Definition max_ (a b : float64) : float64 := if f64_lt b a then a else b.

(** [t.Format("2006-01-02 15:04:05")]. *)
Definition format_time (t : instant) : string :=
  let s := t mod day / second in
  format_day t +:+ " " +:+ pad2 (s / 3600) (":" +:+ pad2 (s / 60 mod 60) (":" +:+ pad2 (s mod 60) "")).

Definition money (x : float64) (currency : string) : string := fmt_f2 x +:+ " " +:+ currency.

Section Drawing.
Context (p : fpdf).
Implicit Types f : doc p.

Definition cell (w h : float64) (txt : string) (ln : Z) (align : string) f : doc p :=
  CellFormat w h txt "" ln align f.

Definition divider (pageW : float64) f : doc p :=
  Line (mm 20) (GetY f) (f64_sub pageW (mm 20)) (GetY f) f.

(** A new document with its title. *)
Definition header (title subtitle : string) : doc p :=
  let f := New ▷ SetMargins (mm 20) (mm 20) (mm 20) ▷ AddPage in
  let contentW := f64_sub (GetPageSize f).1 (mm 40) in
  f ▷ SetFont "Helvetica" "B" (mm 18) ▷ cell contentW (mm 10) title 1 "C"
    ▷ SetFont "Helvetica" "" (mm 10) ▷ cell contentW (mm 6) subtitle 1 "C" ▷ Ln (mm 6)
    ▷ SetDrawColor 180 180 180.

Definition reference (contentW : float64) (left_ right_ : string) f : doc p :=
  f ▷ SetFont "Helvetica" "" (mm 9) ▷ SetTextColor 100 100 100
    ▷ cell (f64_div contentW (mm 2)) (mm 5) left_ 0 "L" ▷ cell (f64_div contentW (mm 2)) (mm 5) right_ 1 "R"
    ▷ SetTextColor 0 0 0 ▷ Ln (mm 6).

(** Tenant and property side by side, the landlord below. *)
Definition parties (pageW contentW : float64) (d : Deposit) f : doc p :=
  let colW := f64_div contentW (mm 2) in
  let t := Deposit_Tenant d in
  let a := Property_Address (Deposit_Property d) in
  let startY := GetY f in
  let f := f ▷ SetFont "Helvetica" "B" (mm 10) ▷ cell colW (mm 6) "TENANT" 1 "L"
             ▷ SetFont "Helvetica" "" (mm 10)
             ▷ cell colW (mm 5) (Tenant_FirstName t +:+ " " +:+ Tenant_LastName t) 1 "L"
             ▷ cell colW (mm 5) (Tenant_Email t) 1 "L" in
  let f := match Tenant_Address t with
           | Some b => f ▷ cell colW (mm 5) (Address_Street b) 1 "L"
                         ▷ cell colW (mm 5) (Address_ZIP b +:+ " " +:+ Address_City b) 1 "L"
           | None => f
           end in
  let tenantEndY := GetY f in
  let f := f ▷ SetXY (f64_div pageW (mm 2)) startY
             ▷ SetFont "Helvetica" "B" (mm 10) ▷ cell colW (mm 6) "PROPERTY" 1 "L"
             ▷ SetFont "Helvetica" "" (mm 10)
             ▷ cell colW (mm 5) (Address_Street a) 1 "L"
             ▷ cell colW (mm 5) (Address_ZIP a +:+ " " +:+ Address_City a) 1 "L" in
  let unit_ := Property_UnitID (Deposit_Property d) in
  let f := if negb (String.eqb unit_ "") then f ▷ cell colW (mm 5) ("Unit: " +:+ unit_) 1 "L" else f in
  f ▷ SetXY (mm 20) (max_ tenantEndY (GetY f)) ▷ Ln (mm 4)
    ▷ SetFont "Helvetica" "B" (mm 10) ▷ cell contentW (mm 6) "LANDLORD" 1 "L"
    ▷ SetFont "Helvetica" "" (mm 10)
    ▷ cell contentW (mm 5) (Landlord_Name (Deposit_Landlord d)) 1 "L" ▷ Ln (mm 6).

Definition section (contentW : float64) (title : string) f : doc p :=
  f ▷ SetFont "Helvetica" "B" (mm 10) ▷ cell contentW (mm 6) title 1 "L" ▷ SetFont "Helvetica" "" (mm 10).

Definition row (contentW : float64) (label value : string) f : doc p :=
  f ▷ cell (mm 60) (mm 5) label 0 "L" ▷ cell (f64_sub contentW (mm 60)) (mm 5) value 1 "L".

Definition footer (pageW contentW : float64) (notice : string) (generated : instant) f : doc p :=
  let f := f ▷ Ln (mm 10) in
  f ▷ divider pageW ▷ Ln (mm 4)
    ▷ SetFont "Helvetica" "I" (mm 8) ▷ SetTextColor 120 120 120
    ▷ MultiCell contentW (mm 4) notice "" "L" ▷ Ln (mm 2)
    ▷ cell contentW (mm 4) ("Generated " +:+ format_time generated +:+ " UTC") 1 "R".

(** ** The receipt of a pledge *)

Definition deposit_rows (contentW : float64) (d : Deposit) f : doc p :=
  let dd := Deposit_Deposit d in
  f ▷ row contentW "Amount:" (money (DepositData_Amount dd) (DepositData_Currency dd))
    ▷ row contentW "Type:" (formatDepositType (DepositData_Type dd)).

Definition pledge_rows (contentW : float64) (d : Deposit) f : doc p :=
  match Deposit_Pledge d with
  | None => f
  | Some pl =>
      f ▷ row contentW "Pledge Date:" (Pledge_PledgeDate pl)
        ▷ row contentW "Statutory Basis:" (Pledge_StatutoryBasis pl)
        ▷ row contentW "Confirmed by Bank:" (if Pledge_IsConfirmedByBank pl then "Yes" else "No")
  end.

Definition row_if (b : bool) (contentW : float64) (label value : string) f : doc p :=
  if b then f ▷ row contentW label value else f.

Definition protection (x : Trusteeship) : string :=
  let date := Trusteeship_InsolvencyProtectionConfirmedDate x in
  "Confirmed" +:+ (if String.eqb date "" then "" else " " +:+ date).

Definition trust_rows (contentW : float64) (d : Deposit) f : doc p :=
  match Deposit_Trusteeship d with
  | None => f
  | Some x =>
      f ▷ Ln (mm 4) ▷ section contentW "TRUST ACCOUNT (BGB § 551 Abs. 3)"
        ▷ row_if (negb (String.eqb (Trusteeship_TrusteeEntity x) "")) contentW "Trustee:"
            (Trusteeship_TrusteeEntity x)
        ▷ row_if (negb (String.eqb (Trusteeship_TrustAccountIBAN x) "")) contentW "Trust IBAN:"
            (Trusteeship_TrustAccountIBAN x)
        ▷ row_if (Trusteeship_InsolvencyProtectionConfirmed x) contentW "Insolvency Protection:"
            (protection x)
        ▷ row_if (f64_lt f64_zero (Trusteeship_AccruedInterest x)) contentW "Accrued Interest:"
            (money (Trusteeship_AccruedInterest x) (DepositData_Currency (Deposit_Deposit d)))
  end.

Definition receipt_notice : string :=
  "This receipt was generated automatically by XMiete. " +:+
  "Where the tenant holds a compatible EUDI Wallet, a Qualified Electronic Attestation of Attributes (QEAA) " +:+
  "has been or will be issued as the tamper-evident digital credential for this deposit.".

Definition draw_receipt (issued generated : instant) (d : Deposit) : doc p :=
  let f := header "Rental Deposit Receipt" "Kautionsquittung gemäß BGB § 551" in
  let pageW := (GetPageSize f).1 in
  let contentW := f64_sub pageW (mm 40) in
  let f := f ▷ divider pageW ▷ Ln (mm 6)
             ▷ reference contentW ("Deposit ID: " +:+ Deposit_ID d) ("Issued: " +:+ format_day issued)
             ▷ parties pageW contentW d in
  f ▷ divider pageW ▷ Ln (mm 6) ▷ section contentW "DEPOSIT DETAILS"
    ▷ deposit_rows contentW d ▷ pledge_rows contentW d ▷ trust_rows contentW d
    ▷ footer pageW contentW receipt_notice generated.

Definition Generate (d : Deposit) : prog (option string) :=
  issued ← emit Now;
  generated ← emit Now;
  mret (Output (draw_receipt issued generated d)).

(** ** The confirmation of a release *)

Definition released_entry (h : HistoryEntry) : bool :=
  String.eqb (HistoryEntry_State h) StateReleased.

Definition releasedAt (d : Deposit) : prog string :=
  match List.find released_entry (history d) with
  | Some h => mret (format_day (HistoryEntry_Timestamp h))
  | None => now ← emit Now; mret (format_day now)
  end.

(** The trust account's balance, if it has one, else the deposit's amount. *)
Definition returned (d : Deposit) : float64 :=
  match Deposit_Trusteeship d with
  | Some x =>
      if f64_lt f64_zero (Trusteeship_TotalBalance x) then Trusteeship_TotalBalance x
      else DepositData_Amount (Deposit_Deposit d)
  | None => DepositData_Amount (Deposit_Deposit d)
  end.

Definition interest_rows (contentW : float64) (d : Deposit) f : doc p :=
  let dd := Deposit_Deposit d in
  match Deposit_Trusteeship d with
  | Some x =>
      if f64_lt f64_zero (Trusteeship_TotalBalance x) &&
         f64_lt f64_zero (Trusteeship_AccruedInterest x)
      then f ▷ row contentW "Principal:" (money (DepositData_Amount dd) (DepositData_Currency dd))
             ▷ row contentW "Accrued Interest:"
                 (money (Trusteeship_AccruedInterest x) (DepositData_Currency dd))
      else f
  | None => f
  end.

Definition pledge_date_row (contentW : float64) (d : Deposit) f : doc p :=
  match Deposit_Pledge d with
  | Some pl => row_if (negb (String.eqb (Pledge_PledgeDate pl) "")) contentW "Pledge Date:"
                 (Pledge_PledgeDate pl) f
  | None => f
  end.

Definition release_notice : string :=
  "This release confirmation was generated automatically by XMiete. " +:+
  "It confirms that the rental deposit has been released by the landlord and the funds are to be returned to the tenant.".

Definition draw_release (releaseDate : string) (generated : instant) (d : Deposit) : doc p :=
  let f := header "Deposit Release Confirmation" "Kautionsfreigabe gemäß BGB § 551" in
  let pageW := (GetPageSize f).1 in
  let contentW := f64_sub pageW (mm 40) in
  let f := f ▷ divider pageW ▷ Ln (mm 6)
             ▷ reference contentW ("Deposit ID: " +:+ Deposit_ID d) ("Released: " +:+ releaseDate)
             ▷ parties pageW contentW d in
  f ▷ divider pageW ▷ Ln (mm 6) ▷ section contentW "ORIGINAL DEPOSIT"
    ▷ deposit_rows contentW d ▷ pledge_date_row contentW d
    ▷ Ln (mm 4) ▷ section contentW "RELEASE DETAILS"
    ▷ row contentW "Release Date:" releaseDate ▷ row contentW "Released By:" "Landlord"
    ▷ interest_rows contentW d
    ▷ row contentW "Total Returned:"
        (money (returned d) (DepositData_Currency (Deposit_Deposit d)))
    ▷ footer pageW contentW release_notice generated.

Definition GenerateReleaseReceipt (d : Deposit) : prog (option string) :=
  releaseDate ← releasedAt d;
  generated ← emit Now;
  mret (Output (draw_release releaseDate generated d)).

Lemma only_now_Generate d : only_now (Generate d).
Proof. done. Qed.

Lemma only_now_GenerateReleaseReceipt d : only_now (GenerateReleaseReceipt d).
Proof. unfold GenerateReleaseReceipt, releasedAt. by destruct (List.find _ _). Qed.
End Drawing.

(** ** What the documents say *)

(** A library whose documents hold the texts of their cells in order. *)
Class PdfTexts (p : fpdf) := {
  texts : doc p -> list string;
  texts_New : texts New = [];
  texts_SetMargins a b c f : texts (SetMargins a b c f) = texts f;
  texts_AddPage f : texts (AddPage f) = texts f;
  texts_SetFont a b c f : texts (SetFont a b c f) = texts f;
  texts_CellFormat w h txt b ln al f : texts (CellFormat w h txt b ln al f) = texts f ++ [txt];
  texts_Ln h f : texts (Ln h f) = texts f;
  texts_SetDrawColor a b c f : texts (SetDrawColor a b c f) = texts f;
  texts_SetTextColor a b c f : texts (SetTextColor a b c f) = texts f;
  texts_Line a b c e f : texts (Line a b c e f) = texts f;
  texts_SetXY x y f : texts (SetXY x y f) = texts f;
  texts_MultiCell w h txt b al f : texts (MultiCell w h txt b al f) = texts f ++ [txt] }.

Create Rewrite HintDb pdf.
#[export] Hint Rewrite @texts_New @texts_SetMargins @texts_AddPage @texts_SetFont
  @texts_CellFormat @texts_Ln @texts_SetDrawColor @texts_SetTextColor @texts_Line @texts_SetXY
  @texts_MultiCell : pdf.

Definition parties_text (d : Deposit) : list string :=
  let t := Deposit_Tenant d in
  let a := Property_Address (Deposit_Property d) in
  let unit_ := Property_UnitID (Deposit_Property d) in
  ["TENANT"; Tenant_FirstName t +:+ " " +:+ Tenant_LastName t; Tenant_Email t] ++
  match Tenant_Address t with
  | Some b => [Address_Street b; Address_ZIP b +:+ " " +:+ Address_City b]
  | None => []
  end ++
  ["PROPERTY"; Address_Street a; Address_ZIP a +:+ " " +:+ Address_City a] ++
  (if String.eqb unit_ "" then [] else ["Unit: " +:+ unit_]) ++
  ["LANDLORD"; Landlord_Name (Deposit_Landlord d)].

(** The rows after the amount and the type, with their labels. *)
Definition if_set (label value : string) : list string :=
  if String.eqb value "" then [] else [label; value].

Definition pledge_text (d : Deposit) : list string :=
  match Deposit_Pledge d with
  | None => []
  | Some pl => ["Pledge Date:"; Pledge_PledgeDate pl; "Statutory Basis:";
                Pledge_StatutoryBasis pl; "Confirmed by Bank:";
                if Pledge_IsConfirmedByBank pl then "Yes" else "No"]
  end.

Definition trust_text (d : Deposit) : list string :=
  match Deposit_Trusteeship d with
  | None => []
  | Some x =>
      ["TRUST ACCOUNT (BGB § 551 Abs. 3)"] ++ if_set "Trustee:" (Trusteeship_TrusteeEntity x) ++
      if_set "Trust IBAN:" (Trusteeship_TrustAccountIBAN x) ++
      (if Trusteeship_InsolvencyProtectionConfirmed x
       then ["Insolvency Protection:"; protection x] else []) ++
      (if f64_lt f64_zero (Trusteeship_AccruedInterest x)
       then ["Accrued Interest:";
             money (Trusteeship_AccruedInterest x) (DepositData_Currency (Deposit_Deposit d))]
       else [])
  end.

Definition amount_text (d : Deposit) : list string :=
  let dd := Deposit_Deposit d in
  ["Amount:"; money (DepositData_Amount dd) (DepositData_Currency dd);
   "Type:"; formatDepositType (DepositData_Type dd)].

Definition receipt_text (issued generated : instant) (d : Deposit) : list string :=
  ["Rental Deposit Receipt"; "Kautionsquittung gemäß BGB § 551";
   "Deposit ID: " +:+ Deposit_ID d; "Issued: " +:+ format_day issued] ++ parties_text d ++
  ["DEPOSIT DETAILS"] ++ amount_text d ++ pledge_text d ++ trust_text d ++
  [receipt_notice; "Generated " +:+ format_time generated +:+ " UTC"].

Definition interest_text (d : Deposit) : list string :=
  let dd := Deposit_Deposit d in
  match Deposit_Trusteeship d with
  | Some x =>
      if f64_lt f64_zero (Trusteeship_TotalBalance x) &&
         f64_lt f64_zero (Trusteeship_AccruedInterest x)
      then ["Principal:"; money (DepositData_Amount dd) (DepositData_Currency dd);
            "Accrued Interest:"; money (Trusteeship_AccruedInterest x) (DepositData_Currency dd)]
      else []
  | None => []
  end.

Definition release_text (releaseDate : string) (generated : instant) (d : Deposit) : list string :=
  ["Deposit Release Confirmation"; "Kautionsfreigabe gemäß BGB § 551";
   "Deposit ID: " +:+ Deposit_ID d; "Released: " +:+ releaseDate] ++ parties_text d ++
  ["ORIGINAL DEPOSIT"] ++ amount_text d ++
  match Deposit_Pledge d with
  | Some pl => if_set "Pledge Date:" (Pledge_PledgeDate pl)
  | None => []
  end ++
  ["RELEASE DETAILS"; "Release Date:"; releaseDate; "Released By:"; "Landlord"] ++
  interest_text d ++
  ["Total Returned:"; money (returned d) (DepositData_Currency (Deposit_Deposit d));
   release_notice; "Generated " +:+ format_time generated +:+ " UTC"].

Section Texts.
Context `{PdfTexts p}.

Lemma texts_row w label value f : texts (row p w label value f) = texts f ++ [label; value].
Proof. unfold row, cell. autorewrite with pdf. by rewrite <-app_assoc. Qed.

Lemma texts_section w title f : texts (section p w title f) = texts f ++ [title].
Proof. unfold section, cell. by autorewrite with pdf. Qed.

Lemma texts_divider w f : texts (divider p w f) = texts f.
Proof. unfold divider. by autorewrite with pdf. Qed.

Lemma texts_reference w a b f : texts (reference p w a b f) = texts f ++ [a; b].
Proof. unfold reference, cell. autorewrite with pdf. by rewrite <-app_assoc. Qed.

Lemma texts_header a b : texts (header p a b) = [a; b].
Proof. unfold header, cell. by autorewrite with pdf. Qed.

Lemma texts_footer w v notice t f :
  texts (footer p w v notice t f) = texts f ++ [notice; "Generated " +:+ format_time t +:+ " UTC"].
Proof. unfold footer, cell. autorewrite with pdf. rewrite texts_divider. autorewrite with pdf.
  by rewrite <-app_assoc. Qed.

Lemma texts_row_if b w label value f :
  texts (row_if p b w label value f) = texts f ++ (if b then [label; value] else []).
Proof. unfold row_if. destruct b; [apply texts_row|by rewrite app_nil_r]. Qed.

Lemma texts_row_set w label value f :
  texts (row_if p (negb (String.eqb value "")) w label value f) = texts f ++ if_set label value.
Proof. rewrite texts_row_if. unfold if_set. by destruct (String.eqb value ""). Qed.

Lemma texts_parties w v d f : texts (parties p w v d f) = texts f ++ parties_text d.
Proof.
  unfold parties, parties_text, cell. autorewrite with pdf.
  destruct (Tenant_Address _), (String.eqb _ _); cbn [negb]; autorewrite with pdf;
    by rewrite <-?app_assoc.
Qed.

#[local] Hint Rewrite texts_row texts_section texts_divider texts_reference texts_header
  texts_footer texts_row_set texts_parties : pdf.

Lemma texts_deposit_rows w d f : texts (deposit_rows p w d f) = texts f ++ amount_text d.
Proof. unfold deposit_rows. autorewrite with pdf. by rewrite <-app_assoc. Qed.

Lemma texts_pledge_rows w d f : texts (pledge_rows p w d f) = texts f ++ pledge_text d.
Proof.
  unfold pledge_rows, pledge_text. destruct (Deposit_Pledge d); autorewrite with pdf;
    by rewrite <-?app_assoc, ?app_nil_r.
Qed.

Lemma texts_trust_rows w d f : texts (trust_rows p w d f) = texts f ++ trust_text d.
Proof.
  unfold trust_rows, trust_text. destruct (Deposit_Trusteeship d); [|by rewrite app_nil_r].
  rewrite (texts_row_if (f64_lt _ _)), (texts_row_if (Trusteeship_InsolvencyProtectionConfirmed _)).
  autorewrite with pdf. by rewrite <-!app_assoc.
Qed.

Lemma texts_interest_rows w d f : texts (interest_rows p w d f) = texts f ++ interest_text d.
Proof.
  unfold interest_rows, interest_text. destruct (Deposit_Trusteeship d); [|by rewrite app_nil_r].
  destruct (_ && _); autorewrite with pdf; by rewrite <-?app_assoc, ?app_nil_r.
Qed.

(** The receipt says what [receipt_text] lists, whatever the layout. *)
Lemma receipt_says t1 t2 d : texts (draw_receipt p t1 t2 d) = receipt_text t1 t2 d.
Proof.
  unfold draw_receipt, receipt_text. autorewrite with pdf.
  rewrite texts_trust_rows, texts_pledge_rows, texts_deposit_rows. autorewrite with pdf.
  by rewrite <-!app_assoc.
Qed.

Lemma release_says date t d : texts (draw_release p date t d) = release_text date t d.
Proof.
  unfold draw_release, release_text. autorewrite with pdf.
  rewrite texts_interest_rows. autorewrite with pdf. unfold pledge_date_row.
  destruct (Deposit_Pledge d); autorewrite with pdf; rewrite ?texts_row_set, texts_deposit_rows;
    autorewrite with pdf; by rewrite <-!app_assoc.
Qed.
End Texts.
End Receipt.
