(* ===== verification/Mail.v ===== *)
(** * Mail: [internal/mailer/mailer.go] and [smtp.go]

    The messages a deposit's receipts travel in, and what the background tasks
    of [api/handlers.go] do.  Delivery by SMTP is a parameter. *)

From S2P Require Import Prelude Float64 Calendar Fmt Models Runtime Repository Sessions StatusList.
From S2P Require Import Server Receipt.

Local Open Scope Z_scope.

(** A message of gomail with its one attachment. *)
Record message := {
  msg_From : string;
  msg_To : string;
  msg_Subject : string;
  msg_Body : string;
  msg_Attachment : string * string }.

Definition newline : string := String (Ascii.ascii_of_N 10) "".
Definition lines (l : list string) : string := foldr (fun t s => t +:+ newline +:+ s) "" l.

(** ** The templates

    [{{ if .. -}}] and [{{ end -}}] drop the white space after them. *)

Definition salutation (d : Deposit) : string :=
  "Dear " +:+ Tenant_FirstName (Deposit_Tenant d) +:+ " " +:+ Tenant_LastName (Deposit_Tenant d) +:+ ",".

Definition premises (d : Deposit) : string :=
  let a := Property_Address (Deposit_Property d) in
  Address_Street a +:+ ", " +:+ Address_ZIP a +:+ " " +:+ Address_City a.

Definition amount_line (d : Deposit) : string :=
  "Deposit amount:  " +:+ fmt_f2 (DepositData_Amount (Deposit_Deposit d)) +:+ " " +:+
  DepositData_Currency (Deposit_Deposit d).

Definition renderBody (d : Deposit) : string :=
  lines ([salutation d; "";
          "Please find attached the receipt for your rental deposit at " +:+ premises d +:+ "."; "";
          amount_line d] ++
         match Deposit_Pledge d with
         | Some p => ["Pledge date:     " +:+ Pledge_PledgeDate p;
                      "Statutory basis: " +:+ Pledge_StatutoryBasis p]
         | None => []
         end ++
         ["This receipt confirms that your deposit has been received and secured by your bank.";
          match Tenant_WalletMetadata (Deposit_Tenant d) with
          | Some _ => "Your EUDI Wallet has also received a Qualified Electronic Attestation of Attributes (QEAA) for this deposit."
          | None => "Once EUDI Wallet support is widely available, you will also receive a Qualified Electronic Attestation of Attributes (QEAA) as a tamper-evident digital credential."
          end;
          "Best regards,"; "XMiete"]).

Definition renderReleaseBody (d : Deposit) : string :=
  lines ([salutation d; "";
          "Your rental deposit for " +:+ premises d +:+ " has been released by your landlord."; "";
          amount_line d] ++
         match Deposit_Pledge d with
         | Some p => ["Originally pledged: " +:+ Pledge_PledgeDate p]
         | None => []
         end ++
         ["Please find the release confirmation attached. The funds will be returned to you according to your bank's processing times.";
          ""; "Best regards,"; "XMiete"]).

(** ** The mailers *)

Record SMTPMailer := { from : string }.

Definition subject (title : string) (d : Deposit) : string :=
  let a := Property_Address (Deposit_Property d) in
  title +:+ " — " +:+ Address_Street a +:+ " " +:+ Address_City a.

Definition receipt_message (m : SMTPMailer) (d : Deposit) (pdf : string) : message :=
  {| msg_From := from m; msg_To := Tenant_Email (Deposit_Tenant d);
     msg_Subject := subject "Your rental deposit receipt" d; msg_Body := renderBody d;
     msg_Attachment := ("receipt-" +:+ Deposit_ID d +:+ ".pdf", pdf) |}.

Definition release_message (m : SMTPMailer) (d : Deposit) (pdf : string) : message :=
  {| msg_From := from m; msg_To := Tenant_Email (Deposit_Tenant d);
     msg_Subject := subject "Your rental deposit has been released" d;
     msg_Body := renderReleaseBody d;
     msg_Attachment := ("release-receipt-" +:+ Deposit_ID d +:+ ".pdf", pdf) |}.

(** The interface: the messages given to [DialAndSend]. *)
Record Mailer := {
  SendReceipt : Deposit -> string -> list message;
  SendReleaseReceipt : Deposit -> string -> list message }.

Definition NoOp : Mailer :=
  {| SendReceipt _ _ := []; SendReleaseReceipt _ _ := [] |}.

Definition smtp (m : SMTPMailer) : Mailer :=
  {| SendReceipt d pdf := [receipt_message m d pdf];
     SendReleaseReceipt d pdf := [release_message m d pdf] |}.

(** ** The background tasks *)

(** What a goroutine sends; without a document it gives up. *)
Definition perform (lib : Receipt.fpdf) (m : Mailer) (t : task) : prog (list message) :=
  match t with
  | PostWebhook _ => mret []
  | MailReceipt d =>
      pdf ← Receipt.Generate lib d;
      mret match pdf with None => [] | Some pdf => SendReceipt m d pdf end
  | MailReleaseReceipt d =>
      pdf ← Receipt.GenerateReleaseReceipt lib d;
      mret match pdf with None => [] | Some pdf => SendReleaseReceipt m d pdf end
  end.

(** The deposit a task is about. *)
Definition addressee (t : task) : option Deposit :=
  match t with
  | PostWebhook _ => None
  | MailReceipt d | MailReleaseReceipt d => Some d
  end.

Section Mail.
Context {RS SS AS : Type} `{Repository RS} `{SessionStore SS} `{IndexAllocator AS}.
Implicit Types w : world RS SS AS.

(** A task ends, changes nothing, and writes to no one but the deposit's tenant. *)
Lemma mail_goes_to_the_tenant lib s t envs w :
  exists msgs, run (perform lib (smtp s) t) envs w = (Some msgs, w) /\
    Forall (fun x => exists d, addressee t = Some d /\
      msg_To x = Tenant_Email (Deposit_Tenant d) /\ msg_From x = from s) msgs.
Proof.
  destruct t as [e|d|d].
  - by exists [].
  - eexists. split; [reflexivity|]. case_match; by repeat econstructor.
  - cbn [perform]. unfold Receipt.GenerateReleaseReceipt, Receipt.releasedAt.
    destruct (List.find _ _); eexists; (split; [reflexivity|]); case_match; by repeat econstructor.
Qed.
End Mail.
