(* ===== verification/Startup.v ===== *)
(** * Start-up: [cmd/server/main.go]

    What the environment variables make of the server.  The connection to the
    database and the listening socket are left out. *)

From S2P Require Import Prelude Calendar Models Mail.

Local Open Scope Z_scope.

Module Startup.

(** The environment; an unset variable is the empty string. *)
Abbreviation environment := (string -> string).

(** [None] ends the process. *)
Definition mustEnv (getenv : environment) (key : string) : option string :=
  if String.eqb (getenv key) "" then None else Some (getenv key).

Definition envOrDefault (getenv : environment) (key def : string) : string :=
  if String.eqb (getenv key) "" then def else getenv key.

(** [strconv.Atoi]: an optional sign and decimal digits, within an int64. *)
Fixpoint digits_from (n : Z) (s : string) : option Z :=
  match s with
  | EmptyString => Some n
  | String c s => d ← char_digit c; digits_from (10 * n + d) s
  end.

Definition Atoi (s : string) : option Z :=
  let '(sign, digits) :=
    match s with
    | String c rest =>
        if Ascii.eqb c (Ascii.ascii_of_N 45) then (-1, rest)
        else if Ascii.eqb c (Ascii.ascii_of_N 43) then (1, rest) else (1, s)
    | EmptyString => (1, "")
    end in
  if String.eqb digits "" then None
  else
    n ← digits_from 0 digits;
    let n := sign * n in
    if (- 2 ^ 63 <=? n) && (n <? 2 ^ 63) then Some n else None.

(** [gomail.NewDialer] and the sender. *)
Record smtp_settings := {
  smtp_host : string;
  smtp_port : Z;
  smtp_username : string;
  smtp_password : string;
  smtp_from : string }.

Definition smtp_port_of (getenv : environment) : Z :=
  if String.eqb (getenv "SMTP_PORT") "" then 587
  else default 587 (Atoi (getenv "SMTP_PORT")).

(** [None] is the mailer that does nothing. *)
Definition buildMailer (getenv : environment) : option smtp_settings :=
  if String.eqb (getenv "SMTP_HOST") "" then None
  else Some {| smtp_host := getenv "SMTP_HOST"; smtp_port := smtp_port_of getenv;
               smtp_username := getenv "SMTP_USERNAME"; smtp_password := getenv "SMTP_PASSWORD";
               smtp_from := envOrDefault getenv "SMTP_FROM" "noreply@xmiete.org" |}.

Definition mailer_of (o : option smtp_settings) : Mailer :=
  match o with
  | None => NoOp
  | Some s => smtp {| from := smtp_from s |}
  end.

(** What [main] makes of the environment: the arguments of [NewPostgresRepo],
    [NewServer], [NewRouter] and the HTTP server. *)
Record settings := {
  dsn : string;
  jwtSecret : string;
  webhookURL : string;
  issuerURL : string;
  mail : option smtp_settings;
  addr : string;
  read_timeout : Z;
  write_timeout : Z;
  idle_timeout : Z }.

Definition main (getenv : environment) : option settings :=
  dsn ← mustEnv getenv "DATABASE_URL";
  jwtSecret ← mustEnv getenv "JWT_SECRET";
  Some {| dsn := dsn; jwtSecret := jwtSecret; webhookURL := getenv "WEBHOOK_URL";
          issuerURL := envOrDefault getenv "ISSUER_URL" "https://api.xmiete.org";
          mail := buildMailer getenv; addr := ":" +:+ envOrDefault getenv "PORT" "8080";
          read_timeout := 15 * second; write_timeout := 15 * second; idle_timeout := 60 * second |}.

(** The server starts only with a database and a secret that is not empty. *)
Lemma main_has_a_secret getenv s :
  main getenv = Some s -> jwtSecret s <> "" /\ dsn s <> "" /\ issuerURL s <> "".
Proof.
  unfold main, mustEnv. destruct (String.eqb_spec (getenv "DATABASE_URL") ""); [done|].
  destruct (String.eqb_spec (getenv "JWT_SECRET") ""); [done|]. cbn. intros [= <-]. cbn.
  split_and!; try done. unfold envOrDefault.
  by destruct (String.eqb_spec (getenv "ISSUER_URL") "").
Qed.

Example Atoi_1 : Atoi "2525" = Some 2525.
Proof. by vm_compute. Qed.
Example Atoi_2 : Atoi "25 " = None.
Proof. by vm_compute. Qed.
Example Atoi_3 : Atoi "9223372036854775808" = None.
Proof. by vm_compute. Qed.
Example Atoi_4 : Atoi "-9223372036854775808" = Some (- 2 ^ 63).
Proof. by vm_compute. Qed.
End Startup.
