(* ===== verification/Credential.v ===== *)
(** * The SD-JWT credential: [internal/issuance/credential.go]

    [BuildSDJWT] is a program: it draws an identifier, the time and one salt
    per disclosure.  [strings.ToLower] and the ES256 signature are
    parameters. *)

From S2P Require Import Prelude Float64 Calendar Fmt Models Json Runtime Base64 JsonText Sha256.
From S2P Require Import StatusList.
From S2P Require Import Server.

Local Open Scope Z_scope.

Record credentialStatus := {
  credentialStatus_ID : string;
  credentialStatus_Type : string;
  credentialStatus_StatusPurpose : string;
  credentialStatus_StatusListIndex : string;
  credentialStatus_StatusListCredential : string }.

Record sdJWTClaims := {
  sdJWT_Registered : RegisteredClaims;
  sdJWT_VCT : string;
  sdJWT_SDAlg : string;
  sdJWT_SD : list string;
  sdJWT_DepositID : string;
  sdJWT_PledgeDate : string;
  sdJWT_StatutoryBasis : string;
  sdJWT_IssuingBank : string;
  sdJWT_IssuingBankID : string;
  sdJWT_PropertyID : string;
  sdJWT_CredentialStatus : option credentialStatus }.

(** A disclosure and its JSON array. *)
Record sdDisclosure := { sd_salt : string; sd_name : string; sd_value : json }.
Definition sd_array (d : sdDisclosure) : json :=
  JArr [JStr (sd_salt d); JStr (sd_name d); sd_value d].

Section Credential.
(** [strings.ToLower]. *)
Context (ToLower : string -> string).
(** The signer: header [typ], header [kid], claims. *)
Context (sign : string -> string -> sdJWTClaims -> option string) (KeyID : string).

(** The array of a disclosure, its encoding and its digest. *)
Definition disclosure_array (salt : list Z) (name : string) (value : json) : json :=
  sd_array {| sd_salt := EncodeToString salt; sd_name := name; sd_value := value |}.
Definition digest (enc : string) : string :=
  EncodeToString (Sum256 (GoStrings.bytes_of enc)).

Definition newSDDisclosure (name : string) (value : json) :
    prog ((string * string) + error) :=
  saltBytes ← emit RandRead;
  match saltBytes with
  | None => mret (inr ErrDriver)
  | Some saltBytes =>
      match json_text (disclosure_array saltBytes name value) with
      | None => mret (inr ErrMarshal)
      | Some b =>
          let enc := EncodeToString b in
          mret (inl (enc, digest enc))
      end
  end.

(** The loop over the disclosable claims. *)
Fixpoint disclosures (specs : list (string * json)) :
    prog ((list string * list string) + error) :=
  match specs with
  | [] => mret (inl ([], []))
  | (name, v) :: specs =>
      r ← newSDDisclosure name v;
      match r with
      | inr x => mret (inr x)
      | inl (enc, hash) =>
          rest ← disclosures specs;
          match rest with
          | inr x => mret (inr x)
          | inl (encs, hashes) => mret (inl (enc :: encs, hash :: hashes))
          end
      end
  end.

Definition property_address (deposit : Deposit) : string :=
  let p := Property_Address (Deposit_Property deposit) in
  if String.eqb (Address_Street p) "" then ""
  else Address_Street p +:+ ", " +:+ Address_ZIP p +:+ " " +:+ Address_City p +:+ ", " +:+
       Address_Country p.

Definition pledge_date (deposit : Deposit) (now : instant) : string :=
  match Deposit_Pledge deposit with
  | Some p => if String.eqb (Pledge_PledgeDate p) "" then format_day now else Pledge_PledgeDate p
  | None => format_day now
  end.

(** One year, or 30 days after the end of the pledge. *)
Definition credential_expiry (validUntil : string) (now : instant) : instant :=
  let expiry := add_date now 1 0 0 in
  if String.eqb validUntil "" then expiry
  else match parse_day validUntil with
       | Some t => add t (30 * 24 * hour)
       | None => expiry
       end.

Definition pledged_until (validUntil : string) (now : instant) : string :=
  if String.eqb validUntil "" then format_day (add_date now 1 0 0) else validUntil.

Definition bank_name (deposit : Deposit) : string :=
  match Deposit_Provider deposit with Some p => Provider_ExecutingEntity p | None => "" end.

Definition bank_id (deposit : Deposit) : string :=
  if String.eqb (bank_name deposit) "" then ""
  else "https://" +:+
       ToLower (GoStrings.replace_byte (Ascii.ascii_of_N 32) (Ascii.ascii_of_N 46)
                  (bank_name deposit)).

(** The claims a holder may withhold; Marshal refuses a float that is not
    finite. *)
Definition sd_specs (deposit : Deposit) (validUntil : string) (now : instant) :
    list (string * json) :=
  [("deposit_amount", JFloat (DepositData_Amount (Deposit_Deposit deposit)));
   ("currency", JStr (DepositData_Currency (Deposit_Deposit deposit)));
   ("property_address", JStr (property_address deposit));
   ("tenant_first_name", JStr (Tenant_FirstName (Deposit_Tenant deposit)));
   ("tenant_last_name", JStr (Tenant_LastName (Deposit_Tenant deposit)));
   ("pledged_until", JStr (pledged_until validUntil now))].

Definition sd_claims (issuerURL credentialID : string) (deposit : Deposit)
    (validUntil : string) (statusListIndex : Z) (now : instant) (sdHashes : list string) :
    sdJWTClaims :=
  let statusListURL := issuerURL +:+ "/v1/status-list/revocation" in
  {| sdJWT_Registered :=
       {| Issuer := issuerURL; Subject := Tenant_Email (Deposit_Tenant deposit);
          ID := credentialID; IssuedAt := NumericDate now;
          ExpiresAt := NumericDate (credential_expiry validUntil now) |};
     sdJWT_VCT := "DepositPledgeAttestation";
     sdJWT_SDAlg := "sha-256";
     sdJWT_SD := sdHashes;
     sdJWT_DepositID := Deposit_ID deposit;
     sdJWT_PledgeDate := pledge_date deposit now;
     sdJWT_StatutoryBasis := "BGB § 551";
     sdJWT_IssuingBank := bank_name deposit;
     sdJWT_IssuingBankID := bank_id deposit;
     sdJWT_PropertyID := Property_UnitID (Deposit_Property deposit);
     sdJWT_CredentialStatus :=
       Some {| credentialStatus_ID := statusListURL +:+ "#" +:+ fmt_d statusListIndex;
               credentialStatus_Type := "BitstringStatusListEntry";
               credentialStatus_StatusPurpose := "revocation";
               credentialStatus_StatusListIndex := fmt_d statusListIndex;
               credentialStatus_StatusListCredential := statusListURL |} |}.

Definition BuildSDJWT (issuerURL : string) (deposit : Deposit) (validUntil : string)
    (statusListIndex : Z) : prog ((string * string) + error) :=
  u ← emit NewUUID;
  let credentialID := "urn:xmiete:credential:" +:+ u in
  now ← emit Now;
  r ← disclosures (sd_specs deposit validUntil now);
  match r with
  | inr x => mret (inr x)
  | inl (disclosureEncodings, sdHashes) =>
      match sign "vc+sd-jwt" KeyID
              (sd_claims issuerURL credentialID deposit validUntil statusListIndex now sdHashes)
      with
      | None => mret (inr ErrDriver)
      | Some signed =>
          mret (inl (signed +:+ "~" +:+ GoStrings.join disclosureEncodings "~" +:+ "~",
                     credentialID))
      end
  end.
End Credential.
