(* ===== verification/Presentation.v ===== *)
(** * Verifying a presentation: [VerifyVpToken] of [internal/verification/vp.go]

    The token is the issuer's JWT, disclosures and possibly a key binding JWT,
    separated by tildes.  Parsing a JWT (signature, expiry and not-before
    included) is a parameter. *)

From S2P Require Import Prelude Float64 Calendar Models Json Runtime Base64 JsonText Sha256 StatusList.
From S2P Require Import Server.
From S2P Require Import Credential.

Local Open Scope Z_scope.

(** The issuer's claims; of the registered ones, those the verifier looks at. *)
Record issuerJWTClaims := {
  issuerJWT_ID : string;
  issuerJWT_ExpiresAt : option instant;
  issuerJWT_VCT : string;
  issuerJWT_SDAlg : string;
  issuerJWT_SD : list string;
  issuerJWT_DepositID : string;
  issuerJWT_PledgeDate : string;
  issuerJWT_StatutoryBasis : string;
  issuerJWT_IssuingBank : string;
  issuerJWT_IssuingBankID : string;
  issuerJWT_PropertyID : string }.

Record kbJWTClaims := {
  kbJWT_Audience : list string;
  kbJWT_IssuedAt : option instant;
  kbJWT_Nonce : string;
  kbJWT_SDHash : string }.

Record VerifiedClaims := {
  Verified_CredentialID : string;
  Verified_DepositID : string;
  Verified_PledgeDate : string;
  Verified_StatutoryBasis : string;
  Verified_IssuingBank : string;
  Verified_DepositAmount : float64;
  Verified_Currency : string;
  Verified_PropertyAddress : string;
  Verified_TenantFirstName : string;
  Verified_TenantLastName : string;
  Verified_PledgedUntil : string;
  Verified_VerifiedAt : instant }.

(** The loop over the parts after the issuer's JWT: the last dotted part is the
    key binding JWT, the others are disclosures. *)
Fixpoint sort_parts (kbJWTRaw : string) (disclosures : list string) (parts : list string) :
    string * list string :=
  match parts with
  | [] => (kbJWTRaw, disclosures)
  | p :: parts =>
      if String.eqb p "" then sort_parts kbJWTRaw disclosures parts
      else if GoStrings.contains p "." then sort_parts p disclosures parts
      else sort_parts kbJWTRaw (disclosures ++ [p]) parts
  end.

(** A disclosed claim as a string or a number, the zero value otherwise. *)
Definition disclosed_string (disclosed : gmap string json) (name : string) : string :=
  match disclosed !! name with Some (JStr s) => s | _ => "" end.
Definition disclosed_float (disclosed : gmap string json) (name : string) : float64 :=
  match disclosed !! name with Some (JFloat x) => x | _ => f64_zero end.

Section Verify.
(** [jwt.ParseWithClaims] with the issuer's key, at a time; an error is its
    text. *)
Context (ParseWithClaims : instant -> string -> issuerJWTClaims + string).
(** [Parser.ParseUnverified]: the header's [typ] (empty if it is not a string)
    and the claims. *)
Context (ParseUnverified : string -> (string * kbJWTClaims) + string).
(** The text of an error of [DecodeString]; [%q]. *)
Context (decode_error : string -> string) (quote : string -> string).

(** [computeSDHash]. *)
Definition sd_text (issuerJWT : string) (disclosures : list string) : string :=
  issuerJWT +:+ "~" +:+ foldr (fun d k => d +:+ "~" +:+ k) "" disclosures.
Definition computeSDHash (issuerJWT : string) (disclosures : list string) : string :=
  digest (sd_text issuerJWT disclosures).

(** One disclosure: its hash must be among the signed ones, and it must be an
    array of three with a name. *)
Definition open_disclosure (sd : list string) (enc : string) : (string * json) + string :=
  let hash := digest enc in
  if negb (bool_decide (hash ∈ sd))
  then inr ("verification: disclosure hash " +:+ quote hash +:+ " not found in _sd")
  else
    match DecodeString enc with
    | None => inr ("verification: disclosure base64 decode: " +:+ decode_error enc)
    | Some raw =>
        match json_any raw with
        | Some (JArr [_; JStr name; v]) => inl (name, v)
        | Some (JArr [_; _; _]) => inr "verification: disclosure name is not a string"
        | _ => inr "verification: disclosure must be [salt, name, value]"
        end
    end.

Fixpoint open_disclosures (sd : list string) (disclosed : gmap string json)
    (encs : list string) : gmap string json + string :=
  match encs with
  | [] => inl disclosed
  | enc :: encs =>
      match open_disclosure sd enc with
      | inr x => inr x
      | inl (name, v) => open_disclosures sd (<[name := v]> disclosed) encs
      end
  end.

(** Step 5; [None] is acceptance. *)
Definition check_key_binding (kbJWTRaw issuerJWT : string) (disclosures : list string)
    (expectedNonce responseURI : string) : prog (option string) :=
  if String.eqb kbJWTRaw "" then mret None
  else
    match ParseUnverified kbJWTRaw with
    | inr x => mret (Some ("verification: KB-JWT parse: " +:+ x))
    | inl (typ, kb) =>
        if negb (String.eqb typ "kb+jwt")
        then mret (Some ("verification: KB-JWT typ must be kb+jwt, got " +:+ quote typ))
        else if negb (String.eqb (kbJWT_Nonce kb) expectedNonce)
        then mret (Some "verification: KB-JWT nonce mismatch")
        else if negb (match kbJWT_Audience kb with aud :: _ => String.eqb aud responseURI
                                                 | [] => false end)
        then mret (Some "verification: KB-JWT aud does not match response_uri")
        else if negb (String.eqb (kbJWT_SDHash kb) (computeSDHash issuerJWT disclosures))
        then mret (Some "verification: KB-JWT sd_hash mismatch")
        else
          match kbJWT_IssuedAt kb with
          | None => mret (Some "verification: KB-JWT iat too old or missing")
          | Some iat =>
              now ← emit Now;
              if 5 * minute <? now - iat
              then mret (Some "verification: KB-JWT iat too old or missing")
              else mret None
          end
    end.

(** [claims.ExpiresAt != nil && time.Now().After(claims.ExpiresAt.Time)] *)
Definition has_expired (exp : option instant) : prog bool :=
  match exp with
  | None => mret false
  | Some t => now ← emit Now; mret (after now t)
  end.

Definition verified (claims : issuerJWTClaims) (disclosed : gmap string json) (now : instant) :
    VerifiedClaims :=
  {| Verified_CredentialID := issuerJWT_ID claims;
     Verified_DepositID := issuerJWT_DepositID claims;
     Verified_PledgeDate := issuerJWT_PledgeDate claims;
     Verified_StatutoryBasis := issuerJWT_StatutoryBasis claims;
     Verified_IssuingBank := issuerJWT_IssuingBank claims;
     Verified_DepositAmount := disclosed_float disclosed "deposit_amount";
     Verified_Currency := disclosed_string disclosed "currency";
     Verified_PropertyAddress := disclosed_string disclosed "property_address";
     Verified_TenantFirstName := disclosed_string disclosed "tenant_first_name";
     Verified_TenantLastName := disclosed_string disclosed "tenant_last_name";
     Verified_PledgedUntil := disclosed_string disclosed "pledged_until";
     Verified_VerifiedAt := now |}.

(** The issuer's JWT and the parts after it. *)
Definition token_parts (vpToken : string) : string * list string :=
  match GoStrings.split (Ascii.ascii_of_N 126) vpToken with
  | issuerJWT :: parts => (issuerJWT, parts)
  | [] => ("", [])
  end.

Definition VerifyVpToken (vpToken expectedNonce responseURI : string) :
    prog (VerifiedClaims + string) :=
  let '(issuerJWT, parts) := token_parts vpToken in
  if String.eqb issuerJWT ""
  then mret (inr "verification: malformed vp_token: missing issuer JWT")
  else
    let '(kbJWTRaw, disclosures) := sort_parts "" [] parts in
    now ← emit Now;
    match ParseWithClaims now issuerJWT with
    | inr x => mret (inr ("verification: issuer JWT invalid: " +:+ x))
    | inl claims =>
        if negb (String.eqb (issuerJWT_VCT claims) "DepositPledgeAttestation")
        then mret (inr ("verification: unexpected vct " +:+ quote (issuerJWT_VCT claims)))
        else
          expired ← has_expired (issuerJWT_ExpiresAt claims);
          if (expired : bool) then mret (inr "verification: credential has expired")
          else
            match open_disclosures (issuerJWT_SD claims) ∅ disclosures with
            | inr x => mret (inr x)
            | inl disclosed =>
                bound ← check_key_binding kbJWTRaw issuerJWT disclosures expectedNonce responseURI;
                match bound with
                | Some x => mret (inr x)
                | None => now ← emit Now; mret (inl (verified claims disclosed now))
                end
            end
    end.
End Verify.

(** Verification reads the clock and touches nothing. *)
Lemma only_now_expired exp : only_now (has_expired exp).
Proof. by destruct exp. Qed.

Lemma only_now_binding pu quote kb jwt ds nonce uri :
  only_now (check_key_binding pu quote kb jwt ds nonce uri).
Proof. unfold check_key_binding. repeat case_match; try done. intros t. cbn. by case_match. Qed.

Lemma only_now_VerifyVpToken pc pu de quote tok nonce uri :
  only_now (VerifyVpToken pc pu de quote tok nonce uri).
Proof.
  unfold VerifyVpToken. destruct (token_parts tok) as [jwt parts]. case_match; [done|].
  destruct (sort_parts "" [] parts) as [kb ds]. intros t. cbn.
  destruct (pc t jwt) as [claims|]; [|done]. case_match; [done|].
  apply (only_now_bind (has_expired _)); [apply only_now_expired|]. intros [|]; [done|].
  case_match; [|done].
  apply (only_now_bind (check_key_binding _ _ _ _ _ _ _)); [apply only_now_binding|].
  by intros [|].
Qed.
