(* ===== verification/VpService.v ===== *)
(** * The verifier of the Go SDK: [sdk-examples/go/openid4vp/service.go]

    What a landlord's application uses to request and verify presentations
    itself.  It decodes the JWTs by hand; their signatures are not verified.
    A raw message is the value it denotes; the texts of the library's errors are
    parameters. *)

From S2P Require Import Prelude Float64 Calendar Models Json Runtime Base64 JsonText Unmarshal Sha256.
From S2P Require Import StatusList Server.
From S2P Require Import Credential Presentation.

Local Open Scope Z_scope.

Module VpService.

(** ** The request: [models.go] *)

Record FieldFilter := { FieldFilter_Type : string; FieldFilter_Const : option string }.
Record Field := {
  Field_Path : list string;
  Field_Filter : option FieldFilter;
  Field_Optional : bool }.
Record Constraints := {
  Constraints_Fields : list Field;
  Constraints_LimitDisclosure : string }.
Record InputDescriptor := {
  InputDescriptor_ID : string;
  InputDescriptor_Format : gmap string (list string);
  InputDescriptor_Constraints : Constraints }.
Record PresentationDefinition := {
  PresentationDefinition_ID : string;
  PresentationDefinition_InputDescriptors : list InputDescriptor }.
Record VpRequest := {
  VpRequest_ClientID : string;
  VpRequest_ResponseType : string;
  VpRequest_ResponseMode : string;
  VpRequest_ResponseURI : string;
  VpRequest_Nonce : string;
  VpRequest_State : string;
  VpRequest_PresentationDefinition : PresentationDefinition }.
Record VpRequestResult := { result_Nonce : string; result_VpRequest : VpRequest }.

Record VpVerifierService := { service_ClientID : string; service_JWKSUri : string }.

(** [newUUID] on the sixteen bytes that [rand.Read] fills. *)
Definition set_version (b : list Z) : list Z :=
  alter (fun x => Z.lor (Z.land x 15) 64) 6%nat b.
Definition set_variant (b : list Z) : list Z :=
  alter (fun x => Z.lor (Z.land x 63) 128) 8%nat b.

Definition slice (i j : nat) (b : list Z) : string := GoStrings.hex (take (j - i) (drop i b)).

Definition dashed (b : list Z) : string :=
  slice 0 4 b +:+ "-" +:+ slice 4 6 b +:+ "-" +:+ slice 6 8 b +:+ "-" +:+ slice 8 10 b +:+ "-" +:+
  slice 10 16 b.

Definition uuid_of (b : list Z) : string := dashed (set_variant (set_version b)).

(** With the text of an error of crypto/rand. *)
Definition newUUID (rand_error : string) : prog (string + string) :=
  b ← emit RandRead;
  match b with
  | Some b => mret (inl (uuid_of b))
  | None => mret (inr rand_error)
  end.

Definition required (path : string) : Field :=
  {| Field_Path := [path]; Field_Filter := None; Field_Optional := false |}.
Definition optional (path : string) : Field :=
  {| Field_Path := [path]; Field_Filter := None; Field_Optional := true |}.

Definition vp_request (clientID responseURI nonce state : string) : VpRequest :=
  {| VpRequest_ClientID := clientID; VpRequest_ResponseType := "vp_token";
     VpRequest_ResponseMode := "direct_post"; VpRequest_ResponseURI := responseURI;
     VpRequest_Nonce := nonce; VpRequest_State := state;
     VpRequest_PresentationDefinition :=
       {| PresentationDefinition_ID := "deposit-pledge-attestation-pd";
          PresentationDefinition_InputDescriptors :=
            [{| InputDescriptor_ID := "deposit-pledge-attestation";
                InputDescriptor_Format := {["vc+sd-jwt" := ["ES256"]]};
                InputDescriptor_Constraints :=
                  {| Constraints_LimitDisclosure := "required";
                     Constraints_Fields :=
                       [{| Field_Path := ["$.vct"];
                           Field_Filter := Some {| FieldFilter_Type := "string";
                             FieldFilter_Const := Some "DepositPledgeAttestation" |};
                           Field_Optional := false |};
                        required "$.deposit_id"; required "$.pledge_date";
                        required "$.statutory_basis"; required "$.issuing_bank";
                        optional "$.deposit_amount"; optional "$.currency";
                        optional "$.property_address"; optional "$.tenant_first_name";
                        optional "$.tenant_last_name"; optional "$.pledged_until"] |} |}] |} |}.

Definition BuildVpRequest (rand_error : string) (s : VpVerifierService)
    (depositID responseURI : string) :
    prog (VpRequestResult + string) :=
  nonce ← newUUID rand_error;
  match nonce with
  | inr err => mret (inr ("openid4vp: generate nonce: " +:+ err))
  | inl nonce =>
      mret (inl {| result_Nonce := nonce;
                   result_VpRequest :=
                     vp_request (service_ClientID s) responseURI nonce depositID |})
  end.

(** ** The claims *)

Record IssuerClaims := {
  issuer_CredentialID : string;
  issuer_DepositID : string;
  issuer_PledgeDate : string;
  issuer_StatutoryBasis : string;
  issuer_IssuingBank : string;
  issuer_SDHashes : list string;
  issuer_Exp : Z }.

Record VerifiedClaims := {
  CredentialID : string;
  DepositID : string;
  PledgeDate : string;
  StatutoryBasis : string;
  IssuingBank : string;
  DepositAmount : option float64;
  Currency : option string;
  PropertyAddress : option string;
  TenantFirstName : option string;
  TenantLastName : option string;
  PledgedUntil : option string;
  VerifiedAt : instant }.

Record kbPayload := { kb_Nonce : string; kb_Aud : string; kb_SdHash : string; kb_Iat : Z }.

(** [json.Unmarshal] of a text into raw messages, of a raw message into a string
    and into a number; [null] leaves the zero value. *)
Definition unmarshal_array (raw : list Z) : option (list json) :=
  match read_json raw with Some (JArr l) => Some l | Some JNull => Some [] | _ => None end.
Definition unmarshal_string (v : json) : option string :=
  match v with JStr s => Some s | JNull => Some "" | _ => None end.
Definition unmarshal_float (v : json) : option float64 :=
  match v with
  | JNull => Some f64_zero
  | JFloat _ | JInt _ => match any v with Some (JFloat x) => Some x | _ => None end
  | _ => None
  end.

(** [optString] and the amount. *)
Definition optString (m : gmap string json) (key : string) : option string :=
  m !! key ≫= unmarshal_string.
Definition optFloat (m : gmap string json) (key : string) : option float64 :=
  m !! key ≫= unmarshal_float.

(** [json.Unmarshal] into the structs of the payloads and of the header, which is
    looked at also after an error. *)
Definition issuer_of (l : members) : option IssuerClaims :=
  let '(jti, ok1) := read_field into_string "" "jti" l in
  let '(deposit_id, ok2) := read_field into_string "" "deposit_id" l in
  let '(pledge_date, ok3) := read_field into_string "" "pledge_date" l in
  let '(statutory_basis, ok4) := read_field into_string "" "statutory_basis" l in
  let '(issuing_bank, ok5) := read_field into_string "" "issuing_bank" l in
  let '(sd, ok6) := read_field into_strings ([], O) "_sd" l in
  let '(exp, ok7) := read_field into_int64 0 "exp" l in
  if ok1 && ok2 && ok3 && ok4 && ok5 && ok6 && ok7
  then Some {| issuer_CredentialID := jti; issuer_DepositID := deposit_id;
               issuer_PledgeDate := pledge_date; issuer_StatutoryBasis := statutory_basis;
               issuer_IssuingBank := issuing_bank; issuer_SDHashes := slice_of sd;
               issuer_Exp := exp |}
  else None.
Definition unmarshal_issuer (raw : list Z) : option IssuerClaims :=
  read_object raw ≫= issuer_of.

Definition unmarshal_header (raw : list Z) : string * bool :=
  match read_object raw with
  | Some l => read_field into_string "" "typ" l
  | None => ("", false)
  end.

Definition unmarshal_kb (raw : list Z) : option kbPayload :=
  l ← read_object raw;
  let '(nonce, ok1) := read_field into_string "" "nonce" l in
  let '(aud, ok2) := read_field into_string "" "aud" l in
  let '(sd_hash, ok3) := read_field into_string "" "sd_hash" l in
  let '(iat, ok4) := read_field into_int64 0 "iat" l in
  if ok1 && ok2 && ok3 && ok4
  then Some {| kb_Nonce := nonce; kb_Aud := aud; kb_SdHash := sd_hash; kb_Iat := iat |}
  else None.

Section Service.
(** The texts of errors: of base64, of a payload that does not fit its struct,
    of a name that is not a string; [%q]. *)
Context (decode_error : string -> string) (payload_error : list Z -> string)
        (string_error : json -> string) (quote : string -> string).

Definition sdJWTHash (s : string) : string := EncodeToString (Sum256 (GoStrings.bytes_of s)).

Definition dot_byte : byte := Ascii.ascii_of_N 46.

Definition verifyIssuerJWT (jwt : string) : IssuerClaims + string :=
  match GoStrings.split_n 3 dot_byte jwt with
  | _ :: payload :: _ :: _ =>
      match DecodeString payload with
      | None => inr ("base64 decode payload: " +:+ decode_error payload)
      | Some raw =>
          match unmarshal_issuer raw with
          | None => inr ("parse payload: " +:+ payload_error raw)
          | Some claims => inl claims
          end
      end
  | _ => inr "malformed JWT: expected 3 dot-separated parts"
  end.

(** Seconds since 1970. *)
Definition unix (t : instant) : Z := t / second.

(** [None] is acceptance. *)
Definition verifyKbJWT (kbJWT issuerJWT : string) (disclosures : list string)
    (expectedNonce responseURI : string) : prog (option string) :=
  match GoStrings.split_n 3 dot_byte kbJWT with
  | header :: payload :: _ =>
      match DecodeString header with
      | None => mret (Some ("openid4vp: decode KB-JWT header: " +:+ decode_error header))
      | Some headerRaw =>
          let '(typ, ok) := unmarshal_header headerRaw in
          if negb ok || negb (String.eqb typ "kb+jwt")
          then mret (Some ("openid4vp: KB-JWT typ must be kb+jwt, got " +:+ quote typ))
          else
            match DecodeString payload with
            | None => mret (Some ("openid4vp: decode KB-JWT payload: " +:+ decode_error payload))
            | Some payloadRaw =>
                match unmarshal_kb payloadRaw with
                | None =>
                    mret (Some ("openid4vp: parse KB-JWT payload: " +:+ payload_error payloadRaw))
                | Some kb =>
                    if negb (String.eqb (kb_Nonce kb) expectedNonce)
                    then mret (Some ("openid4vp: KB-JWT nonce mismatch: expected " +:+
                                     quote expectedNonce +:+ ", got " +:+ quote (kb_Nonce kb)))
                    else if negb (String.eqb (kb_Aud kb) responseURI)
                    then mret (Some ("openid4vp: KB-JWT aud mismatch: expected " +:+
                                     quote responseURI +:+ ", got " +:+ quote (kb_Aud kb)))
                    else if negb (String.eqb (kb_SdHash kb)
                                    (sdJWTHash (sd_text issuerJWT disclosures)))
                    then mret (Some "openid4vp: KB-JWT sd_hash mismatch")
                    else
                      now ← emit Now;
                      if (unix now + 30 <? kb_Iat kb) || (kb_Iat kb <? unix now - 300)
                      then mret (Some "openid4vp: KB-JWT iat is stale or from the future")
                      else mret None
                end
            end
      end
  | _ => mret (Some "openid4vp: malformed KB-JWT")
  end.

(** The parts after the issuer's JWT: the last one, if not empty, is the key
    binding JWT; the other non-empty ones are disclosures. *)
Definition nonempty (l : list string) : list string :=
  filter (fun p => p <> "") l.

Definition take_apart (parts : list string) : string * list string :=
  match parts with
  | [] => ("", [])
  | _ =>
      let kbJWT := List.last parts "" in
      (kbJWT, nonempty (if String.eqb kbJWT "" then parts else removelast parts))
  end.

Definition open_disclosure (sd : list string) (enc : string) : (string * json) + string :=
  let digest := sdJWTHash enc in
  if negb (bool_decide (digest ∈ sd))
  then inr ("openid4vp: disclosure digest " +:+ digest +:+ " not in _sd array")
  else
    match DecodeString enc with
    | None => inr ("openid4vp: decode disclosure: " +:+ decode_error enc)
    | Some raw =>
        match unmarshal_array raw with
        | Some (_ :: name :: v :: _) =>
            match unmarshal_string name with
            | Some name => inl (name, v)
            | None => inr ("openid4vp: disclosure name is not a string: " +:+ string_error name)
            end
        | _ => inr "openid4vp: disclosure must be a JSON array with at least 3 elements"
        end
    end.

Fixpoint open_disclosures (sd : list string) (disclosed : gmap string json)
    (encs : list string) : gmap string json + string :=
  match encs with
  | [] => inl disclosed
  | enc :: encs =>
      match open_disclosure sd enc with
      | inr x => inr x
      | inl (name, v) => open_disclosures sd (<[name := v]> disclosed) encs
      end
  end.

Definition verified (claims : IssuerClaims) (disclosed : gmap string json) (now : instant) :
    VerifiedClaims :=
  {| CredentialID := issuer_CredentialID claims; DepositID := issuer_DepositID claims;
     PledgeDate := issuer_PledgeDate claims; StatutoryBasis := issuer_StatutoryBasis claims;
     IssuingBank := issuer_IssuingBank claims;
     DepositAmount := optFloat disclosed "deposit_amount";
     Currency := optString disclosed "currency";
     PropertyAddress := optString disclosed "property_address";
     TenantFirstName := optString disclosed "tenant_first_name";
     TenantLastName := optString disclosed "tenant_last_name";
     PledgedUntil := optString disclosed "pledged_until"; VerifiedAt := now |}.

Definition VerifyVpToken (vpToken expectedNonce responseURI : string) :
    prog (VerifiedClaims + string) :=
  let '(issuerJWT, parts) := token_parts vpToken in
  if String.eqb issuerJWT "" then mret (inr "openid4vp: missing issuer JWT in vp_token")
  else
    let '(kbJWT, disclosures) := take_apart parts in
    match verifyIssuerJWT issuerJWT with
    | inr err => mret (inr ("openid4vp: issuer JWT: " +:+ err))
    | inl claims =>
        now ← emit Now;
        if issuer_Exp claims <=? unix now
        then mret (inr "openid4vp: issuer JWT has expired")
        else
          match open_disclosures (issuer_SDHashes claims) ∅ disclosures with
          | inr x => mret (inr x)
          | inl disclosed =>
              bound ← (if String.eqb kbJWT "" then mret None
                       else verifyKbJWT kbJWT issuerJWT disclosures expectedNonce responseURI);
              match bound with
              | Some x => mret (inr x)
              | None => now ← emit Now; mret (inl (verified claims disclosed now))
              end
          end
    end.
End Service.

(** ** The form of an identifier *)

Definition is_dash (c : byte) : bool := Ascii.eqb c (Ascii.ascii_of_N 45).
Definition is_hex (c : byte) : bool :=
  existsb (fun n => Ascii.eqb c (GoStrings.hex_digit n)) (seqZ 0 16).
Definition is_four (c : byte) : bool := Ascii.eqb c (GoStrings.hex_digit 4).
Definition is_variant (c : byte) : bool :=
  existsb (fun n => Ascii.eqb c (GoStrings.hex_digit n)) [8; 9; 10; 11].

(** RFC 4122: version 4, variant 1. *)
Definition uuid_v4 : list (byte -> bool) :=
  replicate 8 is_hex ++ [is_dash] ++ replicate 4 is_hex ++ [is_dash; is_four] ++
  replicate 3 is_hex ++ [is_dash; is_variant] ++ replicate 3 is_hex ++ [is_dash] ++
  replicate 12 is_hex.

Fixpoint fits (s : string) (shape : list (byte -> bool)) : bool :=
  match s, shape with
  | EmptyString, [] => true
  | String c s, p :: shape => p c && fits s shape
  | _, _ => false
  end.

(** What holds of the bytes 0 to 255 holds of every byte. *)
Lemma all_bytes (P : Z -> bool) x : is_byte x -> forallb P (seqZ 0 256) = true -> P x = true.
Proof.
  intros Hx Hall. rewrite forallb_forall in Hall. apply Hall, list_elem_of_In, elem_of_seqZ.
  unfold is_byte in Hx. lia.
Qed.

Lemma hex_of_byte x : is_byte x ->
  is_hex (GoStrings.hex_digit (x / 16)) = true /\ is_hex (GoStrings.hex_digit (x mod 16)) = true.
Proof.
  intros Hx. apply andb_true_iff. apply (all_bytes (fun x => is_hex (GoStrings.hex_digit (x / 16)) &&
    is_hex (GoStrings.hex_digit (x mod 16)))); [done|]. by vm_compute.
Qed.

Lemma version_byte x : is_byte x -> let y := Z.lor (Z.land x 15) 64 in
  is_four (GoStrings.hex_digit (y / 16)) = true /\ is_hex (GoStrings.hex_digit (y mod 16)) = true.
Proof.
  intros Hx. apply andb_true_iff. apply (all_bytes (fun x => let y := Z.lor (Z.land x 15) 64 in
    is_four (GoStrings.hex_digit (y / 16)) && is_hex (GoStrings.hex_digit (y mod 16)))); [done|].
  by vm_compute.
Qed.

Lemma variant_byte x : is_byte x -> let y := Z.lor (Z.land x 63) 128 in
  is_variant (GoStrings.hex_digit (y / 16)) = true /\
  is_hex (GoStrings.hex_digit (y mod 16)) = true.
Proof.
  intros Hx. apply andb_true_iff. apply (all_bytes (fun x => let y := Z.lor (Z.land x 63) 128 in
    is_variant (GoStrings.hex_digit (y / 16)) && is_hex (GoStrings.hex_digit (y mod 16)))); [done|].
  by vm_compute.
Qed.

Lemma hex_digit_inj m n : 0 <= m < 16 -> 0 <= n < 16 ->
  GoStrings.hex_digit m = GoStrings.hex_digit n -> m = n.
Proof.
  intros Hm Hn E. apply (f_equal Ascii.N_of_ascii) in E. unfold GoStrings.hex_digit in E.
  rewrite !Ascii.N_ascii_embedding in E by (repeat case_match; lia).
  destruct (Z.ltb_spec m 10), (Z.ltb_spec n 10); lia.
Qed.

Lemma hex_pair x y : is_byte x -> is_byte y ->
  GoStrings.hex_digit (x / 16) = GoStrings.hex_digit (y / 16) ->
  GoStrings.hex_digit (x mod 16) = GoStrings.hex_digit (y mod 16) -> x = y.
Proof.
  unfold is_byte. intros Hx Hy E1%hex_digit_inj E2%hex_digit_inj; dlia.
Qed.

(** Lists of sixteen bytes. *)
Definition sixteen (b : list Z) : Prop := length b = 16%nat /\ Forall is_byte b.

Ltac sixteen_bytes b :=
  let Hlen := fresh in let Hb := fresh in
  intros [Hlen Hb]; do 16 (destruct b as [|? b]; [discriminate Hlen|]); destruct b; [|discriminate Hlen];
  clear Hlen; repeat match goal with H : Forall is_byte (_ :: _) |- _ =>
    apply Forall_cons in H as [? ?] end.

Lemma dashed_inj b b' : sixteen b -> sixteen b' -> dashed b = dashed b' -> b = b'.
Proof.
  sixteen_bytes b. sixteen_bytes b'. unfold dashed, slice.
  cbn -[Z.div Z.modulo GoStrings.hex_digit]. intros E. injection E. intros.
  by repeat f_equal; apply hex_pair.
Qed.

Lemma marked_byte k m x : In k [64; 128] -> In m [15; 63] -> is_byte x ->
  is_byte (Z.lor (Z.land x m) k).
Proof.
  intros Hk Hm Hx.
  pose proof (all_bytes (fun x => forallb (fun m => forallb (fun k =>
    (0 <=? Z.lor (Z.land x m) k) && (Z.lor (Z.land x m) k <? 256)) [64; 128]) [15; 63]) x Hx
    ltac:(vm_compute; reflexivity)) as H.
  rewrite forallb_forall in H. specialize (H m Hm).
  rewrite forallb_forall in H. specialize (H k Hk). unfold is_byte. lia.
Qed.

Lemma marked_sixteen b : sixteen b -> sixteen (set_variant (set_version b)).
Proof.
  sixteen_bytes b. split; [done|]. cbn -[Z.land Z.lor].
  repeat (apply Forall_cons; split; [first [assumption | apply marked_byte; cbn; auto]|]). done.
Qed.

(** C35: the nonce that newUUID makes of sixteen random bytes is a well-formed version 4 UUID
    (groups of 8, 4, 4, 4 and 12 hexadecimal digits, version digit 4, variant digit 8, 9, a or
    b), and no randomness is lost but the six bits that are overwritten: equal texts come from
    bytes that agree elsewhere. *)
Theorem newUUID_is_version_4 b b' :
  sixteen b -> sixteen b' ->
  fits (uuid_of b) uuid_v4 = true /\
  (uuid_of b = uuid_of b' -> set_variant (set_version b) = set_variant (set_version b')).
Proof.
  intros Hb Hb'. split; [|by apply dashed_inj; apply marked_sixteen]. clear Hb'. revert Hb.
  sixteen_bytes b. unfold uuid_of, dashed, slice.
  cbn -[is_hex is_four is_variant Z.land Z.lor Z.div Z.modulo].
  repeat match goal with Hx : is_byte ?x |- _ =>
    destruct (hex_of_byte x Hx), (version_byte x Hx), (variant_byte x Hx); clear Hx end.
  repeat (apply andb_true_iff; split; [done|]). done.
Qed.
End VpService.
