(* ===== verification/OidcValidator.v ===== *)
(** * Bearer tokens in the Go SDK: [sdk-examples/go/auth/validator.go]

    A bank's service checks the claims and scopes of an OIDC token.  The
    signature is a stub.  The texts of errors of the library are parameters. *)

From Stdlib Require Import Floats.SpecFloat.
From S2P Require Import Prelude Float64 Calendar Fmt Json Base64 JsonText Unmarshal StatusList.

Local Open Scope Z_scope.

Module OidcValidator.

(** ** Functions of package strings *)

(** [strings.TrimSuffix]. *)
Definition trim_suffix (s suffix : string) : string :=
  let n := (String.length s - String.length suffix)%nat in
  if String.eqb (String.substring n (String.length s - n) s) suffix
  then String.substring 0 n s else s.

(** [strings.TrimRight(s, "=")]. *)
Fixpoint trim_padding (s : string) : string :=
  match s with
  | EmptyString => EmptyString
  | String c s =>
      let s := trim_padding s in
      if String.eqb s "" && Ascii.eqb c (Ascii.ascii_of_N 61) then EmptyString else String c s
  end.

(** White space: the ASCII characters, and the UTF-8 sequences of the other
    space characters of Unicode. *)
Definition code (c : byte) : Z := Z.of_N (Ascii.N_of_ascii c).
Definition space1 (a : byte) : bool := (code a =? 32) || ((9 <=? code a) && (code a <=? 13)).
Definition space2 (a b : byte) : bool :=
  (code a =? 194) && ((code b =? 133) || (code b =? 160)).
Definition space3 (a b c : byte) : bool :=
  ((code a =? 225) && (code b =? 154) && (code c =? 128)) ||
  ((code a =? 226) && (code b =? 128) &&
     (((128 <=? code c) && (code c <=? 138)) || existsb (Z.eqb (code c)) [168; 169; 175])) ||
  ((code a =? 226) && (code b =? 129) && (code c =? 159)) ||
  ((code a =? 227) && (code b =? 128) && (code c =? 128)).

(** A field that has ended, if it has a character. *)
Definition flush (field : string) (l : list string) : list string :=
  if String.eqb field "" then l else field :: l.

(** [strings.Fields]; [field] is the field being read. *)
Fixpoint fields_from (field s : string) : list string :=
  match s with
  | EmptyString => flush field []
  | String a s1 =>
      if space1 a then flush field (fields_from "" s1)
      else
        match s1 with
        | EmptyString => flush (field +:+ String a "") []
        | String b s2 =>
            if space2 a b then flush field (fields_from "" s2)
            else
              match s2 with
              | EmptyString => fields_from (field +:+ String a "") s1
              | String c s3 =>
                  if space3 a b c then flush field (fields_from "" s3)
                  else fields_from (field +:+ String a "") s1
              end
        end
  end.
Definition Fields (s : string) : list string := fields_from "" s.

(** ** The validator *)

Record TokenClaims := {
  Subject : string;
  Issuer : string;
  Scopes : gset string;
  ExpiresAt : instant }.

Definition HasScope (c : TokenClaims) (scope : string) : bool := bool_decide (scope ∈ Scopes c).

Inductive validation_error :=
| TokenValidationError (msg : string)
| InsufficientScopeError (required : string) (present : list string).

Record OidcTokenValidator := { JWKSUri : string; ExpectedIssuer : string }.

Definition NewOidcTokenValidator (oidcDiscoveryURL : string) : OidcTokenValidator :=
  let issuer := trim_suffix oidcDiscoveryURL "/.well-known/openid-configuration" in
  {| JWKSUri := issuer +:+ "/.well-known/jwks.json"; ExpectedIssuer := issuer |}.

(** The payload's struct. *)
Record payload := {
  payload_Sub : string;
  payload_Iss : string;
  payload_Scope : string;
  payload_Exp : float64 }.

(** [json.Unmarshal] of the payload. *)
Definition unmarshal_payload (raw : list Z) : option payload :=
  l ← read_object raw;
  let '(sub, ok1) := read_field into_string "" "sub" l in
  let '(iss, ok2) := read_field into_string "" "iss" l in
  let '(scope, ok3) := read_field into_string "" "scope" l in
  let '(exp, ok4) := read_field into_float f64_zero "exp" l in
  if ok1 && ok2 && ok3 && ok4
  then Some {| payload_Sub := sub; payload_Iss := iss; payload_Scope := scope; payload_Exp := exp |}
  else None.

(** [errors.As] for the two types; neither wraps another error. *)
Definition IsTokenValidationError (err : validation_error) : bool :=
  match err with TokenValidationError _ => true | _ => false end.
Definition IsInsufficientScopeError (err : validation_error) : bool :=
  match err with InsufficientScopeError _ _ => true | _ => false end.

Section Validator.
(** The texts of a base64 error and of a payload that does not fit; [%q]; the
    conversion to int64 of a float outside its range, which is left to the
    implementation. *)
Context (decode_error : string -> string) (payload_error : list Z -> string)
        (quote : string -> string) (out_of_range : float64 -> Z).

(** [Error]; [%v] of a list puts spaces between its strings. *)
Definition error_text (err : validation_error) : string :=
  match err with
  | TokenValidationError msg => "auth: " +:+ msg
  | InsufficientScopeError required present =>
      "auth: required scope " +:+ quote required +:+ " not in token: [" +:+
      GoStrings.join present " " +:+ "]"
  end.

(** [int64(x)]: truncation. *)
Definition float_to_int64 (x : float64) : Z :=
  match x with
  | S754_zero _ => 0
  | S754_finite s m e =>
      let n := (if s then -1 else 1) * (Zpos m * 2 ^ Z.max e 0 / 2 ^ Z.max (- e) 0) in
      if (- 2 ^ 63 <=? n) && (n <? 2 ^ 63) then n else out_of_range x
  | _ => out_of_range x
  end.

Definition parseAndValidateClaims (v : OidcTokenValidator) (now : instant) (jwt : string) :
    TokenClaims + validation_error :=
  let invalid msg := inr (TokenValidationError msg) in
  match GoStrings.split_n 3 (Ascii.ascii_of_N 46) jwt with
  | [_; part; _] =>
      match DecodeString (trim_padding part) with
      | None => invalid ("base64 decode: " +:+ decode_error (trim_padding part))
      | Some payloadRaw =>
          match unmarshal_payload payloadRaw with
          | None => invalid ("json parse: " +:+ payload_error payloadRaw)
          | Some p =>
              if String.eqb (payload_Sub p) "" then invalid "missing claim: sub"
              else if String.eqb (payload_Iss p) "" then invalid "missing claim: iss"
              else if f64_eq (payload_Exp p) f64_zero then invalid "missing claim: exp"
              else if negb (String.eqb (payload_Iss p) (ExpectedIssuer v))
              then invalid ("unexpected issuer: " +:+ quote (payload_Iss p))
              else
                let exp := float_to_int64 (payload_Exp p) in
                if exp <? now / second
                then invalid ("token expired at epoch " +:+ fmt_d exp)
                else
                  inl {| Subject := payload_Sub p; Issuer := payload_Iss p;
                         Scopes := list_to_set (Fields (payload_Scope p));
                         ExpiresAt := exp * second |}
          end
      end
  | parts =>
      invalid ("malformed JWT: expected 3 parts, got " +:+ fmt_d (Z.of_nat (length parts)))
  end.

(** The first required scope that is missing; a Go map is listed in any
    order. *)
Fixpoint checkScopes (claims : TokenClaims) (required : list string) : option validation_error :=
  match required with
  | [] => None
  | scope :: required =>
      if HasScope claims scope then checkScopes claims required
      else Some (InsufficientScopeError scope (elements (Scopes claims)))
  end.

Definition ValidateToken (v : OidcTokenValidator) (now : instant) (bearerToken : string)
    (requiredScopes : list string) : TokenClaims + validation_error :=
  let token := GoStrings.trim_prefix bearerToken "Bearer " in
  match parseAndValidateClaims v now token with
  | inr err => inr err
  | inl claims =>
      match checkScopes claims requiredScopes with
      | Some err => inr err
      | None => inl claims
      end
  end.

(** ** What a valid token means *)

Lemma checkScopes_spec claims required :
  checkScopes claims required = None <-> Forall (fun s => s ∈ Scopes claims) required.
Proof.
  induction required as [|s required IH]; cbn; [by split|]. rewrite Forall_cons, <-IH.
  unfold HasScope. case_bool_decide; naive_solver.
Qed.

Lemma three_parts header part sig :
  GoStrings.free_of (Ascii.ascii_of_N 46) header = true ->
  GoStrings.free_of (Ascii.ascii_of_N 46) part = true ->
  GoStrings.split_n 3 (Ascii.ascii_of_N 46) (header +:+ "." +:+ part +:+ "." +:+ sig) =
    [header; part; sig].
Proof.
  intros Hh Hp.
  change (header +:+ "." +:+ part +:+ "." +:+ sig) with
    (header +:+ String (Ascii.ascii_of_N 46) (part +:+ String (Ascii.ascii_of_N 46) sig)).
  rewrite !GoStrings.split_n_app by (done || lia). by rewrite GoStrings.split_n_last.
Qed.

(** A token that is accepted names a subject and the expected issuer, has not expired, and carries
    the required scopes; and only the payload matters: the same payload under any header and
    signature is accepted too. *)
Theorem valid_token_grants_its_scopes v now header part sig header' sig' required claims :
  GoStrings.free_of (Ascii.ascii_of_N 46) header = true ->
  GoStrings.free_of (Ascii.ascii_of_N 46) header' = true ->
  GoStrings.free_of (Ascii.ascii_of_N 46) part = true ->
  ValidateToken v now ("Bearer " +:+ header +:+ "." +:+ part +:+ "." +:+ sig) required = inl claims ->
  Subject claims <> "" /\ Issuer claims = ExpectedIssuer v /\ now < ExpiresAt claims + second /\
  Forall (fun s => s ∈ Scopes claims) required /\
  ValidateToken v now ("Bearer " +:+ header' +:+ "." +:+ part +:+ "." +:+ sig') required =
    inl claims.
Proof.
  intros Hh Hh' Hp. unfold ValidateToken. rewrite !GoStrings.trim_prefix_app.
  unfold parseAndValidateClaims. rewrite !three_parts by done.
  intros Hv. assert (Hv' := Hv). revert Hv.
  destruct (DecodeString _) as [raw|]; [|done]. destruct (unmarshal_payload raw) as [p|]; [|done].
  destruct (String.eqb_spec (payload_Sub p) ""); [done|].
  destruct (String.eqb (payload_Iss p) ""); [done|].
  destruct (f64_eq (payload_Exp p) f64_zero); [done|].
  destruct (String.eqb_spec (payload_Iss p) (ExpectedIssuer v)); [|done]. cbn [negb].
  destruct (Z.ltb_spec (float_to_int64 (payload_Exp p)) (now / second)); [done|].
  destruct (checkScopes _ required) eqn:Hs; [done|]. apply checkScopes_spec in Hs.
  intros [= <-]. cbn. split_and!; try done. unfold second in *. dlia.
Qed.
End Validator.
End OidcValidator.
