(* ===== verification/EidWebhook.v ===== *)
(** * Electronic identity in the Go SDK: [sdk-examples/go/eid/service.go],
      [webhook.go], [models.go]

    A bank starts a verification at the eID provider, receives its signed
    webhook, and reports the result to the deposit server.  HTTP, the parsing
    of RFC 3339 times, the quoting of strings and the texts of errors are
    parameters. *)

From S2P Require Import Prelude Calendar Fmt Json JsonText Unmarshal Sha256.

Local Open Scope Z_scope.

Module Eid.

(** ** Data *)

Abbreviation EIDStatus := string (only parsing).
Definition EIDStatusNotStarted : EIDStatus := "NOT_STARTED".
Definition EIDStatusPending : EIDStatus := "PENDING".
Definition EIDStatusVerified : EIDStatus := "VERIFIED".
Definition EIDStatusFailed : EIDStatus := "FAILED".
Definition EIDStatusExpired : EIDStatus := "EXPIRED".

Record VerificationRequest := {
  request_DepositID : string;
  request_TenantEmail : string;
  request_RedirectURI : string;
  request_ClientID : string }.

Record VerificationSession := {
  session_SessionID : string;
  session_AuthorizationURL : string;
  session_ExpiresAt : instant }.

Record KYCUpdatePayload := {
  kyc_EIDStatus : EIDStatus;
  kyc_VerificationTimestamp : instant;
  kyc_ProviderReference : string }.

Record WebhookEvent := {
  event_SessionID : string;
  event_DepositID : string;
  event_Status : EIDStatus;
  event_ProviderReference : string;
  event_CompletedAt : instant;
  event_ErrorCode : string }.

(** ** The service *)

(** A request, and what the HTTP client returns for it: an error, or a status
    with the two strings that decoding the body left. *)
Record http_request := {
  http_method : string;
  http_url : string;
  http_authorization : string;
  http_body : string }.

Inductive http_result :=
| HttpFailed (err : string)
| HttpDone (status : Z) (session_id authorization_url : string).

Section Service.
(** [http.NewRequestWithContext] fails on some URLs; [%q]. *)
Context (bad_request : http_request -> option string) (quote : string -> string).
Context (eidProviderBaseURL xmieteAPIBaseURL : string).

Definition q : string := GoStrings.dquote.

Definition session_body (req : VerificationRequest) : string :=
  "{" +:+ q +:+ "client_id" +:+ q +:+ ":" +:+ quote (request_ClientID req) +:+ "," +:+
  q +:+ "deposit_id" +:+ q +:+ ":" +:+ quote (request_DepositID req) +:+ "," +:+
  q +:+ "tenant_email" +:+ q +:+ ":" +:+ quote (request_TenantEmail req) +:+ "," +:+
  q +:+ "redirect_uri" +:+ q +:+ ":" +:+ quote (request_RedirectURI req) +:+ "," +:+
  q +:+ "scope" +:+ q +:+ ":" +:+ q +:+ "openid eid" +:+ q +:+ "}".

(** [do] is the HTTP client; [now] the clock at the end. *)
Definition InitiateVerification (do_ : http_request -> http_result) (now : instant)
    (req : VerificationRequest) : VerificationSession + string :=
  let r := {| http_method := "POST"; http_url := eidProviderBaseURL +:+ "/sessions";
              http_authorization := ""; http_body := session_body req |} in
  match bad_request r with
  | Some err => inr ("eid: build session request: " +:+ err)
  | None =>
      match do_ r with
      | HttpFailed err => inr ("eid: provider request: " +:+ err)
      | HttpDone status sessionID authorizationURL =>
          if negb (status =? 201)
          then inr ("eid: provider returned HTTP " +:+ fmt_d status)
          else
            inl {| session_SessionID :=
                     if String.eqb sessionID "" then request_DepositID req +:+ "-session"
                     else sessionID;
                   session_AuthorizationURL :=
                     if String.eqb authorizationURL ""
                     then eidProviderBaseURL +:+ "/authorize?deposit_id=" +:+ request_DepositID req
                     else authorizationURL;
                   session_ExpiresAt := add now (15 * minute) |}
      end
  end.

Definition kyc_body (p : KYCUpdatePayload) : string :=
  "{" +:+ q +:+ "eid_status" +:+ q +:+ ":" +:+ quote (kyc_EIDStatus p) +:+ "," +:+
  q +:+ "verification_timestamp" +:+ q +:+ ":" +:+
    quote (format_rfc3339 (kyc_VerificationTimestamp p)) +:+ "," +:+
  q +:+ "provider_reference" +:+ q +:+ ":" +:+ quote (kyc_ProviderReference p) +:+ "}".

Definition kyc_request (depositID : string) (p : KYCUpdatePayload) (bearerToken : string) :
    http_request :=
  {| http_method := "PATCH";
     http_url := xmieteAPIBaseURL +:+ "/deposits/" +:+ depositID +:+ "/identity";
     http_authorization := "Bearer " +:+ bearerToken; http_body := kyc_body p |}.

(** [None] is success. *)
Definition UpdateDepositKYCStatus (do_ : http_request -> http_result) (depositID : string)
    (p : KYCUpdatePayload) (bearerToken : string) : option string :=
  let r := kyc_request depositID p bearerToken in
  match bad_request r with
  | Some err => Some ("eid: build kyc request: " +:+ err)
  | None =>
      match do_ r with
      | HttpFailed err => Some ("eid: xmiete api request: " +:+ err)
      | HttpDone status _ _ =>
          if negb (status =? 200) && negb (status =? 204)
          then Some ("eid: kyc update failed: HTTP " +:+ fmt_d status)
          else None
      end
  end.
End Service.

(** ** The webhook *)

Inductive webhook_error :=
| ErrMissingSignature
| ErrSignatureMismatch
| ErrMissingFields
| ErrUnknownStatus (status : string)
| ErrParse (err : string).

(** What a webhook sets off: in the background, the update of a deposit and then
    the callback; or the callback at once. *)
Inductive effect :=
| UpdateKYC (depositID : string) (p : KYCUpdatePayload) (bearerToken : string)
    (onComplete : option WebhookEvent)
| OnComplete (event : WebhookEvent).

(** The struct the body is read into. *)
Record raw_event := {
  raw_SessionID : string;
  raw_DepositID : string;
  raw_Status : string;
  raw_ProviderReference : string;
  raw_CompletedAt : string;
  raw_ErrorCode : string }.

(** [json.Unmarshal] of the body. *)
Definition unmarshal_event (data : list Z) : option raw_event :=
  l ← read_object data;
  let '(session_id, ok1) := read_field into_string "" "session_id" l in
  let '(deposit_id, ok2) := read_field into_string "" "deposit_id" l in
  let '(status, ok3) := read_field into_string "" "status" l in
  let '(provider_reference, ok4) := read_field into_string "" "provider_reference" l in
  let '(completed_at, ok5) := read_field into_string "" "completed_at" l in
  let '(error_code, ok6) := read_field into_string "" "error_code" l in
  if ok1 && ok2 && ok3 && ok4 && ok5 && ok6
  then Some {| raw_SessionID := session_id; raw_DepositID := deposit_id; raw_Status := status;
               raw_ProviderReference := provider_reference; raw_CompletedAt := completed_at;
               raw_ErrorCode := error_code |}
  else None.

Section Webhook.
(** The text of its error; [time.Parse(time.RFC3339, s)]. *)
Context (body_error : list Z -> string) (parse_rfc3339 : string -> option instant).
(** The handler's bearer token, and whether it has a callback. *)
Context (bearerToken : string) (onComplete : bool).

Definition verifyHMAC (body : list Z) (signature secret : string) : option webhook_error :=
  if String.eqb signature "" then Some ErrMissingSignature
  else if negb (String.eqb (GoStrings.hex (hmac (GoStrings.bytes_of secret) body)) signature)
  then Some ErrSignatureMismatch
  else None.

Definition known_statuses : list EIDStatus :=
  [EIDStatusNotStarted; EIDStatusPending; EIDStatusVerified; EIDStatusFailed; EIDStatusExpired].

Definition parseWebhookEvent (now : instant) (data : list Z) : WebhookEvent + webhook_error :=
  match unmarshal_event data with
  | None => inr (ErrParse (body_error data))
  | Some raw =>
      if String.eqb (raw_DepositID raw) "" || String.eqb (raw_Status raw) ""
      then inr ErrMissingFields
      else if negb (existsb (String.eqb (raw_Status raw)) known_statuses)
      then inr (ErrUnknownStatus (raw_Status raw))
      else
        let completedAt :=
          if String.eqb (raw_CompletedAt raw) "" then now
          else default now (parse_rfc3339 (raw_CompletedAt raw)) in
        inl {| event_SessionID := raw_SessionID raw; event_DepositID := raw_DepositID raw;
               event_Status := raw_Status raw;
               event_ProviderReference := raw_ProviderReference raw;
               event_CompletedAt := completedAt; event_ErrorCode := raw_ErrorCode raw |}
  end.

Definition callback (event : WebhookEvent) : option WebhookEvent :=
  if onComplete then Some event else None.

Definition dispatch (event : WebhookEvent) : list effect :=
  if String.eqb (event_Status event) EIDStatusVerified
  then [UpdateKYC (event_DepositID event)
          {| kyc_EIDStatus := EIDStatusVerified;
             kyc_VerificationTimestamp := event_CompletedAt event;
             kyc_ProviderReference := event_ProviderReference event |}
          bearerToken (callback event)]
  else if String.eqb (event_Status event) EIDStatusFailed ||
          String.eqb (event_Status event) EIDStatusExpired
  then match callback event with Some event => [OnComplete event] | None => [] end
  else [].

(** The error returned, and what was set off. *)
Definition HandleWebhook (now : instant) (rawBody : list Z) (signature webhookSecret : string) :
    option webhook_error * list effect :=
  match verifyHMAC rawBody signature webhookSecret with
  | Some err => (Some err, [])
  | None =>
      match parseWebhookEvent now rawBody with
      | inr err => (Some err, [])
      | inl event => (None, dispatch event)
      end
  end.

(** A webhook of the eID provider sets off an update of a deposit only if its signature is
    the non-empty hex HMAC of the very body under the webhook secret, the body parses, names
    that deposit and says VERIFIED; the update carries the provider's reference, the status
    VERIFIED and the handler's own bearer token. *)
Theorem webhook_updates_only_verified now rawBody signature webhookSecret id p token cb :
  UpdateKYC id p token cb ∈ (HandleWebhook now rawBody signature webhookSecret).2 ->
  signature = GoStrings.hex (hmac (GoStrings.bytes_of webhookSecret) rawBody) /\
  signature <> "" /\ (HandleWebhook now rawBody signature webhookSecret).1 = None /\
  exists raw, unmarshal_event rawBody = Some raw /\ raw_Status raw = EIDStatusVerified /\
    raw_DepositID raw = id /\ id <> "" /\ kyc_EIDStatus p = EIDStatusVerified /\
    kyc_ProviderReference p = raw_ProviderReference raw /\ token = bearerToken.
Proof.
  unfold HandleWebhook, verifyHMAC. destruct (String.eqb_spec signature "") as [|Hne];
    [by intros ?%elem_of_nil|].
  destruct (String.eqb_spec (GoStrings.hex (hmac (GoStrings.bytes_of webhookSecret) rawBody))
    signature) as [Hs|]; [cbn [negb]|by intros ?%elem_of_nil].
  unfold parseWebhookEvent. destruct (unmarshal_event rawBody) as [raw|];
    [|by intros ?%elem_of_nil].
  destruct (String.eqb_spec (raw_DepositID raw) "") as [|Hid]; [by intros ?%elem_of_nil|].
  destruct (String.eqb_spec (raw_Status raw) ""); [by intros ?%elem_of_nil|].
  destruct (existsb _ _); [cbn [negb orb]|by intros ?%elem_of_nil].
  unfold dispatch. cbn [event_Status].
  destruct (String.eqb_spec (raw_Status raw) EIDStatusVerified) as [Hv|].
  - intros [= -> -> -> _]%list_elem_of_singleton. split_and!; [done..|].
    exists raw. by split_and!.
  - destruct (_ || _); [|by intros ?%elem_of_nil].
    destruct (callback _); [by intros ?%list_elem_of_singleton|by intros ?%elem_of_nil].
Qed.
End Webhook.
End Eid.
