(* ===== verification/Discovery.v ===== *)
(** * What the issuer publishes about itself: [IssuerMetadata] and [JWKS] of
      [internal/api/issuer_handlers.go]

    The documents a wallet or a verifier discovers: endpoints, the credential's
    claims, and the public key. *)

From S2P Require Import Prelude Base64.

Local Open Scope Z_scope.

(** ** The metadata *)

Record display := {
  display_Name : string;
  display_Locale : string;
  display_Description : string }.

Record claimMeta := {
  claimMeta_Display : list display;
  claimMeta_Mandatory : bool;
  claimMeta_SD : bool }.

Record credConfig := {
  credConfig_Format : string;
  credConfig_VCT : string;
  credConfig_Scope : string;
  credConfig_CryptographicBindingMethods : list string;
  credConfig_CredentialSigningAlgValues : list string;
  credConfig_ProofTypesSupported : gmap string (list string);   (* signing algorithms *)
  credConfig_Display : list display;
  credConfig_Claims : gmap string claimMeta }.

Record metadata := {
  metadata_CredentialIssuer : string;
  metadata_CredentialEndpoint : string;
  metadata_TokenEndpoint : string;
  metadata_JWKsURI : string;
  metadata_CredentialConfigurationsSupported : gmap string credConfig }.

Definition german (name : string) (mandatory sd : bool) : claimMeta :=
  {| claimMeta_Display :=
       [{| display_Name := name; display_Locale := "de-DE"; display_Description := "" |}];
     claimMeta_Mandatory := mandatory; claimMeta_SD := sd |}.

Definition claims_metadata : gmap string claimMeta :=
  list_to_map
    [("deposit_amount", german "Kautionsbetrag" true true);
     ("currency", german "Währung" true true);
     ("pledge_date", german "Verpfändungsdatum" true false);
     ("pledged_until", german "Verpfändet bis" false true);
     ("statutory_basis", german "Rechtsgrundlage" true false);
     ("issuing_bank", german "Ausstellende Bank" true false);
     ("property_address", german "Mietobjekt-Adresse" false true);
     ("tenant_first_name", german "Vorname Mieter" false true);
     ("tenant_last_name", german "Nachname Mieter" false true)].

Definition attestation_config : credConfig :=
  {| credConfig_Format := "vc+sd-jwt"; credConfig_VCT := "DepositPledgeAttestation";
     credConfig_Scope := "DepositPledgeAttestation";
     credConfig_CryptographicBindingMethods := ["did:key"; "jwk"];
     credConfig_CredentialSigningAlgValues := ["ES256"];
     credConfig_ProofTypesSupported := {["jwt" := ["ES256"; "RS256"]]};
     credConfig_Display :=
       [{| display_Name := "Deposit Pledge Attestation"; display_Locale := "de-DE";
           display_Description :=
             "Bestätigung einer rechtssicheren Mietkautionsverpfändung nach BGB § 551" |};
        {| display_Name := "Deposit Pledge Attestation"; display_Locale := "en-US";
           display_Description :=
             "Confirmation of a legally binding rental deposit pledge under BGB § 551" |}];
     credConfig_Claims := claims_metadata |}.

Definition issuer_metadata (base : string) : metadata :=
  {| metadata_CredentialIssuer := base;
     metadata_CredentialEndpoint := base +:+ "/v1/credential";
     metadata_TokenEndpoint := base +:+ "/v1/token";
     metadata_JWKsURI := base +:+ "/.well-known/jwks.json";
     metadata_CredentialConfigurationsSupported :=
       {["DepositPledgeAttestation" := attestation_config]} |}.

(** ** The published key *)

(** [big.Int.Bytes]: big-endian, without leading zeros. *)
Fixpoint big_bytes (fuel : nat) (n : Z) (acc : list Z) : list Z :=
  match fuel with
  | O => acc
  | S fuel => if n <=? 0 then acc else big_bytes fuel (n / 256) (n mod 256 :: acc)
  end.

(** [encodeCoord] on a coordinate of a curve of [BitSize] bits; [None] is the
    panic of a slice index below zero. *)
Definition encodeCoord (BitSize : Z) (n : Z) : option string :=
  let size := (BitSize + 7) / 8 in
  let bs := big_bytes (Z.to_nat (Z.log2 n / 8 + 1)) n [] in
  if size <? Z.of_nat (length bs) then None
  else Some (EncodeToString
               (replicate (Z.to_nat (size - Z.of_nat (length bs))) 0 ++ bs)).

Record jwk := {
  jwk_KTY : string; jwk_CRV : string; jwk_KID : string; jwk_Use : string;
  jwk_Alg : string; jwk_X : string; jwk_Y : string }.

(** The key set of [JWKS] for a P-256 public key [(x, y)]. *)
Definition key_set (KeyID : string) (x y : Z) : option (list jwk) :=
  ex ← encodeCoord 256 x;
  ey ← encodeCoord 256 y;
  Some [{| jwk_KTY := "EC"; jwk_CRV := "P-256"; jwk_KID := KeyID; jwk_Use := "sig";
           jwk_Alg := "ES256"; jwk_X := ex; jwk_Y := ey |}].
