(* ===== verification/Handlers.v ===== *)
(** * The deposit handlers: [internal/api/handlers.go]

    One program per handler, in the order of the Go file, every guard and
    early return included.  A request body is what decoding left: a value and
    whether [Decode] reported an error; file Bodies decodes the texts. *)

From S2P Require Import Prelude Float64 Calendar Fmt Models JsonModels Json Statemachine.
From S2P Require Import Runtime Repository Sessions StatusList Server Validator VpSessions.
From S2P Require Import Discovery Presentation Receipt.

Local Open Scope Z_scope.

(** ** Responses *)

Definition StatusOK : Z := 200.
Definition StatusCreated : Z := 201.
Definition StatusBadRequest : Z := 400.
Definition StatusUnauthorized : Z := 401.
Definition StatusNotFound : Z := 404.
Definition StatusConflict : Z := 409.
Definition StatusGone : Z := 410.
Definition StatusUnprocessableEntity : Z := 422.
Definition StatusInternalServerError : Z := 500.

Record issueCredentialResponse := {
  issue_SessionID : string;
  issue_CredentialOfferURL : string;
  issue_QRCodePayload : string;
  issue_ExpiresAt : instant }.
Record credentialOffer := {
  offer_CredentialIssuer : string;
  offer_CredentialConfigurationIDs : list string;
  offer_PreAuthorizedCode : string }.
Record tokenResponse := {
  token_AccessToken : string;
  token_TokenType : string;
  token_ExpiresIn : Z;
  token_CNonce : string;
  token_CNonceExpiresIn : Z }.
Record statusResponse := {
  status_CredentialID : string;
  status_Status : string;
  status_CheckedAt : string }.
Record statusListResponse := {
  statusList_ID : string;
  statusList_Type : string;
  statusList_Credential : string }.
Record vpRequestResponse := {
  vpResp_SessionID : string;
  vpResp_VpRequest : VpRequest;
  vpResp_DeepLink : string;
  vpResp_ExpiresAt : instant }.

Inductive payload :=
| PError (e : ErrorResponse)
| PDeposit (d : Deposit)
| PIssue (r : issueCredentialResponse)
| POffer (r : credentialOffer)
| PToken (r : tokenResponse)
| PCredential (sdJWT : string)
| PStatus (r : statusResponse)
| PStatusList (r : statusListResponse)
| PVpRequest (r : vpRequestResponse)
| PVerified (c : VerifiedClaims)
| PReport (r : Report)
| PMetadata (m : metadata)
| PJwks (keys : list jwk)
| PAuthError (msg : string)
| PHealth
| PPdf (filename : string) (bytes : string).

Record response := { status : Z; body : payload }.

(** A handler's last action. *)
Definition writeJSON (s : Z) (v : payload) : prog response :=
  mret {| status := s; body := v |}.
Definition writeError (s : Z) (msg code : string) : prog response :=
  writeJSON s (PError {| ErrorResponse_Error := msg; ErrorResponse_Code := code |}).

(** The PDF handlers write their headers and the document themselves. *)
Definition writePDF (filename bytes : string) : prog response :=
  mret {| status := StatusOK; body := PPdf filename bytes |}.

(** What [json.NewDecoder(r.Body).Decode(&v)] leaves in [v], and its error. *)
Record decoded (A : Type) := { value : A; decode_failed : bool }.
Arguments value {A}. Arguments decode_failed {A}.

(** ** Shared fragments of the handlers *)

(** The decode and its early return. *)
Definition decode {A} (r : decoded A) (k : A -> prog response) : prog response :=
  if decode_failed r then writeError StatusBadRequest "invalid JSON" "BAD_REQUEST"
  else k (value r).

(** [s.repo.GetByID] with its two early returns. *)
Definition fetch (id : string) (k : Deposit -> prog response) : prog response :=
  r ← try (RepoGetByID id);
  match r with
  | inr ErrNotFound => writeError StatusNotFound "deposit not found" "NOT_FOUND"
  | inr _ => writeError StatusInternalServerError "failed to fetch deposit" "INTERNAL_ERROR"
  | inl d => k d
  end.

(** [statemachine.Transition] with its early return. *)
Definition transition (current next : LifecycleState) (k : prog response) : prog response :=
  match Transition current next with
  | (_, Some err) =>
      writeError StatusConflict (ErrInvalidTransition_Error err) "INVALID_TRANSITION"
  | (_, None) => k
  end.

(** [s.repo.UpdateState] with its early return. *)
Definition update (id : string) (ns : LifecycleState) (en : HistoryEntry) (p : patch_fn)
    (k : Deposit -> prog response) : prog response :=
  r ← try (RepoUpdateState id ns en p);
  match r with
  | inr _ => writeError StatusInternalServerError "failed to update deposit" "INTERNAL_ERROR"
  | inl d => k d
  end.

Definition entry (st : LifecycleState) (actor comment : string) : HistoryEntry :=
  {| HistoryEntry_State := st; HistoryEntry_Timestamp := zero_time;
     HistoryEntry_Actor := actor; HistoryEntry_Comment := comment;
     HistoryEntry_Signature := "" |}.

Section Handlers.
Context (webhookURL : string).

(** ** Background tasks *)

Definition fireWebhook (d : Deposit) : prog unit :=
  if String.eqb webhookURL "" then mret tt
  else
    t ← emit Now;
    let event := {| WebhookEvent_EventType := "deposit.status_changed";
                    WebhookEvent_DepositID := Deposit_ID d;
                    WebhookEvent_NewState := lifecycle d;
                    WebhookEvent_Timestamp := t;
                    WebhookEvent_CredentialOfferURL := "" |} in
    match venc WebhookEvent_codec event with
    | None => mret tt
    | Some _ => emit (Spawn (PostWebhook event))
    end.

Definition sendReceiptEmail (d : Deposit) : prog unit := emit (Spawn (MailReceipt d)).
Definition sendReleaseReceiptEmail (d : Deposit) : prog unit :=
  emit (Spawn (MailReleaseReceipt d)).

(** ** Creation and reading *)

Definition CreateDeposit (r : decoded Deposit) : prog response :=
  decode r (fun d =>
  let t := Deposit_Tenant d in
  if String.eqb (Tenant_FirstName t) "" || String.eqb (Tenant_LastName t) "" ||
     String.eqb (Tenant_Email t) ""
  then writeError StatusBadRequest "tenant first_name, last_name and email are required"
         "VALIDATION_ERROR"
  else if String.eqb (Landlord_Name (Deposit_Landlord d)) ""
  then writeError StatusBadRequest "landlord name is required" "VALIDATION_ERROR"
  else if f64_le (DepositData_Amount (Deposit_Deposit d)) f64_zero ||
          String.eqb (DepositData_Type (Deposit_Deposit d)) ""
  then writeError StatusBadRequest "deposit amount and type are required" "VALIDATION_ERROR"
  else
    let d := if String.eqb (Meta_Version (Deposit_Meta d)) ""
             then set_Meta (set_Version "2.0.0" (Deposit_Meta d)) d else d in
    let d := if String.eqb (DepositData_Currency (Deposit_Deposit d)) ""
             then set_DepositData (set_Currency "EUR" (Deposit_Deposit d)) d else d in
    r ← try (RepoCreate d);
    match r with
    | inr _ => writeError StatusInternalServerError "failed to create deposit" "INTERNAL_ERROR"
    | inl created => writeJSON StatusCreated (PDeposit created)
    end).

Definition GetDeposit (id : string) : prog response :=
  fetch id (fun d => writeJSON StatusOK (PDeposit d)).

(** ** Identity and pledge *)

Definition patch_identity (req : IdentityUpdateRequest) (d : Deposit) : option Deposit :=
  let t := set_EIDStatus (IdentityUpdateRequest_EIDStatus req) (Deposit_Tenant d) in
  let t := match IdentityUpdateRequest_WalletMetadata req with
           | Some w => set_WalletMetadata (Some w) t
           | None => t
           end in
  Some (set_Tenant t d).

Definition UpdateIdentity (id : string) (r : decoded IdentityUpdateRequest) : prog response :=
  decode r (fun req =>
  if String.eqb (IdentityUpdateRequest_EIDStatus req) ""
  then writeError StatusBadRequest "eid_status is required" "VALIDATION_ERROR"
  else
    fetch id (fun current =>
    let '(nextState, transitions) :=
      StateForIdentityUpdate (IdentityUpdateRequest_EIDStatus req) in
    if negb transitions then writeJSON StatusOK (PDeposit current)
    else
      transition (lifecycle current) nextState (
      update id nextState (entry nextState "IDENTITY_PROVIDER" "")
        (Some (patch_identity req)) (fun updated =>
      _ ← fireWebhook updated;
      writeJSON StatusOK (PDeposit updated))))).

Definition patch_pledge (req : PledgeRequest) (d : Deposit) : option Deposit :=
  Some (set_Pledge (Some {| Pledge_PledgeDate := PledgeRequest_PledgeDate req;
                            Pledge_StatutoryBasis := "BGB § 551";
                            Pledge_IsConfirmedByBank := true |}) d).

Definition Pledge (id : string) (r : decoded PledgeRequest) : prog response :=
  decode r (fun req =>
  if String.eqb (PledgeRequest_PledgeDate req) "" || negb (PledgeRequest_IsConfirmedByBank req)
  then writeError StatusBadRequest
         "pledge_date and is_confirmed_by_bank=true are required" "VALIDATION_ERROR"
  else
    fetch id (fun current =>
    transition (lifecycle current) StatePledged (
    update id StatePledged (entry StatePledged "BANK" "")
      (Some (patch_pledge req)) (fun updated =>
    _ ← fireWebhook updated;
    _ ← sendReceiptEmail updated;
    writeJSON StatusOK (PDeposit updated))))).

(** ** Release and claim *)

(** The body is decoded, its error ignored, and its value never used. *)
Definition Release (id : string) (r : decoded ReleaseRequest) : prog response :=
  fetch id (fun current =>
  transition (lifecycle current) StateReleased (
  update id StateReleased (entry StateReleased "LANDLORD" "") None (fun updated =>
  _ ← emit (SessRevoke id);
  _ ← fireWebhook updated;
  _ ← sendReleaseReceiptEmail updated;
  writeJSON StatusOK (PDeposit updated)))).

Definition Claim (id : string) (r : decoded ClaimRequest) : prog response :=
  decode r (fun req =>
  if f64_le (ClaimRequest_ClaimAmount req) f64_zero ||
     String.eqb (ClaimRequest_Reason req) ""
  then writeError StatusBadRequest "claim_amount and reason are required" "VALIDATION_ERROR"
  else
    fetch id (fun current =>
    transition (lifecycle current) StateClaimed (
    update id StateClaimed (entry StateClaimed "LANDLORD" (ClaimRequest_Reason req)) None
      (fun updated =>
    _ ← fireWebhook updated;
    writeJSON StatusOK (PDeposit updated))))).

(** ** Receipts *)

(** The PDF library decides whether a document can be rendered. *)
Context (lib : Receipt.fpdf).

Definition receipt_states : list LifecycleState :=
  [StatePledged; StateReleased; StateClaimed; StatePartiallyReleased; StateSettleProposed;
   StateDisputed; StateClosed].

Definition GetReceipt (id : string) : prog response :=
  fetch id (fun d =>
  if existsb (String.eqb (lifecycle d)) receipt_states
  then
    pdf ← Receipt.Generate lib d;
    match pdf with
    | None => writeError StatusInternalServerError "failed to generate receipt" "INTERNAL_ERROR"
    | Some pdf => writePDF ("receipt-" +:+ id +:+ ".pdf") pdf
    end
  else writeError StatusConflict
         ("receipt not available in state " +:+ lifecycle d +:+
          " — deposit must be PLEDGED first") "RECEIPT_NOT_AVAILABLE").

Definition GetReleaseReceipt (id : string) : prog response :=
  fetch id (fun d =>
  if existsb (String.eqb (lifecycle d)) [StateReleased; StateClosed]
  then
    pdf ← Receipt.GenerateReleaseReceipt lib d;
    match pdf with
    | None => writeError StatusInternalServerError "failed to generate release receipt"
                "INTERNAL_ERROR"
    | Some pdf => writePDF ("release-receipt-" +:+ id +:+ ".pdf") pdf
    end
  else writeError StatusConflict
         ("release receipt not available in state " +:+ lifecycle d +:+
          " — deposit must be RELEASED first") "RELEASE_RECEIPT_NOT_AVAILABLE").

(** ** Settlement *)

(** The loop of [Settle]: the running total and the stored items, [i] counts
    from zero. *)
Definition claim_item (i : Z) (inp : ClaimItemInput) : ClaimItem :=
  {| ClaimItem_ID := "item-" +:+ fmt_d (i + 1);
     ClaimItem_Category := ClaimItemInput_Category inp;
     ClaimItem_Description := ClaimItemInput_Description inp;
     ClaimItem_AmountClaimed := ClaimItemInput_AmountClaimed inp;
     ClaimItem_EvidenceRefs := ClaimItemInput_EvidenceRefs inp;
     ClaimItem_RoomOrArea := ClaimItemInput_RoomOrArea inp |}.

Fixpoint claim_items (i : Z) (total : float64) (l : list ClaimItemInput) :
    float64 * list ClaimItem :=
  match l with
  | [] => (total, [])
  | inp :: l =>
      let '(total, items) := claim_items (i + 1) (f64_add total (ClaimItemInput_AmountClaimed inp)) l in
      (total, claim_item i inp :: items)
  end.

Definition invalid_item (inp : ClaimItemInput) : bool :=
  f64_le (ClaimItemInput_AmountClaimed inp) f64_zero ||
  String.eqb (ClaimItemInput_Description inp) "".

Definition is_party (s : string) : bool := String.eqb s "LANDLORD" || String.eqb s "TENANT".

Definition proposal (req : SettleRequest) (now : instant) (initiatedBy : string)
    (initiatedAt : instant) : Settlement :=
  let '(totalClaimed, items) := claim_items 0 f64_zero (SettleRequest_ClaimItems req) in
  {| Settlement_InitiatedBy := initiatedBy;
     Settlement_InitiatedAt := initiatedAt;
     Settlement_LastProposedBy := SettleRequest_InitiatedBy req;
     Settlement_LastProposedAt := now;
     Settlement_TenancyEndDate := SettleRequest_TenancyEndDate req;
     Settlement_HandoverDate := SettleRequest_HandoverDate req;
     Settlement_HandoverProtocolRef := SettleRequest_HandoverProtocolRef req;
     Settlement_ClaimItems := items;
     Settlement_TotalClaimed := totalClaimed;
     Settlement_ProposedTenantRefund := SettleRequest_ProposedTenantRefund req;
     Settlement_ProposedLandlordRetention := SettleRequest_ProposedLandlordRetention req;
     Settlement_ResponseDeadline := format_day (add_date now 0 0 14);
     Settlement_EscalationType := ""; Settlement_ExternalAuthority := "";
     Settlement_ExternalReference := "";
     Settlement_AgreedTenantRefund := f64_zero;
     Settlement_AgreedLandlordRetention := f64_zero |}.

Definition patch_settlement (s : Settlement) (d : Deposit) : option Deposit :=
  Some (set_Settlement (Some s) d).

Definition Settle (id : string) (r : decoded SettleRequest) : prog response :=
  decode r (fun req =>
  let by_ := SettleRequest_InitiatedBy req in
  if negb (is_party by_)
  then writeError StatusBadRequest "initiated_by must be LANDLORD or TENANT" "VALIDATION_ERROR"
  else if bool_decide (SettleRequest_ClaimItems req = [])
  then writeError StatusBadRequest "claim_items must not be empty" "VALIDATION_ERROR"
  else if existsb invalid_item (SettleRequest_ClaimItems req)
  then writeError StatusBadRequest
         "each claim item requires description and amount_claimed > 0" "VALIDATION_ERROR"
  else
    fetch id (fun current =>
    let state := lifecycle current in
    let isFirstProposal := String.eqb state StatePledged || String.eqb state StateFunded in
    let isCounter := String.eqb state StateSettleProposed in
    if negb isFirstProposal && negb isCounter
    then writeError StatusConflict ("cannot propose settlement in state " +:+ state)
           "INVALID_TRANSITION"
    else if isCounter &&
            match Deposit_Settlement current with
            | Some s => String.eqb (Settlement_LastProposedBy s) by_
            | None => false
            end
    then writeError StatusConflict
           "cannot counter your own proposal — wait for the other party to respond" "CONFLICT"
    else
      now ← emit Now;
      let reply := fun updated =>
        _ ← fireWebhook updated;
        writeJSON StatusOK (PDeposit updated) in
      if isFirstProposal
      then
        transition state StateSettleProposed (
        update id StateSettleProposed (entry StateSettleProposed by_ "")
          (Some (patch_settlement (proposal req now by_ now))) reply)
      else
        match Deposit_Settlement current with
        | None => Crash                 (* current.Settlement is nil *)
        | Some s =>
            update id StateSettleProposed (entry StateSettleProposed by_ "counter-proposal")
              (Some (patch_settlement
                       (proposal req now (Settlement_InitiatedBy s) (Settlement_InitiatedAt s))))
              reply
        end)).

(** [d.Settlement.Agreed... = d.Settlement.Proposed...] *)
Definition patch_accept (d : Deposit) : option Deposit :=
  s ← Deposit_Settlement d;
  Some (set_Settlement
          (Some (set_Agreed (Settlement_ProposedTenantRefund s)
                            (Settlement_ProposedLandlordRetention s) s)) d).

Definition SettleAccept (id : string) (r : decoded SettleAcceptRequest) : prog response :=
  decode r (fun req =>
  let by_ := SettleAcceptRequest_AcceptedBy req in
  if negb (is_party by_)
  then writeError StatusBadRequest "accepted_by must be LANDLORD or TENANT" "VALIDATION_ERROR"
  else
    fetch id (fun current =>
    if negb (String.eqb (lifecycle current) StateSettleProposed)
    then writeError StatusConflict
           ("cannot accept settlement in state " +:+ lifecycle current) "INVALID_TRANSITION"
    else
      match Deposit_Settlement current with
      | None => writeError StatusConflict "no active settlement proposal" "CONFLICT"
      | Some s =>
          if String.eqb (Settlement_LastProposedBy s) by_
          then writeError StatusConflict "cannot accept your own proposal" "CONFLICT"
          else
            transition StateSettleProposed StateClosed (
            update id StateClosed (entry StateClosed by_ "settlement accepted")
              (Some patch_accept) (fun updated =>
            _ ← emit (SessRevoke id);
            _ ← fireWebhook updated;
            writeJSON StatusOK (PDeposit updated)))
      end)).

(** ** Dispute *)

Definition escalation_types : list string :=
  ["PLATFORM_MEDIATION"; "SCHLICHTUNGSBEHOERDE"; "AMTSGERICHT"].

(** [if d.Settlement == nil { d.Settlement = &models.Settlement{} }] *)
Definition settlement_or_zero (d : Deposit) : Settlement :=
  default zero_Settlement (Deposit_Settlement d).

Definition patch_dispute (req : DisputeRequest) (d : Deposit) : option Deposit :=
  Some (set_Settlement
          (Some (set_External (DisputeRequest_EscalationType req)
                   (DisputeRequest_EscalationType req) (DisputeRequest_ExternalReference req)
                   (settlement_or_zero d))) d).

Definition Dispute (id : string) (r : decoded DisputeRequest) : prog response :=
  decode r (fun req =>
  if negb (is_party (DisputeRequest_EscalatedBy req))
  then writeError StatusBadRequest "escalated_by must be LANDLORD or TENANT" "VALIDATION_ERROR"
  else if negb (existsb (String.eqb (DisputeRequest_EscalationType req)) escalation_types)
  then writeError StatusBadRequest
         "escalation_type must be PLATFORM_MEDIATION, SCHLICHTUNGSBEHOERDE, or AMTSGERICHT"
         "VALIDATION_ERROR"
  else
    fetch id (fun current =>
    transition (lifecycle current) StateDisputed (
    update id StateDisputed
      (entry StateDisputed (DisputeRequest_EscalatedBy req) (DisputeRequest_EscalationType req))
      (Some (patch_dispute req)) (fun updated =>
    _ ← fireWebhook updated;
    writeJSON StatusOK (PDeposit updated))))).

Definition patch_resolve (req : DisputeResolveRequest) (d : Deposit) : option Deposit :=
  let s := set_Agreed (DisputeResolveRequest_AgreedTenantRefund req)
             (DisputeResolveRequest_AgreedLandlordRetention req) (settlement_or_zero d) in
  Some (set_Settlement
          (Some (set_External (Settlement_EscalationType s) (Settlement_ExternalAuthority s)
                   (DisputeResolveRequest_ResolutionReference req) s)) d).

Definition DisputeResolve (id : string) (r : decoded DisputeResolveRequest) : prog response :=
  decode r (fun req =>
  if f64_lt (DisputeResolveRequest_AgreedTenantRefund req) f64_zero ||
     f64_lt (DisputeResolveRequest_AgreedLandlordRetention req) f64_zero
  then writeError StatusBadRequest "agreed amounts must be non-negative" "VALIDATION_ERROR"
  else
    fetch id (fun current =>
    transition (lifecycle current) StateClosed (
    update id StateClosed
      (entry StateClosed "EXTERNAL" (DisputeResolveRequest_ResolutionReference req))
      (Some (patch_resolve req)) (fun updated =>
    _ ← emit (SessRevoke id);
    _ ← fireWebhook updated;
    writeJSON StatusOK (PDeposit updated))))).

(** ** Partial release and utility reconciliation *)

Definition reservation (req : PartialReleaseRequest) (billingEnd : instant) :
    UtilityReservation :=
  {| UtilityReservation_ReleasedAmount := PartialReleaseRequest_ReleasedAmount req;
     UtilityReservation_ReservedAmount := PartialReleaseRequest_ReservedAmount req;
     UtilityReservation_MonthlyAdvance := PartialReleaseRequest_MonthlyAdvance req;
     UtilityReservation_BillingPeriodEnd := PartialReleaseRequest_BillingPeriodEnd req;
     UtilityReservation_ResolutionDeadline := format_day (add_date billingEnd 1 0 0);
     UtilityReservation_SettlementRef := "";
     UtilityReservation_ActualCost := f64_zero;
     UtilityReservation_TotalAdvancePaid := f64_zero;
     UtilityReservation_ResolvedAt := "" |}.

Definition patch_reservation (u : UtilityReservation) (d : Deposit) : option Deposit :=
  Some (set_UtilityReservation (Some u) d).

Definition PartialRelease (id : string) (r : decoded PartialReleaseRequest) : prog response :=
  decode r (fun req =>
  if f64_lt (PartialReleaseRequest_ReleasedAmount req) f64_zero ||
     f64_le (PartialReleaseRequest_ReservedAmount req) f64_zero
  then writeError StatusBadRequest
         "released_amount must be ≥ 0 and reserved_amount must be > 0" "VALIDATION_ERROR"
  else if String.eqb (PartialReleaseRequest_BillingPeriodEnd req) ""
  then writeError StatusBadRequest "billing_period_end is required" "VALIDATION_ERROR"
  else
    match parse_day (PartialReleaseRequest_BillingPeriodEnd req) with
    | None => writeError StatusBadRequest
                "billing_period_end must be ISO 8601 date (YYYY-MM-DD)" "VALIDATION_ERROR"
    | Some billingEnd =>
        fetch id (fun current =>
        transition (lifecycle current) StatePartiallyReleased (
        update id StatePartiallyReleased (entry StatePartiallyReleased "LANDLORD" "")
          (Some (patch_reservation (reservation req billingEnd))) (fun updated =>
        _ ← fireWebhook updated;
        writeJSON StatusOK (PDeposit updated))))
    end).

(** The four assignments through [d.UtilityReservation]. *)
Definition patch_reconciled (req : UtilitySettleRequest) (now : instant) (d : Deposit) :
    option Deposit :=
  u ← Deposit_UtilityReservation d;
  Some (set_UtilityReservation
          (Some (set_Resolution (UtilitySettleRequest_SettlementRef req)
                   (UtilitySettleRequest_ActualCost req)
                   (UtilitySettleRequest_TotalAdvancePaid req) (format_day now) u)) d).

(** The retention and the refund of a shortfall. *)
Definition split_shortfall (shortfall reserved : float64) : float64 * float64 :=
  let retention := if f64_lt reserved shortfall then reserved else shortfall in
  (retention, f64_sub reserved retention).

Definition utility_settlement (req : UtilitySettleRequest) (now : instant)
    (shortfall retention refund : float64) : Settlement :=
  {| Settlement_InitiatedBy := "LANDLORD"; Settlement_InitiatedAt := now;
     Settlement_LastProposedBy := "LANDLORD"; Settlement_LastProposedAt := now;
     Settlement_TenancyEndDate := ""; Settlement_HandoverDate := "";
     Settlement_HandoverProtocolRef := "";
     Settlement_ClaimItems :=
       [{| ClaimItem_ID := "item-1";
           ClaimItem_Category := ClaimCategoryUtilityArrears;
           ClaimItem_Description :=
             "Utility shortfall: actual cost " +:+
             fmt_f2 (UtilitySettleRequest_ActualCost req) +:+ ", advances paid " +:+
             fmt_f2 (UtilitySettleRequest_TotalAdvancePaid req);
           ClaimItem_AmountClaimed := shortfall;
           ClaimItem_EvidenceRefs :=
             if String.eqb (UtilitySettleRequest_SettlementRef req) "" then []
             else [UtilitySettleRequest_SettlementRef req];
           ClaimItem_RoomOrArea := "" |}];
     Settlement_TotalClaimed := shortfall;
     Settlement_ProposedTenantRefund := refund;
     Settlement_ProposedLandlordRetention := retention;
     Settlement_ResponseDeadline := format_day (add_date now 0 0 14);
     Settlement_EscalationType := ""; Settlement_ExternalAuthority := "";
     Settlement_ExternalReference := "";
     Settlement_AgreedTenantRefund := f64_zero;
     Settlement_AgreedLandlordRetention := f64_zero |}.

Definition UtilitySettle (id : string) (r : decoded UtilitySettleRequest) : prog response :=
  decode r (fun req =>
  if f64_lt (UtilitySettleRequest_ActualCost req) f64_zero ||
     f64_lt (UtilitySettleRequest_TotalAdvancePaid req) f64_zero
  then writeError StatusBadRequest "actual_cost and total_advance_paid must be non-negative"
         "VALIDATION_ERROR"
  else
    fetch id (fun current =>
    if negb (String.eqb (lifecycle current) StatePartiallyReleased)
    then writeError StatusConflict
           ("utility-settle requires state PARTIALLY_RELEASED, current state is " +:+
            lifecycle current) "INVALID_TRANSITION"
    else
      match Deposit_UtilityReservation current with
      | None => writeError StatusConflict "no utility reservation on this deposit" "CONFLICT"
      | Some u =>
          let reserved := UtilityReservation_ReservedAmount u in
          let shortfall := f64_sub (UtilitySettleRequest_ActualCost req)
                                   (UtilitySettleRequest_TotalAdvancePaid req) in
          now ← emit Now;
          let reply := fun updated =>
            _ ← fireWebhook updated;
            writeJSON StatusOK (PDeposit updated) in
          if f64_le shortfall f64_zero
          then
            transition StatePartiallyReleased StateClosed (
            update id StateClosed
              (entry StateClosed "LANDLORD" "utility reconciliation — no shortfall")
              (Some (patch_reconciled req now)) reply)
          else
            let '(retention, refund) := split_shortfall shortfall reserved in
            transition StatePartiallyReleased StateSettleProposed (
            update id StateSettleProposed
              (entry StateSettleProposed "LANDLORD" "utility reconciliation shortfall")
              (Some (fun d =>
                       d ← patch_reconciled req now d;
                       patch_settlement (utility_settlement req now shortfall retention refund) d))
              reply)
      end)).
End Handlers.
