(* ===== verification/IssuerHandlers.v ===== *)
(** * The issuance handlers: [internal/api/issuer_handlers.go]

    The pre-authorized-code flow of OpenID4VCI: the bank's trigger, the offer,
    the token, the credential; the status of a credential and the published
    revocation list; the discovery documents. *)

From S2P Require Import Prelude Float64 Calendar Fmt Models Json Runtime Repository Sessions.
From S2P Require Import Base64 StatusList Server Credential Discovery Handlers.

Local Open Scope Z_scope.

Record issueCredentialRequest := { issueReq_ValidUntil : string }.

(** The parsed form of [Token]: [ParseForm]'s error and two values. *)
Record tokenForm := {
  form_failed : bool;
  form_grant_type : string;
  form_pre_authorized_code : string }.

(** The body of [Credential]; the proof is decoded and not looked at. *)
Record credentialRequest := {
  credReq_Format : string;
  credReq_VCT : string;
  credReq_Proof : option (string * string) }.

Definition pre_authorized_grant : string :=
  "urn:ietf:params:oauth:grant-type:pre-authorized_code".

Section Issuer.
Context (issuerURL : string).

(** A decode error is ignored: the value is used as it was left. *)
Definition IssueCredential (id : string) (r : decoded issueCredentialRequest) : prog response :=
  fetch id (fun deposit =>
  if negb (String.eqb (lifecycle deposit) "PLEDGED")
  then writeError StatusConflict "credential issuance requires deposit in PLEDGED state"
         "INVALID_STATE"
  else
    idx ← try Allocate;
    match idx with
    | inr _ => writeError StatusInternalServerError "failed to allocate status list index"
                 "INTERNAL_ERROR"
    | inl idx =>
        sess ← try (SessCreate id (issueReq_ValidUntil (value r)) idx);
        match sess with
        | inr _ => writeError StatusInternalServerError "failed to create issuance session"
                     "INTERNAL_ERROR"
        | inl sess =>
            let offerURI := issuerURL +:+ "/v1/credential-offers/" +:+ Session_ID sess in
            let offerURL := "openid-credential-offer://?credential_offer_uri=" +:+ offerURI in
            writeJSON StatusCreated
              (PIssue {| issue_SessionID := Session_ID sess;
                         issue_CredentialOfferURL := offerURL;
                         issue_QRCodePayload := offerURL;
                         issue_ExpiresAt := Session_ExpiresAt sess |})
        end
    end).

Definition GetCredentialOffer (sessionID : string) : prog response :=
  sess ← emit (SessGetByID sessionID);
  match sess with
  | None => writeError StatusNotFound "offer not found or expired" "NOT_FOUND"
  | Some sess =>
      now ← emit Now;
      if after now (Session_ExpiresAt sess)
      then writeError StatusGone "offer has expired" "OFFER_EXPIRED"
      else writeJSON StatusOK
             (POffer {| offer_CredentialIssuer := issuerURL;
                        offer_CredentialConfigurationIDs := ["DepositPledgeAttestation"];
                        offer_PreAuthorizedCode := Session_PreAuthorizedCode sess |})
  end.

Definition Token (form : tokenForm) : prog response :=
  if form_failed form
  then writeError StatusBadRequest "invalid form body" "BAD_REQUEST"
  else if negb (String.eqb (form_grant_type form) pre_authorized_grant)
  then writeError StatusBadRequest
         "unsupported grant_type; only pre-authorized_code is supported"
         "UNSUPPORTED_GRANT_TYPE"
  else
    let code := form_pre_authorized_code form in
    if String.eqb code ""
    then writeError StatusBadRequest "pre-authorized_code is required" "INVALID_REQUEST"
    else
      r ← emit (SessExchange code);
      match r with
      | None => writeError StatusBadRequest
                  "invalid, expired, or already-used pre-authorized_code" "INVALID_GRANT"
      | Some (accessToken, nonce) =>
          writeJSON StatusOK
            (PToken {| token_AccessToken := accessToken; token_TokenType := "Bearer";
                       token_ExpiresIn := 300; token_CNonce := nonce;
                       token_CNonceExpiresIn := 300 |})
      end.

Section Issue.
Context (ToLower : string -> string)
        (sign : string -> string -> sdJWTClaims -> option string) (KeyID : string).

Definition Credential (authHeader : string) (r : decoded credentialRequest) : prog response :=
  if negb (GoStrings.has_prefix authHeader "Bearer ")
  then writeError StatusUnauthorized "Bearer token required" "UNAUTHORIZED"
  else
    let token := GoStrings.trim_prefix authHeader "Bearer " in
    sess ← emit (SessGetByToken token);
    let unauthorized :=
      writeError StatusUnauthorized "invalid or expired access token" "INVALID_TOKEN" in
    match sess with
    | None => unauthorized
    | Some sess =>
        now ← emit Now;
        if after now (Session_ExpiresAt sess) then unauthorized
        else
          decode r (fun req =>
          if negb (String.eqb (credReq_Format req) "vc+sd-jwt") ||
             negb (String.eqb (credReq_VCT req) "DepositPledgeAttestation")
          then writeError StatusBadRequest
                 "unsupported credential format or type; use format=vc+sd-jwt vct=DepositPledgeAttestation"
                 "UNSUPPORTED_CREDENTIAL_TYPE"
          else
            d ← try (RepoGetByID (Session_DepositID sess));
            match d with
            | inr _ => writeError StatusInternalServerError "failed to load deposit"
                         "INTERNAL_ERROR"
            | inl deposit =>
                built ← BuildSDJWT ToLower sign KeyID issuerURL deposit
                          (Session_ValidUntil sess) (Session_StatusListIndex sess);
                match built with
                | inr _ => writeError StatusInternalServerError "credential signing failed"
                             "SIGNING_ERROR"
                | inl (sdJWT, credentialID) =>
                    consumed ← emit (SessConsume token credentialID);
                    match consumed with
                    | None => writeError StatusConflict "session already consumed"
                                "SESSION_CONSUMED"
                    | Some _ => writeJSON StatusOK (PCredential sdJWT)
                    end
                end
            end)
    end.
End Issue.

Definition CredentialStatus (credID : string) : prog response :=
  r ← emit (SessStatus credID);
  let '(status, found) := (r : string * bool) in
  if negb found then writeError StatusNotFound "credential not found" "NOT_FOUND"
  else
    now ← emit Now;
    writeJSON StatusOK
      (PStatus {| status_CredentialID := credID; status_Status := status;
                  status_CheckedAt := format_rfc3339 now |}).

Section List.
Context (gzip : list Z -> option (list Z))
        (sign_list : string -> string -> statusListVCClaims -> option string)
        (KeyID : string).

Definition StatusList : prog response :=
  indices ← try SessRevokedIndices;
  match indices with
  | inr _ => writeError StatusInternalServerError "failed to build status list"
               "INTERNAL_ERROR"
  | inl indices =>
      now ← emit Now;
      match BuildStatusListJWT gzip sign_list KeyID issuerURL indices now with
      | None => writeError StatusInternalServerError "failed to sign status list"
                  "INTERNAL_ERROR"
      | Some signed =>
          writeJSON StatusOK
            (PStatusList {| statusList_ID := issuerURL +:+ "/v1/status-list/revocation";
                            statusList_Type := "BitstringStatusListCredential";
                            statusList_Credential := signed |})
      end
  end.
End List.
End Issuer.

(** ** Discovery *)

Definition IssuerMetadata (issuerURL : string) : prog response :=
  writeJSON StatusOK (PMetadata (issuer_metadata issuerURL)).

(** A slice index below zero panics. *)
Definition JWKS (KeyID : string) (x y : Z) : prog response :=
  match key_set KeyID x y with
  | Some keys => writeJSON StatusOK (PJwks keys)
  | None => Crash
  end.
