(* ===== verification/VerifierHandlers.v ===== *)
(** * The verifier and validation handlers: [internal/api/verifier_handlers.go]
      and [validate_handler.go]

    The landlord opens a presentation request, the wallet answers it; the
    public endpoint that checks a document. *)

From S2P Require Import Prelude Float64 Calendar Models JsonModels Json Statemachine Runtime.
From S2P Require Import Repository Sessions StatusList Server Validator VpSessions Presentation.
From S2P Require Import Handlers.

Local Open Scope Z_scope.

(** The body of [ReceiveVpResponse]; the submission is not looked at. *)
Record vpResponseRequest := { vpReq_VpToken : string; vpReq_State : string }.

Record validateRequest := {
  validateReq_Deposit : Deposit;
  validateReq_MonthlyRent : float64 }.

Section Verifier.
Context (issuerURL webhookURL : string).
(** [json.Marshal] of the request (it holds only strings), [url.QueryEscape]. *)
Context (request_text : VpRequest -> string) (QueryEscape : string -> string).

Definition CreateVpRequest (id : string) : prog response :=
  fetch id (fun _ =>
  let responseURI := issuerURL +:+ "/v1/deposits/" +:+ id +:+ "/vp-response" in
  sess ← emit (VpCreate id responseURI);
  let vpReq := BuildVpRequest issuerURL responseURI (VpSession_Nonce sess) (VpSession_ID sess) in
  let deepLink := "openid4vp://?client_id=" +:+ QueryEscape issuerURL +:+ "&request=" +:+
                  QueryEscape (request_text vpReq) in
  writeJSON StatusCreated
    (PVpRequest {| vpResp_SessionID := VpSession_ID sess; vpResp_VpRequest := vpReq;
                   vpResp_DeepLink := deepLink;
                   vpResp_ExpiresAt := VpSession_ExpiresAt sess |})).

Definition wallet_metadata (claims : VerifiedClaims) (now : instant) : WalletMetadata :=
  {| WalletMetadata_Issuer := ""; WalletMetadata_IssuerID := "";
     WalletMetadata_WalletProvider := ""; WalletMetadata_CredentialType := "";
     WalletMetadata_CredentialFormat := "vc+sd-jwt"; WalletMetadata_AssuranceLevel := "high";
     WalletMetadata_PresentationID := Verified_CredentialID claims;
     WalletMetadata_IssuingCountry := "";
     WalletMetadata_VerifiedAt := format_rfc3339 now; WalletMetadata_ExpiresAt := "" |}.

Definition patch_wallet (m : WalletMetadata) (d : Deposit) : option Deposit :=
  Some (set_Tenant (set_WalletMetadata (Some m) (Deposit_Tenant d)) d).

(** [verification.VerifyVpToken] with the issuer's own public key. *)
Context (VerifyVpToken : string -> string -> string -> prog (VerifiedClaims + string)).

Definition ReceiveVpResponse (id : string) (r : decoded vpResponseRequest) : prog response :=
  decode r (fun body =>
  if String.eqb (vpReq_VpToken body) ""
  then writeError StatusBadRequest "vp_token is required" "VALIDATION_ERROR"
  else if String.eqb (vpReq_State body) ""
  then writeError StatusBadRequest "state is required" "VALIDATION_ERROR"
  else
    sess ← emit (VpGetByID (vpReq_State body));
    match sess with
    | None => writeError StatusNotFound "vp session not found or already consumed" "NOT_FOUND"
    | Some sess =>
        now ← emit Now;
        if after now (VpSession_ExpiresAt sess)
        then writeError StatusGone "vp session has expired" "SESSION_EXPIRED"
        else
          fetch id (fun deposit =>
          if negb (String.eqb (lifecycle deposit) StatePledged)
          then writeError StatusConflict "vp presentation requires deposit in PLEDGED state"
                 "INVALID_STATE"
          else
            claims ← VerifyVpToken (vpReq_VpToken body) (VpSession_Nonce sess)
                       (VpSession_ResponseURI sess);
            match claims with
            | inr err =>
                writeError StatusUnprocessableEntity err "VP_VERIFICATION_FAILED"
            | inl claims =>
                if negb (String.eqb (Verified_DepositID claims) id)
                then writeError StatusConflict
                       "credential deposit_id does not match requested deposit"
                       "DEPOSIT_MISMATCH"
                else
                  now ← emit Now;
                  update id (lifecycle deposit) (entry (lifecycle deposit) "WALLET" "")
                    (Some (patch_wallet (wallet_metadata claims now))) (fun updated =>
                  _ ← emit (VpDelete (VpSession_ID sess));
                  _ ← fireWebhook webhookURL updated;
                  writeJSON StatusOK (PVerified claims))
            end)
    end).
End Verifier.

(** [POST /validate]; the validator reads the clock. *)
Definition Validate (quote : string -> string) (r : decoded validateRequest) : prog response :=
  decode r (fun req =>
  now ← emit Now;
  writeJSON StatusOK
    (PReport (Validator.Validate quote now (validateReq_Deposit req)
                (validateReq_MonthlyRent req)))).
