(* ===== verification/Auth.v ===== *)
(** * Authentication: [internal/api/middleware/auth.go]

    The two middlewares in front of the deposit endpoints: tokens signed with
    a shared secret, and tokens signed with the keys of a JWKS endpoint, which
    are cached for five minutes.  Parsing and verifying a JWT, and the HTTP
    request, are parameters. *)

From S2P Require Import Prelude Float64 Calendar Fmt Models Runtime Base64 StatusList Server.
From S2P Require Import Discovery Handlers.

Local Open Scope Z_scope.

(** ** Keys *)

Record jwkKey := {
  jwkKey_Kty : string;
  jwkKey_Kid : string;
  jwkKey_Alg : string;
  jwkKey_N : string;
  jwkKey_E : string;
  jwkKey_Crv : string;
  jwkKey_X : string;
  jwkKey_Y : string }.

Inductive publicKey :=
| RSAKey (N E : Z)
| ECKey (curve : string) (X Y : Z).

(** [new(big.Int).SetBytes]. *)
Definition SetBytes (l : list Z) : Z := fold_left (fun n b => n * 256 + b) l 0.

(** The exponent goes through [Int64], whose low 64 bits are taken. *)
Definition rsaPublicKey (k : jwkKey) : publicKey + string :=
  match DecodeString (jwkKey_N k) with
  | None => inr "jwks: invalid RSA n"
  | Some nBytes =>
      match DecodeString (jwkKey_E k) with
      | None => inr "jwks: invalid RSA e"
      | Some eBytes => inl (RSAKey (SetBytes nBytes) (int64 (SetBytes eBytes)))
      end
  end.

Definition curves : list string := ["P-256"; "P-384"; "P-521"].

Definition ecPublicKey (k : jwkKey) : publicKey + string :=
  match DecodeString (jwkKey_X k) with
  | None => inr "jwks: invalid EC x"
  | Some xBytes =>
      match DecodeString (jwkKey_Y k) with
      | None => inr "jwks: invalid EC y"
      | Some yBytes =>
          if existsb (String.eqb (jwkKey_Crv k)) curves
          then inl (ECKey (jwkKey_Crv k) (SetBytes xBytes) (SetBytes yBytes))
          else inr ("jwks: unsupported curve " +:+ jwkKey_Crv k)
      end
  end.

Definition public_key (k : jwkKey) : publicKey + string :=
  if String.eqb (jwkKey_Kty k) "RSA" then rsaPublicKey k
  else if String.eqb (jwkKey_Kty k) "EC" then ecPublicKey k
  else inr ("unsupported kty: " +:+ jwkKey_Kty k).

(** ** The cache of a JWKS endpoint *)

Record jwksCache := {
  cache_keys : option (gmap string publicKey);   (* a nil map before the first fetch *)
  cache_fetchedAt : instant }.

Definition empty_cache : jwksCache := {| cache_keys := None; cache_fetchedAt := zero_time |}.

(** [http.Get] and the decoding of the body. *)
Inductive http_reply :=
| HttpError (err : string)
| HttpReply (status : Z) (keys : list jwkKey + string).

(** The loop of [refresh]: unsupported keys are skipped, a later key replaces
    an earlier one of the same identifier. *)
Definition usable_keys (set : list jwkKey) : gmap string publicKey :=
  fold_left (fun m k => match public_key k with
                        | inl pub => <[jwkKey_Kid k := pub]> m
                        | inr _ => m
                        end) set ∅.

Definition refresh (reply : http_reply) (now : instant) (c : jwksCache) :
    option string * jwksCache :=
  match reply with
  | HttpError err => (Some err, c)
  | HttpReply status set =>
      if negb (status =? StatusOK)
      then (Some ("JWKS endpoint returned HTTP " +:+ fmt_d status), c)
      else
        match set with
        | inr err => (Some ("decode JWKS: " +:+ err), c)
        | inl set => (None, {| cache_keys := Some (usable_keys set); cache_fetchedAt := now |})
        end
  end.

Definition cached (c : jwksCache) (kid : string) : option publicKey :=
  cache_keys c ≫= lookup kid.

Definition is_fresh (now : instant) (c : jwksCache) : bool :=
  (now - cache_fetchedAt c <? 5 * minute) && bool_decide (is_Some (cache_keys c)).

(** [checked] is the clock at the first test, [fetched] at the end of a
    refresh. *)
Definition keyFunc (quote : string -> string) (checked : instant) (reply : http_reply)
    (fetched : instant) (kid : string) (c : jwksCache) : (publicKey + string) * jwksCache :=
  match (if is_fresh checked c then cached c kid else None) with
  | Some key => (inl key, c)
  | None =>
      match refresh reply fetched c with
      | (Some err, c) => (inr ("jwks: refresh failed: " +:+ err), c)
      | (None, c) =>
          match cached c kid with
          | Some key => (inl key, c)
          | None => (inr ("jwks: no key found for kid " +:+ quote kid), c)
          end
      end
  end.

(** ** The middlewares *)

Definition extractBearer (h : string) : option string :=
  if GoStrings.has_prefix h "Bearer " then Some (GoStrings.trim_prefix h "Bearer ") else None.

Definition writeAuthError (msg : string) : prog response :=
  writeJSON StatusUnauthorized (PAuthError msg).

(** The parts of a token's header the key functions look at. *)
Record tokenHeader := { header_alg : string; header_kid : string }.

Inductive authKey := Secret (secret : string) | Public (key : publicKey).

(** [t.Method.( *jwt.SigningMethodHMAC)]. *)
Definition is_hmac (alg : string) : bool := existsb (String.eqb alg) ["HS256"; "HS384"; "HS512"].

Definition hmac_key (secret : string) (h : tokenHeader) : authKey + string :=
  if is_hmac (header_alg h) then inl (Secret secret) else inr "signature is invalid".

Definition jwks_methods : list string := ["RS256"; "RS384"; "RS512"; "ES256"; "ES384"; "ES512"].

(** The JWT library.  [Parse methods issuer now keyfunc token] says whether the
    token is valid; [asked methods token] is the header for which it consults
    the key function, if it does; [verifies key token] that the signature is
    right under a key. *)
Class JwtLibrary := {
  Parse : list string -> option string -> instant -> (tokenHeader -> authKey + string) ->
    string -> bool;
  asked : list string -> string -> option tokenHeader;
  verifies : authKey -> string -> Prop;
  Parse_asks methods issuer now kf tok :
    Parse methods issuer now kf tok = true ->
    exists h key, asked methods tok = Some h /\ kf h = inl key /\ verifies key tok;
  asked_method methods tok h :
    asked methods tok = Some h -> methods = [] \/ header_alg h ∈ methods }.

Section Middleware.
Context `{JwtLibrary}.

Definition JWTMiddleware (secret authorization : string) (next : prog response) : prog response :=
  match extractBearer authorization with
  | None => writeAuthError "missing authorization header"
  | Some tokenStr =>
      now ← emit Now;
      if negb (Parse [] None now (hmac_key secret) tokenStr) then writeAuthError "invalid token"
      else next
  end.

(** What [JWKSMiddleware] decides, with the cache after it. *)
Definition JWKSMiddleware (quote : string -> string) (expectedIssuer : string)
    (now checked : instant) (reply : http_reply) (fetched : instant) (authorization : string)
    (next : prog response) (c : jwksCache) : prog response * jwksCache :=
  match extractBearer authorization with
  | None => (writeAuthError "missing authorization header", c)
  | Some tokenStr =>
      let key kid := keyFunc quote checked reply fetched kid c in
      let valid := Parse jwks_methods (Some expectedIssuer) now
                     (fun h => match (key (header_kid h)).1 with
                               | inl k => inl (Public k) | inr x => inr x end) tokenStr in
      let c := match asked jwks_methods tokenStr with
               | Some h => (key (header_kid h)).2
               | None => c
               end in
      (if valid then next else writeAuthError "invalid token", c)
  end.
End Middleware.

(** ** What the cache holds *)

(** A key of that identifier in a key set. *)
Definition offers_key (set : list jwkKey) (kid : string) (key : publicKey) : Prop :=
  exists k, k ∈ set /\ jwkKey_Kid k = kid /\ public_key k = inl key.

Lemma usable_keys_offered set kid key :
  usable_keys set !! kid = Some key -> offers_key set kid key.
Proof.
  unfold usable_keys.
  assert (forall m : gmap string publicKey, fold_left (fun m k => match public_key k with
            | inl pub => <[jwkKey_Kid k := pub]> m | inr _ => m end) set m !! kid = Some key ->
          m !! kid = Some key \/ offers_key set kid key) as Hfold.
  { induction set as [|k set IH]; intros m; cbn; [by left|]. intros [Hm|Hset]%IH.
    - destruct (public_key k) as [pub|] eqn:Hk; [|by left].
      apply lookup_insert_Some in Hm as [[Hkid ->]|[_ Hm]]; [right|by left].
      exists k. split; [left|done].
    - right. destruct Hset as (k' & ? & ?). exists k'. split; [by right|done]. }
  intros [Hm|?]%Hfold; [by rewrite lookup_empty in Hm|done].
Qed.

(** One lookup: when it tested the cache, what the endpoint would serve it, when
    a refresh of it ended, and the key it was asked for. *)
Record key_lookup := {
  look_checked : instant; look_reply : http_reply; look_fetched : instant; look_kid : string }.

Definition run_lookup (quote : string -> string) (c : jwksCache) (l : key_lookup) :
    (publicKey + string) * jwksCache :=
  keyFunc quote (look_checked l) (look_reply l) (look_fetched l) (look_kid l) c.

Definition run_lookups (quote : string -> string) (ls : list key_lookup) (c : jwksCache) :
    jwksCache :=
  fold_left (fun c l => (run_lookup quote c l).2) ls c.

(** The endpoint served [key] under [kid] to [l]. *)
Definition served (l : key_lookup) (kid : string) (key : publicKey) : Prop :=
  exists set, look_reply l = HttpReply StatusOK (inl set) /\ offers_key set kid key.

(** The keys of the cache were served to one lookup, at the time noted. *)
Definition cache_ok (ls : list key_lookup) (c : jwksCache) : Prop :=
  cache_keys c = None \/
  exists l, l ∈ ls /\ cache_fetchedAt c = look_fetched l /\
    forall kid key, cached c kid = Some key -> served l kid key.

Lemma refresh_served l c c' :
  refresh (look_reply l) (look_fetched l) c = (None, c') ->
  cache_fetchedAt c' = look_fetched l /\
  forall kid key, cached c' kid = Some key -> served l kid key.
Proof.
  unfold refresh. destruct (look_reply l) as [|st [set|]] eqn:Hr; [done| |by case_match].
  destruct (Z.eqb_spec st StatusOK) as [->|]; [|done]. intros [= <-]. split; [done|].
  intros kid key Hk. exists set. split; [done|]. by apply usable_keys_offered.
Qed.

Lemma cache_ok_more ls l c : cache_ok ls c -> cache_ok (ls ++ [l]) c.
Proof.
  intros [?|(l' & Hin & ?)]; [by left|right]. exists l'. split; [|done].
  apply elem_of_app. by left.
Qed.

Lemma refresh_error reply t c x c' : refresh reply t c = (Some x, c') -> c' = c.
Proof. unfold refresh. intros. repeat case_match; by simplify_eq. Qed.

Lemma lookup_ok quote ls l c :
  cache_ok ls c -> cache_ok (ls ++ [l]) (run_lookup quote c l).2.
Proof.
  intros Hc. unfold run_lookup, keyFunc. case_match; [by apply cache_ok_more|].
  destruct (refresh _ _ c) as [[x|] c'] eqn:Hr.
  - apply refresh_error in Hr as ->. by apply cache_ok_more.
  - apply refresh_served in Hr. assert (cache_ok (ls ++ [l]) c').
    { right. exists l. split; [|done]. apply elem_of_app. right. by apply list_elem_of_singleton. }
    by destruct (cached c' (look_kid l)).
Qed.

Lemma lookups_ok quote ls : cache_ok ls (run_lookups quote ls empty_cache).
Proof.
  unfold run_lookups. induction ls as [|l ls IH] using rev_ind; [by left|].
  rewrite fold_left_app. cbn. by apply lookup_ok.
Qed.

(** C21: a key that keyFunc returns was served by the JWKS endpoint under the requested kid,
    with status 200, either to this very lookup or to an earlier one whose fetch lies less than
    five minutes before; a failed refresh never yields a key. For any sequence of lookups from
    an empty cache, one after the other. *)
Theorem jwks_keys_are_fresh quote ls l key :
  (run_lookup quote (run_lookups quote ls empty_cache) l).1 = inl key ->
  served l (look_kid l) key \/
  exists l', l' ∈ ls /\ served l' (look_kid l) key /\
    look_checked l - look_fetched l' < 5 * minute.
Proof.
  pose proof (lookups_ok quote ls) as Hok. set (c := run_lookups quote ls empty_cache) in *.
  unfold run_lookup, keyFunc. destruct (is_fresh (look_checked l) c) eqn:Hf.
  - destruct (cached c (look_kid l)) as [k|] eqn:Hk.
    + intros [= ->]. right. apply andb_true_iff in Hf as [Ht%Z.ltb_lt _].
      destruct Hok as [Hn|(l' & Hin & Hat & Hs)]; [by unfold cached in Hk; rewrite Hn in Hk|].
      exists l'. rewrite <-Hat. auto.
    + destruct (refresh _ _ c) as [[x|] c'] eqn:Hr; [done|].
      destruct (cached c' (look_kid l)) eqn:Hk'; [|done]. intros [= ->]. left.
      apply refresh_served in Hr as [_ Hs]. by apply Hs.
  - destruct (refresh _ _ c) as [[x|] c'] eqn:Hr; [done|].
    destruct (cached c' (look_kid l)) eqn:Hk'; [|done]. intros [= ->]. left.
    apply refresh_served in Hr as [_ Hs]. by apply Hs.
Qed.
