(* ===== verification/Logic.v ===== *)
(** * Reasoning about handlers

    [wp ok p Q w]: every run of [p] alone from [w], in environments that
    satisfy [ok], ends with [Q] of the response ([None] for a panic) and the
    final world.  The rules for the shared fragments of the handlers follow;
    a client proof is a walk through the handler's text. *)

From S2P Require Import Prelude Models JsonModels Statemachine Runtime Repository Sessions.
From S2P Require Import StatusList Server VpSessions Handlers.

Section Logic.
Context {RS SS AS : Type} `{RepositoryLaws RS} `{SessionStore SS} `{IndexAllocator AS}.
Implicit Types w : world RS SS AS.

Fixpoint wp {R} (ok : env -> Prop) (p : prog R) (Q : option R -> world RS SS AS -> Prop) w :
    Prop :=
  match p with
  | Ret r => Q (Some r) w
  | Crash => Q None w
  | Vis ev k => forall e, ok e -> let '(x, w') := exec ev e w in wp ok (k x) Q w'
  end.

Lemma wp_run {R} ok (p : prog R) Q w envs :
  wp ok p Q w -> (forall n, ok (envs n)) -> Q (run p envs w).1 (run p envs w).2.
Proof.
  revert w envs. induction p as [r| |X ev k IH]; intros w envs Hwp Hok; cbn; [done|done|].
  specialize (Hwp (envs 0%nat) (Hok 0%nat)). destruct (exec ev (envs 0%nat) w) as [x w'].
  by apply IH.
Qed.

Lemma wp_mono {R} ok (p : prog R) (Q Q' : option R -> world RS SS AS -> Prop) w :
  wp ok p Q w -> (forall r w, Q r w -> Q' r w) -> wp ok p Q' w.
Proof.
  intros Hwp HQ. revert w Hwp. induction p as [r| |X ev k IH]; intros w; cbn; [auto|auto|].
  intros Hwp e He. specialize (Hwp e He). destruct (exec ev e w). by apply IH.
Qed.

Lemma wp_bind {A B} ok (p : prog A) (k : A -> prog B) Q w :
  wp ok p (fun r w' => match r with Some a => wp ok (k a) Q w' | None => Q None w' end) w ->
  wp ok (p ≫= k) Q w.
Proof.
  revert w. induction p as [r| |X ev h IH]; intros w; cbn; [done|done|].
  intros Hwp e He. specialize (Hwp e He). destruct (exec ev e w). by apply IH.
Qed.

Lemma wp_now {R} ok (k : Z -> prog R) Q w :
  (forall t, wp ok (k t) Q w) -> wp ok (emit Now ≫= k) Q w.
Proof. intros Hk e _. apply Hk. Qed.

(** Programs that only look at the clock leave the world alone. *)
Lemma wp_only_now {A B} ok (p : prog A) (k : A -> prog B) Q w :
  only_now p -> (forall a, wp ok (k a) Q w) -> wp ok (p ≫= k) Q w.
Proof.
  intros Hp Hk. induction p as [a| |X ev h IH]; [apply Hk|done|].
  destruct ev; try done. intros e _. apply IH, Hp.
Qed.

Lemma set_repo_id w : set_repo (w_repo w) w = w.
Proof. by destruct w. Qed.

(** A program that does not write deposits; [crash] says whether it may
    panic. *)
Fixpoint off_repo (crash : Prop) {R} (p : prog R) : Prop :=
  match p with
  | Ret _ => True
  | Crash => crash
  | Vis ev k =>
      match ev with
      | RepoCreate _ | RepoUpdateState _ _ _ _ => False
      | _ => True
      end /\ forall x, off_repo crash (k x)
  end.

Lemma off_repo_bind c {A B} (p : prog A) (k : A -> prog B) :
  off_repo c p -> (forall a, off_repo c (k a)) -> off_repo c (p ≫= k).
Proof.
  intros Hp Hk. induction p as [r| |X ev h IH]; cbn in *; [apply Hk|done|].
  destruct Hp as [Hev Hh]. split; [by destruct ev|]. intros x. by apply IH.
Qed.

Lemma exec_off_repo {X} (ev : event X) e w :
  match ev with
  | RepoCreate _ | RepoUpdateState _ _ _ _ => False
  | _ => True
  end -> w_repo (exec ev e w).2 = w_repo w.
Proof.
  destruct ev; cbn; try done; [|by destruct (AllocateIndex _ _)].
  intros _. apply repo_get_pure.
Qed.

Lemma wp_off_repo c {R} ok (p : prog R) Q w :
  off_repo c p ->
  (forall r w', w_repo w' = w_repo w -> (r = None -> c) -> Q r w') -> wp ok p Q w.
Proof.
  revert w. induction p as [r| |X ev k IH]; intros w Hp HQ; cbn in *; [by apply HQ|by apply HQ|].
  destruct Hp as [Hev Hk]. intros e _. pose proof (exec_off_repo ev e w Hev) as Hw.
  destruct (exec ev e w) as [x w']. cbn in Hw. apply IH; [done|].
  intros r w'' Hr. apply HQ. by rewrite Hr.
Qed.

Lemma off_repo_webhook c url d : off_repo c (fireWebhook url d).
Proof.
  unfold fireWebhook. case_match; [done|]. cbn. split; [done|]. intros t. by case_match.
Qed.

(** ** The fragments *)

Lemma wp_fetch ok id k Q w :
  (forall s msg code, (400 <= s)%Z ->
     Q (Some {| status := s; body := PError {| ErrorResponse_Error := msg;
                                              ErrorResponse_Code := code |} |}) w) ->
  (forall key d, repo_key id = Some key -> repo_view (w_repo w) !! key = Some d ->
     wp ok (k d) Q w) ->
  wp ok (fetch id k) Q w.
Proof.
  intros Herr Hok. cbn. intros e _.
  pose proof (repo_get_pure e id (w_repo w)) as Hpure.
  pose proof (repo_get_ok e id (w_repo w)) as Hget.
  pose proof (repo_get_no_panic e id (w_repo w)) as Hpan.
  unfold in_repo. rewrite Hpure, set_repo_id.
  destruct (repo_GetByID e id (w_repo w)) as [[d|x|] s]; cbn in *; [|by destruct x; apply Herr|done].
  destruct (Hget d eq_refl) as (key & Hk & Hv). by apply (Hok key).
Qed.

Lemma wp_update ok id ns en p k Q w :
  (forall w', w' = w \/ (exists key d0 d1 t, repo_key id = Some key /\
              repo_view (w_repo w) !! key = Some d0 /\ apply_patch p d0 = Some d1 /\
              sql_entry ns en = true /\
              repo_view (w_repo w') = <[key := stored (advance ns en t d1)]> (repo_view (w_repo w)) /\
              w' = set_repo (w_repo w') w) ->
     Q (Some {| status := StatusInternalServerError;
                body := PError {| ErrorResponse_Error := "failed to update deposit";
                                  ErrorResponse_Code := "INTERNAL_ERROR" |} |}) w') ->
  (forall key d, repo_key id = Some key -> repo_view (w_repo w) !! key = Some d ->
     apply_patch p d = None -> Q None w) ->
  (forall key d0 d1 t w', repo_key id = Some key ->
     repo_view (w_repo w) !! key = Some d0 -> apply_patch p d0 = Some d1 ->
     repo_view (w_repo w') = <[key := stored (advance ns en t d1)]> (repo_view (w_repo w)) ->
     w' = set_repo (w_repo w') w -> sql_entry ns en = true ->
     wp ok (k (advance ns en t d1)) Q w') ->
  wp ok (update id ns en p k) Q w.
Proof.
  intros Herr Hpan Hok. cbn. intros e _. unfold in_repo.
  pose proof (repo_update_cases e id ns en p (w_repo w)) as Hc.
  destruct (repo_UpdateState e id ns en p (w_repo w)) as [r s]. cbn in *.
  destruct Hc as [(-> & Hno & Hp)|(key & d0 & d1 & Hk & Hv & Hp & Hs & Hv' & Hr)].
  - rewrite set_repo_id. destruct r; [done| |]; cbn.
    + apply Herr. by left.
    + destruct (Hp eq_refl) as (key & d & Hk & Hv & Ha). by eapply Hpan.
  - destruct Hr as [->|[x ->]]; cbn.
    + by apply (Hok key d0 d1 (env_now e 0)).
    + apply Herr. right. by exists key, d0, d1, (env_now e 0).
Qed.

(** Steps of a handler's tail: a webhook only adds a task. *)
Lemma wp_webhook_world ok url d (k : unit -> prog response) Q w :
  (forall l, wp ok (k tt) Q {| w_repo := w_repo w; w_sessions := w_sessions w;
     w_alloc := w_alloc w; w_vp := w_vp w; w_outbox := l |}) ->
  wp ok (fireWebhook url d ≫= k) Q w.
Proof.
  intros Hk. assert (wp ok (k tt) Q w) as Hw by (destruct w as [???? l]; apply (Hk l)).
  unfold fireWebhook. case_match; [done|]. cbn. intros e _.
  case_match; cbn; [|done]. intros e' _. apply Hk.
Qed.

Lemma wp_webhook ok url d (k : unit -> prog response) Q w :
  (forall w', w_repo w' = w_repo w -> w_sessions w' = w_sessions w -> wp ok (k tt) Q w') ->
  wp ok (fireWebhook url d ≫= k) Q w.
Proof. intros Hk. apply wp_webhook_world. intros l. by apply Hk. Qed.

Lemma wp_vp_get ok id (k : option VpSession -> prog response) Q w :
  (forall o, w_vp w !! id = o -> wp ok (k o) Q w) -> wp ok (emit (VpGetByID id) ≫= k) Q w.
Proof. intros Hk e _. by apply Hk. Qed.

Lemma wp_vp_delete ok id (k : unit -> prog response) Q w :
  wp ok (k tt) Q (set_vp (delete id (w_vp w)) w) -> wp ok (emit (VpDelete id) ≫= k) Q w.
Proof. intros Hk e _. apply Hk. Qed.

Lemma wp_spawn ok t (k : unit -> prog response) Q w :
  (forall w', w_repo w' = w_repo w -> w_sessions w' = w_sessions w -> wp ok (k tt) Q w') ->
  wp ok (emit (Spawn t) ≫= k) Q w.
Proof. intros Hk e _. by apply Hk. Qed.

Lemma wp_revoke ok id (k : unit -> prog response) Q w :
  (forall w' e, ok e -> w_repo w' = w_repo w ->
     w_sessions w' = ss_RevokeByDepositID e id (w_sessions w) -> wp ok (k tt) Q w') ->
  wp ok (emit (SessRevoke id) ≫= k) Q w.
Proof. intros Hk e He. cbn. by apply (Hk _ e). Qed.

(** The world after [RepoCreate]: the view as it was, or with the deposit. *)
Definition after_create (d : Deposit) w w' : Prop :=
  w' = set_repo (w_repo w') w /\
  (repo_view (w_repo w') = repo_view (w_repo w) \/
   exists key id t, repo_view (w_repo w) !! key = None /\
     repo_view (w_repo w') =
       <[key := stored (create_deposit id t d)]> (repo_view (w_repo w))).

Lemma wp_create ok d (k : Deposit + error -> prog response) Q w :
  (forall x w', after_create d w w' -> wp ok (k (inr x)) Q w') ->
  (forall key id t w', w' = set_repo (w_repo w') w ->
     repo_key id = Some key -> repo_view (w_repo w) !! key = None ->
     repo_view (w_repo w') =
       <[key := stored (create_deposit id t d)]> (repo_view (w_repo w)) ->
     wp ok (k (inl (create_deposit id t d))) Q w') ->
  wp ok (try (RepoCreate d) ≫= k) Q w.
Proof.
  intros Herr Hok. cbn. intros e _. unfold in_repo.
  pose proof (repo_create_cases e d (w_repo w)) as Hc.
  destruct (repo_Create e d (w_repo w)) as [r s]. cbn in *.
  destruct Hc as [[Hv [x ->]]|(key & Hk & Hn & Hv & [->|[x ->]])]; cbn.
  - apply Herr. split; [done|]. by left.
  - by eapply Hok.
  - apply Herr. split; [done|]. right. by eauto.
Qed.

Lemma wp_transition ok cur next k Q w :
  (forall msg code, Q (Some {| status := StatusConflict;
     body := PError {| ErrorResponse_Error := msg; ErrorResponse_Code := code |} |}) w) ->
  (CanTransition cur next = true -> wp ok k Q w) ->
  wp ok (transition cur next k) Q w.
Proof.
  intros Herr Hok. unfold transition. rewrite Transition_spec.
  destruct (CanTransition cur next); [by apply Hok|apply Herr].
Qed.
End Logic.
