(* ===== verification/Api.v ===== *)
(** * The API as a whole

    Every call with its arguments, the configuration the server is built with,
    and the handler of each call. *)

From S2P Require Import Prelude Calendar Models Json Runtime Sessions StatusList Server.
From S2P Require Import Credential.
From S2P Require Import VpSessions Presentation.
From S2P Require Import Handlers IssuerHandlers VerifierHandlers Receipt.

(** The server's configuration and the library functions its handlers use. *)
Record config := {
  cfg_webhookURL : string;
  cfg_issuerURL : string;
  cfg_fpdf : Receipt.fpdf;
  cfg_ToLower : string -> string;
  cfg_KeyID : string;
  cfg_sign : string -> string -> sdJWTClaims -> option string;
  cfg_sign_list : string -> string -> statusListVCClaims -> option string;
  cfg_gzip : list Z -> option (list Z);
  cfg_ParseWithClaims : instant -> string -> issuerJWTClaims + string;
  cfg_ParseUnverified : string -> (string * kbJWTClaims) + string;
  cfg_decode_error : string -> string;
  cfg_quote : string -> string;
  cfg_request_text : VpRequest -> string;
  cfg_QueryEscape : string -> string }.

(** [verification.VerifyVpToken] with the library functions of the server. *)
Definition verify (g : config) : string -> string -> string -> prog (VerifiedClaims + string) :=
  VerifyVpToken (cfg_ParseWithClaims g) (cfg_ParseUnverified g) (cfg_decode_error g)
    (cfg_quote g).

Inductive api_call :=
| CallCreateDeposit (r : decoded Deposit)
| CallGetDeposit (id : string)
| CallUpdateIdentity (id : string) (r : decoded IdentityUpdateRequest)
| CallPledge (id : string) (r : decoded PledgeRequest)
| CallRelease (id : string) (r : decoded ReleaseRequest)
| CallClaim (id : string) (r : decoded ClaimRequest)
| CallGetReceipt (id : string)
| CallGetReleaseReceipt (id : string)
| CallSettle (id : string) (r : decoded SettleRequest)
| CallSettleAccept (id : string) (r : decoded SettleAcceptRequest)
| CallDispute (id : string) (r : decoded DisputeRequest)
| CallDisputeResolve (id : string) (r : decoded DisputeResolveRequest)
| CallPartialRelease (id : string) (r : decoded PartialReleaseRequest)
| CallUtilitySettle (id : string) (r : decoded UtilitySettleRequest)
| CallIssueCredential (id : string) (r : decoded issueCredentialRequest)
| CallGetCredentialOffer (sessionID : string)
| CallToken (form : tokenForm)
| CallCredential (authHeader : string) (r : decoded credentialRequest)
| CallCredentialStatus (credID : string)
| CallStatusList
| CallCreateVpRequest (id : string)
| CallReceiveVpResponse (id : string) (r : decoded vpResponseRequest)
| CallValidate (r : decoded validateRequest).

Definition handle (g : config) (c : api_call) : prog response :=
  let url := cfg_webhookURL g in
  match c with
  | CallCreateDeposit r => CreateDeposit r
  | CallGetDeposit id => GetDeposit id
  | CallUpdateIdentity id r => UpdateIdentity url id r
  | CallPledge id r => Handlers.Pledge url id r
  | CallRelease id r => Release url id r
  | CallClaim id r => Claim url id r
  | CallGetReceipt id => GetReceipt (cfg_fpdf g) id
  | CallGetReleaseReceipt id => GetReleaseReceipt (cfg_fpdf g) id
  | CallSettle id r => Settle url id r
  | CallSettleAccept id r => SettleAccept url id r
  | CallDispute id r => Dispute url id r
  | CallDisputeResolve id r => DisputeResolve url id r
  | CallPartialRelease id r => PartialRelease url id r
  | CallUtilitySettle id r => UtilitySettle url id r
  | CallIssueCredential id r => IssueCredential (cfg_issuerURL g) id r
  | CallGetCredentialOffer sid => GetCredentialOffer (cfg_issuerURL g) sid
  | CallToken f => Token f
  | CallCredential h r =>
      Credential (cfg_issuerURL g) (cfg_ToLower g) (cfg_sign g) (cfg_KeyID g) h r
  | CallCredentialStatus cid => IssuerHandlers.CredentialStatus cid
  | CallStatusList => StatusList (cfg_issuerURL g) (cfg_gzip g) (cfg_sign_list g) (cfg_KeyID g)
  | CallCreateVpRequest id =>
      CreateVpRequest (cfg_issuerURL g) (cfg_request_text g) (cfg_QueryEscape g) id
  | CallReceiveVpResponse id r => ReceiveVpResponse url (verify g) id r
  | CallValidate r => VerifierHandlers.Validate (cfg_quote g) r
  end.
