(* ===== verification/Bodies.v ===== *)
(** * Request bodies: [json.NewDecoder(r.Body).Decode(&req)] in the handlers

    The request types of [models/deposit.go] and of the handlers with their
    struct tags: what [json.Marshal] writes for a client that uses them, and
    what the server reads from the text of a body.  [with_body] is an endpoint
    with its body.  The bodies of [CreateDeposit] and [Validate] hold times,
    which are read from the raw text of a string; they are not read here. *)

From S2P Require Import Prelude Float64 Calendar Models Json JsonModels Utf8 JsonText Unmarshal Targets.
From S2P Require Import Runtime Sessions StatusList Server Handlers IssuerHandlers VerifierHandlers Api.

Local Open Scope Z_scope.

Local Infix "⊕" := both (at level 60, right associativity).

(** A struct with its tags, from and to the tuple of its fields. *)
Definition marshals {A B} (of_ : A -> B) (parts : B -> A) (c : fcodec A) : vcodec B :=
  struct_codec (fiso of_ parts c).
Definition reads_struct {A B} (of_ : A -> B) (t : targets A) : target B :=
  struct_target (as_struct of_ t).

Ltac solve_reads :=
  apply freads_struct;
  repeat (apply freads_both; [apply _|solve_fields|apply _| |reflexivity]); apply _.

(** ** The types *)

Definition WalletMetadata_targets :=
  at_field "issuer" string_target ⊕
  at_field "issuer_id" string_target ⊕
  at_field "wallet_provider" string_target ⊕
  at_field "credential_type" string_target ⊕
  at_field "credential_format" string_target ⊕
  at_field "assurance_level" string_target ⊕
  at_field "presentation_id" string_target ⊕
  at_field "issuing_country" string_target ⊕
  at_field "verified_at" string_target ⊕
  at_field "expires_at" string_target.
Definition WalletMetadata_target : target WalletMetadata :=
  reads_struct
    (fun '(x1, (x2, (x3, (x4, (x5, (x6, (x7, (x8, (x9, x10))))))))) =>
      Build_WalletMetadata x1 x2 x3 x4 x5 x6 x7 x8 x9 x10)
    WalletMetadata_targets.
#[export] Instance reads_WalletMetadata : Reads WalletMetadata_codec WalletMetadata_target.
Proof. solve_reads. Qed.

Definition IdentityUpdateRequest_of '((x1, (x2, (x3, x4))) : string * (string * (string * (option WalletMetadata)))) :=
  {| IdentityUpdateRequest_EIDStatus := x1;
     IdentityUpdateRequest_VerificationTimestamp := x2;
     IdentityUpdateRequest_ProviderReference := x3;
     IdentityUpdateRequest_WalletMetadata := x4 |}.
Definition IdentityUpdateRequest_parts (r : IdentityUpdateRequest) :=
  (IdentityUpdateRequest_EIDStatus r,
   (IdentityUpdateRequest_VerificationTimestamp r,
   (IdentityUpdateRequest_ProviderReference r, IdentityUpdateRequest_WalletMetadata r))).
Definition IdentityUpdateRequest_codec : vcodec IdentityUpdateRequest :=
  marshals IdentityUpdateRequest_of IdentityUpdateRequest_parts
    (field "eid_status" string_codec ⊗
     field_omit "verification_timestamp" string_codec ⊗
     field_omit "provider_reference" string_codec ⊗
     field_ptr "wallet_metadata" WalletMetadata_codec).
Definition IdentityUpdateRequest_target : target IdentityUpdateRequest :=
  reads_struct IdentityUpdateRequest_of
    (at_field "eid_status" string_target ⊕
     at_field "verification_timestamp" string_target ⊕
     at_field "provider_reference" string_target ⊕
     at_field "wallet_metadata" (ptr_target WalletMetadata_target)).
#[export] Instance reads_IdentityUpdateRequest : Reads IdentityUpdateRequest_codec IdentityUpdateRequest_target.
Proof. solve_reads. Qed.

Definition PledgeRequest_of '((x1, (x2, x3)) : string * (bool * (string))) :=
  {| PledgeRequest_PledgeDate := x1;
     PledgeRequest_IsConfirmedByBank := x2;
     PledgeRequest_ProviderReference := x3 |}.
Definition PledgeRequest_parts (r : PledgeRequest) :=
  (PledgeRequest_PledgeDate r,
   (PledgeRequest_IsConfirmedByBank r, PledgeRequest_ProviderReference r)).
Definition PledgeRequest_codec : vcodec PledgeRequest :=
  marshals PledgeRequest_of PledgeRequest_parts
    (field "pledge_date" string_codec ⊗
     field "is_confirmed_by_bank" bool_codec ⊗
     field_omit "provider_reference" string_codec).
Definition PledgeRequest_target : target PledgeRequest :=
  reads_struct PledgeRequest_of
    (at_field "pledge_date" string_target ⊕
     at_field "is_confirmed_by_bank" bool_target ⊕
     at_field "provider_reference" string_target).
#[export] Instance reads_PledgeRequest : Reads PledgeRequest_codec PledgeRequest_target.
Proof. solve_reads. Qed.

Definition ReleaseRequest_of '((x1, (x2, x3)) : string * (float64 * (string))) :=
  {| ReleaseRequest_ReleaseType := x1;
     ReleaseRequest_ReleaseAmount := x2;
     ReleaseRequest_LandlordSignatureToken := x3 |}.
Definition ReleaseRequest_parts (r : ReleaseRequest) :=
  (ReleaseRequest_ReleaseType r,
   (ReleaseRequest_ReleaseAmount r, ReleaseRequest_LandlordSignatureToken r)).
Definition ReleaseRequest_codec : vcodec ReleaseRequest :=
  marshals ReleaseRequest_of ReleaseRequest_parts
    (field_omit "release_type" string_codec ⊗
     field_omit "release_amount" float_codec ⊗
     field_omit "landlord_signature_token" string_codec).
Definition ReleaseRequest_target : target ReleaseRequest :=
  reads_struct ReleaseRequest_of
    (at_field "release_type" string_target ⊕
     at_field "release_amount" float_target ⊕
     at_field "landlord_signature_token" string_target).
#[export] Instance reads_ReleaseRequest : Reads ReleaseRequest_codec ReleaseRequest_target.
Proof. solve_reads. Qed.

Definition ClaimRequest_of '((x1, (x2, x3)) : float64 * (string * (list string))) :=
  {| ClaimRequest_ClaimAmount := x1;
     ClaimRequest_Reason := x2;
     ClaimRequest_EvidenceURLs := x3 |}.
Definition ClaimRequest_parts (r : ClaimRequest) :=
  (ClaimRequest_ClaimAmount r,
   (ClaimRequest_Reason r, ClaimRequest_EvidenceURLs r)).
Definition ClaimRequest_codec : vcodec ClaimRequest :=
  marshals ClaimRequest_of ClaimRequest_parts
    (field "claim_amount" float_codec ⊗
     field "reason" string_codec ⊗
     field_omit "evidence_urls" (list_codec string_codec)).
Definition ClaimRequest_target : target ClaimRequest :=
  reads_struct ClaimRequest_of
    (at_field "claim_amount" float_target ⊕
     at_field "reason" string_target ⊕
     at_field "evidence_urls" (list_target string_target)).
#[export] Instance reads_ClaimRequest : Reads ClaimRequest_codec ClaimRequest_target.
Proof. solve_reads. Qed.

Definition ClaimItemInput_of '((x1, (x2, (x3, (x4, x5)))) : string * (string * (float64 * (list string * (string))))) :=
  {| ClaimItemInput_Category := x1;
     ClaimItemInput_Description := x2;
     ClaimItemInput_AmountClaimed := x3;
     ClaimItemInput_EvidenceRefs := x4;
     ClaimItemInput_RoomOrArea := x5 |}.
Definition ClaimItemInput_parts (r : ClaimItemInput) :=
  (ClaimItemInput_Category r,
   (ClaimItemInput_Description r,
   (ClaimItemInput_AmountClaimed r,
   (ClaimItemInput_EvidenceRefs r, ClaimItemInput_RoomOrArea r)))).
Definition ClaimItemInput_codec : vcodec ClaimItemInput :=
  marshals ClaimItemInput_of ClaimItemInput_parts
    (field "category" string_codec ⊗
     field "description" string_codec ⊗
     field "amount_claimed" float_codec ⊗
     field_omit "evidence_refs" (list_codec string_codec) ⊗
     field_omit "room_or_area" string_codec).
Definition ClaimItemInput_target : target ClaimItemInput :=
  reads_struct ClaimItemInput_of
    (at_field "category" string_target ⊕
     at_field "description" string_target ⊕
     at_field "amount_claimed" float_target ⊕
     at_field "evidence_refs" (list_target string_target) ⊕
     at_field "room_or_area" string_target).
#[export] Instance ClaimItemInput_codec_law : VCodec ClaimItemInput_codec.
Proof. solve_struct. Qed.
#[export] Instance reads_ClaimItemInput : Reads ClaimItemInput_codec ClaimItemInput_target.
Proof. solve_reads. Qed.

Definition SettleRequest_of '((x1, (x2, (x3, (x4, (x5, (x6, x7)))))) : string * (string * (string * (string * (list ClaimItemInput * (float64 * (float64))))))) :=
  {| SettleRequest_InitiatedBy := x1;
     SettleRequest_TenancyEndDate := x2;
     SettleRequest_HandoverDate := x3;
     SettleRequest_HandoverProtocolRef := x4;
     SettleRequest_ClaimItems := x5;
     SettleRequest_ProposedTenantRefund := x6;
     SettleRequest_ProposedLandlordRetention := x7 |}.
Definition SettleRequest_parts (r : SettleRequest) :=
  (SettleRequest_InitiatedBy r,
   (SettleRequest_TenancyEndDate r,
   (SettleRequest_HandoverDate r,
   (SettleRequest_HandoverProtocolRef r,
   (SettleRequest_ClaimItems r,
   (SettleRequest_ProposedTenantRefund r, SettleRequest_ProposedLandlordRetention r)))))).
Definition SettleRequest_codec : vcodec SettleRequest :=
  marshals SettleRequest_of SettleRequest_parts
    (field "initiated_by" string_codec ⊗
     field_omit "tenancy_end_date" string_codec ⊗
     field_omit "handover_date" string_codec ⊗
     field_omit "handover_protocol_ref" string_codec ⊗
     field "claim_items" (list_codec ClaimItemInput_codec) ⊗
     field "proposed_tenant_refund" float_codec ⊗
     field "proposed_landlord_retention" float_codec).
Definition SettleRequest_target : target SettleRequest :=
  reads_struct SettleRequest_of
    (at_field "initiated_by" string_target ⊕
     at_field "tenancy_end_date" string_target ⊕
     at_field "handover_date" string_target ⊕
     at_field "handover_protocol_ref" string_target ⊕
     at_field "claim_items" (list_target ClaimItemInput_target) ⊕
     at_field "proposed_tenant_refund" float_target ⊕
     at_field "proposed_landlord_retention" float_target).
#[export] Instance reads_SettleRequest : Reads SettleRequest_codec SettleRequest_target.
Proof. solve_reads. Qed.

Definition SettleAcceptRequest_of (x1 : string) := {| SettleAcceptRequest_AcceptedBy := x1 |}.
Definition SettleAcceptRequest_parts (r : SettleAcceptRequest) :=
  SettleAcceptRequest_AcceptedBy r.
Definition SettleAcceptRequest_codec : vcodec SettleAcceptRequest :=
  marshals SettleAcceptRequest_of SettleAcceptRequest_parts
    (field "accepted_by" string_codec).
Definition SettleAcceptRequest_target : target SettleAcceptRequest :=
  reads_struct SettleAcceptRequest_of
    (at_field "accepted_by" string_target).
#[export] Instance reads_SettleAcceptRequest : Reads SettleAcceptRequest_codec SettleAcceptRequest_target.
Proof. solve_reads. Qed.

Definition DisputeRequest_of '((x1, (x2, (x3, x4))) : string * (string * (string * (string)))) :=
  {| DisputeRequest_EscalatedBy := x1;
     DisputeRequest_EscalationType := x2;
     DisputeRequest_ExternalReference := x3;
     DisputeRequest_Statement := x4 |}.
Definition DisputeRequest_parts (r : DisputeRequest) :=
  (DisputeRequest_EscalatedBy r,
   (DisputeRequest_EscalationType r,
   (DisputeRequest_ExternalReference r, DisputeRequest_Statement r))).
Definition DisputeRequest_codec : vcodec DisputeRequest :=
  marshals DisputeRequest_of DisputeRequest_parts
    (field "escalated_by" string_codec ⊗
     field "escalation_type" string_codec ⊗
     field_omit "external_reference" string_codec ⊗
     field_omit "statement" string_codec).
Definition DisputeRequest_target : target DisputeRequest :=
  reads_struct DisputeRequest_of
    (at_field "escalated_by" string_target ⊕
     at_field "escalation_type" string_target ⊕
     at_field "external_reference" string_target ⊕
     at_field "statement" string_target).
#[export] Instance reads_DisputeRequest : Reads DisputeRequest_codec DisputeRequest_target.
Proof. solve_reads. Qed.

Definition DisputeResolveRequest_of '((x1, (x2, x3)) : float64 * (float64 * (string))) :=
  {| DisputeResolveRequest_AgreedTenantRefund := x1;
     DisputeResolveRequest_AgreedLandlordRetention := x2;
     DisputeResolveRequest_ResolutionReference := x3 |}.
Definition DisputeResolveRequest_parts (r : DisputeResolveRequest) :=
  (DisputeResolveRequest_AgreedTenantRefund r,
   (DisputeResolveRequest_AgreedLandlordRetention r, DisputeResolveRequest_ResolutionReference r)).
Definition DisputeResolveRequest_codec : vcodec DisputeResolveRequest :=
  marshals DisputeResolveRequest_of DisputeResolveRequest_parts
    (field "agreed_tenant_refund" float_codec ⊗
     field "agreed_landlord_retention" float_codec ⊗
     field_omit "resolution_reference" string_codec).
Definition DisputeResolveRequest_target : target DisputeResolveRequest :=
  reads_struct DisputeResolveRequest_of
    (at_field "agreed_tenant_refund" float_target ⊕
     at_field "agreed_landlord_retention" float_target ⊕
     at_field "resolution_reference" string_target).
#[export] Instance reads_DisputeResolveRequest : Reads DisputeResolveRequest_codec DisputeResolveRequest_target.
Proof. solve_reads. Qed.

Definition PartialReleaseRequest_of '((x1, (x2, (x3, x4))) : float64 * (float64 * (float64 * (string)))) :=
  {| PartialReleaseRequest_ReleasedAmount := x1;
     PartialReleaseRequest_ReservedAmount := x2;
     PartialReleaseRequest_MonthlyAdvance := x3;
     PartialReleaseRequest_BillingPeriodEnd := x4 |}.
Definition PartialReleaseRequest_parts (r : PartialReleaseRequest) :=
  (PartialReleaseRequest_ReleasedAmount r,
   (PartialReleaseRequest_ReservedAmount r,
   (PartialReleaseRequest_MonthlyAdvance r, PartialReleaseRequest_BillingPeriodEnd r))).
Definition PartialReleaseRequest_codec : vcodec PartialReleaseRequest :=
  marshals PartialReleaseRequest_of PartialReleaseRequest_parts
    (field "released_amount" float_codec ⊗
     field "reserved_amount" float_codec ⊗
     field_omit "monthly_advance" float_codec ⊗
     field "billing_period_end" string_codec).
Definition PartialReleaseRequest_target : target PartialReleaseRequest :=
  reads_struct PartialReleaseRequest_of
    (at_field "released_amount" float_target ⊕
     at_field "reserved_amount" float_target ⊕
     at_field "monthly_advance" float_target ⊕
     at_field "billing_period_end" string_target).
#[export] Instance reads_PartialReleaseRequest : Reads PartialReleaseRequest_codec PartialReleaseRequest_target.
Proof. solve_reads. Qed.

Definition UtilitySettleRequest_of '((x1, (x2, x3)) : string * (float64 * (float64))) :=
  {| UtilitySettleRequest_SettlementRef := x1;
     UtilitySettleRequest_ActualCost := x2;
     UtilitySettleRequest_TotalAdvancePaid := x3 |}.
Definition UtilitySettleRequest_parts (r : UtilitySettleRequest) :=
  (UtilitySettleRequest_SettlementRef r,
   (UtilitySettleRequest_ActualCost r, UtilitySettleRequest_TotalAdvancePaid r)).
Definition UtilitySettleRequest_codec : vcodec UtilitySettleRequest :=
  marshals UtilitySettleRequest_of UtilitySettleRequest_parts
    (field_omit "settlement_ref" string_codec ⊗
     field "actual_cost" float_codec ⊗
     field "total_advance_paid" float_codec).
Definition UtilitySettleRequest_target : target UtilitySettleRequest :=
  reads_struct UtilitySettleRequest_of
    (at_field "settlement_ref" string_target ⊕
     at_field "actual_cost" float_target ⊕
     at_field "total_advance_paid" float_target).
#[export] Instance reads_UtilitySettleRequest : Reads UtilitySettleRequest_codec UtilitySettleRequest_target.
Proof. solve_reads. Qed.

Definition issueCredentialRequest_of (x1 : string) := {| issueReq_ValidUntil := x1 |}.
Definition issueCredentialRequest_parts (r : issueCredentialRequest) :=
  issueReq_ValidUntil r.
Definition issueCredentialRequest_codec : vcodec issueCredentialRequest :=
  marshals issueCredentialRequest_of issueCredentialRequest_parts
    (field_omit "valid_until" string_codec).
Definition issueCredentialRequest_target : target issueCredentialRequest :=
  reads_struct issueCredentialRequest_of
    (at_field "valid_until" string_target).
#[export] Instance reads_issueCredentialRequest : Reads issueCredentialRequest_codec issueCredentialRequest_target.
Proof. solve_reads. Qed.

(** The proof of a credential request, an anonymous struct. *)
Definition proof_codec : vcodec (string * string) :=
  marshals (fun p : string * string => p) (fun p => p)
    (field "proof_type" string_codec ⊗ field "jwt" string_codec).
Definition proof_target : target (string * string) :=
  reads_struct (fun p : string * string => p)
    (at_field "proof_type" string_target ⊕ at_field "jwt" string_target).
#[export] Instance proof_codec_law : VCodec proof_codec.
Proof. solve_struct. Qed.
#[export] Instance reads_proof : Reads proof_codec proof_target.
Proof. solve_reads. Qed.

Definition credentialRequest_of '((x1, (x2, x3)) : string * (string * (option (string * string)))) :=
  {| credReq_Format := x1;
     credReq_VCT := x2;
     credReq_Proof := x3 |}.
Definition credentialRequest_parts (r : credentialRequest) :=
  (credReq_Format r,
   (credReq_VCT r, credReq_Proof r)).
Definition credentialRequest_codec : vcodec credentialRequest :=
  marshals credentialRequest_of credentialRequest_parts
    (field "format" string_codec ⊗
     field "vct" string_codec ⊗
     field_ptr "proof" proof_codec).
Definition credentialRequest_target : target credentialRequest :=
  reads_struct credentialRequest_of
    (at_field "format" string_target ⊕
     at_field "vct" string_target ⊕
     at_field "proof" (ptr_target proof_target)).
#[export] Instance reads_credentialRequest : Reads credentialRequest_codec credentialRequest_target.
Proof. solve_reads. Qed.

(** The member [presentation_submission] takes any value and is not used. *)
Definition vpResponseRequest_of '((x1, x2) : string * (string)) :=
  {| vpReq_VpToken := x1;
     vpReq_State := x2 |}.
Definition vpResponseRequest_parts (r : vpResponseRequest) :=
  (vpReq_VpToken r, vpReq_State r).
Definition vpResponseRequest_codec : vcodec vpResponseRequest :=
  marshals vpResponseRequest_of vpResponseRequest_parts
    (field "vp_token" string_codec ⊗
     field "state" string_codec).
Definition vpResponseRequest_target : target vpResponseRequest :=
  reads_struct vpResponseRequest_of
    (at_field "vp_token" string_target ⊕
     at_field "state" string_target).
#[export] Instance reads_vpResponseRequest : Reads vpResponseRequest_codec vpResponseRequest_target.
Proof. solve_reads. Qed.

(** ** Endpoints with a body *)

Definition decode_body {A} (t : target A) (body : list Z) : decoded A :=
  let '(a, ok) := read_into t body in {| value := a; decode_failed := negb ok |}.

Inductive request :=
| PatchIdentity (id : string)
| PostPledge (id : string)
| PostRelease (id : string)
| PostClaim (id : string)
| PostSettle (id : string)
| PostSettleAccept (id : string)
| PostDispute (id : string)
| PostDisputeResolve (id : string)
| PostPartialRelease (id : string)
| PostUtilitySettle (id : string)
| PostIssueCredential (id : string)
| PostCredential (authHeader : string)
| PostVpResponse (id : string).

Definition with_body (q : request) (body : list Z) : api_call :=
  match q with
  | PatchIdentity id => CallUpdateIdentity id (decode_body IdentityUpdateRequest_target body)
  | PostPledge id => CallPledge id (decode_body PledgeRequest_target body)
  | PostRelease id => CallRelease id (decode_body ReleaseRequest_target body)
  | PostClaim id => CallClaim id (decode_body ClaimRequest_target body)
  | PostSettle id => CallSettle id (decode_body SettleRequest_target body)
  | PostSettleAccept id => CallSettleAccept id (decode_body SettleAcceptRequest_target body)
  | PostDispute id => CallDispute id (decode_body DisputeRequest_target body)
  | PostDisputeResolve id => CallDisputeResolve id (decode_body DisputeResolveRequest_target body)
  | PostPartialRelease id => CallPartialRelease id (decode_body PartialReleaseRequest_target body)
  | PostUtilitySettle id => CallUtilitySettle id (decode_body UtilitySettleRequest_target body)
  | PostIssueCredential id =>
      CallIssueCredential id (decode_body issueCredentialRequest_target body)
  | PostCredential authHeader =>
      CallCredential authHeader (decode_body credentialRequest_target body)
  | PostVpResponse id => CallReceiveVpResponse id (decode_body vpResponseRequest_target body)
  end.

(** A client sends the struct [a] to [q]: the document is [j], and the call is
    meant to be [c]. *)
Definition arrives {A} (codec : vcodec A) (a : A) (j : json) (r : decoded A) : Prop :=
  venc codec a = Some j /\ r = {| value := vnorm codec a; decode_failed := false |}.

Inductive sends (j : json) : request -> api_call -> Prop :=
| sends_identity id a r : arrives IdentityUpdateRequest_codec a j r ->
    sends j (PatchIdentity id) (CallUpdateIdentity id r)
| sends_pledge id a r : arrives PledgeRequest_codec a j r ->
    sends j (PostPledge id) (CallPledge id r)
| sends_release id a r : arrives ReleaseRequest_codec a j r ->
    sends j (PostRelease id) (CallRelease id r)
| sends_claim id a r : arrives ClaimRequest_codec a j r ->
    sends j (PostClaim id) (CallClaim id r)
| sends_settle id a r : arrives SettleRequest_codec a j r ->
    sends j (PostSettle id) (CallSettle id r)
| sends_accept id a r : arrives SettleAcceptRequest_codec a j r ->
    sends j (PostSettleAccept id) (CallSettleAccept id r)
| sends_dispute id a r : arrives DisputeRequest_codec a j r ->
    sends j (PostDispute id) (CallDispute id r)
| sends_resolve id a r : arrives DisputeResolveRequest_codec a j r ->
    sends j (PostDisputeResolve id) (CallDisputeResolve id r)
| sends_partial id a r : arrives PartialReleaseRequest_codec a j r ->
    sends j (PostPartialRelease id) (CallPartialRelease id r)
| sends_utility id a r : arrives UtilitySettleRequest_codec a j r ->
    sends j (PostUtilitySettle id) (CallUtilitySettle id r)
| sends_issue id a r : arrives issueCredentialRequest_codec a j r ->
    sends j (PostIssueCredential id) (CallIssueCredential id r)
| sends_credential h a r : arrives credentialRequest_codec a j r ->
    sends j (PostCredential h) (CallCredential h r)
| sends_vp id a r : arrives vpResponseRequest_codec a j r ->
    sends j (PostVpResponse id) (CallReceiveVpResponse id r).

Lemma decode_body_arrives {A} (c : vcodec A) (t : target A) k a j b r :
  Reads c t -> Shallow c k -> (k <=? 10)%nat = true -> arrives c a j r -> printable j ->
  json_text j = Some b -> decode_body t b = r.
Proof.
  intros Hr Hs Hk [Hj ->] Hp Hb. unfold decode_body.
  rewrite (read_back c t k a j b); try done. apply Nat.leb_le in Hk. unfold max_depth. lia.
Qed.

(** C29: what a client sends is what the handler gets: for every endpoint with a JSON body but
    CreateDeposit and Validate, the text that json.Marshal writes for the request struct is read
    by the handler's decoder, whose names ignore case and whose memory is shared by repeated
    members, without an error and into the same struct, nested lists and pointers included (up
    to a negative zero in an omitempty field, and with bytes that are not UTF-8 replaced by
    U+FFFD, as json.Marshal does). *)
Theorem bodies_arrive j q c b :
  sends j q c -> printable j -> json_text j = Some b -> with_body q b = c.
Proof.
  intros Hs Hp Hb. destruct Hs; cbn [with_body]; f_equal;
    (eapply decode_body_arrives; [apply _|apply _|reflexivity|eassumption..]).
Qed.
