(* ===== verification/Router.v ===== *)
(** * The routes: [internal/api/router.go]

    Every endpoint with its handler, and the group of endpoints that
    [JWTMiddleware] guards.  Path matching is the router library's. *)

From S2P Require Import Prelude Calendar Models Json Runtime Sessions StatusList Server.
From S2P Require Import Discovery Handlers IssuerHandlers Api Auth.

(** What a request asks for. *)
Inductive route :=
| RouteHealthz
| RouteIssuerMetadata
| RouteJWKS
| RouteCall (c : api_call).

(** The group below [r.Use(middleware.JWTMiddleware(jwtSecret))]. *)
Definition guarded (c : api_call) : bool :=
  match c with
  | CallValidate _ | CallGetCredentialOffer _ | CallToken _ | CallCredential _ _
  | CallCredentialStatus _ | CallStatusList | CallReceiveVpResponse _ _ => false
  | _ => true
  end.

Section Router.
Context `{JwtLibrary}.
(** The secret of the tokens; the coordinates of the issuer's public key. *)
Context (jwtSecret : string) (pub_X pub_Y : Z).

Definition healthz : prog response := writeJSON StatusOK PHealth.

(** [authorization] is the request's header, empty if there is none. *)
Definition NewRouter (g : config) (authorization : string) (r : route) : prog response :=
  match r with
  | RouteHealthz => healthz
  | RouteIssuerMetadata => IssuerMetadata (cfg_issuerURL g)
  | RouteJWKS => JWKS (cfg_KeyID g) pub_X pub_Y
  | RouteCall c =>
      if guarded c then JWTMiddleware jwtSecret authorization (handle g c) else handle g c
  end.
End Router.
