(* ===== verification/Lifecycle.v ===== *)
(** * The lifecycle of deposits under the API

    Sequential calls: every call moves every deposit by at most one allowed
    transition and appends exactly the matching history entry; from there, the
    properties of whole histories. *)

From S2P Require Import Prelude Float64 Calendar Models JsonModels Statemachine Runtime.
From S2P Require Import Repository Sessions StatusList Server Credential Handlers.
From S2P Require Import IssuerHandlers VpSessions Presentation VerifierHandlers Logic Api.
From S2P Require Import Receipt.

(** ** One step of a deposit *)

(** The states in which an entry is added without a transition: a
    counter-proposal, a verified presentation. *)
Definition repeats (s : LifecycleState) : Prop := s = StateSettleProposed \/ s = StatePledged.

(** A transition of the table, or a repeated state; no call leads to
    [FUNDED]. *)
Definition allowed (s t : LifecycleState) : Prop :=
  (CanTransition s t = true \/ repeats s /\ t = s) /\ t <> StateFunded.

(** A pledge the bank has confirmed. *)
Definition confirmed (d : Deposit) : Prop :=
  exists p, Deposit_Pledge d = Some p /\ Pledge_IsConfirmedByBank p = true.

(** What the fields of a deposit that enters state [ns] look like, and what a
    deposit keeps: the references that later handlers follow. *)
Record carries (ns : LifecycleState) (d d' : Deposit) : Prop := {
  carries_id : Deposit_ID d' = Deposit_ID d;
  carries_settlement : is_Some (Deposit_Settlement d) -> is_Some (Deposit_Settlement d');
  carries_reservation :
    is_Some (Deposit_UtilityReservation d) -> is_Some (Deposit_UtilityReservation d');
  carries_confirmed :
    confirmed d \/ (ns = StatePledged /\ lifecycle d <> StatePledged) -> confirmed d';
  carries_proposed : ns = StateSettleProposed \/ ns = StateDisputed ->
    is_Some (Deposit_Settlement d');
  carries_partial : ns = StatePartiallyReleased -> is_Some (Deposit_UtilityReservation d') }.

Definition evolves (d d' : Deposit) : Prop :=
  d' = d \/
  allowed (lifecycle d) (lifecycle d') /\ carries (lifecycle d') d d' /\
  exists en, HistoryEntry_State en = lifecycle d' /\ history d' = history d ++ [en].

(** A deposit as [Create] leaves it. *)
Definition born (d : Deposit) : Prop :=
  lifecycle d = StateRequested /\ exists t, history d = [requested_entry t].

Definition view_evolves (v v' : gmap string Deposit) : Prop :=
  (forall k d, v !! k = Some d -> exists d', v' !! k = Some d' /\ evolves d d') /\
  (forall k d', v !! k = None -> v' !! k = Some d' -> born d').

Lemma view_evolves_refl v : view_evolves v v.
Proof.
  split; [|congruence]. intros k d Hd. exists d. split; [done|]. by left.
Qed.

(** Patches leave the history alone and do what their state asks. *)
Definition keeps_at (ns : LifecycleState) (p : patch_fn) (d : Deposit) : Prop :=
  forall d', apply_patch p d = Some d' -> history d' = history d /\ carries ns d d'.
Definition keeps (ns : LifecycleState) (p : patch_fn) : Prop := forall d, keeps_at ns p d.

Ltac solve_keeps :=
  split; [done|]; split; unfold confirmed; cbn in *;
  first [ done
        | intros [Hc|[Hc Hne]]; first [ discriminate Hc | exact Hc | by eexists ]
        | intros [Hc|Hc]; first [ discriminate Hc | exact Hc | by eexists ]
        | intros Hc; first [ discriminate Hc | by eexists ] ].

Lemma keeps_release : keeps StateReleased None.
Proof. intros d d' [= <-]. destruct d. solve_keeps. Qed.
Lemma keeps_claim : keeps StateClaimed None.
Proof. intros d d' [= <-]. destruct d. solve_keeps. Qed.
Lemma keeps_identity r : keeps StateIdentified (Some (patch_identity r)).
Proof. intros d d' [= <-]. destruct d. solve_keeps. Qed.
Lemma keeps_pledge r : keeps StatePledged (Some (patch_pledge r)).
Proof. intros d d' [= <-]. destruct d. solve_keeps. Qed.
Lemma keeps_settlement s : keeps StateSettleProposed (Some (patch_settlement s)).
Proof. intros d d' [= <-]. destruct d. solve_keeps. Qed.
Lemma keeps_accept : keeps StateClosed (Some patch_accept).
Proof. intros d d' (s & Hs & [= <-])%bind_Some. destruct d. solve_keeps. Qed.
Lemma keeps_dispute r : keeps StateDisputed (Some (patch_dispute r)).
Proof. intros d d' [= <-]. destruct d. solve_keeps. Qed.
Lemma keeps_resolve r : keeps StateClosed (Some (patch_resolve r)).
Proof. intros d d' [= <-]. destruct d. solve_keeps. Qed.
Lemma keeps_reservation u : keeps StatePartiallyReleased (Some (patch_reservation u)).
Proof. intros d d' [= <-]. destruct d. solve_keeps. Qed.
Lemma keeps_reconciled r t : keeps StateClosed (Some (patch_reconciled r t)).
Proof. intros d d' (s & Hs & [= <-])%bind_Some. destruct d. solve_keeps. Qed.
Lemma keeps_both r t s :
  keeps StateSettleProposed
    (Some (fun d => d ← patch_reconciled r t d; patch_settlement s d)).
Proof.
  intros d d' (d1 & (u & Hu & [= <-])%bind_Some & [= <-])%bind_Some. destruct d. solve_keeps.
Qed.
(** A presentation is recorded in a pledged deposit. *)
Lemma keeps_wallet m d :
  confirmed d \/ lifecycle d = StatePledged -> keeps_at StatePledged (Some (patch_wallet m)) d.
Proof.
  intros Hd d' [= <-]. split; [by destruct d|]. split; try by destruct d.
  - intros Hc. assert (confirmed d) as Hconf by (destruct Hc as [?|[_ ?]]; naive_solver).
    by destruct d.
  - by intros [|].
Qed.

Lemma keeps_everywhere ns p d : keeps ns p -> keeps_at ns p d.
Proof. intros Hp. apply Hp. Qed.

Create HintDb keeps.
#[export] Hint Resolve keeps_everywhere : keeps.
#[export] Hint Resolve keeps_release keeps_claim keeps_identity keeps_pledge keeps_settlement
  keeps_accept keeps_dispute keeps_resolve keeps_reservation keeps_reconciled keeps_both : keeps.

(** What [keeps] promises survives the write. *)
Lemma confirmed_stored d : confirmed (stored d) <-> confirmed d.
Proof.
  unfold confirmed. rewrite stored_Pledge. split.
  - intros (p & (q & Hq & ->)%fmap_Some & Hc). by exists q.
  - intros (p & Hp & Hc). rewrite Hp. by exists (kept_Pledge p).
Qed.

Lemma carries_stored ns en t d d' :
  texts_ok d -> carries ns d d' -> carries ns d (stored (advance ns en t d')).
Proof.
  intros (Hd & _) [H1 H2 H3 H4 H5 H6].
  assert (confirmed (advance ns en t d') <-> confirmed d') as Hc by (by destruct d').
  split; rewrite ?confirmed_stored, ?Hc; autorewrite with deposit; rewrite ?fmap_is_Some; try done.
  replace (Deposit_ID (advance ns en t d')) with (Deposit_ID d') by by destruct d'. by rewrite H1.
Qed.

Section Sequential.
Context {RS SS AS : Type} `{RepositoryLaws RS} `{SessionStore SS} `{IndexAllocator AS}.
Implicit Types w : world RS SS AS.

Definition deposits w : gmap string Deposit := repo_view (w_repo w).

Lemma view_evolves_insert v key d0 d1 ns en t :
  v !! key = Some d0 -> allowed (lifecycle d0) ns -> HistoryEntry_State en = ns ->
  history d1 = history d0 -> carries ns d0 d1 -> texts_ok d0 -> sql_entry ns en = true ->
  view_evolves v (<[key := stored (advance ns en t d1)]> v).
Proof.
  intros Hv Ha He Hh Hc Ht Hsql. split.
  - intros k d Hd. destruct (decide (key = k)) as [<-|Hne].
    + rewrite lookup_insert_eq. eexists. split; [done|]. right.
      autorewrite with deposit. assert (d = d0) as -> by congruence. split; [done|].
      split; [by apply carries_stored|]. exists (set_entry_Timestamp t en).
      by rewrite (history_stored_advance _ _ _ d0).
    + rewrite lookup_insert_ne by done. exists d. split; [done|]. by left.
  - intros k d' Hn Hs. rewrite lookup_insert_ne in Hs; congruence.
Qed.

Lemma view_evolves_born v key id t d :
  v !! key = None -> view_evolves v (<[key := stored (create_deposit id t d)]> v).
Proof.
  intros Hv. split.
  - intros k d0 Hd. rewrite lookup_insert_ne by congruence. exists d0. split; [done|]. by left.
  - intros k d' Hn. rewrite lookup_insert_Some. intros [[<- <-]|[_ Hs]]; [|congruence].
    split; [by autorewrite with deposit|]. exists t. by autorewrite with deposit.
Qed.

(** The update of a handler that has just read state [lifecycle d]. *)
Lemma wp_evolve ok id ns en p k w key d :
  repo_key id = Some key -> deposits w !! key = Some d -> allowed (lifecycle d) ns ->
  HistoryEntry_State en = ns -> keeps_at ns p d -> (forall d, off_repo True (k d)) ->
  wp ok (update id ns en p k) (fun _ w' => view_evolves (deposits w) (deposits w')) w.
Proof.
  unfold deposits. intros Hk Hv Ha He Hp Hoff. apply wp_update.
  - intros w' [->|(key' & d0 & d1 & t & Hk' & Hv' & Hp' & Hs & -> & _)];
      [apply view_evolves_refl|].
    simplify_eq. apply (view_evolves_insert _ _ d); try done; [by apply Hp..|].
    by eapply repo_view_texts.
  - intros. apply view_evolves_refl.
  - intros key' d0 d1 t w' Hk' Hv' Hp' Hw' _ Hs. apply (wp_off_repo True); [apply Hoff|].
    intros _ w'' -> _. rewrite Hw'. simplify_eq.
    apply (view_evolves_insert _ _ d); try done; [by apply Hp..|]. by eapply repo_view_texts.
Qed.

Lemma allowed_repeat s : repeats s -> allowed s s.
Proof. intros Hs. split; [by right|]. by destruct Hs as [->| ->]. Qed.

Lemma allowed_transition s t : CanTransition s t = true -> t <> StateFunded -> allowed s t.
Proof. by split; [left|]. Qed.
End Sequential.

(** Tails of handlers: background tasks, revocation, the response. *)
Ltac solve_off_repo :=
  intros; repeat first [ apply off_repo_webhook | apply off_repo_bind; [|intros] ]; by cbn.

(** Walks through a handler's guards and reads up to its update. *)
Ltac walk_with done_tac :=
  repeat first
    [ progress cbv beta
    | match goal with
      | |- wp _ (decode _ _) _ _ => unfold decode
      | |- wp _ (if ?b then _ else _) _ _ => destruct b eqn:?
      | |- wp _ (let _ := _ in _) _ _ => cbv zeta
      | |- wp _ (fetch _ _) _ _ => apply wp_fetch; [intros ? ? ? ?; done_tac|intros ? ? ? ?]
      | |- wp _ (transition _ _ _) _ _ => apply wp_transition; [intros ? ?; done_tac|intros ?]
      | |- wp _ (writeError _ _ _) _ _ => done_tac
      | |- wp _ (writeJSON _ _) _ _ => done_tac
      | |- wp _ (writePDF _ _) _ _ => done_tac
      | |- wp _ (emit Now ≫= _) _ _ => apply wp_now; intros ?
      | |- wp _ (Receipt.Generate _ _ ≫= _) _ _ =>
          apply wp_only_now; [apply Receipt.only_now_Generate|intros ?]
      | |- wp _ (Receipt.GenerateReleaseReceipt _ _ ≫= _) _ _ =>
          apply wp_only_now; [apply Receipt.only_now_GenerateReleaseReceipt|intros ?]
      | |- wp _ (match ?o with _ => _ end) _ _ => destruct o eqn:?
      end ].

Section Evolution.
Context {RS SS AS : Type} `{RepositoryLaws RS} `{SessionStore SS} `{IndexAllocator AS}.
Implicit Types w : world RS SS AS.

Ltac walk := walk_with ltac:(apply view_evolves_refl).

Lemma wp_evolve_off ok (p : prog response) w :
  off_repo True p -> wp ok p (fun _ w' => view_evolves (deposits w) (deposits w')) w.
Proof.
  intros Hp. apply (wp_off_repo True); [done|]. intros r w' Hw _. unfold deposits.
  rewrite Hw. apply view_evolves_refl.
Qed.

Lemma off_repo_try {X} (ev : event (result X)) (k : X + error -> prog response) :
  match ev with
  | RepoCreate _ | RepoUpdateState _ _ _ _ => False
  | _ => True
  end -> (forall r, off_repo True (k r)) -> off_repo True (try ev ≫= k).
Proof. intros Hev Hk. apply off_repo_bind; [|done]. split; [by destruct ev|by intros []]. Qed.

Lemma off_repo_disclosures specs :
  off_repo True (disclosures specs).
Proof.
  induction specs as [|[name v] specs IH]; [done|]. cbn [disclosures].
  apply off_repo_bind.
  - apply off_repo_bind; [done|]. intros [salt|]; [|done]. by case_match.
  - intros [[enc hash]|]; [|done]. apply off_repo_bind; [done|]. by intros [[]|].
Qed.

Lemma off_repo_credential g h r :
  off_repo True (handle g (CallCredential h r)).
Proof.
  cbn [handle]. unfold Credential. case_match; [done|]. apply off_repo_bind; [done|].
  intros [x|]; [|done]. apply off_repo_bind; [done|]. intros t. case_match; [done|].
  unfold decode. case_match; [done|]. case_match; [done|]. apply off_repo_try; [done|].
  intros [d|]; [|done]. apply off_repo_bind.
  - unfold BuildSDJWT. apply off_repo_bind; [done|]. intros u.
    apply off_repo_bind; [done|]. intros t'.
    apply off_repo_bind; [apply off_repo_disclosures|]. intros [[]|]; [|done]. by case_match.
  - intros [[]|]; [|done]. apply off_repo_bind; [done|]. by intros [].
Qed.

(** The calls that never touch a deposit. *)
Definition off_deposits (c : api_call) : bool :=
  match c with
  | CallGetCredentialOffer _ | CallToken _ | CallCredential _ _ | CallCredentialStatus _
  | CallStatusList | CallValidate _ => true
  | _ => false
  end.

Lemma off_repo_call g c : off_deposits c = true -> off_repo True (handle g c).
Proof.
  destruct c; try done; intros _; [| | | | |]; cbn [handle].
  - unfold GetCredentialOffer. apply off_repo_bind; [done|].
    intros [x|]; [|done]. apply off_repo_bind; [done|]. intros t. by case_match.
  - unfold Token. repeat (case_match; [done|]). apply off_repo_bind; [done|]. by intros [[]|].
  - apply off_repo_credential.
  - unfold CredentialStatus. apply off_repo_bind; [done|]. intros [st []]; [|done]. by cbn.
  - unfold IssuerHandlers.StatusList. apply off_repo_try; [done|].
    intros [l|]; [|done]. apply off_repo_bind; [done|]. intros t. by case_match.
  - unfold VerifierHandlers.Validate, decode. case_match; [done|]. by apply off_repo_bind.
Qed.

Ltac finish := eapply wp_evolve; try done; eauto with keeps; [|solve_off_repo].

Lemma handle_evolves ok g c w :
  wp ok (handle g c) (fun _ w' => view_evolves (deposits w) (deposits w')) w.
Proof.
  destruct (off_deposits c) eqn:Hoff; [by apply wp_evolve_off, off_repo_call|].
  destruct c; try done; cbn [handle].
  - unfold CreateDeposit. walk. apply wp_create.
    + intros x w' [_ [Hv|(key & i & t & Hn & Hv)]]; unfold deposits; cbn; rewrite Hv;
        [apply view_evolves_refl|by apply view_evolves_born].
    + intros key i t w' _ _ Hn Hv. unfold deposits; cbn. rewrite Hv.
      by apply view_evolves_born.
  - unfold GetDeposit. walk.
  - unfold UpdateIdentity. walk. unfold StateForIdentityUpdate in *.
    case_match; simplify_eq. finish. by apply allowed_transition.
  - unfold Handlers.Pledge. walk. finish. by apply allowed_transition.
  - unfold Release. walk. finish. by apply allowed_transition.
  - unfold Claim. walk. finish. by apply allowed_transition.
  - unfold GetReceipt. walk.
  - unfold GetReleaseReceipt. walk.
  - unfold Settle. walk; try finish.
    + by apply allowed_transition.
    + assert (lifecycle d = StateSettleProposed) as ->; [|by apply allowed_repeat; left].
      apply String.eqb_eq. by destruct (String.eqb (lifecycle d) StateSettleProposed).
    + cbn. apply view_evolves_refl.
  - unfold SettleAccept. walk. finish. apply allowed_transition; [|done].
    apply negb_false_iff, String.eqb_eq in Heqb1. by rewrite Heqb1.
  - unfold Dispute. walk. finish. by apply allowed_transition.
  - unfold DisputeResolve. walk. finish. by apply allowed_transition.
  - unfold PartialRelease. walk. finish. by apply allowed_transition.
  - unfold UtilitySettle. walk; finish; (apply allowed_transition; [|done]);
      apply negb_false_iff, String.eqb_eq in Heqb1; by rewrite Heqb1.
  - unfold IssueCredential. walk. apply wp_evolve_off. apply off_repo_try; [done|].
    intros [idx|]; [|done]. apply off_repo_try; [done|]. by intros [].
  - unfold CreateVpRequest. walk. by apply wp_evolve_off.
  - unfold ReceiveVpResponse. walk. apply wp_vp_get. intros [x|] _; walk.
    apply wp_only_now; [apply only_now_VerifyVpToken|]. intros [claims|err]; walk.
    match goal with E : negb (String.eqb (lifecycle _) _) = false |- _ =>
      apply negb_false_iff, String.eqb_eq in E end.
    eapply wp_evolve; try done; [| |solve_off_repo].
    + match goal with E : lifecycle _ = _ |- _ => rewrite E end. by apply allowed_repeat; right.
    + match goal with E : lifecycle _ = _ |- _ => rewrite E; apply keeps_wallet; by right end.
Qed.

(** ** Whole histories *)

Fixpoint chain (s : LifecycleState) (l : list LifecycleState) : Prop :=
  match l with
  | [] => True
  | t :: l => allowed s t /\ chain t l
  end.

(** The states a deposit went through form a walk of the table that starts
    at REQUESTED and ends at its current state. *)
Definition lifecycle_ok (d : Deposit) : Prop :=
  exists l, HistoryEntry_State <$> history d = StateRequested :: l /\
    chain StateRequested l /\ List.last l StateRequested = lifecycle d.

(** What handlers may rely on in each state. *)
Definition fields_ok (d : Deposit) : Prop :=
  (lifecycle d = StateSettleProposed \/ lifecycle d = StateDisputed ->
     is_Some (Deposit_Settlement d)) /\
  (lifecycle d = StatePartiallyReleased -> is_Some (Deposit_UtilityReservation d)) /\
  (StatePledged ∈ HistoryEntry_State <$> history d \/ lifecycle d = StatePledged ->
     confirmed d).

Definition deposit_ok (d : Deposit) : Prop := lifecycle_ok d /\ fields_ok d.

Lemma chain_snoc s l t : chain s l -> allowed (List.last l s) t -> chain s (l ++ [t]).
Proof.
  revert s. induction l as [|u l IH]; intros s; cbn [chain app]; [done|].
  intros [Hu Hl] Ht. split; [done|]. apply IH; [done|]. by rewrite list_last_cons in Ht.
Qed.

Lemma last_snoc_list {A} (l : list A) x y : List.last (l ++ [x]) y = x.
Proof. apply List.last_last. Qed.

Lemma born_ok d : born d -> deposit_ok d.
Proof.
  intros [Hl [t Ht]]. split; [|split_and!]; unfold lifecycle_ok; rewrite ?Hl, ?Ht.
  - by exists [].
  - by intros [|].
  - done.
  - by intros [?%list_elem_of_singleton|].
Qed.

(** A confirmed pledge stays, and a first one is confirmed. *)
Lemma carries_pledge ns d d' :
  carries ns d d' ->
  (StatePledged ∈ HistoryEntry_State <$> history d \/ lifecycle d = StatePledged -> confirmed d) ->
  StatePledged ∈ (HistoryEntry_State <$> history d) ++ [ns] \/ ns = StatePledged -> confirmed d'.
Proof.
  intros Hc Hd Hin. apply (carries_confirmed _ _ _ Hc).
  assert (StatePledged ∈ HistoryEntry_State <$> history d \/ ns = StatePledged) as [Hh| ->].
  { rewrite elem_of_app, list_elem_of_singleton in Hin. naive_solver. }
  - left. auto.
  - destruct (decide (lifecycle d = StatePledged)); auto.
Qed.

Lemma evolves_ok d d' : deposit_ok d -> evolves d d' -> deposit_ok d'.
Proof.
  intros [(l & Hl & Hch & Hlast) Hf] [->|(Ha & Hc & en & He & Hh)].
  - split; [by exists l|done].
  - split.
    + exists (l ++ [lifecycle d']). rewrite Hh, fmap_app, Hl. cbn. rewrite He.
      split; [done|]. split; [apply chain_snoc; [done|by rewrite Hlast]|].
      apply last_snoc_list.
    + split_and!; [apply Hc|apply Hc|].
      rewrite Hh, fmap_app. cbn. rewrite He. apply (carries_pledge _ d); [done|]. apply Hf.
Qed.

(** ** Sequential calls *)

Fixpoint run_calls (g : config) (calls : list (api_call * (nat -> env))) w :
    list (option response) * world RS SS AS :=
  match calls with
  | [] => ([], w)
  | (c, envs) :: calls =>
      let '(r, w) := run (handle g c) envs w in
      let '(rs, w) := run_calls g calls w in
      (r :: rs, w)
  end.

Lemma run_calls_ind g calls w (P : gmap string Deposit -> Prop) :
  P (deposits w) -> (forall v v', P v -> view_evolves v v' -> P v') ->
  P (deposits (run_calls g calls w).2).
Proof.
  intros Hw0 Hstep. revert w Hw0. induction calls as [|[c envs] calls IH]; intros w Hw; [done|].
  cbn. pose proof (wp_run (fun _ => True) _ _ w envs (handle_evolves (fun _ => True) g c w)) as Hc.
  destruct (run (handle g c) envs w) as [r w1]. cbn in Hc.
  specialize (IH w1). destruct (run_calls g calls w1) as [rs w2]. apply IH.
  apply (Hstep (deposits w)); [done|]. by apply Hc.
Qed.

Lemma view_evolves_all (P : Deposit -> Prop) v v' :
  (forall d, born d -> P d) -> (forall d d', P d -> evolves d d' -> P d') ->
  (forall k d, v !! k = Some d -> P d) -> view_evolves v v' ->
  forall k d, v' !! k = Some d -> P d.
Proof.
  intros Hb He Hv [Hold Hnew] k d' Hd'. destruct (v !! k) as [d|] eqn:Hd.
  - destruct (Hold k d Hd) as (d'' & Hd'' & Hev). simplify_eq. eauto.
  - by apply Hb, (Hnew k).
Qed.

Lemma run_calls_ok g calls w :
  (forall k d, deposits w !! k = Some d -> deposit_ok d) ->
  forall k d, deposits (run_calls g calls w).2 !! k = Some d -> deposit_ok d.
Proof.
  intros Hw. apply (run_calls_ind g calls w (fun v => forall k d, v !! k = Some d -> deposit_ok d));
    [done|].
  intros v v' Hv. apply view_evolves_all; [exact born_ok|exact evolves_ok|done].
Qed.

Lemma no_funded d d' : lifecycle d <> StateFunded -> evolves d d' -> lifecycle d' <> StateFunded.
Proof. by intros Hd [->|([_ ?] & _)]. Qed.

Lemma allowed_rank s t : allowed s t -> s = t \/ (rank t < rank s)%nat.
Proof. intros [[Ht%rank_decreases|[_ ->]] _]; auto. Qed.

(** ** Properties *)

(** C1: whatever calls the API answers, in whatever order and with whatever database faults, the
    states in a deposit's history are a walk of the transition table that starts at REQUESTED
    and ends at the deposit's current state (a counter-proposal repeats SETTLE_PROPOSED, a
    verified presentation repeats PLEDGED, and no step leads to FUNDED). The calls run one after
    the other; calls that race can leave the table (a finding). *)
Theorem history_is_a_lifecycle g calls w k d :
  deposits w = ∅ -> deposits (run_calls g calls w).2 !! k = Some d -> lifecycle_ok d.
Proof.
  intros Hw Hd. apply (run_calls_ok g calls w) in Hd; [by destruct Hd|].
  rewrite Hw. intros k' d'. by rewrite lookup_empty.
Qed.

(** C24: a CLOSED deposit never changes again: no sequence of calls alters a single field of it. *)
Theorem closed_is_final g calls w k d :
  deposits w !! k = Some d -> lifecycle d = StateClosed ->
  deposits (run_calls g calls w).2 !! k = Some d.
Proof.
  intros Hd Hc.
  apply (run_calls_ind g calls w (fun v => v !! k = Some d)); [done|].
  intros v v' Hv [Hold _]. destruct (Hold k d Hv) as (d' & Hd' & [->|([Ha _] & _)]); [done|].
  rewrite Hc in Ha. destruct Ha as [Hlt%rank_decreases|[[|] _]]; [cbn in Hlt; lia|done|done].
Qed.

(** No sequence of calls brings a deposit into state FUNDED, although the table and the
    lifecycle document have it between IDENTIFIED and PLEDGED. *)
Theorem funded_is_unreachable g calls w k d :
  deposits w = ∅ -> deposits (run_calls g calls w).2 !! k = Some d ->
  lifecycle d <> StateFunded.
Proof.
  intros Hw. revert k d.
  apply (run_calls_ind g calls w (fun v => forall k d, v !! k = Some d -> lifecycle d <> StateFunded)).
  - rewrite Hw. intros k d. by rewrite lookup_empty.
  - intros v v' Hv. apply view_evolves_all; [|apply no_funded|done].
    by intros d [-> _].
Qed.
End Evolution.
