(* ===== verification/Effects.v ===== *)
(** * What a call changes

    A reply that refuses a request leaves the world as it was; a reply that
    grants one changes one deposit, by the patch and the entry of the handler;
    and the calls that end a tenancy revoke the credentials of the deposit. *)

From S2P Require Import Prelude Float64 Calendar Models JsonModels Statemachine Runtime.
From S2P Require Import Repository Sessions SessionLaws StatusList Server Credential Handlers.
From S2P Require Import IssuerHandlers VpSessions Presentation VerifierHandlers Logic Api.
From S2P Require Import Lifecycle.

Local Open Scope Z_scope.

Section Refusals.
Context {RS SS AS : Type} `{RepositoryLaws RS} `{SessionStore SS} `{IndexAllocator AS}.
Implicit Types w : world RS SS AS.

(** A 4xx reply changed nothing. *)
Definition harmless w (r : option response) w' : Prop :=
  forall resp, r = Some resp -> 400 <= status resp < 500 -> w' = w.

Lemma harmless_refl w r : harmless w r w.
Proof. by intros resp _ _. Qed.

Lemma wp_update_harmless ok id ns en p k w :
  (forall d w', wp ok (k d) (fun r _ => forall resp, r = Some resp -> status resp = StatusOK) w') ->
  wp ok (update id ns en p k) (harmless w) w.
Proof.
  intros Hk. apply wp_update.
  - intros w' _ resp [= <-]. cbn. unfold StatusInternalServerError. lia.
  - intros. apply harmless_refl.
  - intros key d0 d1 t w' _ _ _ _ _ _. eapply wp_mono; [apply Hk|].
    intros r w'' Hr resp -> Hs. rewrite (Hr resp eq_refl) in Hs. unfold StatusOK in Hs. lia.
Qed.
End Refusals.

(** The tails of the handlers, which always answer 200. *)
Ltac solve_tail :=
  intros; repeat first [ apply wp_revoke; intros | apply wp_webhook; intros
                       | apply wp_spawn; intros ]; cbn; by intros ? [= <-].

Ltac walk_harmless := walk_with ltac:(first [apply harmless_refl | (intros ? [= <-]; cbn; lia)]).

Section Harmless.
Context {RS SS AS : Type} `{RepositoryLaws RS} `{SessionStore SS} `{IndexAllocator AS}.
Implicit Types w : world RS SS AS.

(** The calls outside the issuance flow. *)
Definition deposit_call (c : api_call) : bool :=
  match c with
  | CallIssueCredential _ _ | CallGetCredentialOffer _ | CallToken _ | CallCredential _ _
  | CallCredentialStatus _ | CallStatusList => false
  | _ => true
  end.

Lemma handle_harmless ok g c w : deposit_call c = true -> wp ok (handle g c) (harmless w) w.
Proof.
  destruct c; intros Hc; try done; cbn [handle].
  - unfold CreateDeposit. walk_harmless. apply wp_create.
    + intros x w' _ resp [= <-]. cbn. unfold StatusInternalServerError. lia.
    + intros key i t w' _ _ _ _ resp [= <-]. cbn. unfold StatusCreated. lia.
  - unfold GetDeposit. walk_harmless.
  - unfold UpdateIdentity. walk_harmless. apply wp_update_harmless. solve_tail.
  - unfold Handlers.Pledge. walk_harmless. apply wp_update_harmless. solve_tail.
  - unfold Release. walk_harmless. apply wp_update_harmless. solve_tail.
  - unfold Claim. walk_harmless. apply wp_update_harmless. solve_tail.
  - unfold GetReceipt. walk_harmless.
  - unfold GetReleaseReceipt. walk_harmless.
  - unfold Settle. walk_harmless; try (apply wp_update_harmless; solve_tail).
    apply harmless_refl.
  - unfold SettleAccept. walk_harmless. apply wp_update_harmless. solve_tail.
  - unfold Dispute. walk_harmless. apply wp_update_harmless. solve_tail.
  - unfold DisputeResolve. walk_harmless. apply wp_update_harmless. solve_tail.
  - unfold PartialRelease. walk_harmless. apply wp_update_harmless. solve_tail.
  - unfold UtilitySettle. walk_harmless; apply wp_update_harmless; solve_tail.
  - unfold CreateVpRequest. walk_harmless. intros e _ resp [= <-] Hs. cbn in Hs.
    unfold StatusCreated in Hs. lia.
  - unfold ReceiveVpResponse. walk_harmless. apply wp_vp_get. intros [x|] _; walk_harmless.
    apply wp_only_now; [apply only_now_VerifyVpToken|]. intros [claims|err]; walk_harmless.
    apply wp_update_harmless. intros d' w'. apply wp_vp_delete. apply wp_webhook.
    intros w'' _ _. cbn. by intros ? [= <-].
  - unfold VerifierHandlers.Validate. walk_harmless.
Qed.
End Harmless.

(** ** What a 200 reply means *)

Section Grants.
Context {RS SS AS : Type} `{RepositoryLaws RS} `{SessionStore SS} `{IndexAllocator AS}.
Implicit Types w : world RS SS AS.

(** The deposit [id] names was updated by patch [p] and entry [en], and it is
    the body of the reply. *)
Definition granted (id : string) (ns : LifecycleState) (en : HistoryEntry) (p : patch_fn)
    w (resp : response) w' : Prop :=
  exists key d0 d1 t,
    repo_key id = Some key /\ deposits w !! key = Some d0 /\ apply_patch p d0 = Some d1 /\
    sql_entry ns en = true /\ body resp = PDeposit (advance ns en t d1) /\
    deposits w' = <[key := stored (advance ns en t d1)]> (deposits w).

(** [T] relates the session stores before and after. *)
Definition grants (id : string) (ns : LifecycleState) (en : HistoryEntry) (p : patch_fn)
    (T : SS -> SS -> Prop) w (r : option response) w' : Prop :=
  forall resp, r = Some resp -> status resp = StatusOK ->
    granted id ns en p w resp w' /\ T (w_sessions w) (w_sessions w').

Definition revoked_by (ok : env -> Prop) (id : string) (s s' : SS) : Prop :=
  exists e, ok e /\ s' = ss_RevokeByDepositID e id s.

Definition tail_ok (T : SS -> SS -> Prop) (d : Deposit) w (r : option response) w' : Prop :=
  r = Some {| status := StatusOK; body := PDeposit d |} /\ w_repo w' = w_repo w /\
  T (w_sessions w) (w_sessions w').

Lemma wp_update_grants ok id ns en p k T w :
  (forall d w', wp ok (k d) (tail_ok T d w') w') ->
  wp ok (update id ns en p k) (grants id ns en p T w) w.
Proof.
  intros Hk. apply wp_update.
  - by intros w' _ resp [= <-].
  - by intros ? ? ? ? ? resp.
  - intros key d0 d1 t w' Hkey Hv Hp Hv' Hw' Hsql. eapply wp_mono; [apply Hk|].
    intros r w'' (-> & Hrepo & HT) resp [= <-] _. split.
    + exists key, d0, d1, t. unfold deposits. by rewrite Hrepo.
    + by rewrite Hw' in HT.
Qed.

Lemma tail_refl d w : tail_ok eq d w (Some {| status := StatusOK; body := PDeposit d |}) w.
Proof. done. Qed.
End Grants.

(** The tail of an updating handler: [tail_ok]. *)
Ltac solve_tail_ok :=
  intros; repeat first
    [ apply wp_revoke; intros ? ? ? ? ? | apply wp_webhook; intros ? ? ? | apply wp_spawn; intros ? ? ? ];
  split; [reflexivity|]; split; [congruence|];
  repeat match goal with E : w_sessions _ = _ |- _ => rewrite E end; first [reflexivity | by eexists].

(** A refusal is not a 200. *)
Ltac refused :=
  let E := fresh in
  intros ? [= <-] E; exfalso; cbn in E;
  unfold StatusOK, StatusBadRequest, StatusConflict, StatusInternalServerError in *; lia.

Ltac walk_grants := walk_with ltac:(idtac; refused).

Section Handlers.
Context {RS SS AS : Type} `{RepositoryLaws RS} `{SessionStore SS} `{IndexAllocator AS}.
Implicit Types w : world RS SS AS.

Lemma release_grants ok g id r w :
  wp ok (handle g (CallRelease id r))
    (grants id StateReleased (entry StateReleased "LANDLORD" "") None (revoked_by ok id) w) w.
Proof. cbn [handle]. unfold Release. walk_grants. apply wp_update_grants. solve_tail_ok. Qed.

Lemma resolve_grants ok g id r w :
  wp ok (handle g (CallDisputeResolve id r))
    (grants id StateClosed
       (entry StateClosed "EXTERNAL" (DisputeResolveRequest_ResolutionReference (value r)))
       (Some (patch_resolve (value r))) (revoked_by ok id) w) w.
Proof. cbn [handle]. unfold DisputeResolve. walk_grants. apply wp_update_grants. solve_tail_ok. Qed.

Lemma accept_grants ok g id r w :
  wp ok (handle g (CallSettleAccept id r))
    (fun o w' => grants id StateClosed
       (entry StateClosed (SettleAcceptRequest_AcceptedBy (value r)) "settlement accepted")
       (Some patch_accept) (revoked_by ok id) w o w' /\
     forall resp, o = Some resp -> status resp = StatusOK ->
       is_party (SettleAcceptRequest_AcceptedBy (value r)) = true /\
       exists key d s, repo_key id = Some key /\ deposits w !! key = Some d /\
         lifecycle d = StateSettleProposed /\ Deposit_Settlement d = Some s /\
         Settlement_LastProposedBy s <> SettleAcceptRequest_AcceptedBy (value r)) w.
Proof.
  cbn [handle]. unfold SettleAccept.
  walk_with ltac:(split; refused).
  eapply wp_mono; [apply (wp_update_grants ok id _ _ _ _ (revoked_by ok id)); solve_tail_ok|].
  intros o w' Hg. split; [exact Hg|]. intros resp _ _.
  split; [by apply negb_false_iff|]. eexists _, _, _. split_and!; try done.
  - by apply String.eqb_eq, negb_false_iff.
  - by apply String.eqb_neq.
Qed.
End Handlers.

Section Theorems.
Context {RS SS AS : Type} `{RepositoryLaws RS} `{SessionStore SS} `{IndexAllocator AS}.
Implicit Types w : world RS SS AS.

(** C19: a 4xx reply of any deposit, verifier or validation handler leaves the whole server as
    it was: deposits, audit log, both kinds of sessions, status list counter and the tasks to
    run in the background. *)
Theorem refusal_changes_nothing g c envs w resp w' :
  deposit_call c = true -> run (handle g c) envs w = (Some resp, w') ->
  400 <= status resp < 500 -> w' = w.
Proof.
  intros Hc Hrun Hs.
  pose proof (wp_run (fun _ => True) _ _ w envs (handle_harmless (fun _ => True) g c w Hc)
    ltac:(done)) as Hh.
  rewrite Hrun in Hh. exact (Hh resp eq_refl Hs).
Qed.

(** C8: a 200 of SettleAccept means that the deposit was in SETTLE_PROPOSED, that its last
    proposal came from the other party, and that it is now CLOSED with exactly the proposed
    refund and retention recorded as agreed and one history entry of the accepting party
    appended; the reply is the deposit as stored, and no other deposit changed. *)
Theorem settle_accept_closes_as_proposed g id r envs w resp w' :
  run (handle g (CallSettleAccept id r)) envs w = (Some resp, w') ->
  status resp = StatusOK ->
  let by_ := SettleAcceptRequest_AcceptedBy (value r) in
  exists key d s d' t,
    repo_key id = Some key /\ deposits w !! key = Some d /\
    lifecycle d = StateSettleProposed /\ Deposit_Settlement d = Some s /\
    (by_ = "LANDLORD" \/ by_ = "TENANT") /\ Settlement_LastProposedBy s <> by_ /\
    body resp = PDeposit d' /\ deposits w' = <[key := stored d']> (deposits w) /\
    lifecycle d' = StateClosed /\
    Deposit_Settlement d' = Some (set_Agreed (Settlement_ProposedTenantRefund s)
                                    (Settlement_ProposedLandlordRetention s) s) /\
    history d' = history d ++
      [{| HistoryEntry_State := StateClosed; HistoryEntry_Timestamp := t;
          HistoryEntry_Actor := by_; HistoryEntry_Comment := "settlement accepted";
          HistoryEntry_Signature := "" |}].
Proof.
  intros Hrun Hs by_.
  pose proof (wp_run _ _ _ w envs (accept_grants (fun _ => True) g id r w) ltac:(done)) as Hg.
  rewrite Hrun in Hg. destruct Hg as [Hg Hd].
  destruct (Hg resp eq_refl Hs) as [(key & d0 & d1 & t & Hk & Hv & Hp & _ & Hb & Hw) _].
  destruct (Hd resp eq_refl Hs) as (Hparty & key' & d & s & Hk' & Hv' & Hl & Hset & Hne).
  assert (key' = key) as -> by congruence. assert (d0 = d) as -> by congruence.
  unfold patch_accept, apply_patch in Hp. rewrite Hset in Hp. injection Hp as <-.
  eexists key, d, s, _, t. split_and!; try done.
  - by apply orb_true_iff in Hparty as [?%String.eqb_eq|?%String.eqb_eq]; [left|right].
  - by autorewrite with deposit.
  - autorewrite with deposit. by destruct d.
  - autorewrite with deposit. by destruct d.
Qed.

Lemma utility_sessions ok g id r w :
  wp ok (handle g (CallUtilitySettle id r)) (fun _ w' => w_sessions w' = w_sessions w) w.
Proof.
  cbn [handle]. unfold UtilitySettle.
  walk_with ltac:(done); apply wp_update; try done.
  all: try (intros w' [->|(? & ? & ? & ? & _ & _ & _ & _ & _ & ->)]; done).
  all: intros ? ? ? ? w' _ _ _ _ Hw _; apply wp_webhook; intros w'' _ E; cbn; rewrite E, Hw; done.
Qed.

(** UtilitySettle leaves the sessions alone on every path, also when it closes the deposit:
    unlike the other calls that end a tenancy it revokes nothing. *)
Theorem utility_settle_never_revokes g id r envs w :
  w_sessions (run (handle g (CallUtilitySettle id r)) envs w).2 = w_sessions w.
Proof.
  exact (wp_run (fun _ => True) _ (fun _ w' => w_sessions w' = w_sessions w) w envs
           (utility_sessions _ g id r w) ltac:(done)).
Qed.
End Theorems.

(** The calls that end a tenancy, and the deposit they name. *)
Definition revoking_call (c : api_call) : option string :=
  match c with
  | CallRelease id _ | CallSettleAccept id _ | CallDisputeResolve id _ => Some id
  | _ => None
  end.

Section Revocation.
Context {RS SS AS : Type} `{RepositoryLaws RS} `{SessionLaws SS} `{IndexAllocator AS}.
Implicit Types w : world RS SS AS.

Lemma revoking_call_revokes ok g c id w :
  revoking_call c = Some id ->
  wp ok (handle g c)
    (fun o w' => forall resp, o = Some resp -> status resp = StatusOK ->
       revoked_by ok id (w_sessions w) (w_sessions w')) w.
Proof.
  intros Hc. destruct c; try done; injection Hc as ->.
  - eapply wp_mono; [apply release_grants|]. intros o w' Hg resp Ho Hs. by apply (Hg resp).
  - eapply wp_mono; [apply accept_grants|]. intros o w' [Hg _] resp Ho Hs. by apply (Hg resp).
  - eapply wp_mono; [apply resolve_grants|]. intros o w' Hg resp Ho Hs. by apply (Hg resp).
Qed.

(** What an ending call answered with 200 does to a credential issued for its deposit. *)
Lemma ending_call_revokes g c id envs w resp w' dep i x :
  revoking_call c = Some id -> (forall n, no_faults (envs n)) ->
  run (handle g c) envs w = (Some resp, w') -> status resp = StatusOK ->
  sess_inv (w_sessions w) -> sess_key id = Some dep ->
  sess_view (w_sessions w) !! i = Some x -> Session_DepositID x = dep ->
  Session_State x = SessionStateConsumed ->
  sess_inv (w_sessions w') /\
  sess_view (w_sessions w') !! i = Some (set_State SessionStateRevoked x).
Proof.
  intros Hc Hok Hrun Hs Hi Hkey Hx Hdep Hst.
  pose proof (wp_run no_faults _ _ w envs (revoking_call_revokes no_faults g c id w Hc) Hok) as Hr.
  rewrite Hrun in Hr. destruct (Hr resp eq_refl Hs) as (e & He & Hw).
  cbn [snd] in Hw. rewrite Hw.
  split; [exact (proj1 (sess_revoke_cases e id _ Hi))|].
  rewrite (sess_revoke_works e id (w_sessions w) dep), lookup_fmap, Hx by done. cbn.
  unfold revoke_issued. by rewrite Hdep, Hst, String.eqb_refl.
Qed.

(** C5: when Release, SettleAccept or DisputeResolve answers 200, every credential issued for
    the deposit before reads as revoked afterwards, both from its status endpoint and in the
    indices the published status list is built from (without database faults in that call). *)
Theorem ending_a_tenancy_revokes g c id envs w resp w' dep i x e :
  revoking_call c = Some id -> (forall n, no_faults (envs n)) -> no_faults e ->
  run (handle g c) envs w = (Some resp, w') -> status resp = StatusOK ->
  sess_inv (w_sessions w) -> sess_key id = Some dep ->
  sess_view (w_sessions w) !! i = Some x -> Session_DepositID x = dep ->
  Session_State x = SessionStateConsumed ->
  ss_CredentialStatus e (Session_CredentialID x) (w_sessions w') = ("revoked", true) /\
  forall l, ss_RevokedStatusListIndices e (w_sessions w') = Ok l ->
    Session_StatusListIndex x ∈ l.
Proof.
  intros Hc Hok He Hrun Hs Hi Hkey Hx Hdep Hst.
  destruct (ending_call_revokes g c id envs w resp w' dep i x) as [Hi' Hx']; try done.
  destruct (set_State_fields SessionStateRevoked x) as (_ & Hs2 & Hc2 & _ & Hix). split.
  - pose proof (sess_status e _ i _ Hi' He Hx') as Hstat.
    rewrite Hc2, Hs2 in Hstat. by apply Hstat.
  - intros l Hl. apply (sess_revoked_indices e _ l Hi' Hl). by exists i, (set_State SessionStateRevoked x).
Qed.
End Revocation.
