(* ===== verification/Liveness.v ===== *)
(** * Every deposit can be closed

    What is stored can be stored again after an update, so no deposit is ever
    stuck: as long as the database answers, a fixed plan of at most four calls
    closes it. *)

From Stdlib Require Import Floats.SpecFloat.
From S2P Require Import Prelude Float64 Calendar Fmt Models Utf8 Json JsonModels Statemachine Runtime.
From S2P Require Import Repository Sessions StatusList Server Handlers Logic Api Lifecycle Effects.

Local Open Scope Z_scope.

(** ** Updates of what can be stored *)

(** [time.Time.MarshalJSON] takes the years 0 to 9999. *)
Definition year_ok (t : instant) : Prop := 0 <= year (date_of t) < 10000.

Lemma writes_time t : year_ok t -> writes time_codec t.
Proof.
  intros Ht. unfold writes. cbn. unfold year_ok in Ht.
  rewrite (proj2 (Z.leb_le _ _)), (proj2 (Z.ltb_lt _ _)) by tauto. by eexists.
Qed.

(** *** Texts that Go and JSON quote alike *)

Definition plain_byte (b : Z) : bool :=
  (32 <=? b) && (b <? 127) && negb (existsb (Z.eqb b) [34; 38; 60; 62; 92]).
Definition plain_text (s : string) : bool := forallb plain_byte (GoStrings.bytes_of s).

Lemma plain_text_app a b : plain_text (a +:+ b) = plain_text a && plain_text b.
Proof. unfold plain_text. by rewrite GoStrings.bytes_of_app, forallb_app. Qed.

Lemma plain_bytes s : plain_text s = true -> Forall (fun b => b < 128) (GoStrings.bytes_of s).
Proof.
  unfold plain_text. rewrite forallb_forall. intros H. apply Forall_forall.
  intros b Hb%list_elem_of_In%H. unfold plain_byte in Hb. lia.
Qed.

Lemma plain_valid s : plain_text s = true -> utf8_valid s = true.
Proof. intros Hs. by apply ascii_valid, plain_bytes. Qed.

Lemma plain_pad2 n k : plain_text k = true -> plain_text (pad2 n k) = true.
Proof.
  intros Hk. unfold pad2, plain_text. cbn -[plain_byte Z.div Z.modulo].
  assert (forall x, 0 <= x < 10 -> plain_byte (Z.of_N (Ascii.N_of_ascii (digit_char x))) = true) as Hx.
  { intros x Hx. unfold digit_char. rewrite Ascii.N_ascii_embedding by lia.
    rewrite Z2N.id by lia. unfold plain_byte. cbn [existsb].
    repeat (rewrite (proj2 (Z.eqb_neq _ _)) by lia). cbn. lia. }
  rewrite !Hx by (apply Z.mod_pos_bound; lia). exact Hk.
Qed.

Lemma plain_rfc3339 t : year_ok t -> plain_text (format_rfc3339 t) = true.
Proof.
  intros Ht. unfold format_rfc3339, format_date, format_year, year_ok in *.
  rewrite (proj2 (Z.ltb_ge _ _)), (proj2 (Z.ltb_lt _ _)) by lia.
  unfold pad4. repeat first [rewrite plain_text_app | rewrite plain_pad2 | done].
Qed.

(** A text without the character U+0000. *)
Definition stores (s : string) : Prop := writes string_codec s.

Lemma stores_constant s : no_zero (clean_string s) = true -> stores s.
Proof. by rewrite <-writes_string. Qed.

Lemma stores_sql s : sql_text s = true -> stores s.
Proof.
  intros Hs. apply stores_constant. rewrite clean_sql_text by done.
  unfold sql_text in Hs. by apply andb_true_iff in Hs as [_ ?].
Qed.

Lemma stores_ascii s : Forall (fun b => 0 < b < 128) (GoStrings.bytes_of s) -> stores s.
Proof.
  intros Hs. apply stores_constant. rewrite clean_string_valid.
  - unfold no_zero. apply forallb_forall. intros b Hb%list_elem_of_In.
    rewrite Forall_forall in Hs. apply Hs in Hb. apply negb_true_iff, Z.eqb_neq. lia.
  - apply ascii_valid. eapply Forall_impl; [exact Hs|]. cbn. lia.
Qed.

Lemma stores_plain s : plain_text s = true -> stores s.
Proof.
  intros Hs. apply stores_ascii. unfold plain_text in Hs. rewrite forallb_forall in Hs.
  apply Forall_forall. intros b Hb%list_elem_of_In%Hs. unfold plain_byte in Hb. lia.
Qed.

(** Opens a struct into its fields. *)
Ltac fields :=
  rewrite ?writes_struct, ?fwrites_pair; cbn [fst snd];
  rewrite ?fwrites_field, ?fwrites_omit, ?fwrites_ptr by reflexivity.

Lemma writes_entry h :
  year_ok (HistoryEntry_Timestamp h) -> stores (HistoryEntry_State h) ->
  stores (HistoryEntry_Actor h) -> stores (HistoryEntry_Comment h) ->
  stores (HistoryEntry_Signature h) -> writes HistoryEntry_codec h.
Proof.
  intros ?%writes_time ? ? ? ?. unfold HistoryEntry_codec, HistoryEntry_fields. fields. tauto.
Qed.

Lemma writes_wallet m :
  stores (WalletMetadata_PresentationID m) -> stores (WalletMetadata_VerifiedAt m) ->
  m = {| WalletMetadata_Issuer := ""; WalletMetadata_IssuerID := "";
         WalletMetadata_WalletProvider := ""; WalletMetadata_CredentialType := "";
         WalletMetadata_CredentialFormat := "vc+sd-jwt"; WalletMetadata_AssuranceLevel := "high";
         WalletMetadata_PresentationID := WalletMetadata_PresentationID m;
         WalletMetadata_IssuingCountry := "";
         WalletMetadata_VerifiedAt := WalletMetadata_VerifiedAt m;
         WalletMetadata_ExpiresAt := "" |} -> writes WalletMetadata_codec m.
Proof.
  intros H1 H2 ->. unfold WalletMetadata_codec, WalletMetadata_fields. fields.
  assert (stores "" /\ stores "vc+sd-jwt" /\ stores "high") as (? & ? & ?)
    by (split_and!; by apply stores_constant).
  cbn [WalletMetadata_PresentationID WalletMetadata_VerifiedAt]. tauto.
Qed.

Lemma writes_status s t :
  stores s -> writes Tenant_codec t -> writes Tenant_codec (set_EIDStatus s t).
Proof. unfold Tenant_codec, Tenant_fields. fields. destruct t. cbn -[writes vempty]. tauto. Qed.

Lemma writes_metadata m t :
  writes WalletMetadata_codec m -> writes Tenant_codec t ->
  writes Tenant_codec (set_WalletMetadata (Some m) t).
Proof.
  unfold Tenant_codec, Tenant_fields. fields. intros Hm. destruct t. cbn -[writes vempty].
  intros Ht. assert (forall a, Some m = Some a -> writes WalletMetadata_codec a) by by intros a [= <-].
  tauto.
Qed.

Lemma writes_pledge p :
  stores (Pledge_PledgeDate p) -> stores (Pledge_StatutoryBasis p) -> writes Pledge_codec p.
Proof.
  intros ? ?. unfold Pledge_codec, Pledge_fields. fields.
  assert (writes bool_codec (Pledge_IsConfirmedByBank p)) by by eexists. tauto.
Qed.

(** Agreed amounts of zero and texts of an outside authority. *)
Lemma writes_resolved s ref :
  let s' := set_Agreed f64_zero f64_zero s in
  stores ref -> writes Settlement_codec s ->
  writes Settlement_codec
    (set_External (Settlement_EscalationType s') (Settlement_ExternalAuthority s') ref s').
Proof.
  intros s' Hr. unfold Settlement_codec, Settlement_fields. fields. subst s'. destruct s.
  cbn -[writes vempty]. assert (vempty float_codec f64_zero = true) by done. tauto.
Qed.

Lemma writes_zero_Settlement : writes Settlement_codec zero_Settlement.
Proof. eexists. split; vm_compute; reflexivity. Qed.

(** The parts of a deposit. *)
Lemma storable_parts d :
  storable d <->
  (stores (Deposit_ID d) /\ writes Meta_codec (Deposit_Meta d) /\
   writes Tenant_codec (Deposit_Tenant d) /\ writes Landlord_codec (Deposit_Landlord d) /\
   writes Property_codec (Deposit_Property d) /\ writes DepositData_codec (Deposit_Deposit d) /\
   (forall p, Deposit_Pledge d = Some p -> writes Pledge_codec p) /\
   (forall t, Deposit_Trusteeship d = Some t -> writes Trusteeship_codec t) /\
   (forall p, Deposit_Provider d = Some p -> writes Provider_codec p) /\
   (forall t, Deposit_Transport d = Some t -> writes Transport_codec t) /\
   (forall s, Deposit_Settlement d = Some s -> writes Settlement_codec s) /\
   (forall u, Deposit_UtilityReservation d = Some u -> writes UtilityReservation_codec u)).
Proof.
  change (storable d) with (writes Deposit_codec d). unfold Deposit_codec, Deposit_fields. by fields.
Qed.

(** A deposit of which some parts have been replaced. *)
Ltac parts d :=
  rewrite !storable_parts; destruct d; cbn -[writes stores settlement_or_zero]; intros; destruct_and?; split_and!;
  try assumption.

Lemma storable_advance ns en t d :
  year_ok t -> HistoryEntry_State en = ns -> sql_entry ns en = true ->
  storable d -> storable (advance ns en t d).
Proof.
  intros Ht He Hs. unfold sql_entry in Hs. rewrite !andb_true_iff in Hs.
  destruct Hs as [[[?%stores_sql ?%stores_sql] ?%stores_sql] ?%stores_sql].
  assert (writes HistoryEntry_codec (set_entry_Timestamp t en)) as Hen
    by (apply writes_entry; cbn; by rewrite ?He).
  assert (writes DepositData_codec (Deposit_Deposit d) ->
          writes DepositData_codec (Deposit_Deposit (advance ns en t d))) as Hd.
  { destruct d as [? ? ? ? ? [? ? ? ? h ?]]. unfold DepositData_codec, DepositData_fields. fields.
    rewrite !writes_list. unfold advance, history, set_History. cbn -[writes vempty].
    intros (? & ? & ? & ? & Hh & ?). split_and!; try done.
    right. apply Forall_app. split; [|by repeat constructor].
    destruct Hh as [Hh|?]; [|done]. by destruct h. }
  rewrite !storable_parts. destruct d as [? ? ? ? ? []]; cbn -[writes] in *. tauto.
Qed.

Lemma storable_tenant f d :
  (forall t, writes Tenant_codec t -> writes Tenant_codec (f t)) ->
  storable d -> storable (set_Tenant (f (Deposit_Tenant d)) d).
Proof. intros Hf. parts d. by apply Hf. Qed.

Lemma storable_identity r d d' :
  patch_identity r d = Some d' -> stores (IdentityUpdateRequest_EIDStatus r) ->
  (forall m, IdentityUpdateRequest_WalletMetadata r = Some m -> writes WalletMetadata_codec m) ->
  storable d -> storable d'.
Proof.
  intros [= <-] Hs Hm. apply (storable_tenant (fun t =>
    let t := set_EIDStatus (IdentityUpdateRequest_EIDStatus r) t in
    match IdentityUpdateRequest_WalletMetadata r with
    | Some m => set_WalletMetadata (Some m) t
    | None => t
    end)).
  intros t Ht%(writes_status _ _ Hs).
  destruct (IdentityUpdateRequest_WalletMetadata r) as [m|]; [|exact Ht].
  apply writes_metadata; [by apply Hm|exact Ht].
Qed.

Lemma storable_wallet m d :
  writes WalletMetadata_codec m -> storable d ->
  storable (set_Tenant (set_WalletMetadata (Some m) (Deposit_Tenant d)) d).
Proof.
  intros Hm. apply (storable_tenant (set_WalletMetadata (Some m))).
  intros t. by apply writes_metadata.
Qed.

Lemma storable_pledge r d d' :
  patch_pledge r d = Some d' -> stores (PledgeRequest_PledgeDate r) -> storable d -> storable d'.
Proof.
  intros [= <-] Hs. parts d. intros p [= <-]. by apply writes_pledge; [|apply stores_constant].
Qed.

(** The arbiter decides on nothing. *)
Definition settled : DisputeResolveRequest :=
  {| DisputeResolveRequest_AgreedTenantRefund := f64_zero;
     DisputeResolveRequest_AgreedLandlordRetention := f64_zero;
     DisputeResolveRequest_ResolutionReference := "" |}.

Lemma storable_resolve d d' : patch_resolve settled d = Some d' -> storable d -> storable d'.
Proof.
  intros [= <-]. parts d. intros s' [= <-]. apply writes_resolved; [by apply stores_constant|].
  unfold settlement_or_zero. cbn -[writes].
  destruct Deposit_Settlement; [by eauto|apply writes_zero_Settlement].
Qed.

(** ** The plan *)

Definition sent {A} (a : A) : decoded A := {| value := a; decode_failed := false |}.

Definition identify (id : string) : api_call :=
  CallUpdateIdentity id (sent {| IdentityUpdateRequest_EIDStatus := EIDVerified;
    IdentityUpdateRequest_VerificationTimestamp := "";
    IdentityUpdateRequest_ProviderReference := "";
    IdentityUpdateRequest_WalletMetadata := None |}).
Definition pledge_it (id : string) : api_call :=
  CallPledge id (sent {| PledgeRequest_PledgeDate := "2026-01-01";
    PledgeRequest_IsConfirmedByBank := true; PledgeRequest_ProviderReference := "" |}).
Definition release_it (id : string) : api_call :=
  CallRelease id (sent {| ReleaseRequest_ReleaseType := ""; ReleaseRequest_ReleaseAmount := f64_zero;
    ReleaseRequest_LandlordSignatureToken := "" |}).
Definition resolve_it (id : string) : api_call := CallDisputeResolve id (sent settled).

(** The next call for a deposit in a state, and the state it leads to. *)
Definition next_call (id : string) (s : LifecycleState) : option (api_call * LifecycleState) :=
  if String.eqb s StateClosed then None
  else if String.eqb s StateRequested then Some (identify id, StateIdentified)
  else if String.eqb s StateIdentified || String.eqb s StateFunded
  then Some (pledge_it id, StatePledged)
  else if String.eqb s StatePledged || String.eqb s StateClaimed
  then Some (release_it id, StateReleased)
  else Some (resolve_it id, StateClosed).

Fixpoint plan (fuel : nat) (id : string) (s : LifecycleState) : list api_call :=
  match fuel, next_call id s with
  | S fuel, Some (c, s') => c :: plan fuel id s'
  | _, _ => []
  end.

(** Four calls are enough from every state. *)
Definition closing (id : string) (s : LifecycleState) : list api_call := plan 4 id s.

Lemma plan_follows_the_table id :
  forallb (fun s => match next_call id s with
                    | Some (_, s') => CanTransition s s'
                    | None => true
                    end) all_states = true.
Proof. by vm_compute. Qed.

(** The plan ends in CLOSED. *)
Fixpoint plan_closes (fuel : nat) (s : LifecycleState) : bool :=
  match fuel, next_call "" s with
  | S fuel, Some (_, s') => plan_closes fuel s'
  | _, _ => String.eqb s StateClosed
  end.

Lemma closing_closes s : s ∈ all_states -> plan_closes 4 s = true.
Proof.
  assert (forallb (plan_closes 4) all_states = true) as Hall by by vm_compute.
  rewrite forallb_forall in Hall. intros Hs%list_elem_of_In. exact (Hall s Hs).
Qed.

Lemma next_state id s : snd <$> next_call id s = snd <$> next_call "" s.
Proof. unfold next_call. by repeat case_match. Qed.

Definition in_table (t : LifecycleState) : bool := existsb (String.eqb t) all_states.

Lemma in_table_spec t : in_table t = true <-> t ∈ all_states.
Proof.
  unfold in_table. rewrite existsb_exists. split.
  - by intros (s & Hs%list_elem_of_In & ->%String.eqb_eq).
  - intros Ht%list_elem_of_In. exists t. split; [exact Ht|apply String.eqb_refl].
Qed.

Lemma table_states s t : CanTransition s t = true -> t ∈ all_states.
Proof.
  intros Hc. apply in_table_spec.
  refine (transitions_checked (fun _ t => in_table t) s t _ Hc). vm_compute. reflexivity.
Qed.

(** ** Runs without faults *)

(** The database answers, and the clock shows a year that JSON can hold. *)
Definition calm (e : env) : Prop := no_faults e /\ year_ok (env_now e 0).

Section Calm.
Context {RS SS AS : Type} `{RepositoryLaws RS} `{SessionStore SS} `{IndexAllocator AS}.
Implicit Types w : world RS SS AS.

Definition all_storable w : Prop := forall k d, deposits w !! k = Some d -> storable d.

Lemma exec_storable {X} (ev : event X) e w : all_storable w -> all_storable (exec ev e w).2.
Proof.
  unfold all_storable, deposits. intros Hw k d Hd. destruct ev; cbn in Hd; try by apply (Hw k).
  - apply repo_create_marshals in Hd as [Hd|?]; [by apply (Hw k)|done].
  - rewrite repo_get_pure in Hd. by apply (Hw k).
  - apply repo_update_marshals in Hd as [Hd|?]; [by apply (Hw k)|done].
  - destruct (AllocateIndex _ _). by apply (Hw k).
Qed.

Lemma run_storable {R} (p : prog R) envs w : all_storable w -> all_storable (run p envs w).2.
Proof.
  revert envs w. induction p as [r| |X ev k IH]; intros envs w Hw; cbn; [done|done|].
  pose proof (exec_storable ev (envs 0%nat) w Hw) as Hw'. destruct (exec ev _ w). by apply IH.
Qed.

Lemma calls_storable g calls w : all_storable w -> all_storable (run_calls g calls w).2.
Proof.
  revert w. induction calls as [|[c envs] calls IH]; intros w Hw; cbn; [done|].
  pose proof (run_storable (handle g c) envs w Hw) as Hw'.
  destruct (run (handle g c) envs w) as [r w1]. specialize (IH w1 Hw').
  by destruct (run_calls g calls w1).
Qed.

Section Works.
Context (ok : env -> Prop) (ok_calm : forall e, ok e -> calm e).

Lemma wp_fetch_calm id k Q w key d :
  repo_key id = Some key -> deposits w !! key = Some d -> wp ok (k d) Q w ->
  wp ok (fetch id k) Q w.
Proof.
  unfold deposits. intros Hk Hd Hwp. cbn. intros e [He _]%ok_calm. unfold in_repo.
  pose proof (repo_get_pure e id (w_repo w)) as Hpure.
  pose proof (repo_get_present e id (w_repo w) key d He Hk Hd) as Hget.
  destruct (repo_GetByID e id (w_repo w)) as [r s]. cbn in *. subst. cbn.
  by rewrite set_repo_id.
Qed.

Lemma wp_update_works id ns en p k Q w key d d1 :
  repo_key id = Some key -> deposits w !! key = Some d -> apply_patch p d = Some d1 ->
  HistoryEntry_State en = ns -> sql_entry ns en = true -> storable d1 ->
  (forall t w', w' = set_repo (w_repo w') w ->
     deposits w' = <[key := stored (advance ns en t d1)]> (deposits w) ->
     storable (stored (advance ns en t d1)) -> wp ok (k (advance ns en t d1)) Q w') ->
  wp ok (update id ns en p k) Q w.
Proof.
  unfold deposits. intros Hk Hd Hp Hns Hen Hs Hnext. cbn. intros e [He Ht]%ok_calm. unfold in_repo.
  assert (storable (advance ns en (env_now e 0) d1)) as Hst by by apply storable_advance.
  pose proof (repo_update_commits e id ns en p (w_repo w) key d d1 He Hk Hd Hp Hen Hst) as Hc.
  pose proof (repo_update_cases e id ns en p (w_repo w)) as Hcases.
  destruct (repo_UpdateState e id ns en p (w_repo w)) as [r s]. cbn in Hc, Hcases.
  rewrite Hc in *.
  destruct Hcases as [(_ & [=] & _)|(key' & d0 & d1' & Hk' & Hd' & Hp' & _ & Hv & _)].
  assert (key' = key /\ d1' = d1) as [-> ->] by (simplify_eq; done). cbn.
  apply Hnext; [done|done|]. by apply storable_stored.
Qed.
End Works.

(** The call answers 200, and the deposit is in state [ns]. *)
Definition lands (key : string) (ns : LifecycleState) (r : option response) w : Prop :=
  (exists resp, r = Some resp /\ status resp = StatusOK) /\
  exists d, deposits w !! key = Some d /\ lifecycle d = ns /\ storable d.

Lemma wp_update_calm id ns en p k w key d d1 :
  repo_key id = Some key -> deposits w !! key = Some d -> apply_patch p d = Some d1 ->
  HistoryEntry_State en = ns -> sql_entry ns en = true -> storable d1 ->
  (forall d w', wp calm (k d) (tail_ok (fun _ _ => True) d w') w') ->
  wp calm (update id ns en p k) (lands key ns) w.
Proof.
  intros Hk Hd Hp Hns Hen Hs Htail. eapply wp_update_works; [done..|]. intros t w' _ Hv Hst.
  eapply wp_mono; [apply Htail|]. intros r' w'' (-> & Hr & _). split; [by eexists|].
  eexists. unfold deposits in *. rewrite Hr, Hv, lookup_insert_eq.
  split; [done|]. split; [by autorewrite with deposit|done].
Qed.

(** One call of the plan. *)
Lemma next_call_lands g id s c s' w key d :
  next_call id s = Some (c, s') -> s ∈ all_states ->
  repo_key id = Some key -> deposits w !! key = Some d -> lifecycle d = s -> storable d ->
  wp calm (handle g c) (lands key s') w.
Proof.
  intros Hn Hs Hk Hd Hl Hst.
  assert (CanTransition s s' = true) as Htr.
  { pose proof (plan_follows_the_table id) as Hall. rewrite forallb_forall in Hall.
    apply list_elem_of_In, Hall in Hs. by rewrite Hn in Hs. }
  assert (forall (k : prog response), wp calm k (lands key s') w ->
    wp calm (transition (lifecycle d) s' k) (lands key s') w) as Hmove.
  { intros k Hwp. unfold transition. by rewrite Hl, Transition_spec, Htr. }
  unfold next_call in Hn.
  repeat match type of Hn with (if ?b then _ else _) = _ => destruct b end; simplify_eq;
    cbn [handle].
  - unfold UpdateIdentity, decode. cbn -[wp fetch]. eapply (wp_fetch_calm calm); [done..|].
    cbn -[wp transition update fireWebhook]. apply Hmove. eapply wp_update_calm; [done..| |].
    + by eapply storable_identity; [|apply stores_constant| |].
    + solve_tail_ok.
  - unfold Handlers.Pledge, decode. cbn -[wp fetch]. eapply (wp_fetch_calm calm); [done..|].
    apply Hmove. eapply wp_update_calm; [done..| |]; [|solve_tail_ok].
    by eapply storable_pledge; [|apply stores_constant|].
  - unfold Release. eapply (wp_fetch_calm calm); [done..|].
    apply Hmove. eapply wp_update_calm; [done..|]. solve_tail_ok.
  - unfold DisputeResolve, decode. cbn -[wp fetch]. eapply (wp_fetch_calm calm); [done..|].
    apply Hmove. eapply wp_update_calm; [done..| |]; [by eapply storable_resolve|solve_tail_ok].
Qed.

Definition all_ok (rs : list (option response)) : Prop :=
  Forall (fun r => exists resp, r = Some resp /\ status resp = StatusOK) rs.

Lemma plan_runs g id key fuel s w d envs :
  plan_closes fuel s = true -> s ∈ all_states -> repo_key id = Some key ->
  deposits w !! key = Some d -> lifecycle d = s -> storable d ->
  (length (plan fuel id s) <= length envs)%nat -> Forall (fun en => forall n, calm (en n)) envs ->
  let '(rs, w') := run_calls g (zip (plan fuel id s) envs) w in
  all_ok rs /\ exists d', deposits w' !! key = Some d' /\ lifecycle d' = StateClosed.
Proof.
  intros Hc Hs Hk. revert s Hc Hs w d envs.
  assert (forall s w d, String.eqb s StateClosed = true -> deposits w !! key = Some d ->
    lifecycle d = s -> all_ok [] /\
    exists d', deposits w !! key = Some d' /\ lifecycle d' = StateClosed) as Hdone.
  { intros s w d ->%String.eqb_eq Hd Hl. split; [constructor|]. by exists d. }
  induction fuel as [|fuel IH]; intros s Hc Hs w d envs Hd Hl Hst Hlen Henvs; cbn in *;
    [by apply (Hdone s w d)|].
  pose proof (next_state id s) as Hnext.
  destruct (next_call id s) as [[c s']|] eqn:Hn, (next_call "" s) as [[c0 s0]|]; simplify_eq/=;
    [|by apply (Hdone (lifecycle d) w d)].
  destruct envs as [|en envs]; cbn in Hlen; [lia|]. apply Forall_cons in Henvs as [Hen Henvs].
  cbn. pose proof (wp_run calm _ _ w en (next_call_lands g id _ c s0 w key d Hn Hs Hk Hd eq_refl Hst)
    Hen) as [Hok (d' & Hd' & Hl' & Hst')].
  assert (s0 ∈ all_states) as Hs0.
  { pose proof (plan_follows_the_table id) as Hall. rewrite forallb_forall in Hall.
    apply list_elem_of_In, Hall in Hs. rewrite Hn in Hs. by eapply table_states. }
  destruct (run (handle g c) en w) as [r w1]. cbn in *.
  specialize (IH s0 Hc Hs0 w1 d' envs Hd' Hl' Hst' ltac:(lia) Henvs).
  destruct (run_calls g (zip (plan fuel id s0) envs) w1) as [rs w2]. split; [|apply IH].
  constructor; [done|apply IH].
Qed.

Lemma reachable_states g calls w k d :
  deposits w = ∅ -> deposits (run_calls g calls w).2 !! k = Some d -> lifecycle d ∈ all_states.
Proof.
  intros Hw. revert k d.
  apply (run_calls_ind g calls w (fun v => forall k d, v !! k = Some d -> lifecycle d ∈ all_states)).
  - rewrite Hw. intros k d. by rewrite lookup_empty.
  - intros v v' Hv. apply view_evolves_all; [| |done].
    + intros d [-> _]. apply in_table_spec. vm_compute. reflexivity.
    + intros d d' Hd [->|([[Hc|[_ ->]] _] & _)]; [done|by eapply table_states|done].
Qed.

(** C15: no deposit is ever stuck: whatever calls were answered before and whatever faults they
    met, there is a fixed plan of at most four calls for the state a deposit is in (identity,
    pledge, release, resolution), all of which answer 200 and after which the deposit is CLOSED,
    provided the database answers and the clock shows a year that JSON can hold. It rests on the
    invariant that what is stored can be marshalled again after every update of the plan. *)
Theorem every_deposit_can_be_closed g calls w id key d envs :
  deposits w = ∅ -> repo_key id = Some key ->
  let now := (run_calls g calls w).2 in
  deposits now !! key = Some d ->
  (length (closing id (lifecycle d)) <= length envs)%nat ->
  Forall (fun en => forall n, calm (en n)) envs ->
  let '(rs, w') := run_calls g (zip (closing id (lifecycle d)) envs) now in
  all_ok rs /\ exists d', deposits w' !! key = Some d' /\ lifecycle d' = StateClosed.
Proof.
  intros Hw Hk now Hd. assert (lifecycle d ∈ all_states) as Hs by by eapply reachable_states.
  assert (all_storable now) as Hst.
  { apply calls_storable. intros k d'. by rewrite Hw, lookup_empty. }
  intros Hlen Henvs.
  apply (plan_runs g id key 4 (lifecycle d) now d envs);
    [by apply closing_closes|done|done|done|done|by eapply Hst|done|done].
Qed.
End Calm.
