(* ===== verification/Reconciliation.v ===== *)
(** * Partial release and utility reconciliation

    The amounts and dates of the two handlers that hold money back:
    [PartialRelease] sets the deadline, [UtilitySettle] splits the reserved
    amount. *)

From Stdlib Require Import Floats.SpecFloat.
From S2P Require Import Prelude Float64 Calendar Models JsonModels Statemachine Runtime.
From S2P Require Import Repository Sessions SessionLaws StatusList Server Credential Handlers.
From S2P Require Import IssuerHandlers Logic Api Lifecycle Effects.

Local Open Scope Z_scope.

(** ** The split of a shortfall *)

Lemma ival_zero : ival f64_zero = 0.
Proof. done. Qed.
Lemma real_zero : f64_real f64_zero.
Proof. by vm_compute. Qed.

(** The retained part is the smaller of shortfall and reserve, the refund the
    exact rest, rounded; both lie within the reserve. *)
Record fair_split (shortfall reserved retention refund : float64) : Prop := {
  split_real : f64_real retention /\ f64_real refund;
  split_retention : ival retention = Z.min (ival shortfall) (ival reserved);
  split_positive : 0 < ival retention;
  split_refund : 0 <= ival refund <= ival reserved;
  split_exact : rounds_to refund (ival reserved - ival retention);
  split_all : ival refund = 0 <-> ival reserved <= ival shortfall }.

Lemma split_shortfall_fair shortfall reserved :
  f64_real shortfall -> f64_real reserved -> 0 < ival shortfall -> 0 < ival reserved ->
  let '(retention, refund) := split_shortfall shortfall reserved in
  fair_split shortfall reserved retention refund.
Proof.
  intros Hs Hr Hs0 Hr0. unfold split_shortfall.
  set (retention := if f64_lt reserved shortfall then reserved else shortfall).
  assert (f64_real retention /\ ival retention = Z.min (ival shortfall) (ival reserved))
    as [Hret Hmin].
  { subst retention. rewrite f64_lt_spec by done.
    destruct (Z.ltb_spec (ival reserved) (ival shortfall)); split; (done || lia). }
  pose proof (f64_sub_bounded reserved retention reserved Hr Hret Hr) as Hsub.
  pose proof (f64_sub_rounds reserved retention Hr Hret) as Hrnd.
  destruct Hsub as (Hreal & Hb & Hpos); [lia|].
  split; [done|done|lia|lia|done|]. split.
  - intros Hz. destruct (decide (ival reserved <= ival shortfall)); [done|].
    assert (0 < ival (f64_sub reserved retention)) by (apply Hpos; lia). lia.
  - intros Hle. assert (ival retention = ival reserved) as Heq by lia.
    rewrite Heq, Z.sub_diag in Hrnd. destruct Hrnd as (_ & Hin & _).
    destruct Hin as [_ Hv]; [by vm_compute|]. by rewrite Hv.
Qed.

(** ** [UtilitySettle] *)

(** A granted reconciliation: what it read and what it made of it. *)
Definition reconciled (req : UtilitySettleRequest) (now : instant) (d d' : Deposit) : Prop :=
  exists u u', Deposit_UtilityReservation d = Some u /\
    Deposit_UtilityReservation d' = Some u' /\
    u' = set_Resolution (UtilitySettleRequest_SettlementRef req)
           (UtilitySettleRequest_ActualCost req) (UtilitySettleRequest_TotalAdvancePaid req)
           (format_day now) u /\
    let shortfall := f64_sub (UtilitySettleRequest_ActualCost req)
                             (UtilitySettleRequest_TotalAdvancePaid req) in
    if f64_le shortfall f64_zero
    then lifecycle d' = StateClosed /\ Deposit_Settlement d' = Deposit_Settlement d
    else lifecycle d' = StateSettleProposed /\
      let '(retention, refund) := split_shortfall shortfall (UtilityReservation_ReservedAmount u) in
      Deposit_Settlement d' = Some (utility_settlement req now shortfall retention refund).

Lemma only_pledged_releases_partially s :
  CanTransition s StatePartiallyReleased = true -> s = StatePledged.
Proof.
  intros Hc. apply String.eqb_eq.
  assert (implb (String.eqb StatePartiallyReleased StatePartiallyReleased)
            (String.eqb s StatePledged) = true) as E; [|by rewrite String.eqb_refl in E].
  by apply (transitions_checked (fun s t => implb (String.eqb t StatePartiallyReleased)
                                              (String.eqb s StatePledged))).
Qed.

Section Utility.
Context {RS SS AS : Type} `{RepositoryLaws RS} `{SessionStore SS} `{IndexAllocator AS}.
Implicit Types w : world RS SS AS.

Lemma utility_grants ok g id r w :
  wp ok (handle g (CallUtilitySettle id r))
    (fun o w' => forall resp, o = Some resp -> status resp = StatusOK ->
       f64_lt (UtilitySettleRequest_ActualCost (value r)) f64_zero = false /\
       f64_lt (UtilitySettleRequest_TotalAdvancePaid (value r)) f64_zero = false /\
       exists key d d' now, repo_key id = Some key /\ deposits w !! key = Some d /\
         lifecycle d = StatePartiallyReleased /\ body resp = PDeposit d' /\
         deposits w' = <[key := stored d']> (deposits w) /\
         reconciled (value r) now d d') w.
Proof.
  cbn [handle]. unfold UtilitySettle. walk_with ltac:(idtac; refused).
  all: match goal with E : _ || _ = false |- _ => apply orb_false_iff in E as [E1 E2] end.
  all: match goal with E : negb _ = false |- _ => apply negb_false_iff, String.eqb_eq in E end.
  all: (eapply wp_mono; [apply (wp_update_grants ok id _ _ _ _ eq); solve_tail_ok|]).
  all: intros o w' Hg resp Ho Hs.
  all: destruct (Hg resp Ho Hs) as [(key' & d0 & d1 & t' & Hk & Hv & Hp & _ & Hb & Hw) _].
  all: unfold deposits in Hv; split; [done|]; split; [done|].
  all: assert (key' = key) as -> by congruence; assert (d0 = d) as -> by congruence.
  all: eexists key, d, _, t; split_and!; [done|done|done|exact Hb|done|].
  all: unfold reconciled.
  - unfold apply_patch, patch_reconciled in Hp. rewrite Heqo in Hp. injection Hp as <-.
    eexists u, _. autorewrite with deposit. rewrite Heqb2.
    split; [done|]. split; [by destruct d|]. split; [done|]. split; [done|]. by destruct d.
  - unfold apply_patch, patch_reconciled in Hp. rewrite Heqo in Hp. injection Hp as <-.
    eexists u, _. autorewrite with deposit. rewrite Heqb2, Heqp.
    split; [done|]. split; [by destruct d|]. split; [done|]. split; [done|]. by destruct d.
Qed.

(** C17: when UtilitySettle answers with a proposal, its landlord retention is the smaller of
    the shortfall and the reserved amount, strictly positive; its refund is the correctly
    rounded rest of the reserve, never negative, never more than the reserve, and zero exactly
    when the shortfall uses the reserve up. In IEEE double arithmetic, for finite amounts and a
    positive reserve. *)
Theorem utility_proposal_is_within_the_reserve g id r envs w resp w' d' key d u :
  run (handle g (CallUtilitySettle id r)) envs w = (Some resp, w') ->
  status resp = StatusOK -> body resp = PDeposit d' -> lifecycle d' = StateSettleProposed ->
  repo_key id = Some key -> deposits w !! key = Some d ->
  Deposit_UtilityReservation d = Some u ->
  f64_real (UtilityReservation_ReservedAmount u) ->
  0 < ival (UtilityReservation_ReservedAmount u) ->
  f64_real (UtilitySettleRequest_ActualCost (value r)) ->
  f64_real (UtilitySettleRequest_TotalAdvancePaid (value r)) ->
  exists s, Deposit_Settlement d' = Some s /\
    Settlement_LastProposedBy s = "LANDLORD" /\
    fair_split (Settlement_TotalClaimed s) (UtilityReservation_ReservedAmount u)
      (Settlement_ProposedLandlordRetention s) (Settlement_ProposedTenantRefund s).
Proof.
  intros Hrun Hs Hb Hl Hk Hv Hu Hreal Hpos Hcost Hpaid.
  pose proof (wp_run (fun _ => True) _ _ w envs (utility_grants (fun _ => True) g id r w)
    ltac:(done)) as Hg.
  rewrite Hrun in Hg.
  destruct (Hg resp eq_refl Hs) as (Hc0 & Hp0 & key' & d0 & d0' & now & Hk' & Hv' & _ & Hb' & _ &
    u0 & u' & Hu0 & _ & _ & Hif).
  assert (d0' = d') as -> by congruence. assert (key' = key) as -> by congruence.
  assert (d0 = d) as -> by congruence. assert (u0 = u) as -> by congruence.
  set (cost := UtilitySettleRequest_ActualCost (value r)) in *.
  set (paid := UtilitySettleRequest_TotalAdvancePaid (value r)) in *.
  cbv zeta in Hif. destruct (f64_le (f64_sub cost paid) f64_zero) eqn:E;
    [destruct Hif as [Hif _]; rewrite Hl in Hif; done|].
  destruct Hif as [_ Hif].
  assert (f64_real (f64_sub cost paid) /\ 0 < ival (f64_sub cost paid)) as [Hsr Hsp].
  { rewrite f64_lt_spec, ival_zero in Hc0, Hp0 by (done || apply real_zero).
    apply Z.ltb_ge in Hc0, Hp0.
    destruct (f64_sub_sign cost paid Hcost Hpaid Hc0 Hp0) as [Hsub Hsign].
    rewrite f64_le_spec, ival_zero in E by (done || apply real_zero).
    apply Z.leb_gt in E. done. }
  pose proof (split_shortfall_fair _ _ Hsr Hreal Hsp Hpos) as Hfair.
  destruct (split_shortfall _ _) as [retention refund]. eexists. split; [exact Hif|]. by split.
Qed.

(** C28: a 200 of UtilitySettle closes the deposit exactly when the advances paid cover the
    actual cost, as real numbers: the rounding of the subtraction never decides the branch. *)
Theorem utility_closes_iff_covered g id r envs w resp w' d' :
  run (handle g (CallUtilitySettle id r)) envs w = (Some resp, w') ->
  status resp = StatusOK -> body resp = PDeposit d' ->
  f64_real (UtilitySettleRequest_ActualCost (value r)) ->
  f64_real (UtilitySettleRequest_TotalAdvancePaid (value r)) ->
  lifecycle d' = StateClosed <->
  ival (UtilitySettleRequest_ActualCost (value r)) <=
  ival (UtilitySettleRequest_TotalAdvancePaid (value r)).
Proof.
  intros Hrun Hs Hb Hcost Hpaid.
  pose proof (wp_run (fun _ => True) _ _ w envs (utility_grants (fun _ => True) g id r w)
    ltac:(done)) as Hg.
  rewrite Hrun in Hg.
  destruct (Hg resp eq_refl Hs) as (Hc0 & Hp0 & key & d & d0' & now & _ & _ & _ & Hb' & _ &
    u & u' & _ & _ & _ & Hif).
  assert (d0' = d') as -> by congruence.
  set (cost := UtilitySettleRequest_ActualCost (value r)) in *.
  set (paid := UtilitySettleRequest_TotalAdvancePaid (value r)) in *.
  rewrite f64_lt_spec, ival_zero in Hc0, Hp0 by (done || apply real_zero).
  apply Z.ltb_ge in Hc0, Hp0.
  destruct (f64_sub_sign cost paid Hcost Hpaid Hc0 Hp0) as [Hsub Hsign].
  cbv zeta in Hif. rewrite f64_le_spec, ival_zero in Hif by (done || apply real_zero).
  destruct (Z.leb_spec (ival (f64_sub cost paid)) 0); destruct Hif as [Hl _]; rewrite Hl.
  - split; [intros _; lia|done].
  - split; [done|lia].
Qed.

Lemma partial_grants ok g id r w :
  wp ok (handle g (CallPartialRelease id r))
    (fun o w' => forall resp, o = Some resp -> status resp = StatusOK ->
       f64_le (PartialReleaseRequest_ReservedAmount (value r)) f64_zero = false /\
       exists bd key d d', parse_date (PartialReleaseRequest_BillingPeriodEnd (value r)) = Some bd /\
         repo_key id = Some key /\ deposits w !! key = Some d /\
         CanTransition (lifecycle d) StatePartiallyReleased = true /\
         body resp = PDeposit d' /\ deposits w' = <[key := stored d']> (deposits w) /\
         lifecycle d' = StatePartiallyReleased /\
         Deposit_UtilityReservation d' = Some (reservation (value r) (midnight bd))) w.
Proof.
  cbn [handle]. unfold PartialRelease. walk_with ltac:(idtac; refused).
  apply orb_false_iff in Heqb0 as [_ Hres].
  apply fmap_Some in Heqo as (bd & Hbd & ->).
  eapply wp_mono; [apply (wp_update_grants ok id _ _ _ _ eq); solve_tail_ok|].
  intros o w' Hg resp Ho Hs.
  destruct (Hg resp Ho Hs) as [(key' & d0 & d1 & t' & Hk & Hv & Hp & _ & Hb & Hw) _].
  unfold deposits in Hv. assert (key' = key) as -> by congruence.
  assert (d0 = d) as -> by congruence. injection Hp as <-.
  split; [done|]. eexists bd, key, d, _. split_and!; try done.
  - by autorewrite with deposit.
  - autorewrite with deposit. by destruct d.
Qed.

(** A 200 of PartialRelease means that the deposit was PLEDGED, is now PARTIALLY_RELEASED
    with a positive reserve, and has a resolution deadline that is the date one calendar year
    after the billing period's end (29 February going to 1 March), 365 or 366 days later. *)
Theorem partial_release_reserves_until_deadline g id r envs w resp w' :
  run (handle g (CallPartialRelease id r)) envs w = (Some resp, w') ->
  status resp = StatusOK ->
  exists bd key d d' u,
    parse_date (PartialReleaseRequest_BillingPeriodEnd (value r)) = Some bd /\
    repo_key id = Some key /\ deposits w !! key = Some d /\ lifecycle d = StatePledged /\
    body resp = PDeposit d' /\ deposits w' = <[key := stored d']> (deposits w) /\
    lifecycle d' = StatePartiallyReleased /\ Deposit_UtilityReservation d' = Some u /\
    f64_le (UtilityReservation_ReservedAmount u) f64_zero = false /\
    UtilityReservation_ResolutionDeadline u = format_date (next_year bd) /\
    midnight bd + 365 * day <= midnight (next_year bd) <= midnight bd + 366 * day.
Proof.
  intros Hrun Hs.
  pose proof (wp_run (fun _ => True) _ _ w envs (partial_grants (fun _ => True) g id r w)
    ltac:(done)) as Hg.
  rewrite Hrun in Hg.
  destruct (Hg resp eq_refl Hs) as (Hres & bd & key & d & d' & Hbd & Hk & Hv & Ht & Hb & Hw & Hl & Hu).
  pose proof (format_parse_date _ _ Hbd) as (_ & Hvalid & _).
  pose proof (date_of_add_year bd Hvalid) as Hdate.
  pose proof (add_date_year bd Hvalid) as [Hy1 Hy2].
  eexists bd, key, d, d', _. split_and!; try done.
  - by apply only_pledged_releases_partially.
  - cbn. unfold format_day. by rewrite Hdate.
  - by rewrite <-midnight_add_year.
  - by rewrite <-midnight_add_year.
Qed.
End Utility.
