(* ===== verification/Issuance.v ===== *)
(** * Issuing a credential

    What an offer, a credential and the published key are made of: the SD-JWT
    and its disclosures, the handlers [IssueCredential] and [Credential], the
    coordinates of the JWKS. *)

From S2P Require Import Prelude Float64 Calendar Models Json JsonModels Statemachine Runtime.
From S2P Require Import Repository Sessions SessionLaws Base64 JsonText StatusList Server.
From S2P Require Import Credential.
From S2P Require Import Discovery Handlers IssuerHandlers Logic Api Lifecycle Effects.

Local Open Scope Z_scope.

(** ** Disclosures and their digests *)

Section Disclosures.
Context {RS SS AS : Type} `{Repository RS} `{SessionStore SS} `{IndexAllocator AS}.
Implicit Types w : world RS SS AS.

(** [enc] encodes the array [[salt, name, v]]. *)
Definition discloses (spec : string * json) (enc : string) : Prop :=
  exists salt b, json_text (disclosure_array salt spec.1 spec.2) = Some b /\
    enc = EncodeToString b.

Lemma wp_disclosures ok specs w :
  wp ok (disclosures specs)
    (fun r w' => w' = w /\ exists o, r = Some o /\
       forall encs hashes, o = inl (encs, hashes) ->
         Forall2 discloses specs encs /\ hashes = digest <$> encs) w.
Proof.
  induction specs as [|[name v] specs IH].
  - split; [done|]. eexists. split; [done|]. by intros encs hashes [= <- <-].
  - cbn [disclosures]. apply wp_bind. intros e _. cbn.
    destruct (env_rand e 0) as [salt|]; [|by split; [|eexists]].
    destruct (json_text _) as [b|] eqn:Hb; [|by split; [|eexists]].
    apply wp_bind. eapply wp_mono; [apply IH|].
    intros r w' (-> & o & -> & Ho). destruct o as [[encs hashes]|]; [|by split; [|eexists]].
    split; [done|]. eexists. split; [done|]. intros ? ? [= <- <-].
    destruct (Ho encs hashes eq_refl) as [Hf ->]. split; [|done].
    constructor; [|done]. by exists salt, b.
Qed.
End Disclosures.

(** What a holder presents: the signed part, a tilde after it and after each
    disclosure. *)
Definition presentation (signed : string) (encs : list string) : string :=
  signed +:+ "~" +:+ GoStrings.join encs "~" +:+ "~".

Section SDJWT.
Context {RS SS AS : Type} `{Repository RS} `{SessionStore SS} `{IndexAllocator AS}.
Implicit Types w : world RS SS AS.
Context (ToLower : string -> string) (sign : string -> string -> sdJWTClaims -> option string)
        (KeyID : string).

(** A built credential: its claims carry the digests of its disclosures, and
    the disclosures are those of the six claims. *)
Definition built (issuerURL : string) (d : Deposit) (vu : string) (ix : Z)
    (sdJWT cid : string) : Prop :=
  exists now claims signed encs,
    claims = sd_claims ToLower issuerURL cid d vu ix now (digest <$> encs) /\
    sign "vc+sd-jwt" KeyID claims = Some signed /\ sdJWT = presentation signed encs /\
    Forall2 (discloses) (sd_specs d vu now) encs.

Lemma wp_BuildSDJWT ok issuerURL d vu ix w :
  wp ok (BuildSDJWT ToLower sign KeyID issuerURL d vu ix)
    (fun r w' => w' = w /\ exists o, r = Some o /\
       forall sdJWT cid, o = inl (sdJWT, cid) ->
         built issuerURL d vu ix sdJWT cid /\
         exists e, ok e /\ cid = "urn:xmiete:credential:" +:+ env_uuid e 0) w.
Proof.
  unfold BuildSDJWT. intros e He. cbn -[sd_specs disclosures]. intros e' _.
  apply wp_bind. eapply wp_mono; [apply wp_disclosures|].
  intros r w' (-> & o & -> & Ho). destruct o as [[encs hashes]|]; [|by split; [|eexists]].
  destruct (Ho encs hashes eq_refl) as [Hf ->].
  destruct (sign _ _ _) as [signed|] eqn:Hs; cbn; (split; [done|]); eexists; (split; [done|]);
    [|by intros ? ? [=]].
  intros sdJWT cid [= <- <-]. split; [|by exists e].
  by eexists (env_now e' 0), _, signed, encs.
Qed.

(** A built SD-JWT is the signed claims followed by one disclosure for each withheld claim;
    the claims list the digests of those disclosures, in order, and each disclosure decodes
    to the JSON text of its salt, name and value. *)
Theorem disclosures_open_the_digests issuerURL d vu ix envs w sdJWT cid w' :
  run (BuildSDJWT ToLower sign KeyID issuerURL d vu ix) envs w =
    (Some (inl (sdJWT, cid)), w') ->
  w' = w /\
  exists now claims signed encs,
    sdJWT = presentation signed encs /\ sign "vc+sd-jwt" KeyID claims = Some signed /\
    ID (sdJWT_Registered claims) = cid /\ sdJWT_DepositID claims = Deposit_ID d /\
    sdJWT_SD claims = digest <$> encs /\
    Forall2 (fun spec enc => exists salt b,
        json_text (disclosure_array salt spec.1 spec.2) = Some b /\
        DecodeString enc = Some b /\ digest enc ∈ sdJWT_SD claims)
      (sd_specs d vu now) encs.
Proof.
  intros Hrun.
  pose proof (wp_run (fun _ => True) _ _ w envs
    (wp_BuildSDJWT (fun _ => True) issuerURL d vu ix w) ltac:(done)) as Hg.
  rewrite Hrun in Hg. cbn [fst snd] in Hg. destruct Hg as (-> & o & [= <-] & Ho). split; [done|].
  destruct (Ho _ _ eq_refl) as [(now & claims & signed & encs & -> & Hs & -> & Hf) _].
  eexists now, _, signed, encs. split_and!; [done|exact Hs|done|done|done|].
  clear -Hf. cbn [sdJWT_SD sd_claims].
  assert (forall l, Forall2 (discloses) l encs ->
    Forall2 (fun spec enc => exists salt b,
        json_text (disclosure_array salt spec.1 spec.2) = Some b /\
        DecodeString enc = Some b /\ enc ∈ encs) l encs) as Hall.
  { intros l Hl. apply Forall2_same_length_lookup_2.
    - by eapply Forall2_length.
    - intros i x y Hx Hy. destruct (Forall2_lookup_lr _ _ _ _ _ _ Hl Hx Hy) as (salt & b & Hb & ->).
      exists salt, b. split; [done|]. split; [apply decode_encode; by eapply json_text_bytes|].
      by eapply list_elem_of_lookup_2. }
  eapply Forall2_impl; [by apply Hall|]. intros spec enc (salt & b & Hb & Hd & Hin).
  exists salt, b. split_and!; [done..|]. by apply list_elem_of_fmap_2.
Qed.
End SDJWT.

(** ** The handlers *)

Section Handlers.
Context {RS SS AS : Type} `{RepositoryLaws RS} `{SessionLaws SS} `{IndexAllocatorLaws AS}.
Implicit Types w : world RS SS AS.

(** No identifier drawn later is in use now. *)
Definition fresh_session w (e : env) : Prop :=
  sess_view (w_sessions w) !! env_uuid e 0 = None.
Definition fresh_credential w (e : env) : Prop :=
  cred_fresh ("urn:xmiete:credential:" +:+ env_uuid e 0) (sess_view (w_sessions w)).

Definition offered id (r : decoded issueCredentialRequest) w w' : Prop :=
  (exists key d, repo_key id = Some key /\ deposits w !! key = Some d /\
     lifecycle d = StatePledged) /\
  deposits w' = deposits w /\
  exists dep i x e, sess_key id = Some dep /\ sess_view (w_sessions w) !! i = None /\
    sess_view (w_sessions w') = <[i := x]> (sess_view (w_sessions w)) /\
    created dep (issueReq_ValidUntil (value r)) (next_index (w_alloc w)) e x /\
    next_index (w_alloc w') = next_index (w_alloc w) + 1.

Lemma issue_offers g id r w :
  sess_inv (w_sessions w) -> 0 <= next_index (w_alloc w) < 2 ^ 63 - 1 ->
  wp (fresh_session w) (handle g (CallIssueCredential id r))
    (fun o w' => forall resp, o = Some resp -> status resp = StatusCreated ->
       offered id r w w') w.
Proof.
  intros Hi Hn. cbn [handle]. unfold IssueCredential.
  apply wp_fetch.
  { intros s msg code Hs resp [= <-] E. exfalso. cbn in E. unfold StatusCreated in E. lia. }
  intros key d Hk Hv. destruct (negb _) eqn:E; [by intros resp [= <-]|].
  apply negb_false_iff, String.eqb_eq in E.
  intros e _. cbn -[Z.pow]. pose proof (alloc_ok e (w_alloc w)) as Ha.
  destruct (AllocateIndex e (w_alloc w)) as [[ix|x|] a]; cbn -[Z.pow] in *;
    [|by intros resp [= <-]|done].
  destruct (Ha ix Hn eq_refl) as [-> Hnext]. intros e' He'.
  pose proof (sess_create_cases e' id (issueReq_ValidUntil (value r)) (next_index (w_alloc w))
                (w_sessions w) Hi He') as Hc.
  unfold in_sessions.
  destruct (ss_Create e' id _ _ (w_sessions w)) as [[y|x|] s]; cbn in *;
    [|by intros resp [= <-]|done].
  intros resp [= <-] _.
  destruct Hc as [_ [[_ ?]|(i & x & dep & Hf & Hs & Hd & Hcr)]]; [done|].
  split; [by exists key, d|]. split; [done|]. by exists dep, i, x, e'.
Qed.

(** When IssueCredential answers 201, the deposit is PLEDGED and unchanged, and exactly one
    session was added to the store: pending, for this deposit, with the requested end date, the
    allocator's next status list index and an expiry at most 15 minutes ahead; the allocator
    moved on by one. *)
Theorem offer_needs_a_pledge g id r envs w resp w' :
  sess_inv (w_sessions w) -> 0 <= next_index (w_alloc w) < 2 ^ 63 - 1 ->
  (forall n, sess_view (w_sessions w) !! env_uuid (envs n) 0 = None) ->
  run (handle g (CallIssueCredential id r)) envs w = (Some resp, w') ->
  status resp = StatusCreated ->
  offered id r w w'.
Proof.
  intros Hi Hn Hf Hrun Hs.
  pose proof (wp_run _ _ _ w envs (issue_offers g id r w Hi Hn) Hf) as Hg.
  rewrite Hrun in Hg. exact (Hg resp eq_refl Hs).
Qed.

(** A credential went out: this call consumed the session that its bearer
    token names, for the deposit of that session.  The session was pending and
    had not expired at the handler's reading of the clock, the second of the
    call's environments, nor at the store's, a later one. *)
Definition consumed g authHeader (envs : nat -> env) w (resp : response) w' : Prop :=
  let token := GoStrings.trim_prefix authHeader "Bearer " in
  deposits w' = deposits w /\
  exists x cid key d sdJWT, body resp = PCredential sdJWT /\
    ss_GetByToken (envs 0%nat) token (w_sessions w) = Some x /\
    sess_view (w_sessions w) !! Session_ID x = Some x /\
    Session_State x = SessionStatePending /\
    env_now (envs 1%nat) 0 <= Session_ExpiresAt x /\
    (exists n, env_now (envs (S (S n))) 0 <= Session_ExpiresAt x) /\
    sess_view (w_sessions w') = <[Session_ID x := consume cid x]> (sess_view (w_sessions w)) /\
    repo_key (Session_DepositID x) = Some key /\ deposits w !! key = Some d /\
    built (cfg_ToLower g) (cfg_sign g) (cfg_KeyID g)
      (cfg_issuerURL g) d (Session_ValidUntil x) (Session_StatusListIndex x) sdJWT cid.

(** C20: when Credential answers 200, exactly the session that the request's bearer token names
    was consumed by this call, with the identifier of the credential in the reply. That session
    was pending, it had not expired at the handler's reading of the clock nor at the store's
    later one, and the reply is the SD-JWT built under that identifier from the stored deposit
    that the session is for, with the validity and the status list index recorded in the
    session; no other session and no deposit changed. Assumed: the identifier drawn for the
    credential is new. *)
Theorem credential_consumes_its_session g h r envs w resp w' :
  sess_inv (w_sessions w) ->
  (forall n, cred_fresh ("urn:xmiete:credential:" +:+ env_uuid (envs n) 0)
               (sess_view (w_sessions w))) ->
  run (handle g (CallCredential h r)) envs w = (Some resp, w') -> status resp = StatusOK ->
  consumed g h envs w resp w'.
Proof.
  intros Hi Hf Hrun Hs. cbn [handle] in Hrun. unfold Credential in Hrun.
  destruct (negb _); [by injection Hrun as <- _|].
  cbn [emit mbind prog_bind prog_bind_ run exec] in Hrun.
  destruct (ss_GetByToken (envs 0%nat) _ _) as [x|] eqn:Hx; [|by injection Hrun as <- _].
  cbn [emit mbind prog_bind prog_bind_ run exec] in Hrun.
  destruct (after _ _) eqn:Ha; [by injection Hrun as <- _|]. apply Z.ltb_ge in Ha.
  match type of Hrun with run ?p ?es _ = _ =>
    pose proof (wp_run (fun e => (exists n, e = envs (S (S n))) /\ fresh_credential w e) p
      (fun o w' => forall resp, o = Some resp -> status resp = StatusOK ->
         consumed g h envs w resp w') w es) as Hwp
  end.
  rewrite Hrun in Hwp. apply Hwp; [|by intros n; split; [exists n|apply Hf]|done|done]. clear -Hi Hx Ha.
  unfold decode. destruct (decode_failed _); [by intros resp [= <-]|].
  destruct (_ || _); [by intros resp [= <-]|].
  intros e1 _. cbn [exec]. unfold in_repo.
  pose proof (repo_get_pure e1 (Session_DepositID x) (w_repo w)) as Hpure.
  pose proof (repo_get_ok e1 (Session_DepositID x) (w_repo w)) as Hget.
  rewrite Hpure, set_repo_id.
  destruct (repo_GetByID e1 _ (w_repo w)) as [[d|err|] s]; cbn [fst] in *;
    [|by intros resp [= <-]|done].
  destruct (Hget d eq_refl) as (key & Hk & Hv).
  apply wp_bind. cbn [wp]. apply wp_bind. eapply wp_mono; [apply wp_BuildSDJWT|].
  intros o w' (-> & [[sdJWT cid]|] & -> & Ho); [|by intros resp [= <-]].
  destruct (Ho _ _ eq_refl) as [Hb (e2 & [_ He2] & ->)].
  intros e3 [[n ->] _]. cbn [exec]. unfold in_sessions.
  pose proof (fun z => sess_consume_read (envs 0%nat) (envs (S (S n))) _ _ (w_sessions w) x z
    Hi He2 Hx) as Hc.
  destruct (ss_ConsumeByToken (envs (S (S n))) _ _ (w_sessions w)) as [[z|] s']; cbn in *;
    [|by intros resp [= <-]].
  intros resp [= <-] _.
  destruct (Hc z eq_refl) as (Hview & [Hp Hle]%unusable_false & Hnew).
  split; [done|]. exists x. eexists _, key, d, sdJWT. split_and!; try done. by exists n.
Qed.
End Handlers.

(** ** Coordinates of the published key *)

(** The number a big-endian byte string denotes. *)
Definition big_endian (l : list Z) : Z := fold_left (fun n b => n * 256 + b) l 0.

Lemma big_endian_app l1 l2 :
  big_endian (l1 ++ l2) = big_endian l1 * 256 ^ Z.of_nat (length l2) + big_endian l2.
Proof.
  unfold big_endian. rewrite fold_left_app. generalize (fold_left (fun n b => n * 256 + b) l1 0).
  induction l2 as [|b l2 IH] using rev_ind; intros n; [cbn; lia|].
  rewrite !fold_left_app, length_app. cbn. rewrite IH.
  rewrite Nat2Z.inj_add, Z.pow_add_r by lia. cbn. lia.
Qed.

Lemma big_endian_zeros k : big_endian (replicate k 0) = 0.
Proof. induction k as [|k IH]; [done|]. by cbn. Qed.

Lemma big_bytes_spec fuel n acc :
  0 <= n < 256 ^ Z.of_nat fuel ->
  exists l, big_bytes fuel n acc = l ++ acc /\ big_endian l = n /\ Forall is_byte l /\
    forall k, n < 256 ^ Z.of_nat k -> (length l <= k)%nat.
Proof.
  revert n acc. induction fuel as [|fuel IH]; intros n acc Hn.
  - exists []. cbn in *. split_and!; [done|lia|done|lia].
  - cbn [big_bytes]. destruct (Z.leb_spec n 0).
    + exists []. split_and!; [done|cbn; lia|done|cbn; lia].
    + rewrite Nat2Z.inj_succ, Z.pow_succ_r in Hn by lia.
      destruct (IH (n / 256) (n mod 256 :: acc)) as (l & -> & Hl & Hb & Hk); [dlia|].
      exists (l ++ [n mod 256]). split_and!.
      * by rewrite <-app_assoc.
      * rewrite big_endian_app, Hl. cbn. dlia.
      * apply Forall_app. split; [done|]. constructor; [unfold is_byte; dlia|done].
      * intros [|k] Hlt; [cbn in Hlt; lia|]. rewrite length_app. cbn.
        rewrite Nat2Z.inj_succ, Z.pow_succ_r in Hlt by lia.
        assert (length l <= k)%nat; [apply Hk; dlia|lia].
Qed.

(** The coordinate survives, in 32 bytes, and the slice arithmetic does not
    panic. *)
Lemma encodeCoord_reads n :
  0 <= n < 2 ^ 256 ->
  exists s bs, encodeCoord 256 n = Some s /\ DecodeString s = Some bs /\
    length bs = 32%nat /\ big_endian bs = n.
Proof.
  intros Hn. unfold encodeCoord. change ((256 + 7) / 8) with 32.
  set (fuel := Z.to_nat _).
  destruct (big_bytes_spec fuel n []) as (l & -> & Hl & Hb & Hk).
  { split; [lia|]. subst fuel. rewrite Z2Nat.id by (pose proof (Z.log2_nonneg n); dlia).
    destruct (decide (n = 0)) as [->|]; [done|].
    destruct (Z.log2_spec n) as [_ Hlt]; [lia|]. eapply Z.lt_le_trans; [exact Hlt|].
    change 256 with (2 ^ 8). rewrite <-Z.pow_mul_r by (pose proof (Z.log2_nonneg n); dlia).
    apply Z.pow_le_mono_r; [lia|]. pose proof (Z.log2_nonneg n). dlia. }
  rewrite app_nil_r. assert (length l <= 32)%nat as Hlen by (apply Hk; change (256 ^ Z.of_nat 32) with (2 ^ 256); lia).
  destruct (Z.ltb_spec 32 (Z.of_nat (length l))); [lia|].
  eexists _, _. split; [done|]. split; [apply decode_encode|split].
  - apply Forall_app. split; [|done]. by apply Forall_replicate.
  - rewrite length_app, length_replicate. lia.
  - by rewrite big_endian_app, big_endian_zeros.
Qed.
