(* ===== verification/Protocol.v ===== *)
(** * The protocol the server implements

    An abstract machine of deposits and attestations: deposits move along the
    transition table; a pledged deposit gets offers; an offer is issued once;
    what was issued is withdrawn when the tenancy ends.  Every sequence of API
    calls is a run of this machine. *)

From S2P Require Import Prelude Float64 Calendar Models JsonModels Statemachine Runtime.
From S2P Require Import Repository Sessions SessionLaws StatusList Server Credential Handlers.
From S2P Require Import IssuerHandlers VpSessions Presentation VerifierHandlers Logic Api.
From S2P Require Import Lifecycle Effects Issuance.

Local Open Scope Z_scope.

(** ** The machine *)

Inductive phase :=
| Offered
| Issued (credential : string)
| Withdrawn (credential : string).

Record attestation := {
  att_deposit : string;
  att_index : Z;
  att_phase : phase }.

Record protocol := {
  proto_deposits : gmap string LifecycleState;
  proto_attestations : gmap string attestation }.

Definition with_phase (ph : phase) (a : attestation) : attestation :=
  {| att_deposit := att_deposit a; att_index := att_index a; att_phase := ph |}.

Definition withdraw (k : string) (a : attestation) : attestation :=
  if String.eqb (att_deposit a) k
  then match att_phase a with Issued c => with_phase (Withdrawn c) a | _ => a end
  else a.

(** [c] is the credential of an attestation. *)
Definition carries_credential (c : string) (a : attestation) : Prop :=
  att_phase a = Issued c \/ att_phase a = Withdrawn c.

Definition over (s : LifecycleState) : Prop := s = StateReleased \/ s = StateClosed.

Inductive proto_step : protocol -> protocol -> Prop :=
| step_open k D A :
    D !! k = None ->
    proto_step {| proto_deposits := D; proto_attestations := A |}
      {| proto_deposits := <[k := StateRequested]> D; proto_attestations := A |}
| step_move k s t D A :
    D !! k = Some s -> allowed s t ->
    proto_step {| proto_deposits := D; proto_attestations := A |}
      {| proto_deposits := <[k := t]> D; proto_attestations := A |}
| step_offer k i ix D A :
    D !! k = Some StatePledged -> A !! i = None ->
    proto_step {| proto_deposits := D; proto_attestations := A |}
      {| proto_deposits := D;
         proto_attestations :=
           <[i := {| att_deposit := k; att_index := ix; att_phase := Offered |}]> A |}
| step_issue i a c D A :
    A !! i = Some a -> att_phase a = Offered ->
    (forall j b, A !! j = Some b -> ~ carries_credential c b) ->
    proto_step {| proto_deposits := D; proto_attestations := A |}
      {| proto_deposits := D; proto_attestations := <[i := with_phase (Issued c) a]> A |}
| step_withdraw k s D A :
    D !! k = Some s -> over s ->
    proto_step {| proto_deposits := D; proto_attestations := A |}
      {| proto_deposits := D; proto_attestations := withdraw k <$> A |}.

(** ** The abstraction *)

Definition session_phase (x : Session) : phase :=
  if String.eqb (Session_State x) SessionStatePending then Offered
  else if String.eqb (Session_State x) SessionStateConsumed then Issued (Session_CredentialID x)
  else Withdrawn (Session_CredentialID x).

Definition attested_by (x : Session) : attestation :=
  {| att_deposit := Session_DepositID x; att_index := Session_StatusListIndex x;
     att_phase := session_phase x |}.

Lemma attested_consume c x : attested_by (consume c x) = with_phase (Issued c) (attested_by x).
Proof. by destruct x. Qed.

Lemma attested_token t n x : attested_by (set_Token t n x) = attested_by x.
Proof. by destruct x. Qed.

Lemma attested_revoke k x :
  known_state (Session_State x) -> attested_by (revoke_issued k x) = withdraw k (attested_by x).
Proof.
  intros Hk. unfold revoke_issued, withdraw, attested_by, session_phase. destruct x; cbn in *.
  destruct (String.eqb _ k); [|done]. by destruct Hk as [->|[->| ->]].
Qed.

Lemma attested_fresh c (m : gmap string Session) :
  cred_fresh c m -> forall j b, (attested_by <$> m) !! j = Some b -> ~ carries_credential c b.
Proof.
  intros Hf j b. rewrite lookup_fmap. intros (x & Hx & ->)%fmap_Some [E|E];
    unfold attested_by, session_phase in E; cbn in E; repeat case_match; simplify_eq;
    by eapply (Hf j x); [|apply String.eqb_neq|].
Qed.

Section Refinement.
Context {RS SS AS : Type} `{RepositoryLaws RS} `{SessionLaws SS} `{IndexAllocator AS}.
Implicit Types w : world RS SS AS.

Definition abstract w : protocol :=
  {| proto_deposits := lifecycle <$> deposits w;
     proto_attestations := attested_by <$> sess_view (w_sessions w) |}.

(** [w'] is a valid state the machine reaches from [w]. *)
Definition reaches w w' : Prop :=
  sess_inv (w_sessions w') /\ rtc proto_step (abstract w) (abstract w').

Lemma reaches_refl w : sess_inv (w_sessions w) -> reaches w w.
Proof. by split. Qed.

Lemma reaches_trans w1 w2 w3 : reaches w1 w2 -> reaches w2 w3 -> reaches w1 w3.
Proof. intros [_ H12] [Hi H23]. split; [done|]. by etrans. Qed.

(** The deposits and the sessions of [w'] are those of [w]. *)
Definition same_stores w w' : Prop :=
  deposits w' = deposits w /\ w_sessions w' = w_sessions w.

Lemma reaches_same w w' : sess_inv (w_sessions w) -> same_stores w w' -> reaches w w'.
Proof.
  intros Hi [Hr Hs]. split; [by rewrite Hs|]. unfold abstract. by rewrite Hr, Hs.
Qed.

Lemma reaches_insert w key s d w' :
  sess_inv (w_sessions w) -> w' = set_repo (w_repo w') w ->
  repo_view (w_repo w') = <[key := d]> (repo_view (w_repo w)) ->
  proto_step (abstract w)
    {| proto_deposits := <[key := s]> (lifecycle <$> deposits w);
       proto_attestations := attested_by <$> sess_view (w_sessions w) |} ->
  lifecycle d = s -> reaches w w'.
Proof.
  intros Hi Hw Hv Hs <-. assert (w_sessions w' = w_sessions w) as E by by rewrite Hw.
  split; [by rewrite E|]. apply rtc_once.
  unfold abstract at 2, deposits. rewrite Hv, fmap_insert, E. exact Hs.
Qed.

(** ** The handlers *)

(** Identifiers name the same deposit in both stores, as with a database that
    holds both. *)
Context (same_names : forall id key dep,
  repo_key id = Some key -> sess_key id = Some dep -> dep = key).

(** What a step of a handler promises. *)
Definition progress w (r : option response) w' : Prop := reaches w w'.

(** A handler's tail after the deposit entered [s]: the stores stay, or what
    was issued is withdrawn. *)
Definition tail_of (id : string) (s : LifecycleState) w w' : Prop :=
  same_stores w w' \/
  over s /\ exists e, w_repo w' = w_repo w /\
    w_sessions w' = ss_RevokeByDepositID e id (w_sessions w).

Lemma tail_reaches id key s w w' :
  sess_inv (w_sessions w) -> repo_key id = Some key ->
  lifecycle <$> deposits w !! key = Some s -> tail_of id s w w' -> reaches w w'.
Proof.
  intros Hi Hk Hd [Hs|(Ho & e & Hr & Hs)]; [by apply reaches_same|].
  destruct (sess_revoke_cases e id (w_sessions w) Hi) as [Hi' Hv]. rewrite <-Hs in Hi', Hv.
  split; [done|]. destruct Hv as [Hv|(dep & Hdep & Hv)].
  - unfold abstract, deposits. by rewrite Hr, Hv.
  - apply rtc_once. unfold abstract at 2, deposits. rewrite Hr, Hv.
    rewrite (same_names id key dep Hk Hdep).
    replace (attested_by <$> (revoke_issued key <$> _)) with
      (withdraw key <$> (attested_by <$> sess_view (w_sessions w))).
    + apply (step_withdraw key s); [|done]. by rewrite lookup_fmap.
    + rewrite <-!map_fmap_compose. apply map_fmap_ext. intros i x Hx. cbn.
      by rewrite attested_revoke by exact (sess_view_state _ i x Hi Hx).
Qed.

Lemma wp_update_progress ok id ns en p k w key d :
  sess_inv (w_sessions w) -> repo_key id = Some key -> deposits w !! key = Some d ->
  allowed (lifecycle d) ns ->
  (forall d w', wp ok (k d) (fun _ w'' => tail_of id ns w' w'') w') ->
  wp ok (update id ns en p k) (progress w) w.
Proof.
  intros Hi Hk Hd Ha Htail.
  assert (forall key' d1 t w', repo_key id = Some key' -> sql_entry ns en = true ->
    w' = set_repo (w_repo w') w -> repo_view (w_repo w') = <[key' := stored (advance ns en t d1)]> (repo_view (w_repo w)) ->
    reaches w w' /\ lifecycle <$> deposits w' !! key = Some ns) as Hmove.
  { intros key' d1 t w' Hk' Hsql Hw Hv. rewrite Hk in Hk'. injection Hk' as <-.
    assert (lifecycle (stored (advance ns en t d1)) = ns) as Hns by by autorewrite with deposit.
    split.
    - apply (reaches_insert w key ns (stored (advance ns en t d1)) w'); try done. eapply step_move; [|done].
      by rewrite lookup_fmap, Hd.
    - unfold deposits. rewrite Hv, lookup_insert_eq. cbn. by rewrite Hns. }
  apply wp_update.
  - intros w' [->|(key' & d0 & d1 & t & Hk' & _ & _ & Hs & Hv & Hw)]; [by apply reaches_refl|].
    by eapply Hmove.
  - intros. by apply reaches_refl.
  - intros key' d0 d1 t w' Hk' _ _ Hv Hw Hs. destruct (Hmove _ _ _ _ Hk' Hs Hw Hv) as [Hr Hns].
    eapply wp_mono; [apply Htail|]. intros r w'' Ht. eapply reaches_trans; [done|].
    exact (tail_reaches id key ns w' w'' (proj1 Hr) Hk Hns Ht).
Qed.

Lemma progress_refl w r : sess_inv (w_sessions w) -> progress w r w.
Proof. apply reaches_refl. Qed.
End Refinement.

(** The tails of the handlers. *)
Ltac solve_tail_of :=
  intros; repeat first
    [ apply wp_revoke; intros ? ? ? ? ? | apply wp_webhook; intros ? ? ? | apply wp_spawn; intros ? ? ?
    | apply wp_vp_delete ];
  cbn; unfold tail_of, same_stores, over, deposits;
  first [ left; cbn [set_vp w_repo w_sessions] in *; split; cbn; congruence
        | right; split; [by auto|]; eexists; split; [congruence|];
          repeat match goal with E : w_sessions _ = _ |- _ => rewrite E end; reflexivity ].

Section Handlers.
Context {RS SS AS : Type} `{RepositoryLaws RS} `{SessionLaws SS} `{IndexAllocator AS}.
Implicit Types w : world RS SS AS.
Context (same_names : forall id key dep,
  repo_key id = Some key -> sess_key id = Some dep -> dep = key).

Ltac walk := walk_with ltac:(idtac; by apply progress_refl).
Ltac moves := eapply (wp_update_progress same_names); try done; [|solve_tail_of].

Lemma create_progress d w w' :
  sess_inv (w_sessions w) -> after_create d w w' -> reaches w w'.
Proof.
  intros Hi [Hw [Hv|(key & i & t & Hn & Hv)]].
  - apply reaches_same; [done|]. split; [exact Hv|by rewrite Hw].
  - apply (reaches_insert w key StateRequested (stored (create_deposit i t d)) w'); try done.
    + apply step_open. unfold deposits. by rewrite lookup_fmap, Hn.
    + by autorewrite with deposit.
Qed.

Lemma deposit_call_progress ok g c w :
  sess_inv (w_sessions w) -> deposit_call c = true -> wp ok (handle g c) (progress w) w.
Proof.
  intros Hi Hc. destruct c; try done; cbn [handle].
  - unfold CreateDeposit. walk. apply wp_create.
    + intros x w' Hw. by eapply create_progress.
    + intros key i t w' Hw _ Hn Hv. eapply create_progress; [done|]. split; [done|]. right. eauto.
  - unfold GetDeposit. walk.
  - unfold UpdateIdentity. walk. unfold StateForIdentityUpdate in *.
    case_match; simplify_eq. moves. by apply allowed_transition.
  - unfold Handlers.Pledge. walk. moves. by apply allowed_transition.
  - unfold Release. walk. moves. by apply allowed_transition.
  - unfold Claim. walk. moves. by apply allowed_transition.
  - unfold GetReceipt. walk.
  - unfold GetReleaseReceipt. walk.
  - unfold Settle. walk; try moves.
    + by apply allowed_transition.
    + assert (lifecycle d = StateSettleProposed) as ->; [|by apply allowed_repeat; left].
      apply String.eqb_eq. by destruct (String.eqb (lifecycle d) StateSettleProposed).
    + by apply progress_refl.
  - unfold SettleAccept. walk. moves. apply allowed_transition; [|done].
    apply negb_false_iff, String.eqb_eq in Heqb1. by rewrite Heqb1.
  - unfold Dispute. walk. moves. by apply allowed_transition.
  - unfold DisputeResolve. walk. moves. by apply allowed_transition.
  - unfold PartialRelease. walk. moves. by apply allowed_transition.
  - unfold UtilitySettle. walk; moves; (apply allowed_transition; [|done]);
      apply negb_false_iff, String.eqb_eq in Heqb1; by rewrite Heqb1.
  - unfold CreateVpRequest. walk. intros e _. apply reaches_same; [done|]. by split.
  - unfold ReceiveVpResponse. walk. apply wp_vp_get. intros [x|] _; walk.
    apply wp_only_now; [apply only_now_VerifyVpToken|]. intros [claims|err]; walk.
    match goal with E : negb (String.eqb (lifecycle _) _) = false |- _ =>
      apply negb_false_iff, String.eqb_eq in E; rename E into Hl end.
    moves. rewrite Hl. by apply allowed_repeat; right.
  - unfold VerifierHandlers.Validate. walk.
Qed.

(** ** The issuance flow *)

Lemma wp_quiet_progress ok w (p : prog response) :
  sess_inv (w_sessions w) -> wp ok p (fun _ w' => same_stores w w') w -> wp ok p (progress w) w.
Proof. intros Hi Hp. eapply wp_mono; [exact Hp|]. intros r w' Hs. by apply reaches_same. Qed.

(** A new attestation, or nothing. *)
Lemma offer_progress e id key vu ix w (r : result Session) s' :
  sess_inv (w_sessions w) -> fresh_session w e -> repo_key id = Some key ->
  lifecycle <$> deposits w !! key = Some StatePledged ->
  ss_Create e id vu ix (w_sessions w) = (r, s') -> reaches w (set_sessions s' w).
Proof.
  intros Hi Hf Hk Hp Hc. pose proof (sess_create_cases e id vu ix (w_sessions w) Hi Hf) as Hcases.
  rewrite Hc in Hcases. destruct Hcases as [Hi' [[Hv _]|(i & x & dep & Hn & Hv & Hdep & Hcr)]].
  - split; [done|]. unfold abstract. cbn. by rewrite Hv.
  - split; [done|]. apply rtc_once. unfold abstract at 2. cbn. rewrite Hv, fmap_insert.
    destruct Hcr as (Hd & Hs & _). rewrite (same_names id key dep Hk Hdep) in Hd.
    replace (attested_by x) with
      {| att_deposit := key; att_index := Session_StatusListIndex x; att_phase := Offered |}.
    + apply step_offer; [by rewrite lookup_fmap|by rewrite lookup_fmap, Hn].
    + unfold attested_by, session_phase. by rewrite Hd, Hs.
Qed.

Lemma issue_progress e token cid w r s' :
  sess_inv (w_sessions w) -> cred_fresh cid (sess_view (w_sessions w)) ->
  ss_ConsumeByToken e token cid (w_sessions w) = (r, s') -> reaches w (set_sessions s' w).
Proof.
  intros Hi Hf Hc. pose proof (sess_consume_cases e token cid (w_sessions w) Hi Hf) as Hcases.
  rewrite Hc in Hcases. destruct Hcases as [Hi' [[Hv _]|(i & x & Hx & Hu & Hv & _)]].
  - split; [done|]. unfold abstract. cbn. by rewrite Hv.
  - split; [done|]. apply rtc_once. unfold abstract at 2. cbn.
    rewrite Hv, fmap_insert, attested_consume. apply step_issue.
    + by rewrite lookup_fmap, Hx.
    + apply unusable_false in Hu as [Hp _]. unfold attested_by, session_phase. cbn. by rewrite Hp.
    + by apply attested_fresh.
Qed.

Lemma exchange_progress e code w r s' :
  sess_inv (w_sessions w) ->
  ss_ExchangeCodeForToken e code (w_sessions w) = (r, s') -> reaches w (set_sessions s' w).
Proof.
  intros Hi Hc. pose proof (sess_exchange_cases e code (w_sessions w) Hi) as Hcases.
  rewrite Hc in Hcases. destruct Hcases as [Hi' [[Hv _]|(i & x & Hx & _ & Hv & _)]];
    (split; [done|]); unfold abstract; cbn; rewrite Hv; [done|].
  rewrite fmap_insert, attested_token, insert_id; [done|]. by rewrite lookup_fmap, Hx.
Qed.

(** The identifiers a call may draw. *)
Definition fresh_ids w (e : env) : Prop := fresh_session w e /\ fresh_credential w e.

Lemma issuance_call_progress g c w :
  sess_inv (w_sessions w) -> deposit_call c = false ->
  wp (fresh_ids w) (handle g c) (progress w) w.
Proof.
  intros Hi Hc. destruct c; try done; cbn [handle].
  - unfold IssueCredential. walk.
    match goal with E : negb _ = false |- _ => apply negb_false_iff, String.eqb_eq in E; rename E into Hl end.
    match goal with E : repo_key _ = Some ?key |- _ => rename E into Hk; rename key into k end.
    assert (lifecycle <$> deposits w !! k = Some StatePledged) as Hp.
    { unfold deposits. match goal with E : repo_view _ !! _ = _ |- _ => rewrite E end.
      cbn. by rewrite Hl. }
    intros e [_ _]. cbn.
    destruct (AllocateIndex e (w_alloc w)) as [[ix|x|] a]; cbn;
      [|by apply reaches_same; [|split]|by apply reaches_same; [|split]].
    intros e' [Hf _]. unfold in_sessions.
    destruct (ss_Create e' id (issueReq_ValidUntil (value r)) ix (w_sessions w))
      as [y s'] eqn:Hcr.
    pose proof (offer_progress e' id k _ ix (set_alloc a w) y s' Hi Hf Hk Hp Hcr) as Hr.
    destruct y; exact Hr.
  - apply wp_quiet_progress; [done|]. unfold GetCredentialOffer. intros e _. cbn.
    destruct (ss_GetByID _ _ _); [|done]. intros e' _. cbn. by case_match.
  - unfold Token. walk. intros e _. cbn. unfold in_sessions.
    destruct (ss_ExchangeCodeForToken _ _ _) as [o s'] eqn:Hx.
    pose proof (exchange_progress _ _ _ _ _ Hi Hx) as Hr. destruct o as [[]|]; exact Hr.
  - unfold Credential. walk. intros e _. cbn [exec].
    destruct (ss_GetByToken _ _ _) as [x|]; [|by apply progress_refl]. apply wp_now. intros t. walk.
    intros e1 _. cbn [exec]. unfold in_repo.
    pose proof (repo_get_pure e1 (Session_DepositID x) (w_repo w)) as Hpure.
    rewrite Hpure, set_repo_id.
    destruct (repo_GetByID e1 _ (w_repo w)) as [[d|y|] ?]; cbn [fst];
      [|by apply progress_refl|by apply progress_refl].
    apply wp_bind. cbn [wp]. apply wp_bind. eapply wp_mono; [apply wp_BuildSDJWT|].
    intros o w' (-> & [[sdJWT cid]|] & -> & Ho); [|by apply progress_refl].
    destruct (Ho _ _ eq_refl) as [_ (e2 & [_ He2] & ->)].
    intros e3 _. cbn [exec]. unfold in_sessions.
    destruct (ss_ConsumeByToken e3 _ _ (w_sessions w)) as [z s'] eqn:Hcons.
    pose proof (issue_progress _ _ _ _ _ _ Hi He2 Hcons) as Hr. destruct z; exact Hr.
  - apply wp_quiet_progress; [done|]. unfold CredentialStatus. intros e _. cbn.
    destruct (ss_CredentialStatus _ _ _) as [st []]; [|done]. by intros e' _.
  - apply wp_quiet_progress; [done|]. unfold IssuerHandlers.StatusList. intros e _. cbn.
    destruct (ss_RevokedStatusListIndices _ _) as [l| |]; [|done|done]. intros e' _.
    cbn. by case_match.
Qed.

Lemma call_progress g c w :
  sess_inv (w_sessions w) -> wp (fresh_ids w) (handle g c) (progress w) w.
Proof.
  intros Hi. destruct (deposit_call c) eqn:Hc.
  - by apply deposit_call_progress.
  - by apply issuance_call_progress.
Qed.

(** ** Sequences of calls *)

(** No call draws an identifier that is in use. *)
Fixpoint fresh_calls (g : config) (calls : list (api_call * (nat -> env))) w : Prop :=
  match calls with
  | [] => True
  | (c, envs) :: calls =>
      (forall n, fresh_ids w (envs n)) /\ fresh_calls g calls (run (handle g c) envs w).2
  end.

Lemma run_calls_reach g calls w :
  sess_inv (w_sessions w) -> fresh_calls g calls w -> reaches w (run_calls g calls w).2.
Proof.
  revert w. induction calls as [|[c envs] calls IH]; intros w Hi; cbn; intros Hf;
    [by apply reaches_refl|].
  destruct Hf as [Hf Hfs]. pose proof (wp_run _ _ _ w envs (call_progress g c w Hi) Hf) as Hr.
  destruct (run (handle g c) envs w) as [o w1]. cbn in *. specialize (IH w1 (proj1 Hr) Hfs).
  destruct (run_calls g calls w1) as [rs w2]. by eapply reaches_trans.
Qed.

(** C3: the server refines an abstract protocol of deposits and attestations. Project a world to
    the phase of each deposit and, for each issuance session, to its deposit and whether it is
    offered, issued or withdrawn: then every sequence of calls is a sequence of steps of a
    machine that can only open a deposit, move it along the transition table, offer an
    attestation of a deposit in phase PLEDGED, issue an offered one once, and withdraw the
    issued ones of a deposit; database faults and refusals are steps of length zero. Assumed:
    fresh identifiers, and that the session store and the repository read an identifier in the
    same way. *)
Theorem calls_refine_the_protocol g calls w :
  sess_inv (w_sessions w) -> fresh_calls g calls w ->
  rtc proto_step (abstract w) (abstract (run_calls g calls w).2).
Proof. intros Hi Hf. exact (proj2 (run_calls_reach g calls w Hi Hf)). Qed.
End Handlers.
