(* ===== verification/Publication.v ===== *)
(** * What the published status list says

    The composition of the session store, the allocator's indices, the
    encoding of the list and the endpoint that serves it: a list that the API
    hands out has a set bit exactly for the revoked credentials, and a
    credential that was revoked when its tenancy ended is in every list
    published later.  The second part runs through the abstract machine of
    [Protocol], in which a withdrawn attestation is final. *)

From S2P Require Import Prelude Calendar Runtime Repository Sessions SessionLaws Base64.
From S2P Require Import StatusList Server Credential Handlers IssuerHandlers Logic Api.
From S2P Require Import Lifecycle Effects Issuance Protocol.

Local Open Scope Z_scope.

(** ** In the machine, a withdrawn attestation is final *)

Definition withdrawn (i : string) (a : attestation) (p : protocol) : Prop :=
  proto_attestations p !! i = Some a /\ exists c, att_phase a = Withdrawn c.

Lemma withdraw_withdrawn k a c : att_phase a = Withdrawn c -> withdraw k a = a.
Proof. unfold withdraw. intros ->. by case_match. Qed.

Lemma step_keeps_withdrawn i a p q : proto_step p q -> withdrawn i a p -> withdrawn i a q.
Proof.
  intros Hstep [Ha [c Hc]]. split; [|by exists c].
  destruct Hstep as [| |k j ix D A _ Hj|j b d D A Hj Hb _|k s D A _ _]; cbn in *; try done.
  - rewrite lookup_insert_ne; congruence.
  - rewrite lookup_insert_ne; [done|]. intros ->. simplify_eq. congruence.
  - by rewrite lookup_fmap, Ha; cbn; rewrite (withdraw_withdrawn k a c).
Qed.

Lemma steps_keep_withdrawn i a p q : rtc proto_step p q -> withdrawn i a p -> withdrawn i a q.
Proof. induction 1; [done|]. intros Hw. by eapply IHrtc, step_keeps_withdrawn. Qed.

Lemma attested_revoked x :
  known_state (Session_State x) -> (exists c, session_phase x = Withdrawn c) ->
  Session_State x = SessionStateRevoked.
Proof. unfold session_phase. by intros [->|[->| ->]] [c Hc]. Qed.

(** ** The endpoint *)

(** The bitstring inside a signed list. *)
Definition encoded_list (c : statusListVCClaims) : string :=
  statusListSubject_EncodedList (statusListVC_CredentialSubject (statusListVCClaims_VC c)).
Definition read_list (gunzip : list Z -> option (list Z)) (c : statusListVCClaims) :
    option (list Z) :=
  DecodeString (encoded_list c) ≫= gunzip.

(** [r] carries claims, signed by the issuer, whose bits satisfy [Q]. *)
Definition publishes (g : config) (gunzip : list Z -> option (list Z)) (r : response) (Q : list Z -> Prop) : Prop :=
  exists l claims now bs,
    body r = PStatusList l /\
    cfg_sign_list g "vc+ld+jwt" (cfg_KeyID g) claims = Some (statusList_Credential l) /\
    claims = status_list_claims (cfg_issuerURL g) (encoded_list claims) now /\
    read_list gunzip claims = Some bs /\
    length bs = Z.to_nat (StatusListSize / 8) /\ Q bs.

Section Publication.
Context {RS SS AS : Type} `{RepositoryLaws RS} `{SessionLaws SS} `{IndexAllocator AS}.
Implicit Types w : world RS SS AS.

(** The credential with index [ix] is revoked in [w]. *)
Definition revoked_index w (ix : Z) : Prop :=
  exists i x, sess_view (w_sessions w) !! i = Some x /\
    Session_State x = SessionStateRevoked /\ Session_StatusListIndex x = ix.

(** The bits are those of the revoked credentials of [w]. *)
Definition tells_revocations w (bs : list Z) : Prop :=
  forall ix, 0 <= ix < StatusListSize -> bit_at bs ix = true <-> revoked_index w ix.

Lemma wp_StatusList ok g gunzip w :
  sess_inv (w_sessions w) -> inflates (cfg_gzip g) gunzip ->
  wp ok (handle g CallStatusList)
    (fun o w' => w' = w /\ forall r, o = Some r -> status r = StatusOK ->
       publishes g gunzip r (tells_revocations w)) w.
Proof.
  intros Hi Hgz. cbn [handle]. unfold IssuerHandlers.StatusList. intros e _. cbn.
  destruct (ss_RevokedStatusListIndices e (w_sessions w)) as [l|x|] eqn:Hl; cbn.
  - intros e' _. unfold BuildStatusListJWT.
    destruct (BuildEncodedList (cfg_gzip g) l) as [s|] eqn:Hs; cbn;
      [|by split; [|intros r [= <-]]].
    case_match eqn:Hj; (split; [done|]; intros r [= <-]); [|done]. intros _.
    destruct (published_list_reads_back _ _ l s Hgz Hs) as (bs & Hread & Hlen & Hbits).
    eexists _, (status_list_claims (cfg_issuerURL g) s (env_now e' 0)), (env_now e' 0), bs.
    split_and!; try done. intros ix Hix. rewrite Hbits by done.
    exact (sess_revoked_indices e _ l Hi Hl ix).
  - by split; [|intros r [= <-]].
  - by split.
Qed.

(** C7: the published status list is the revocations, no more and no less: when StatusList
    answers 200 the server is unchanged, and the reply carries a list credential that the issuer
    signed, whose encoded list decodes to 131072 bits of which, by the W3C reading (most
    significant bit first), exactly those are set that are the index of a revoked credential;
    for any gzip with an inverse. *)
Theorem published_list_is_the_revocations g gunzip envs w r w' :
  sess_inv (w_sessions w) -> inflates (cfg_gzip g) gunzip ->
  run (handle g CallStatusList) envs w = (Some r, w') -> status r = StatusOK ->
  w' = w /\ publishes g gunzip r (tells_revocations w).
Proof.
  intros Hi Hgz Hrun Hs.
  pose proof (wp_run (fun _ => True) _ _ w envs (wp_StatusList _ g gunzip w Hi Hgz)
    ltac:(done)) as Hp.
  rewrite Hrun in Hp. split; [exact (proj1 Hp)|]. by apply Hp.
Qed.

Context (same_names : forall id key dep,
  repo_key id = Some key -> sess_key id = Some dep -> dep = key).

(** A revoked session stays revoked through any calls, under its index. *)
Lemma revoked_index_stays g calls w ix :
  sess_inv (w_sessions w) -> fresh_calls g calls w -> revoked_index w ix ->
  revoked_index (run_calls g calls w).2 ix.
Proof.
  intros Hi Hf (i & x & Hx & Hst & Hix).
  destruct (run_calls_reach same_names g calls w Hi Hf) as [Hi' Hr].
  destruct (steps_keep_withdrawn i (attested_by x) _ _ Hr) as [Ha Hw].
  - split; [by cbn; rewrite lookup_fmap, Hx|]. exists (Session_CredentialID x).
    unfold attested_by, session_phase. by rewrite Hst.
  - cbn in Ha. rewrite lookup_fmap in Ha. apply fmap_Some in Ha as (y & Hy & Hxy).
    exists i, y. injection Hxy as Hd Hxi Hp. split; [done|]. split; [|by rewrite <-Hxi].
    apply attested_revoked; [exact (sess_view_state _ i y Hi' Hy)|].
    destruct Hw as [c Hc]. exists c. cbn in Hc. congruence.
Qed.

(** C6: a credential whose tenancy was ended stays revoked for every reader of the status list.
    Take a call that ends a tenancy (Release, SettleAccept or DisputeResolve), meets no database
    fault and answers 200, and a credential that was collected for that deposit before, with an
    index inside the list (below 131072): whatever calls follow, with whatever database faults,
    each status list that the API hands out afterwards is signed by the issuer and has the bit
    of that index set. Proved through the abstract machine, in which a withdrawn attestation is
    final. Assumed besides: identifiers drawn by the later calls are new, the session store and
    the repository read an identifier in the same way, and gzip has an inverse. (The code
    answers 200 also when revoking fails, and drops indices past the list; both are left out
    here, the second is a finding.) *)
Theorem ended_tenancy_stays_published g gunzip c id envs w resp w1 dep i x calls envs' r w2 :
  inflates (cfg_gzip g) gunzip -> revoking_call c = Some id -> (forall n, no_faults (envs n)) ->
  run (handle g c) envs w = (Some resp, w1) -> status resp = StatusOK ->
  sess_inv (w_sessions w) -> sess_key id = Some dep ->
  sess_view (w_sessions w) !! i = Some x -> Session_DepositID x = dep ->
  Session_State x = SessionStateConsumed -> 0 <= Session_StatusListIndex x < StatusListSize ->
  fresh_calls g calls w1 ->
  run (handle g CallStatusList) envs' (run_calls g calls w1).2 = (Some r, w2) ->
  status r = StatusOK ->
  publishes g gunzip r (fun bs => bit_at bs (Session_StatusListIndex x) = true).
Proof.
  intros Hgz Hc Hok Hrun Hs Hi Hkey Hx Hdep Hst Hix Hf Hlist Hr.
  destruct (ending_call_revokes g c id envs w resp w1 dep i x) as [Hi1 Hx1]; try done.
  destruct (run_calls_reach same_names g calls w1 Hi1 Hf) as [Hi2 _].
  pose proof (wp_run (fun _ => True) _ _ _ envs' (wp_StatusList _ g gunzip _ Hi2 Hgz)
    ltac:(done)) as Hp.
  rewrite Hlist in Hp. destruct (proj2 Hp r eq_refl Hr) as (l & cl & now & bs & ? & ? & ? & ? & ? & Hb).
  exists l, cl, now, bs. split_and!; try done. apply Hb; [done|].
  apply revoked_index_stays; [done|done|].
  destruct (set_State_fields SessionStateRevoked x) as (_ & Hs2 & _ & _ & Hix2).
  by exists i, (set_State SessionStateRevoked x).
Qed.
End Publication.
