(* ===== verification/Verification.v ===== *)
(** * What verification of a presentation means

    An issued credential, presented as it is, is accepted and gives back the
    claims of the deposit; whatever is accepted was signed by the issuer, every
    disclosed claim by its digest; a key binding, where there is one, is bound
    to the request; a presentation is recorded in the pledged deposit it
    names. *)

From S2P Require Import Prelude Float64 Calendar Models Json JsonModels Statemachine Runtime.
From S2P Require Import Repository Sessions SessionLaws Base64 Utf8 JsonText Sha256 StatusList.
From S2P Require Import Server Credential.
From S2P Require Import VpSessions Presentation Handlers IssuerHandlers VerifierHandlers.
From S2P Require Import Logic Api Lifecycle Effects Issuance.

Local Open Scope Z_scope.

(** ** The wire format *)

Abbreviation tilde := (Ascii.ascii_of_N 126).
Abbreviation dot := (Ascii.ascii_of_N 46).

Lemma char_off_alphabet c n :
  GoStrings.free_of c alphabet = true -> Ascii.eqb Ascii.zero c = false ->
  Ascii.eqb (char n) c = false.
Proof.
  intros Hc H0. unfold char. destruct (String.get _ alphabet) as [d|] eqn:E; [|done].
  revert Hc E. generalize alphabet as s, (Z.to_nat n) as k.
  induction s as [|a s IH]; intros k; [done|]. cbn.
  intros [Ha%negb_true_iff Hs]%andb_true_iff. destruct k as [|k]; [by intros [= <-]|].
  by apply IH.
Qed.

(** Base64url keeps bytes outside its alphabet out of a token's parts. *)
Lemma encoded_free c l :
  GoStrings.free_of c alphabet = true -> Ascii.eqb Ascii.zero c = false ->
  GoStrings.free_of c (EncodeToString l) = true.
Proof.
  intros Hc H0. induction l as [|a|a b|a b d l IH] using triple_ind; cbn;
    by rewrite ?char_off_alphabet, ?IH.
Qed.

Lemma encoded_nonempty l : l <> [] -> EncodeToString l <> "".
Proof. by destruct l as [|a [|b [|c l]]]. Qed.

(** The parts of a list of disclosures, each followed by a tilde. *)
Lemma split_join l :
  Forall (fun p => GoStrings.free_of tilde p = true) l -> l <> [] ->
  GoStrings.split tilde (GoStrings.join l "~" +:+ "~") = l ++ [""].
Proof.
  induction l as [|p l IH]; [done|]. intros [Hp Hl]%Forall_cons _.
  destruct l as [|q l]; [exact (GoStrings.split_app tilde p "" Hp)|].
  change (GoStrings.join (p :: q :: l) "~") with (p +:+ "~" +:+ GoStrings.join (q :: l) "~").
  rewrite !GoStrings.append_assoc.
  transitivity (p :: GoStrings.split tilde (GoStrings.join (q :: l) "~" +:+ "~")).
  - exact (GoStrings.split_app tilde p _ Hp).
  - by rewrite IH.
Qed.

(** A disclosure as it travels: not empty, no tilde, no dot. *)
Definition plain (p : string) : Prop :=
  p <> "" /\ GoStrings.free_of tilde p = true /\ GoStrings.free_of dot p = true.

Lemma plain_encoded l : l <> [] -> plain (EncodeToString l).
Proof. intros Hl. split_and!; [by apply encoded_nonempty|by apply encoded_free..]. Qed.

Lemma sort_plain kb ds l : Forall plain l -> sort_parts kb ds l = (kb, ds ++ l).
Proof.
  revert ds. induction l as [|p l IH]; intros ds; cbn [sort_parts]; [by rewrite app_nil_r|].
  intros [(Hp & _ & Hd) Hl]%Forall_cons.
  pose proof (GoStrings.contains_free dot p Hd : GoStrings.contains p "." = false) as Hc.
  apply String.eqb_neq in Hp. rewrite Hp, Hc, IH by done.
  by rewrite <-app_assoc.
Qed.

Lemma sort_parts_app kb ds l l' :
  sort_parts kb ds (l ++ l') = let '(kb, ds) := sort_parts kb ds l in sort_parts kb ds l'.
Proof.
  revert kb ds. induction l as [|p l IH]; intros kb ds; cbn; [done|].
  destruct (String.eqb p ""); [apply IH|]. destruct (GoStrings.contains p "."); apply IH.
Qed.

(** The verifier takes a presentation apart as the holder put it together. *)
Lemma parts_of_presentation signed ds :
  GoStrings.free_of tilde signed = true -> Forall plain ds ->
  exists parts, token_parts (presentation signed ds) = (signed, parts) /\
    sort_parts "" [] parts = ("", ds).
Proof.
  intros Hs Hds. unfold token_parts, presentation.
  replace (GoStrings.split tilde _) with
    (signed :: GoStrings.split tilde (GoStrings.join ds "~" +:+ "~"))
    by (symmetry; exact (GoStrings.split_app tilde signed _ Hs)).
  eexists. split; [done|]. destruct (decide (ds = [])) as [->|Hne]; [done|].
  rewrite split_join, sort_parts_app, sort_plain; [done|done| |done].
  eapply Forall_impl; [done|]. by intros p (_ & ? & _).
Qed.

(** ** What an issued credential attests *)

(** The claims of a signed JWT as its parser returns them. *)
Definition parsed (c : sdJWTClaims) : issuerJWTClaims :=
  {| issuerJWT_ID := ID (sdJWT_Registered c);
     issuerJWT_ExpiresAt := Some (ExpiresAt (sdJWT_Registered c) * second);
     issuerJWT_VCT := sdJWT_VCT c; issuerJWT_SDAlg := sdJWT_SDAlg c;
     issuerJWT_SD := sdJWT_SD c; issuerJWT_DepositID := sdJWT_DepositID c;
     issuerJWT_PledgeDate := sdJWT_PledgeDate c;
     issuerJWT_StatutoryBasis := sdJWT_StatutoryBasis c;
     issuerJWT_IssuingBank := sdJWT_IssuingBank c;
     issuerJWT_IssuingBankID := sdJWT_IssuingBankID c;
     issuerJWT_PropertyID := sdJWT_PropertyID c |}.

(** The disclosures of the claims the holder keeps in the presentation. *)
Fixpoint select (keep : string -> bool) (specs : list (string * json)) (encs : list string) :
    list string :=
  match specs, encs with
  | (name, _) :: specs, enc :: encs =>
      if keep name then enc :: select keep specs encs else select keep specs encs
  | _, _ => []
  end.

(** The claims they open. *)
Fixpoint reveal (keep : string -> bool) (specs : list (string * json)) (m : gmap string json) :
    gmap string json :=
  match specs with
  | [] => m
  | (name, v) :: specs => reveal keep specs (if keep name then <[name := v]> m else m)
  end.

Lemma select_elem keep specs encs x : x ∈ select keep specs encs -> x ∈ encs.
Proof.
  revert encs. induction specs as [|[name v] specs IH]; intros [|enc encs]; cbn;
    [by intros ?%elem_of_nil..|].
  case_match; rewrite ?elem_of_cons; naive_solver.
Qed.

Lemma select_all specs encs :
  length specs = length encs -> select (fun _ => true) specs encs = encs.
Proof.
  revert encs. induction specs as [|[name v] specs IH]; intros [|enc encs]; cbn; try done.
  intros [= Hl]. by rewrite IH.
Qed.

Lemma reveal_other keep specs m name :
  name ∉ specs.*1 -> reveal keep specs m !! name = m !! name.
Proof.
  revert m. induction specs as [|[n v] specs IH]; intros m; [done|].
  cbn. rewrite not_elem_of_cons. intros [Hne Hn]. rewrite IH by done.
  case_match; [|done]. by rewrite lookup_insert_ne.
Qed.

Lemma reveal_lookup keep specs m name v :
  NoDup specs.*1 -> (name, v) ∈ specs ->
  reveal keep specs m !! name = if keep name then Some v else m !! name.
Proof.
  revert m. induction specs as [|[n u] specs IH]; intros m; cbn.
  - by intros _ ?%elem_of_nil.
  - intros [Hn Hd]%NoDup_cons [[= -> ->]|Hin]%elem_of_cons.
    + rewrite reveal_other by done. case_match; [|done]. by rewrite lookup_insert_eq.
    + rewrite IH by done. case_match; [done|]. case_match; [|done].
      rewrite lookup_insert_ne; [done|]. intros ->. apply Hn.
      by apply (list_elem_of_fmap_2' _ _ (name, v)).
Qed.

(** What a verifier learns from a credential of [d] issued at [now]. *)
Definition attested (keep : string -> bool) (cid : string) (d : Deposit) (validUntil : string)
    (now t : instant) : VerifiedClaims :=
  let shown name s := if keep name then s else "" in
  {| Verified_CredentialID := cid; Verified_DepositID := Deposit_ID d;
     Verified_PledgeDate := pledge_date d now; Verified_StatutoryBasis := "BGB § 551";
     Verified_IssuingBank := bank_name d;
     Verified_DepositAmount :=
       if keep "deposit_amount" then DepositData_Amount (Deposit_Deposit d) else f64_zero;
     Verified_Currency := shown "currency" (DepositData_Currency (Deposit_Deposit d));
     Verified_PropertyAddress := shown "property_address" (property_address d);
     Verified_TenantFirstName := shown "tenant_first_name" (Tenant_FirstName (Deposit_Tenant d));
     Verified_TenantLastName := shown "tenant_last_name" (Tenant_LastName (Deposit_Tenant d));
     Verified_PledgedUntil := shown "pledged_until" (pledged_until validUntil now);
     Verified_VerifiedAt := t |}.

Lemma sd_names d vu now : NoDup (sd_specs d vu now).*1.
Proof. cbn. repeat (apply NoDup_cons; split; [set_solver|]). apply NoDup_nil_2. Qed.

Lemma verified_attested ToLower issuerURL cid keep d vu ix now hashes t :
  verified (parsed (sd_claims ToLower issuerURL cid d vu ix now hashes))
    (reveal keep (sd_specs d vu now) ∅) t = attested keep cid d vu now t.
Proof.
  unfold verified, attested, disclosed_float, disclosed_string.
  repeat match goal with
  | |- context [reveal keep ?specs ∅ !! ?name] =>
      rewrite (reveal_lookup keep specs ∅ name _ (sd_names d vu now)
        ltac:(repeat (apply list_elem_of_here || apply list_elem_of_further)))
  end.
  rewrite !lookup_empty. cbn. f_equal; by destruct (keep _).
Qed.

(** The JSON text of a disclosure reads back as the disclosure. *)
Definition reads_back (spec : string * json) : Prop :=
  forall salt b, json_text (disclosure_array salt spec.1 spec.2) = Some b ->
    b <> [] /\ Forall is_byte b /\ json_any b = Some (disclosure_array salt spec.1 spec.2).

(** The texts of a claim are valid UTF-8, its number is a binary64. *)
Definition writable (spec : string * json) : Prop :=
  utf8_valid spec.1 = true /\ printable spec.2 /\ depth spec.2 = 0%nat.

Lemma writable_reads_back spec : writable spec -> reads_back spec.
Proof.
  intros (Hn & Hv & Hd) salt b Hb. split.
  - intros ->. apply text_starts in Hb as (c & l & ? & _); [done|].
    cbn. apply printable_same in Hv. naive_solver.
  - split; [by eapply json_text_bytes|]. apply printable_reads_back; [done| |].
    + cbn. split_and!; try done. apply ascii_valid, encode_ascii.
    + cbn. rewrite Hd. cbn. unfold max_depth. lia.
Qed.

Lemma writable_all specs : Forall writable specs -> Forall reads_back specs.
Proof. intros H. eapply Forall_impl; [exact H|]. apply writable_reads_back. Qed.

(** The texts of a payload that the verifier reads are valid UTF-8, which JSON
    would otherwise repair, and its expiry is an integer that a float64 has. *)
Definition signable (c : sdJWTClaims) : bool :=
  forallb utf8_valid
    (ID (sdJWT_Registered c) :: sdJWT_VCT c :: sdJWT_SDAlg c :: sdJWT_DepositID c ::
     sdJWT_PledgeDate c :: sdJWT_StatutoryBasis c :: sdJWT_IssuingBank c ::
     sdJWT_IssuingBankID c :: sdJWT_PropertyID c :: sdJWT_SD c) &&
  (0 <=? ExpiresAt (sdJWT_Registered c)) && (ExpiresAt (sdJWT_Registered c) <? 2 ^ 53).

Lemma signable_with_digests lower iss cid d vu ix now encs :
  signable (sd_claims lower iss cid d vu ix now []) = true ->
  signable (sd_claims lower iss cid d vu ix now (digest <$> encs)) = true.
Proof.
  unfold signable. cbn [sd_claims sdJWT_SD sdJWT_Registered ID ExpiresAt sdJWT_VCT sdJWT_SDAlg
    sdJWT_DepositID sdJWT_PledgeDate sdJWT_StatutoryBasis sdJWT_IssuingBank sdJWT_IssuingBankID
    sdJWT_PropertyID forallb].
  assert (forallb utf8_valid (digest <$> encs) = true) as ->; [|done].
  induction encs as [|enc encs IH]; [done|]. cbn. apply andb_true_iff. split; [|exact IH].
  apply ascii_valid, encode_ascii.
Qed.

Section Attestation.
Context {RS SS AS : Type} `{Repository RS} `{SessionStore SS} `{IndexAllocator AS}.
Implicit Types w : world RS SS AS.
Context (ToLower : string -> string) (sign : string -> string -> sdJWTClaims -> option string)
        (KeyID : string).
Context (ParseWithClaims : instant -> string -> issuerJWTClaims + string)
        (ParseUnverified : string -> (string * kbJWTClaims) + string)
        (decode_error : string -> string) (quote : string -> string).

Abbreviation check := (VerifyVpToken ParseWithClaims ParseUnverified decode_error quote).

(** A JWT has no tilde, and its issuer accepts it until it expires. *)
Definition trusts_own : Prop :=
  forall c tok, sign "vc+sd-jwt" KeyID c = Some tok -> signable c = true ->
    tok <> "" /\ GoStrings.free_of tilde tok = true /\
    forall t, t < ExpiresAt (sdJWT_Registered c) * second -> ParseWithClaims t tok = inl (parsed c).

(** A JWT is base64url and dots. *)
Definition tilde_free : Prop :=
  forall c tok, sign "vc+sd-jwt" KeyID c = Some tok -> GoStrings.free_of tilde tok = true.

(** [BuildSDJWT] reads the clock in its second event. *)
Lemma run_built issuerURL d vu ix envs w sdJWT cid w' :
  run (BuildSDJWT ToLower sign KeyID issuerURL d vu ix) envs w =
    (Some (inl (sdJWT, cid)), w') ->
  exists signed encs, sdJWT = presentation signed encs /\
    sign "vc+sd-jwt" KeyID (sd_claims ToLower issuerURL cid d vu ix (env_now (envs 1%nat) 0)
      (digest <$> encs)) = Some signed /\
    Forall2 (discloses) (sd_specs d vu (env_now (envs 1%nat) 0)) encs.
Proof.
  unfold BuildSDJWT. intros Hrun. cbn -[sd_specs sd_claims disclosures] in Hrun.
  set (now := env_now (envs 1%nat) 0) in *.
  match type of Hrun with run ?p ?es _ = _ =>
    pose proof (wp_run (fun _ => True) p
      (fun o _ => forall sdJWT cid, o = Some (inl (sdJWT, cid)) ->
         exists signed encs, sdJWT = presentation signed encs /\
           sign "vc+sd-jwt" KeyID (sd_claims ToLower issuerURL cid d vu ix now
             (digest <$> encs)) = Some signed /\
           Forall2 (discloses) (sd_specs d vu now) encs) w es) as Hwp
  end.
  rewrite Hrun in Hwp. apply Hwp; [|done|done]. apply wp_bind.
  eapply wp_mono; [apply wp_disclosures|].
  intros r w1 (-> & [[encs hashes]|] & -> & Ho); [|by intros ? ? [=]].
  destruct (Ho encs hashes eq_refl) as [Hf ->]. destruct (sign _ _ _) as [signed|] eqn:Hs.
  - intros ? ? [= <- <-]. by exists signed, encs.
  - by intros ? ? [=].
Qed.

Lemma plain_disclosures specs encs :
  Forall2 (discloses) specs encs -> Forall reads_back specs -> Forall plain encs.
Proof.
  induction 1 as [|spec enc specs encs (salt & b & Hb & ->) _ IH]; [done|].
  intros [Hr Hs]%Forall_cons. constructor; [|auto].
  destruct (Hr salt b Hb) as (Hne & _). by apply plain_encoded.
Qed.

Lemma open_selected keep specs encs sd m :
  Forall2 (discloses) specs encs -> Forall reads_back specs ->
  (forall enc, enc ∈ encs -> digest enc ∈ sd) ->
  open_disclosures decode_error quote sd m (select keep specs encs) =
    inl (reveal keep specs m).
Proof.
  intros Hf. revert m.
  induction Hf as [|[name v] enc specs encs (salt & b & Hb & ->) _ IH]; intros m; [done|].
  intros [Hr Hs]%Forall_cons Hsd. destruct (Hr salt b Hb) as (_ & Hbytes & Hany).
  cbn [select reveal]. destruct (keep name); cbn [open_disclosures].
  - unfold open_disclosure. rewrite bool_decide_eq_true_2 by (apply Hsd; left).
    cbn [negb]. rewrite decode_encode, Hany by done. cbn.
    apply IH; [done|]. intros enc Henc. apply Hsd. by right.
  - apply IH; [done|]. intros enc Henc. apply Hsd. by right.
Qed.

(** A selection of the disclosures of a signed credential is accepted. *)
Lemma presented_verifies issuerURL d vu ix now cid signed encs keep nonce uri envs w :
  trusts_own -> Forall writable (sd_specs d vu now) ->
  signable (sd_claims ToLower issuerURL cid d vu ix now []) = true ->
  sign "vc+sd-jwt" KeyID (sd_claims ToLower issuerURL cid d vu ix now (digest <$> encs)) =
    Some signed ->
  Forall2 (discloses) (sd_specs d vu now) encs ->
  (forall n, env_now (envs n) 0 < NumericDate (credential_expiry vu now) * second) ->
  exists t, run (check (presentation signed (select keep (sd_specs d vu now) encs)) nonce uri)
              envs w = (Some (inl (attested keep cid d vu now t)), w).
Proof.
  intros Htrust Hread%writable_all Hutf Hsign Hf Hexp.
  destruct (Htrust _ _ Hsign (signable_with_digests _ _ _ _ _ _ _ _ Hutf)) as (Hne & Hfree & Hparse).
  destruct (parts_of_presentation signed (select keep (sd_specs d vu now) encs) Hfree)
    as (parts & Htok & Hsort).
  { apply Forall_forall. intros x Hx%select_elem.
    pose proof (plain_disclosures _ _ Hf Hread) as Hp. by rewrite Forall_forall in Hp; apply Hp. }
  unfold VerifyVpToken. rewrite Htok, Hsort. apply String.eqb_neq in Hne. rewrite Hne.
  cbn -[sd_specs sd_claims presentation]. rewrite Hparse by apply Hexp.
  cbn -[sd_specs presentation]. unfold after. rewrite (proj2 (Z.ltb_ge _ _)) by apply Z.lt_le_incl, Hexp.
  rewrite open_selected by (done || apply list_elem_of_fmap_2).
  cbn -[sd_specs presentation]. eexists. by rewrite verified_attested.
Qed.

(** C12: what the server issues, the server accepts. Take a credential that BuildSDJWT made and
    the disclosures of any selection of its claims: until the credential expires, VerifyVpToken
    accepts the presentation and returns exactly the deposit's claims, those the holder withheld
    as zero values. Presenting all disclosures is presenting the token as it was issued. *)
Theorem issued_credential_verifies issuerURL d vu ix envs w sdJWT cid w' :
  let now := env_now (envs 1%nat) 0 in
  trusts_own -> Forall writable (sd_specs d vu now) ->
  signable (sd_claims ToLower issuerURL cid d vu ix now []) = true ->
  run (BuildSDJWT ToLower sign KeyID issuerURL d vu ix) envs w =
    (Some (inl (sdJWT, cid)), w') ->
  exists signed encs,
    sdJWT = presentation signed (select (fun _ => true) (sd_specs d vu now) encs) /\
    forall keep nonce uri envs' w1,
      (forall n, env_now (envs' n) 0 < NumericDate (credential_expiry vu now) * second) ->
      exists t, run (check (presentation signed (select keep (sd_specs d vu now) encs)) nonce uri)
                  envs' w1 = (Some (inl (attested keep cid d vu now t)), w1).
Proof.
  intros now Htrust Hw Hutf (signed & encs & -> & Hsign & Hf)%run_built. fold now in Hsign, Hf.
  exists signed, encs. rewrite select_all by (by eapply Forall2_length). split; [done|].
  intros keep nonce uri envs' w1 Hexp. by eapply presented_verifies.
Qed.

(** ** What acceptance implies *)

(** The key binding JWT is for this request: its type, nonce, audience, the
    digest of what is presented, and an age of at most five minutes. *)
Definition bound_to (time : instant -> Prop) (kb jwt : string) (ds : list string)
    (nonce uri : string) : Prop :=
  exists claims iat t, ParseUnverified kb = inl ("kb+jwt", claims) /\
    kbJWT_Nonce claims = nonce /\ head (kbJWT_Audience claims) = Some uri /\
    kbJWT_SDHash claims = computeSDHash jwt ds /\
    kbJWT_IssuedAt claims = Some iat /\ time t /\ t - iat <= 5 * minute.

(** [time] holds of the clock's readings. *)
Definition accepted (time : instant -> Prop) (tok nonce uri : string) (vc : VerifiedClaims) :
    Prop :=
  exists jwt parts kb ds t0 claims disclosed t,
    token_parts tok = (jwt, parts) /\ sort_parts "" [] parts = (kb, ds) /\
    time t0 /\ ParseWithClaims t0 jwt = inl claims /\
    issuerJWT_VCT claims = "DepositPledgeAttestation" /\
    (forall exp, issuerJWT_ExpiresAt claims = Some exp -> exists now, time now /\ now <= exp) /\
    open_disclosures decode_error quote (issuerJWT_SD claims) ∅ ds =
      inl disclosed /\
    (kb <> "" -> bound_to time kb jwt ds nonce uri) /\
    time t /\ vc = verified claims disclosed t.

Definition clock (time : instant -> Prop) (e : env) : Prop := time (env_now e 0).

Lemma wp_clock {R} time (k : instant -> prog R) Q w :
  (forall t, time t -> wp (clock time) (k t) Q w) -> wp (clock time) (emit Now ≫= k) Q w.
Proof. intros Hk e He. by apply Hk. Qed.

Lemma wp_key_binding time kb jwt ds nonce uri w :
  wp (clock time)
    (check_key_binding ParseUnverified quote kb jwt ds nonce uri)
    (fun o w' => w' = w /\ (o = Some None -> kb <> "" -> bound_to time kb jwt ds nonce uri)) w.
Proof.
  unfold check_key_binding. destruct (String.eqb_spec kb ""); [by split|].
  destruct (ParseUnverified kb) as [[typ claims]|x] eqn:Hp; [|by split].
  destruct (String.eqb_spec typ "kb+jwt") as [->|]; [|by split].
  destruct (String.eqb_spec (kbJWT_Nonce claims) nonce); [|by split].
  destruct (kbJWT_Audience claims) as [|aud l] eqn:Ha; [by split|].
  destruct (String.eqb_spec aud uri); [|by split].
  destruct (String.eqb_spec (kbJWT_SDHash claims) (computeSDHash jwt ds)); [|by split].
  cbn [negb]. destruct (kbJWT_IssuedAt claims) as [iat|] eqn:Hi; [|by split].
  apply wp_clock. intros t Ht. destruct (Z.ltb_spec (5 * minute) (t - iat)); [by split|].
  split; [done|]. intros _ _. exists claims, iat, t. rewrite Ha.
  split_and!; try done. by subst.
Qed.

Lemma wp_expired time exp w :
  wp (clock time) (has_expired exp)
    (fun o w' => w' = w /\ exists b, o = Some b /\
       (b = false -> forall t, exp = Some t -> exists now, time now /\ now <= t)) w.
Proof.
  destruct exp as [t|]; cbn.
  - intros e He. split; [done|]. eexists. split; [done|]. intros Hb t' [= <-].
    exists (env_now e 0). split; [done|]. by apply Z.ltb_ge.
  - split; [done|]. eexists. by split.
Qed.

Lemma wp_check time tok nonce uri w :
  wp (clock time) (check tok nonce uri)
    (fun o w' => w' = w /\ forall vc, o = Some (inl vc) -> accepted time tok nonce uri vc) w.
Proof.
  unfold VerifyVpToken. destruct (token_parts tok) as [jwt parts] eqn:Ht.
  destruct (String.eqb jwt ""); [by split|].
  destruct (sort_parts "" [] parts) as [kb ds] eqn:Hs. apply wp_clock. intros t0 Ht0.
  destruct (ParseWithClaims t0 jwt) as [claims|x] eqn:Hp; [|by split].
  destruct (String.eqb_spec (issuerJWT_VCT claims) "DepositPledgeAttestation"); [|by split].
  cbn [negb]. apply wp_bind. eapply wp_mono; [apply wp_expired|].
  intros o w' (-> & b & -> & Hexp). destruct b; [by split|].
  destruct (open_disclosures _ _ _ _ _) as [disclosed|x] eqn:Ho; [|by split].
  apply wp_bind. eapply wp_mono; [apply (wp_key_binding time)|].
  intros [[x|]|] w' [-> Hb]; [by split| |by split].
  apply wp_clock. intros t Htime. split; [done|]. intros vc [= <-].
  exists jwt, parts, kb, ds, t0, claims, disclosed, t. split_and!; auto.
Qed.

Lemma run_check tok nonce uri envs w vc w' :
  run (check tok nonce uri) envs w = (Some (inl vc), w') ->
  w' = w /\ accepted (fun t => exists n, t = env_now (envs n) 0) tok nonce uri vc.
Proof.
  intros Hrun. pose proof (wp_run (clock (fun t => exists n, t = env_now (envs n) 0)) _ _ w envs
    (wp_check _ tok nonce uri w) ltac:(by eexists)) as Hwp.
  rewrite Hrun in Hwp. cbn [fst snd] in Hwp. destruct Hwp as [-> Hwp]. split; [done|]. by apply Hwp.
Qed.

Lemma open_disclosures_sound sd m ds m' :
  open_disclosures decode_error quote sd m ds = inl m' ->
  Forall (fun enc => digest enc ∈ sd) ds /\
  forall name v, m' !! name = Some v -> m !! name = Some v \/
    exists enc raw salt, enc ∈ ds /\ DecodeString enc = Some raw /\
      json_any raw = Some (JArr [salt; JStr name; v]).
Proof.
  revert m. induction ds as [|enc ds IH]; intros m; cbn; [intros [= ->]; auto|].
  destruct (open_disclosure _ _ _ _) as [[n v]|] eqn:Ho; [|done].
  intros [Hd Hm]%IH. unfold open_disclosure in Ho.
  destruct (bool_decide_reflect (digest enc ∈ sd)); [|done].
  split; [by constructor|]. intros name u Hu.
  destruct (Hm name u Hu) as [Hin|(enc' & raw & salt & ? & ?)].
  - apply lookup_insert_Some in Hin as [[-> ->]|[_ Hin]]; [right|by left].
    cbn in Ho. repeat case_match; simplify_eq. eexists enc, _, _. split; [by left|done].
  - right. exists enc', raw, salt. split; [by right|done].
Qed.

(** A presentation's claim: the deposit's value, or withheld. *)
Definition shown_or {A} (zero x y : A) : Prop := y = zero \/ y = x.

Definition genuine (cid : string) (d : Deposit) (vu : string) (now : instant)
    (vc : VerifiedClaims) : Prop :=
  let data := Deposit_Deposit d in
  Verified_CredentialID vc = cid /\ Verified_DepositID vc = Deposit_ID d /\
  Verified_PledgeDate vc = pledge_date d now /\ Verified_IssuingBank vc = bank_name d /\
  shown_or f64_zero (DepositData_Amount data) (Verified_DepositAmount vc) /\
  shown_or "" (DepositData_Currency data) (Verified_Currency vc) /\
  shown_or "" (property_address d) (Verified_PropertyAddress vc) /\
  shown_or "" (Tenant_FirstName (Deposit_Tenant d)) (Verified_TenantFirstName vc) /\
  shown_or "" (Tenant_LastName (Deposit_Tenant d)) (Verified_TenantLastName vc) /\
  shown_or "" (pledged_until vu now) (Verified_PledgedUntil vc).

(** Two texts with the same SHA-256. *)
Definition collision : Prop :=
  exists x y, x <> y /\
    Sum256 (GoStrings.bytes_of x) = Sum256 (GoStrings.bytes_of y).

(** What a JWT of this issuer parses to are the claims it signed. *)
Definition reads_signed : Prop :=
  forall c tok t c', sign "vc+sd-jwt" KeyID c = Some tok -> signable c = true ->
    ParseWithClaims t tok = inl c' -> c' = parsed c.

Lemma same_digest enc (encs : list string) :
  digest enc ∈ digest <$> encs -> enc ∈ encs \/ collision.
Proof.
  intros (enc' & He & Hin)%list_elem_of_fmap.
  destruct (decide (enc = enc')) as [->|Hne]; [by left|right].
  exists enc, enc'. split; [done|]. apply (f_equal DecodeString) in He. unfold digest in He.
  rewrite !decode_encode in He by apply Sum256_bytes. by simplify_eq.
Qed.

Lemma digests_known ds (encs : list string) :
  Forall (fun enc => digest enc ∈ digest <$> encs) ds ->
  Forall (fun enc => enc ∈ encs) ds \/ collision.
Proof.
  induction 1 as [|enc ds Hd _ IH]; [by left|].
  destruct IH as [IH|]; [|by right]. destruct (same_digest enc encs Hd); [|by right].
  left. by constructor.
Qed.

(** What an issued disclosure opens is one of the claims. *)
Lemma opened_spec specs encs enc raw salt name v :
  Forall2 (discloses) specs encs -> Forall reads_back specs -> enc ∈ encs ->
  DecodeString enc = Some raw -> json_any raw = Some (JArr [salt; JStr name; v]) ->
  (name, v) ∈ specs.
Proof.
  induction 1 as [|[n u] enc' specs encs (salt' & b & Hb & ->) _ IH];
    [by intros _ ?%elem_of_nil|].
  intros [Hr Hs]%Forall_cons [->|Hin]%elem_of_cons; [|intros; right; by apply IH].
  destruct (Hr salt' b Hb) as (_ & Hbytes & Hany). rewrite decode_encode by done.
  intros [= <-]. rewrite Hany. intros [= _ -> ->]. left.
Qed.

Lemma shown_string m (specs : list (string * json)) name s :
  (forall n v, m !! n = Some v -> (n, v) ∈ specs) ->
  (forall v, (name, v) ∈ specs -> v = JStr s) -> shown_or "" s (disclosed_string m name).
Proof.
  intros Hm Hs. unfold disclosed_string. destruct (m !! name) as [v|] eqn:Hv; [|by left].
  rewrite (Hs v (Hm _ _ Hv)). by right.
Qed.

Lemma shown_float m (specs : list (string * json)) name x :
  (forall n v, m !! n = Some v -> (n, v) ∈ specs) ->
  (forall v, (name, v) ∈ specs -> v = JFloat x) -> shown_or f64_zero x (disclosed_float m name).
Proof.
  intros Hm Hs. unfold disclosed_float. destruct (m !! name) as [v|] eqn:Hv; [|by left].
  rewrite (Hs v (Hm _ _ Hv)). by right.
Qed.


(** C37: a presentation with a key binding is bound to the request: when VerifyVpToken accepts a
    token with a dotted part, that part's type is kb+jwt, its nonce and its first audience are
    those of the request, its sd_hash is the digest of the issuer's JWT and the presented
    disclosures, and it was issued at most five minutes before a reading of the clock. *)
Theorem key_binding_is_for_the_request tok nonce uri envs w vc w' jwt parts kb ds :
  token_parts tok = (jwt, parts) -> sort_parts "" [] parts = (kb, ds) -> kb <> "" ->
  run (check tok nonce uri) envs w = (Some (inl vc), w') ->
  bound_to (fun t => exists n, t = env_now (envs n) 0) kb jwt ds nonce uri.
Proof.
  intros Ht Hs Hkb [_ Hacc]%run_check.
  destruct Hacc as (? & ? & ? & ? & ? & ? & ? & ? & Ht' & Hs' & _ & _ & _ & _ & _ & Hb & _).
  rewrite Ht in Ht'. injection Ht' as <- <-. rewrite Hs in Hs'. injection Hs' as <- <-.
  by apply Hb.
Qed.

(** Without a key binding JWT the nonce and the response URI play no part in the check. *)
Theorem unbound_presentation_fits_every_request tok nonce uri nonce' uri' :
  (sort_parts "" [] (token_parts tok).2).1 = "" -> check tok nonce uri = check tok nonce' uri'.
Proof.
  unfold VerifyVpToken. destruct (token_parts tok) as [jwt parts]. cbn [snd].
  destruct (sort_parts "" [] parts) as [kb ds]. by intros [= ->].
Qed.
End Attestation.

(** ** The verifier's handlers *)

Section Handlers.
Context {RS SS AS : Type} `{RepositoryLaws RS} `{SessionStore SS} `{IndexAllocator AS}.
Implicit Types w : world RS SS AS.

(** A presentation was accepted for an open session and written into the
    pledged deposit; the session is gone. *)
Definition recorded (g : config) (time : instant -> Prop) (id : string) (r : vpResponseRequest)
    w (resp : response) w' : Prop :=
  exists x key d vc now t t',
    w_vp w !! vpReq_State r = Some x /\ time t /\ t <= VpSession_ExpiresAt x /\
    repo_key id = Some key /\ deposits w !! key = Some d /\ lifecycle d = StatePledged /\
    accepted (cfg_ParseWithClaims g) (cfg_ParseUnverified g)
      (cfg_decode_error g) (cfg_quote g) time (vpReq_VpToken r)
      (VpSession_Nonce x) (VpSession_ResponseURI x) vc /\
    Verified_DepositID vc = id /\ body resp = PVerified vc /\
    deposits w' = <[key := stored (advance StatePledged (entry StatePledged "WALLET" "") t'
        (set_Tenant (set_WalletMetadata (Some (wallet_metadata vc now)) (Deposit_Tenant d)) d))]>
      (deposits w) /\
    w_vp w' = delete (VpSession_ID x) (w_vp w).

Lemma receive_records g time id r w :
  wp (clock time) (handle g (CallReceiveVpResponse id r))
    (fun o w' => forall resp, o = Some resp -> status resp = StatusOK ->
       recorded g time id (value r) w resp w') w.
Proof.
  cbn [handle]. unfold ReceiveVpResponse, decode.
  destruct (decode_failed r); [by intros resp [= <-]|].
  destruct (String.eqb _ ""); [by intros resp [= <-]|].
  destruct (String.eqb _ ""); [by intros resp [= <-]|].
  apply wp_vp_get. intros [x|] Hx; [|by intros resp [= <-]].
  apply wp_clock. intros t Ht. destruct (after t _) eqn:Ha; [by intros resp [= <-]|].
  apply wp_fetch; [by intros s msg code Hs resp [= <-] E; cbn in E; unfold StatusOK in E; lia|].
  intros key d Hk Hd. destruct (negb _) eqn:E; [by intros resp [= <-]|].
  apply negb_false_iff, String.eqb_eq in E. apply wp_bind.
  eapply wp_mono; [apply wp_check|].
  intros o w1 [-> Hacc]. destruct o as [[vc|err]|]; [|by intros resp [= <-]|done].
  specialize (Hacc vc eq_refl).
  destruct (String.eqb_spec (Verified_DepositID vc) id) as [Hid|]; [|by intros resp [= <-]].
  cbn [negb]. apply wp_now. intros now. apply wp_update.
  - by intros w' _ resp [= <-].
  - by intros key' d' _ _ ?.
  - intros key' d0 d1 t' w' Hk' Hv' [= <-] Hw' -> _. rewrite Hk in Hk'. injection Hk' as <-.
    unfold deposits in Hd. rewrite Hd in Hv'. injection Hv' as <-.
    apply wp_vp_delete. apply wp_webhook_world. intros l resp [= <-] _.
    rewrite E in Hw'. exists x, key, d, vc, now, t, t'. unfold deposits.
    split_and!; try done.
    + by apply Z.ltb_ge.
Qed.

(** C13: when ReceiveVpResponse answers 200, the request named an open session that had not
    expired, the deposit was PLEDGED, the token passed VerifyVpToken with that session's nonce
    and response URI, and the credential is for this deposit; the deposit's wallet metadata and
    a history entry by WALLET were written and nothing else of any deposit, and the session is
    gone. *)
Theorem presentation_recorded g id r envs w resp w' :
  run (handle g (CallReceiveVpResponse id r)) envs w = (Some resp, w') ->
  status resp = StatusOK ->
  recorded g (fun t => exists n, t = env_now (envs n) 0) id (value r) w resp w'.
Proof.
  intros Hrun Hs.
  pose proof (wp_run (clock (fun t => exists n, t = env_now (envs n) 0)) _ _ w envs
    (receive_records g _ id r w) ltac:(by eexists)) as Hwp.
  rewrite Hrun in Hwp. by apply Hwp.
Qed.
End Handlers.
