(* ===== verification/Wallet.v ===== *)
(** * A pledge attested and presented, end to end

    The parties' side of the issuance flow and of a presentation, as a client
    whose calls depend on the replies: the bank offers a credential, the wallet
    fetches the offer, exchanges the code, collects the credential, and
    presents it to the landlord's request.  While the database answers and
    nobody interferes, every call succeeds, and what the landlord learns is the
    deposit.

    Here all components meet: the handlers, the repository, a session store, the
    allocator, the credential with its disclosures, and its verifier. *)

From Stdlib Require Import Floats.SpecFloat.
From S2P Require Import Prelude Float64 Calendar Models Json JsonModels Runtime Repository Sessions Base64.
From S2P Require Import SessionLaws SessionFlow Utf8 JsonText Unmarshal StatusList Server Credential VpSessions.
From S2P Require Import Presentation Handlers IssuerHandlers VerifierHandlers Logic Api Effects.
From S2P Require Import Lifecycle Liveness Issuance Verification.

Local Open Scope Z_scope.

(** ** Clients *)

Inductive client :=
| Done
| Ask (c : api_call) (k : option response -> client).

Section Conversation.
Context {RS SS AS : Type} `{Repository RS} `{SessionStore SS} `{IndexAllocator AS}.
Implicit Types w : world RS SS AS.

(** Each call has its own environments. *)
Fixpoint converse (g : config) (cl : client) (envss : list (nat -> env)) w :
    list (option response) * world RS SS AS :=
  match cl, envss with
  | Ask c k, envs :: envss =>
      let '(r, w) := run (handle g c) envs w in
      let '(rs, w) := converse g (k r) envss w in (r :: rs, w)
  | _, _ => ([], w)
  end.

(** Every call of the conversation is run in environments that satisfy [ok] of
    the world it meets. *)
Fixpoint throughout (ok : world RS SS AS -> env -> Prop) (g : config) (cl : client)
    (envss : list (nat -> env)) w : Prop :=
  match cl, envss with
  | Done, _ => True
  | Ask _ _, [] => False
  | Ask c k, envs :: envss =>
      (forall n, ok w (envs n)) /\
      throughout ok g (k (run (handle g c) envs w).1) envss (run (handle g c) envs w).2
  end.

Lemma converse_ask ok g c k envss w (Q : option response -> world RS SS AS -> Prop) :
  throughout ok g (Ask c k) envss w -> wp (ok w) (handle g c) Q w ->
  exists r w' envss', Q r w' /\ throughout ok g (k r) envss' w' /\
    converse g (Ask c k) envss w =
      (r :: (converse g (k r) envss' w').1, (converse g (k r) envss' w').2).
Proof.
  destruct envss as [|envs envss]; [done|]. cbn [throughout converse].
  intros [Hok Hrest] Hwp. pose proof (wp_run _ _ _ w envs Hwp Hok) as HQ.
  destruct (run (handle g c) envs w) as [r w'] eqn:E. cbn [fst snd] in *.
  exists r, w', envss. split; [done|]. split; [done|]. by destruct (converse _ _ _ _).
Qed.

(** A run that ends well in all environments is a proof about the program. *)
Lemma run_wp {R} (ok : env -> Prop) (p : prog R) Q w e0 :
  ok e0 -> (forall envs, (forall n, ok (envs n)) -> Q (run p envs w).1 (run p envs w).2) ->
  wp ok p Q w.
Proof.
  intros He0. revert w. induction p as [r| |X ev k IH]; intros w HQ; cbn.
  - by apply (HQ (fun _ => e0)).
  - by apply (HQ (fun _ => e0)).
  - intros e He. destruct (exec ev e w) as [x w'] eqn:E. apply IH. intros envs Henvs.
    specialize (HQ (fun n => match n with O => e | S n => envs n end)). cbn in HQ.
    rewrite E in HQ. apply HQ. by intros [|n].
Qed.
End Conversation.

(** ** The flow *)

Definition bearer (token : string) : string := "Bearer " +:+ token.
Definition attestation_request : decoded credentialRequest :=
  sent {| credReq_Format := "vc+sd-jwt"; credReq_VCT := "DepositPledgeAttestation";
          credReq_Proof := None |}.

(** Goes on with the body of a reply. *)
Definition reply {A} (r : option response) (f : payload -> option A) (k : A -> client) : client :=
  match r with
  | Some r => match f (body r) with Some a => k a | None => Done end
  | None => Done
  end.
Definition issue_of (p : payload) := match p with PIssue r => Some r | _ => None end.
Definition offer_of (p : payload) := match p with POffer r => Some r | _ => None end.
Definition token_of (p : payload) := match p with PToken r => Some r | _ => None end.
Definition credential_of (p : payload) := match p with PCredential s => Some s | _ => None end.
Definition request_of (p : payload) := match p with PVpRequest r => Some r | _ => None end.

Definition flow (id validUntil : string) : client :=
  Ask (CallIssueCredential id (sent {| issueReq_ValidUntil := validUntil |})) (fun r =>
  reply r issue_of (fun issue =>
  Ask (CallGetCredentialOffer (issue_SessionID issue)) (fun r =>
  reply r offer_of (fun offer =>
  Ask (CallToken {| form_failed := false; form_grant_type := pre_authorized_grant;
                    form_pre_authorized_code := offer_PreAuthorizedCode offer |}) (fun r =>
  reply r token_of (fun token =>
  Ask (CallCredential (bearer (token_AccessToken token)) attestation_request) (fun r =>
  reply r credential_of (fun sdJWT =>
  Ask (CallCreateVpRequest id) (fun r =>
  reply r request_of (fun request =>
  Ask (CallReceiveVpResponse id (sent {| vpReq_VpToken := sdJWT;
                                         vpReq_State := vpResp_SessionID request |}))
    (fun _ => Done))))))))))).

(** ** What the flow needs *)

Definition ascii (s : string) : Prop := Forall (fun b => 0 < b < 128) (GoStrings.bytes_of s).
Lemma ascii_app a b : ascii a -> ascii b -> ascii (a +:+ b).
Proof. unfold ascii. rewrite GoStrings.bytes_of_app. apply Forall_app_2. Qed.
Definition credential_urn (u : string) : string := "urn:xmiete:credential:" +:+ u.

Section Flow.
Context {RS SS AS : Type} `{RepositoryLaws RS} `{SessionFlow SS} `{IndexAllocatorLaws AS}.
Implicit Types w : world RS SS AS.
Context (g : config) (id validUntil : string) (d : Deposit) (T0 T1 : instant).

Definition within (t : instant) : Prop := T0 <= t <= T1.

(** The database answers, the clock shows an instant of the flow, random bytes
    can be read, and identifiers are new. *)
Record good w (e : env) : Prop := {
  good_faults : no_faults e;
  good_clock n : within (env_now e n);
  good_rand : is_Some (env_rand e 0);
  good_ascii : ascii (env_uuid e 0);
  good_new : env_uuid e 0 <> "" /\ env_uuid e 1 <> "";
  good_key : sess_key (env_uuid e 0) = Some (env_uuid e 0);
  good_id : sess_view (w_sessions w) !! env_uuid e 0 = None;
  good_code : unused Session_PreAuthorizedCode (env_uuid e 1) (sess_view (w_sessions w));
  good_token : unused Session_AccessToken (env_uuid e 0) (sess_view (w_sessions w));
  good_credential :
    unused Session_CredentialID (credential_urn (env_uuid e 0)) (sess_view (w_sessions w)) }.

(** A pledged deposit under its own identifier, its texts in UTF-8, its amount
    finite; an issuer that signs and trusts what it signed; ten minutes, in
    which the credential does not expire. *)
Record attestable : Prop := {
  at_repo : repo_key id = Some id;
  at_sessions : sess_key id = Some id;
  at_id : Deposit_ID d = id;
  at_state : lifecycle d = StatePledged;
  at_storable : storable d;
  at_window : T1 <= T0 + 10 * minute;
  at_years t : within t -> year_ok t;
  at_sign c : signable c = true -> is_Some (cfg_sign g "vc+sd-jwt" (cfg_KeyID g) c);
  at_trust : trusts_own (cfg_sign g) (cfg_KeyID g) (cfg_ParseWithClaims g);
  at_claims u t ix : ascii u -> within t ->
    signable (sd_claims (cfg_ToLower g) (cfg_issuerURL g) (credential_urn u) d validUntil ix t [])
      = true;
  at_specs t : within t -> Forall writable (sd_specs d validUntil t);
  at_amount : f64_finite (DepositData_Amount (Deposit_Deposit d)) = true;
  at_expiry t : within t -> T1 < NumericDate (credential_expiry validUntil t) * second }.

Context (Hat : attestable).

Lemma good_calm w e : good w e -> calm e.
Proof. intros He. split; [apply (good_faults _ _ He)|]. apply (at_years Hat), (good_clock _ _ He). Qed.

(** An issuance session of the flow, usable throughout. *)
Definition waiting w (x : Session) : Prop :=
  sess_inv (w_sessions w) /\ Session_DepositID x = id /\ Session_State x = SessionStatePending /\
  Session_ValidUntil x = validUntil /\ T1 <= Session_ExpiresAt x.

Lemma waiting_usable w0 w x e n :
  good w0 e -> waiting w x ->
  after (env_now e n) (Session_ExpiresAt x) = false /\ unusable (env_now e n) x = false.
Proof.
  intros He (_ & _ & Hs & _ & Ht). pose proof (good_clock _ _ He n) as [_ Hn].
  assert (after (env_now e n) (Session_ExpiresAt x) = false) as Ha by (apply Z.ltb_ge; lia).
  split; [done|]. unfold unusable. by rewrite Hs, Ha.
Qed.

Lemma issue_step w :
  deposits w !! id = Some d -> sess_inv (w_sessions w) -> 0 <= next_index (w_alloc w) < 2 ^ 63 - 1 ->
  wp (good w) (handle g (CallIssueCredential id (sent {| issueReq_ValidUntil := validUntil |})))
    (fun r w' => exists x i, r = Some {| status := StatusCreated; body := PIssue i |} /\
       issue_SessionID i = Session_ID x /\ Session_PreAuthorizedCode x <> "" /\
       waiting w' x /\ by_code (w_sessions w') x /\ w_repo w' = w_repo w) w.
Proof.
  intros Hd Hi Hix. cbn [handle]. unfold IssueCredential.
  eapply (wp_fetch_calm _ (good_calm w)); [apply (at_repo Hat)|done|].
  rewrite (at_state Hat). cbn [String.eqb negb]. intros e He. cbn [exec].
  pose proof (alloc_works e (w_alloc w) (good_faults _ _ He) Hix) as Ha.
  destruct (AllocateIndex e (w_alloc w)) as [[ix|y|] a]; try done. cbn.
  intros e' He'. cbn.
  destruct (flow_create e' id validUntil ix (w_sessions w) id Hi (good_faults _ _ He') (at_sessions Hat)
    (good_key _ _ He') (good_id _ _ He') (good_code _ _ He')) as (r & x & s' & -> & Hr & Hi' & Hx & Ho).
  cbn. destruct Ho as ((Hdep & Hst & Hvu & _) & Hid & Hcode & Hexp).
  exists x. eexists. split; [reflexivity|]. cbn. split; [congruence|].
  split; [rewrite Hcode; apply (good_new _ _ He')|]. split; [|by split].
  split_and!; try done. pose proof (good_clock _ _ He' 1) as [Ht _]. pose proof (at_window Hat).
  unfold minute, second in *. lia.
Qed.

Lemma offer_step w x :
  waiting w x -> by_code (w_sessions w) x ->
  wp (good w) (handle g (CallGetCredentialOffer (Session_ID x)))
    (fun r w' => exists o, r = Some {| status := StatusOK; body := POffer o |} /\
       offer_PreAuthorizedCode o = Session_PreAuthorizedCode x /\ w' = w) w.
Proof.
  intros Hx Hc. cbn [handle]. unfold GetCredentialOffer. intros e He. cbn [exec].
  rewrite (flow_by_id _ _ _ (good_faults _ _ He) Hc). intros e' He'. cbn -[after].
  rewrite (proj1 (waiting_usable w w x e' 0 He' Hx)). by eexists.
Qed.

Lemma token_step w x :
  waiting w x -> by_code (w_sessions w) x -> Session_PreAuthorizedCode x <> "" ->
  wp (good w) (handle g (CallToken {| form_failed := false; form_grant_type := pre_authorized_grant;
                                      form_pre_authorized_code := Session_PreAuthorizedCode x |}))
    (fun r w' => exists y t, r = Some {| status := StatusOK; body := PToken t |} /\
       token_AccessToken t = Session_AccessToken y /\ waiting w' y /\
       by_token (w_sessions w') y /\ w_repo w' = w_repo w) w.
Proof.
  intros Hx Hc Hne%String.eqb_neq. cbn [handle]. unfold Token. cbn [form_failed form_grant_type form_pre_authorized_code].
  rewrite String.eqb_refl, Hne. cbn [negb]. intros e He. cbn [exec].
  destruct (flow_exchange e (w_sessions w) x (proj1 Hx) (good_faults _ _ He) Hc
    (proj2 (waiting_usable w w x e 0 He Hx)) (good_token _ _ He)) as (s' & -> & Hi' & Ht).
  cbn. exists (set_Token (env_uuid e 0) (env_uuid e 1) x). eexists. split; [reflexivity|].
  destruct Hx as (_ & ? & ? & ? & ?). destruct x. by split_and!.
Qed.

Lemma request_step w :
  deposits w !! id = Some d ->
  wp (good w) (handle g (CallCreateVpRequest id))
    (fun r w' => exists q x, r = Some {| status := StatusCreated; body := PVpRequest q |} /\
       vpResp_SessionID q = VpSession_ID x /\ VpSession_ID x <> "" /\
       w_vp w' !! VpSession_ID x = Some x /\ T1 <= VpSession_ExpiresAt x /\
       w_repo w' = w_repo w /\ w_sessions w' = w_sessions w) w.
Proof.
  intros Hd. cbn [handle]. unfold CreateVpRequest.
  eapply (wp_fetch_calm _ (good_calm w)); [apply (at_repo Hat)|done|]. intros e He. cbn -[minute].
  eexists. exists (VpStore.new_session e id (cfg_issuerURL g +:+ "/v1/deposits/" +:+ id +:+ "/vp-response")).
  split; [reflexivity|]. split; [done|]. split; [apply (good_new _ _ He)|].
  split; [apply lookup_insert_eq|]. split; [|done].
  cbn -[minute]. pose proof (good_clock _ _ He 1) as [Ht _]. pose proof (at_window Hat). unfold add. lia.
Qed.

(** *** The credential *)

Lemma array_text salt name v :
  is_Some (json_text v) -> is_Some (json_text (disclosure_array salt name v)).
Proof. intros Hv. apply array_has_text. do 2 (apply Forall_cons; split; [by eexists|]). by apply Forall_singleton. Qed.

Lemma claim_text spec salt now :
  spec ∈ sd_specs d validUntil now -> is_Some (json_text (disclosure_array salt spec.1 spec.2)).
Proof.
  pose proof (at_amount Hat) as Hx. intros Hs. unfold sd_specs in Hs.
  rewrite !elem_of_cons, elem_of_nil in Hs.
  destruct Hs as [->|[->|[->|[->|[->|[->|[]]]]]]]; apply array_text;
    [|by eexists..]. unfold json_text. cbn [snd]. rewrite Hx. by eexists.
Qed.

Lemma disclosures_work (ok : env -> Prop) specs w :
  (forall e, ok e -> is_Some (env_rand e 0)) ->
  (forall spec salt, spec ∈ specs -> is_Some (json_text (disclosure_array salt spec.1 spec.2))) ->
  wp ok (disclosures specs)
    (fun r w' => w' = w /\ exists encs, r = Some (inl (encs, digest <$> encs)) /\
       Forall2 discloses specs encs) w.
Proof.
  intros Hr. induction specs as [|[name v] specs IH]; intros Hs.
  - split; [done|]. by exists [].
  - cbn [disclosures]. apply wp_bind. intros e He. cbn.
    destruct (Hr e He) as [salt ->]. destruct (Hs (name, v) salt ltac:(by left)) as [b Hb].
    cbn [fst snd] in Hb. rewrite Hb. apply wp_bind.
    eapply wp_mono; [apply IH; intros spec salt' Hin; apply Hs; by right|].
    intros r w' (-> & encs & -> & Hf). split; [done|]. exists (EncodeToString b :: encs).
    split; [done|]. constructor; [|done]. by exists salt, b.
Qed.

(** The credential [sdJWT] was issued in the flow, and presents everything. *)
Definition issued (cid sdJWT : string) (now : instant) : Prop :=
  exists u ix signed encs, cid = credential_urn u /\ ascii u /\ within now /\
    sdJWT = presentation signed encs /\
    cfg_sign g "vc+sd-jwt" (cfg_KeyID g) (sd_claims (cfg_ToLower g) (cfg_issuerURL g) cid d
      validUntil ix now (digest <$> encs)) = Some signed /\
    Forall2 discloses (sd_specs d validUntil now) encs.

Lemma build_step w0 ix w :
  wp (good w0) (BuildSDJWT (cfg_ToLower g) (cfg_sign g) (cfg_KeyID g) (cfg_issuerURL g) d validUntil ix)
    (fun r w' => w' = w /\ exists e sdJWT now, good w0 e /\
       r = Some (inl (sdJWT, credential_urn (env_uuid e 0))) /\
       issued (credential_urn (env_uuid e 0)) sdJWT now) w.
Proof.
  unfold BuildSDJWT. intros e He. cbn -[sd_specs sd_claims disclosures]. intros e' He'.
  pose proof (good_clock _ _ He' 0) as Hnow. cbn -[sd_specs sd_claims disclosures].
  set (now := env_now e' 0) in *. apply wp_bind.
  eapply wp_mono; [apply (disclosures_work (good w0)); [apply good_rand|intros; by eapply claim_text]|].
  intros r w' (-> & encs & -> & Hf).
  destruct (at_sign Hat (sd_claims (cfg_ToLower g) (cfg_issuerURL g) (credential_urn (env_uuid e 0)) d
    validUntil ix now (digest <$> encs))) as [signed Hs].
  { apply signable_with_digests, (at_claims Hat); [apply (good_ascii _ _ He)|done]. }
  unfold credential_urn in Hs |- *. rewrite Hs. split; [done|].
  exists e, (presentation signed encs), now. split; [done|]. split; [done|].
  exists (env_uuid e 0), ix, signed, encs. split_and!; try done; [apply (good_ascii _ _ He)|apply Hnow..].
Qed.

Lemma credential_step w y :
  waiting w y -> by_token (w_sessions w) y -> deposits w !! id = Some d ->
  wp (good w) (handle g (CallCredential (bearer (Session_AccessToken y)) attestation_request))
    (fun r w' => exists cid sdJWT now, r = Some {| status := StatusOK; body := PCredential sdJWT |} /\
       issued cid sdJWT now /\ w_repo w' = w_repo w /\ sess_inv (w_sessions w') /\
       sess_view (w_sessions w') !! Session_ID y = Some (consume cid y)) w.
Proof.
  intros Hy Ht Hd. cbn [handle]. unfold Credential, bearer.
  rewrite (proj2 (GoStrings.has_prefix_spec _ _)) by by eexists. rewrite GoStrings.trim_prefix_app.
  cbn [negb]. intros e He. cbn [exec]. rewrite (flow_by_token _ _ _ (good_faults _ _ He) Ht).
  intros e1 He1. cbn -[after decode BuildSDJWT]. rewrite (proj1 (waiting_usable w w y e1 0 He1 Hy)).
  unfold decode. cbn -[BuildSDJWT]. intros e2 He2. unfold in_repo. cbn [exec].
  destruct Hy as (Hi & Hdep & Hst & Hvu & Hexp). rewrite Hdep, Hvu.
  pose proof (repo_get_pure e2 id (w_repo w)) as Hpure.
  pose proof (repo_get_present e2 id (w_repo w) id d (good_faults _ _ He2) (at_repo Hat) Hd) as Hget.
  destruct (repo_GetByID e2 id (w_repo w)) as [r s]. cbn in Hpure, Hget. subst. cbn -[BuildSDJWT].
  rewrite set_repo_id. apply wp_bind. eapply wp_mono; [apply build_step|].
  intros r w' (-> & e3 & sdJWT & now & He3 & -> & Hiss). intros e4 He4. cbn [exec]. unfold in_sessions.
  destruct (flow_consume e4 (w_sessions w) y (credential_urn (env_uuid e3 0)) Hi
    (good_faults _ _ He4) Ht) as (x & s' & -> & Hi' & Hv).
  { apply (waiting_usable w w y e4 0 He4). by split_and!. }
  { apply (good_credential _ _ He3). }
  cbn. eexists _, sdJWT, now. split; [reflexivity|]. split; [exact Hiss|]. split; [done|].
  split; [exact Hi'|]. rewrite Hv. apply lookup_insert_eq.
Qed.

(** *** The presentation *)

Definition keep_all : string -> bool := fun _ => true.

Lemma wp_good_now {R} w0 (k : instant -> prog R) Q w :
  (forall e, good w0 e -> wp (good w0) (k (env_now e 0)) Q w) -> wp (good w0) (emit Now ≫= k) Q w.
Proof. intros Hk e He. by apply Hk. Qed.

Lemma check_step w0 cid sdJWT now nonce uri w e0 :
  good w0 e0 -> issued cid sdJWT now ->
  wp (good w0) (VerifyVpToken (cfg_ParseWithClaims g) (cfg_ParseUnverified g) (cfg_decode_error g)
      (cfg_quote g) sdJWT nonce uri)
    (fun r w' => w' = w /\ exists t, r = Some (inl (attested keep_all cid d validUntil now t))) w.
Proof.
  intros He0 (u & ix & signed & encs & -> & Hu & Hnow & -> & Hsign & Hf).
  eapply run_wp; [exact He0|]. intros envs Henvs.
  destruct (presented_verifies (cfg_ToLower g) (cfg_sign g) (cfg_KeyID g) (cfg_ParseWithClaims g)
    (cfg_ParseUnverified g) (cfg_decode_error g) (cfg_quote g) (cfg_issuerURL g) d validUntil ix now
    (credential_urn u) signed encs keep_all nonce uri envs w) as [t Ht]; try done.
  - apply (at_trust Hat).
  - by apply (at_specs Hat).
  - by apply (at_claims Hat).
  - intros n. pose proof (good_clock _ _ (Henvs n) 0) as [_ Hn].
    pose proof (at_expiry Hat now Hnow). lia.
  - rewrite select_all in Ht by (by eapply Forall2_length). rewrite Ht. split; [done|]. by exists t.
Qed.

(** What presenting [cid] leaves in the deposit. *)
Definition presented (cid : string) (d' : Deposit) : Prop :=
  lifecycle d' = StatePledged /\
  (exists t, history d' = history d ++
     [{| HistoryEntry_State := StatePledged; HistoryEntry_Timestamp := t;
         HistoryEntry_Actor := "WALLET"; HistoryEntry_Comment := "";
         HistoryEntry_Signature := "" |}]) /\
  exists m, Tenant_WalletMetadata (Deposit_Tenant d') = Some m /\
    WalletMetadata_PresentationID m = cid /\ WalletMetadata_AssuranceLevel m = "high".

Lemma present_step w x cid sdJWT now :
  VpSession_ID x <> "" -> w_vp w !! VpSession_ID x = Some x -> T1 <= VpSession_ExpiresAt x ->
  deposits w !! id = Some d -> issued cid sdJWT now ->
  wp (good w) (handle g (CallReceiveVpResponse id
      (sent {| vpReq_VpToken := sdJWT; vpReq_State := VpSession_ID x |})))
    (fun r w' => exists t d',
       r = Some {| status := StatusOK; body := PVerified (attested keep_all cid d validUntil now t) |} /\
       deposits w' = <[id := d']> (deposits w) /\ presented cid d' /\
       w_sessions w' = w_sessions w /\ w_vp w' = delete (VpSession_ID x) (w_vp w)) w.
Proof.
  intros Hne%String.eqb_neq Hx Hexp Hd Hiss. cbn [handle]. unfold ReceiveVpResponse, decode.
  cbn [sent decode_failed value vpReq_VpToken vpReq_State].
  assert (String.eqb sdJWT "" = false) as ->.
  { destruct Hiss as (u & ix & signed & encs & _ & _ & _ & -> & _). by destruct signed. }
  rewrite Hne. apply wp_vp_get. intros o Ho. rewrite Hx in Ho. subst o.
  apply wp_good_now. intros e He.
  assert (after (env_now e 0) (VpSession_ExpiresAt x) = false) as ->.
  { apply Z.ltb_ge. pose proof (good_clock _ _ He 0) as [_ Hn]. lia. }
  eapply (wp_fetch_calm _ (good_calm w)); [apply (at_repo Hat)|done|].
  rewrite (at_state Hat). cbn [negb]. rewrite String.eqb_refl. cbn [negb]. apply wp_bind.
  eapply wp_mono; [by apply (check_step w cid sdJWT now _ _ w e)|].
  intros r w' (-> & t & ->). cbn [attested Verified_DepositID]. rewrite (at_id Hat), String.eqb_refl.
  cbn [negb]. apply wp_good_now. intros e' He'.
  eapply (wp_update_works _ (good_calm w)); [apply (at_repo Hat)|exact Hd|reflexivity|done|done| |].
  { apply storable_wallet; [|apply (at_storable Hat)]. destruct Hiss as (u & _ & _ & _ & -> & Hu & _).
    apply writes_wallet; [|apply stores_plain, plain_rfc3339, (at_years Hat), (good_clock _ _ He')|done].
    by apply stores_ascii, ascii_app; [repeat constructor|]. }
  intros t' w' Hw' Hv _. apply wp_vp_delete. apply wp_webhook_world. intros l.
  eexists t, _. split; [reflexivity|]. unfold deposits in *. cbn -[attested].
  split; [exact Hv|]. rewrite Hw'. cbn -[attested]. split; [|done].
  split; [by autorewrite with deposit|].
  destruct Hiss as (u & _ & _ & _ & -> & Hu & _). split.
  - exists t'. rewrite (history_stored_advance _ _ _ d); try done; [|by destruct d].
    by eapply repo_view_texts.
  - eexists. split; [rewrite stored_Tenant; by destruct d as [? ? []]|].
    split; [|done]. cbn. apply clean_string_valid, ascii_valid.
    eapply Forall_impl; [by apply ascii_app; [repeat constructor|exact Hu]|]. cbn. lia.
Qed.
(** *** The whole flow *)

Lemma deposits_kept w w' : w_repo w' = w_repo w -> deposits w' = deposits w.
Proof. unfold deposits. by intros ->. Qed.

(** C4: the whole flow works: from any world with a pledged deposit, a client that asks for a
    credential, fetches the offer, exchanges the code, collects the credential, opens a
    presentation request and presents what it collected gets 201, 200, 200, 200, 201 and 200,
    each call using what the replies before gave it. The landlord's view then verifies to all
    the data of the deposit under the identifier of the credential issued, only this deposit has
    changed (it is still PLEDGED and records that presentation), and the issuance session is
    consumed with that credential. It is assumed that the database answers, that random bytes
    can be read, that identifiers drawn are new, that the flow takes at most ten minutes in
    which the credential does not expire, that the issuer signs and accepts its own tokens, that
    the deposit can be stored, its claims are texts in UTF-8 and its amount is finite; for every
    repository, session store and allocator that keeps its laws. *)
Theorem pledge_is_attested_and_presented w envss :
  deposits w !! id = Some d -> sess_inv (w_sessions w) -> 0 <= next_index (w_alloc w) < 2 ^ 63 - 1 ->
  throughout good g (flow id validUntil) envss w ->
  exists replies w' r cid now t d' x,
    converse g (flow id validUntil) envss w = (replies ++ [Some r], w') /\
    fmap status <$> replies =
      Some <$> [StatusCreated; StatusOK; StatusOK; StatusOK; StatusCreated] /\
    r = {| status := StatusOK; body := PVerified (attested keep_all cid d validUntil now t) |} /\
    deposits w' = <[id := d']> (deposits w) /\ presented cid d' /\
    sess_view (w_sessions w') !! Session_ID x = Some (consume cid x) /\ Session_DepositID x = id.
Proof.
  intros Hd Hi Hix Henvs. unfold flow in *.
  destruct (converse_ask _ _ _ _ _ _ _ Henvs (issue_step _ Hd Hi Hix))
    as (? & w1 & es1 & (x & i & -> & Hix' & Hne & Hx & Hc & Hr1) & Hrest & ->). clear Henvs.
  cbn [reply body issue_of] in *. rewrite Hix' in *.
  destruct (converse_ask _ _ _ _ _ _ _ Hrest (offer_step _ _ Hx Hc))
    as (? & ? & es2 & (o & -> & Ho & ->) & Hrest2 & ->). clear Hrest.
  cbn [reply body offer_of] in *. rewrite Ho in *.
  destruct (converse_ask _ _ _ _ _ _ _ Hrest2 (token_step _ _ Hx Hc Hne))
    as (? & w2 & es3 & (y & t & -> & Ht & Hy & Hby & Hr2) & Hrest & ->). clear Hrest2.
  cbn [reply body token_of] in *. rewrite Ht in *.
  assert (deposits w2 = deposits w) as Hd2 by (apply deposits_kept; congruence).
  rewrite <-Hd2 in Hd. pose proof (proj1 (proj2 Hy)) as Hdep.
  destruct (converse_ask _ _ _ _ _ _ _ Hrest (credential_step _ _ Hy Hby Hd))
    as (? & w3 & es4 & (cid & jwt & now & -> & Hiss & Hr3 & Hi3 & Hv) & Hrest2 & ->). clear Hrest.
  cbn [reply body credential_of] in *. rewrite <-(deposits_kept _ _ Hr3) in Hd.
  destruct (converse_ask _ _ _ _ _ _ _ Hrest2 (request_step _ Hd))
    as (? & w4 & es5 & (q & z & -> & Hq & Hz & Hzv & Hexp & Hr4 & Hs4) & Hrest & ->). clear Hrest2.
  cbn [reply body request_of] in *. rewrite Hq in *. rewrite <-(deposits_kept _ _ Hr4) in Hd.
  destruct (converse_ask _ _ _ _ _ _ _ Hrest (present_step _ _ _ _ _ Hz Hzv Hexp Hd Hiss))
    as (? & w5 & es6 & (t' & d' & -> & Hd' & Hp & Hs5 & _) & _ & ->).
  refine (ex_intro _ [_; _; _; _; _] _). exists w5. do 6 eexists.
  split; [destruct es6; reflexivity|]. split; [reflexivity|]. split; [reflexivity|].
  split; [by rewrite Hd', (deposits_kept _ _ Hr4), (deposits_kept _ _ Hr3), Hd2|].
  split; [exact Hp|]. split; [by rewrite Hs5, Hs4|exact Hdep].
Qed.
End Flow.
