(* ===== verification/Onboarding.v ===== *)
(** * From the eID provider's webhook to the deposit

    The bank's application, built with the SDK, receives the provider's signed
    webhook ([EidWebhook]) and reports the result to the deposit server.  Here
    the two sides meet in the text of the request: the SDK writes it with [%q],
    the server routes it, checks the bearer token and reads the body. *)

From S2P Require Import Prelude Calendar Fmt Models Json JsonModels Statemachine Runtime Repository Sessions.
From S2P Require Import Utf8 JsonText Unmarshal Targets Sha256 StatusList Server Discovery Handlers IssuerHandlers.
From S2P Require Import VerifierHandlers Auth Logic Api Bodies Router EidWebhook Effects Lifecycle Liveness.

Local Open Scope Z_scope.

(** ** Texts that Go and JSON quote alike *)

(** [%q] puts quotes around printable ASCII without quotes and backslashes. *)
Class Quotes (quote : string -> string) : Prop :=
  quote_plain s : plain_text s = true -> quote s = GoStrings.dquote +:+ s +:+ GoStrings.dquote.

Lemma escape_plain b : plain_byte b = true -> escape_ascii b = [b].
Proof.
  unfold plain_byte, escape_ascii. cbn [existsb]. intros Hb.
  rewrite !andb_true_iff, negb_true_iff, !orb_false_iff in Hb.
  repeat (rewrite (proj2 (Z.eqb_neq _ _)) by lia). cbn [orb].
  rewrite (proj2 (Z.ltb_ge _ _)) by lia. done.
Qed.

Lemma quoted_plain s :
  plain_text s = true -> quoted s = 34 :: GoStrings.bytes_of s ++ [34].
Proof.
  intros Hs. unfold quoted. do 2 f_equal. unfold plain_text in Hs.
  induction (GoStrings.bytes_of s) as [|b l IH]; [done|]. cbn [forallb] in Hs.
  apply andb_true_iff in Hs as [Hb Hl]. cbn [runes].
  assert (b < 128) as Hlt by (unfold plain_byte in Hb; lia).
  rewrite (proj2 (Z.ltb_lt _ _)) by done. rewrite fmap_cons. cbn [escape_rune mjoin list_join].
  rewrite escape_plain by done. cbn [app]. f_equal. by apply IH.
Qed.

(** ** The request of the SDK, as the server reads it *)

Definition identity_document (status timestamp reference : string) : list (string * json) :=
  [("eid_status", JStr status); ("verification_timestamp", JStr timestamp);
   ("provider_reference", JStr reference)].

Definition identity_request (status timestamp reference : string) : IdentityUpdateRequest :=
  {| IdentityUpdateRequest_EIDStatus := status;
     IdentityUpdateRequest_VerificationTimestamp := timestamp;
     IdentityUpdateRequest_ProviderReference := reference;
     IdentityUpdateRequest_WalletMetadata := None |}.

Lemma identity_body_read status timestamp reference b :
  plain_text status = true -> plain_text timestamp = true -> plain_text reference = true ->
  json_text (JObj (identity_document status timestamp reference)) = Some b ->
  decode_body IdentityUpdateRequest_target b = sent (identity_request status timestamp reference).
Proof.
  intros Hs Ht Hr Hb.
  destruct (read_flat_object (identity_document status timestamp reference)) as (b' & Hb' & _ & Hl).
  { cbn -[utf8_valid]. by rewrite !plain_valid. }
  assert (b' = b) as -> by congruence.
  apply first_value_object in Hl. unfold decode_body.
  rewrite (read_into_value IdentityUpdateRequest_target b _
    (status, (timestamp, (reference, None))) Hl); [done|]. vm_compute. reflexivity.
Qed.

Section Text.
Context (quote : string -> string) `{Quotes quote}.

Lemma kyc_body_text p :
  plain_text (Eid.kyc_EIDStatus p) = true -> plain_text (Eid.kyc_ProviderReference p) = true ->
  year_ok (Eid.kyc_VerificationTimestamp p) ->
  json_text (JObj (identity_document (Eid.kyc_EIDStatus p)
    (format_rfc3339 (Eid.kyc_VerificationTimestamp p)) (Eid.kyc_ProviderReference p))) =
  Some (GoStrings.bytes_of (Eid.kyc_body quote p)).
Proof.
  intros Hs Hr Ht%plain_rfc3339. unfold Eid.kyc_body. rewrite !(quote_plain (quote := quote)) by done.
  transitivity (Some (123 :: commas
    [quoted "eid_status" ++ 58 :: quoted (Eid.kyc_EIDStatus p);
     quoted "verification_timestamp" ++ 58 ::
       quoted (format_rfc3339 (Eid.kyc_VerificationTimestamp p));
     quoted "provider_reference" ++ 58 :: quoted (Eid.kyc_ProviderReference p)] ++ [125])); [done|].
  rewrite !quoted_plain by done. rewrite !GoStrings.bytes_of_app. f_equal.
  generalize (GoStrings.bytes_of (Eid.kyc_EIDStatus p)),
    (GoStrings.bytes_of (Eid.kyc_ProviderReference p)),
    (GoStrings.bytes_of (format_rfc3339 (Eid.kyc_VerificationTimestamp p))).
  intros s r t. cbn [commas]. repeat (rewrite <-app_assoc || cbn [app]). vm_compute. reflexivity.
Qed.
End Text.

(** ** The way of the request *)

(** [r.Patch("/deposits/{id}/identity", s.UpdateIdentity)], for a path without
    escapes, query and fragment. *)
Definition slash : byte := Ascii.ascii_of_N 47.
Definition segment (id : string) : bool :=
  negb (String.eqb id "") && GoStrings.free_of slash id &&
  GoStrings.free_of (Ascii.ascii_of_N 35) id && GoStrings.free_of (Ascii.ascii_of_N 37) id &&
  GoStrings.free_of (Ascii.ascii_of_N 63) id.
Definition routed (base : string) (r : Eid.http_request) : option request :=
  let deposits := base +:+ "/deposits/" in
  if String.eqb (Eid.http_method r) "PATCH" && GoStrings.has_prefix (Eid.http_url r) deposits
  then match GoStrings.split_n 2 slash (GoStrings.trim_prefix (Eid.http_url r) deposits) with
       | [id; "identity"] => if segment id then Some (PatchIdentity id) else None
       | _ => None
       end
  else None.

Lemma routed_identity quote base id p token :
  segment id = true -> routed base (Eid.kyc_request quote base id p token) = Some (PatchIdentity id).
Proof.
  intros Hs. unfold routed, Eid.kyc_request. cbn [Eid.http_method Eid.http_url].
  rewrite <-GoStrings.append_assoc, (proj2 (GoStrings.has_prefix_spec _ _)) by by eexists.
  rewrite GoStrings.trim_prefix_app. cbn [String.eqb andb].
  change (id +:+ "/identity") with (id +:+ String slash "identity").
  assert (GoStrings.free_of slash id = true) as Hf.
  { unfold segment in Hs. rewrite !andb_true_iff in Hs. tauto. }
  rewrite GoStrings.split_n_app by (lia || done). cbn. by rewrite Hs.
Qed.

Lemma only_requested_is_identified s :
  CanTransition s StateIdentified = String.eqb s StateRequested.
Proof.
  destruct (CanTransition s StateIdentified) eqn:Hc.
  - symmetry. apply (transitions_checked (fun s t => negb (String.eqb t StateIdentified) ||
      String.eqb s StateRequested) s StateIdentified) in Hc; [done|by vm_compute].
  - symmetry. destruct (String.eqb_spec s StateRequested) as [->|]; [|done]. by vm_compute in Hc.
Qed.

Section Onboarding.
Context {RS SS AS : Type} `{RepositoryLaws RS} `{SessionStore SS} `{IndexAllocator AS}.
Context `{JwtLibrary}.
Implicit Types w : world RS SS AS.
Context (quote : string -> string) `{!Quotes quote}.
Context (body_error : list Z -> string) (parse_rfc3339 : string -> option instant).
Context (bad_request : Eid.http_request -> option string).
Context (base jwtSecret : string) (pub_X pub_Y : Z) (g : config).

(** What the server makes of a request of the SDK. *)
Definition delivered (envs : nat -> env) w (r : Eid.http_request) : option response * world RS SS AS :=
  match routed base r with
  | Some q => run (NewRouter jwtSecret pub_X pub_Y g (Eid.http_authorization r)
                     (RouteCall (with_body q (GoStrings.bytes_of (Eid.http_body r))))) envs w
  | None => (None, w)
  end.

(** What the SDK makes of the server's reply. *)
Definition reported (id : string) (p : Eid.KYCUpdatePayload) (token : string) (resp : response) :
    option string :=
  Eid.UpdateDepositKYCStatus bad_request quote base
    (fun _ => Eid.HttpDone (status resp) "" "") id p token.

Lemma reported_status id p token resp :
  bad_request (Eid.kyc_request quote base id p token) = None ->
  reported id p token resp =
    if negb (status resp =? 200) && negb (status resp =? 204)
    then Some ("eid: kyc update failed: HTTP " +:+ fmt_d (status resp)) else None.
Proof. unfold reported, Eid.UpdateDepositKYCStatus. by intros ->. Qed.

(** The deposit after the update. *)
Definition identified (d d' : Deposit) : Prop :=
  lifecycle d' = StateIdentified /\ Tenant_EIDStatus (Deposit_Tenant d') = EIDVerified /\
  Tenant_WalletMetadata (Deposit_Tenant d') = Tenant_WalletMetadata (Deposit_Tenant d) /\
  exists t, history d' = history d ++
    [{| HistoryEntry_State := StateIdentified; HistoryEntry_Timestamp := t;
        HistoryEntry_Actor := "IDENTITY_PROVIDER"; HistoryEntry_Comment := "";
        HistoryEntry_Signature := "" |}].

Lemma identity_call_works id key d timestamp reference w :
  repo_key id = Some key -> deposits w !! key = Some d -> storable d ->
  wp calm (handle g (CallUpdateIdentity id (sent (identity_request EIDVerified timestamp reference))))
    (fun r w' =>
       if String.eqb (lifecycle d) StateRequested
       then (exists resp, r = Some resp /\ status resp = StatusOK) /\
            exists d', deposits w' = <[key := d']> (deposits w) /\ identified d d'
       else (exists resp, r = Some resp /\ status resp = StatusConflict) /\ w' = w) w.
Proof.
  intros Hk Hd Hs. cbn [handle]. unfold UpdateIdentity, decode.
  cbn -[wp fetch transition update fireWebhook StatusOK StatusConflict].
  eapply (wp_fetch_calm calm); [done..|].
  unfold transition. rewrite Transition_spec, only_requested_is_identified.
  destruct (String.eqb (lifecycle d) StateRequested); [|by split; [eexists|]].
  eapply (wp_update_works calm); [done..| |].
  { eapply storable_identity; [reflexivity|by apply stores_constant|done|done]. }
  intros t w' Hw' Hv _. apply wp_webhook_world. intros l. split; [by eexists|].
  eexists. unfold deposits in *. split; [exact Hv|].
  assert (texts_ok d) as Ht by by eapply repo_view_texts.
  assert (kept_Tenant (Deposit_Tenant d) = Deposit_Tenant d) as Hten by apply Ht.
  split; [by autorewrite with deposit|].
  split; [rewrite stored_Tenant; by destruct d as [? ? []]|].
  split; [trans (Tenant_WalletMetadata (kept_Tenant (Deposit_Tenant d)));
    [by destruct d as [? ? []]|by rewrite Hten]|].
  exists t. rewrite (history_stored_advance _ _ _ d); try done. by destruct d.
Qed.

Lemma accepted_call c token envs w :
  guarded c = true ->
  Parse [] None (env_now (envs 0%nat) 0%nat) (hmac_key jwtSecret) token = true ->
  run (NewRouter jwtSecret pub_X pub_Y g ("Bearer " +:+ token) (RouteCall c)) envs w =
    run (handle g c) (fun n => envs (S n)) w.
Proof.
  intros Hg Hp. cbn [NewRouter]. rewrite Hg. unfold JWTMiddleware, extractBearer.
  rewrite (proj2 (GoStrings.has_prefix_spec _ _)) by by eexists.
  rewrite GoStrings.trim_prefix_app. cbn [emit run exec mbind prog_bind prog_bind_].
  by rewrite Hp.
Qed.

(** The server keeps neither the provider's reference nor the time of the
    verification. *)
Lemma reference_is_not_kept id status timestamp reference timestamp' reference' :
  handle g (CallUpdateIdentity id (sent (identity_request status timestamp reference))) =
  handle g (CallUpdateIdentity id (sent (identity_request status timestamp' reference'))).
Proof. done. Qed.

(** C16: from the provider's webhook to the deposit, across the SDK and the server: when the
    SDK's handler sets off an update, the webhook's signature is the hex HMAC of its body under
    the secret, and the body names the deposit and says VERIFIED. The request that the SDK then
    writes (with %q) is routed to UpdateIdentity, its bearer token is checked, its body is read,
    and the deposit, if it was REQUESTED, is IDENTIFIED with status VERIFIED and one history
    entry by IDENTITY_PROVIDER, while its wallet metadata stay and no other deposit changes; the
    SDK reports success. From any other state, so also when a webhook is delivered twice, the
    server refuses with 409, nothing changes, and the SDK reports an error. Assumed: the
    database answers, the SDK's token is valid, and the reference is printable ASCII without
    quotes, backslashes, <, > and &, where %q and JSON agree (a finding says what happens
    elsewhere). *)
Theorem verified_webhook_identifies onComplete bearerToken now rawBody signature webhookSecret
    id p token cb key d envs w :
  Eid.UpdateKYC id p token cb ∈
    (Eid.HandleWebhook body_error parse_rfc3339 bearerToken onComplete now rawBody signature
       webhookSecret).2 ->
  segment id = true -> plain_text (Eid.kyc_ProviderReference p) = true ->
  year_ok (Eid.kyc_VerificationTimestamp p) ->
  bad_request (Eid.kyc_request quote base id p token) = None ->
  Parse [] None (env_now (envs 0%nat) 0%nat) (hmac_key jwtSecret) bearerToken = true ->
  (forall n, calm (envs n)) ->
  repo_key id = Some key -> deposits w !! key = Some d -> storable d ->
  (signature = GoStrings.hex (hmac (GoStrings.bytes_of webhookSecret) rawBody) /\
   exists raw, Eid.unmarshal_event rawBody = Some raw /\ Eid.raw_DepositID raw = id /\
     Eid.raw_Status raw = Eid.EIDStatusVerified) /\
  exists resp w',
    delivered envs w (Eid.kyc_request quote base id p token) = (Some resp, w') /\
    if String.eqb (lifecycle d) StateRequested
    then reported id p token resp = None /\
         exists d', deposits w' = <[key := d']> (deposits w) /\ identified d d'
    else reported id p token resp = Some "eid: kyc update failed: HTTP 409" /\ w' = w.
Proof.
  intros Hin Hid Hr Ht Hb Hp Henvs Hk Hd Hs.
  apply Eid.webhook_updates_only_verified in Hin
    as (Hsig & _ & _ & raw & Hraw & Hst & Hdep & _ & Hv & _ & ->).
  split; [split; [done|by exists raw]|].
  unfold delivered. rewrite routed_identity by done. cbn [with_body].
  rewrite (identity_body_read (Eid.kyc_EIDStatus p) (format_rfc3339 (Eid.kyc_VerificationTimestamp p))
    (Eid.kyc_ProviderReference p)); rewrite ?Hv; try done; [|by apply plain_rfc3339|
    rewrite <-Hv; by apply (kyc_body_text quote); rewrite ?Hv].
  change (Eid.http_authorization _) with ("Bearer " +:+ bearerToken). rewrite accepted_call by done.
  pose proof (wp_run calm _ _ w (fun n => envs (S n)) (identity_call_works id key d
    (format_rfc3339 (Eid.kyc_VerificationTimestamp p)) (Eid.kyc_ProviderReference p) w Hk Hd Hs)
    (fun n => Henvs (S n))) as HQ. cbn beta in HQ.
  change Eid.EIDStatusVerified with EIDVerified.
  destruct (run _ _ w) as [r w']. cbn [fst snd] in HQ.
  destruct (String.eqb (lifecycle d) StateRequested);
    destruct HQ as [(resp & -> & Hstatus) HQ]; exists resp, w'; (split; [done|]);
    by rewrite reported_status, Hstatus.
Qed.
End Onboarding.
