(* ===== verification/Documents.v ===== *)
(** * What the receipts attest

    A release receipt that the API hands out is dated by the release of the
    deposit; for one that was closed without a release it shows today's date
    and the whole amount. *)

From S2P Require Import Prelude Float64 Calendar Models Statemachine Runtime Repository Sessions.
From S2P Require Import StatusList Server Receipt Handlers Logic Api Lifecycle Verification.

Local Open Scope Z_scope.

Import Receipt.

(** ** The release in a history *)

(** The only entry of a release, with what came before and after. *)
Definition single_release (l : list HistoryEntry) (h : HistoryEntry) : Prop :=
  exists l1 l2, l = l1 ++ h :: l2 /\ HistoryEntry_State h = StateReleased /\
    Forall (fun e => HistoryEntry_State e <> StateReleased) (l1 ++ l2).

Lemma find_first l h :
  List.find released_entry l = Some h ->
  exists l1 l2, l = l1 ++ h :: l2 /\ HistoryEntry_State h = StateReleased /\
    Forall (fun e => HistoryEntry_State e <> StateReleased) l1.
Proof.
  induction l as [|e l IH]; [done|]. cbn. unfold released_entry at 1.
  destruct (String.eqb_spec (HistoryEntry_State e) StateReleased) as [He|He].
  - intros [= ->]. exists [], l. by repeat split.
  - intros (l1 & l2 & -> & Hh & Hl)%IH. exists (e :: l1), l2. by repeat split; [|constructor].
Qed.

Lemma find_none l :
  List.find released_entry l = None -> Forall (fun e => HistoryEntry_State e <> StateReleased) l.
Proof.
  intros Hn. apply Forall_forall. intros e He%list_elem_of_In Hs.
  pose proof (List.find_none _ _ Hn e He) as Hf. unfold released_entry in Hf.
  by rewrite Hs in Hf.
Qed.

(** A released deposit can only be closed. *)
Lemma after_released t : allowed StateReleased t -> t = StateClosed.
Proof.
  intros [[Hc|[[|] _]] _]; [|done|done].
  pose proof (transitions_checked (fun s t => negb (String.eqb s StateReleased) ||
    String.eqb t StateClosed) _ _ ltac:(vm_compute; reflexivity) Hc) as Ht.
  by apply String.eqb_eq.
Qed.

Lemma after_closed t : ~ allowed StateClosed t.
Proof.
  intros [[Hc|[[|] _]] _]; [|done|done].
  pose proof (transitions_checked (fun s _ => negb (String.eqb s StateClosed)) _ _
    ltac:(vm_compute; reflexivity) Hc) as Ht. discriminate Ht.
Qed.

Lemma after_release l : chain StateReleased l -> Forall (fun s => s <> StateReleased) l.
Proof.
  destruct l as [|s [|t l]]; cbn [chain]; [by constructor| |].
  - intros [->%after_released _]. by repeat constructor.
  - intros (->%after_released & []%after_closed & _).
Qed.

Lemma chain_app s l1 l2 : chain s (l1 ++ l2) -> chain (List.last l1 s) l2.
Proof.
  revert s. induction l1 as [|t l1 IH]; intros s; cbn [chain app]; [done|].
  intros [_ Hl]. rewrite list_last_cons. by apply IH.
Qed.

Lemma released_once d h :
  lifecycle_ok d -> List.find released_entry (history d) = Some h ->
  single_release (history d) h.
Proof.
  intros (l & Hl & Hc & _) (l1 & l2 & Hh & Hs & H1)%find_first.
  exists l1, l2. split_and!; [done..|]. apply Forall_app. split; [done|].
  rewrite Hh, fmap_app, fmap_cons, Hs in Hl.
  destruct l1 as [|e l1]; [discriminate Hl|]. cbn [fmap list_fmap app] in Hl.
  injection Hl as _ <-. apply chain_app in Hc. cbn [chain] in Hc.
  destruct Hc as [_ Hc%after_release].
  by apply (Forall_fmap HistoryEntry_State (fun s => s <> StateReleased)) in Hc.
Qed.

Lemma released_in_history d :
  lifecycle_ok d -> lifecycle d = StateReleased ->
  ~ Forall (fun e => HistoryEntry_State e <> StateReleased) (history d).
Proof.
  intros (l & Hl & _ & Hlast) Hs Hf. rewrite Hs in Hlast.
  assert (Forall (fun s => s <> StateReleased) (StateRequested :: l)) as Hall.
  { rewrite <-Hl. by apply (Forall_fmap HistoryEntry_State (fun s => s <> StateReleased)). }
  clear -Hlast Hall. revert Hlast Hall. generalize StateRequested.
  induction l as [|t l IH]; intros s Hlast [Hs Hl]%Forall_cons; [done|].
  rewrite list_last_cons in Hlast. by apply (IH t).
Qed.

(** ** The receipt the API hands out *)

Section Documents.
Context {RS SS AS : Type} `{RepositoryLaws RS} `{SessionStore SS} `{IndexAllocator AS}.
Implicit Types w : world RS SS AS.

(** The date on a release receipt: the release's, or today's if there was
    none. *)
Definition dated (time : instant -> Prop) (d : Deposit) (date : string) : Prop :=
  (exists h, single_release (history d) h /\ date = format_day (HistoryEntry_Timestamp h)) \/
  (Forall (fun e => HistoryEntry_State e <> StateReleased) (history d) /\
   lifecycle d = StateClosed /\ exists t, time t /\ date = format_day t).

(** The bytes are a document with those texts. *)
Definition shows (p : fpdf) `{PdfTexts p} (bytes : string) (lines : list string) : Prop :=
  exists f : doc p, Output f = Some bytes /\ texts f = lines.

Lemma wp_releasedAt {R} time d (k : string -> prog R) Q w :
  lifecycle_ok d -> lifecycle d = StateReleased \/ lifecycle d = StateClosed ->
  (forall date, dated time d date -> wp (clock time) (k date) Q w) ->
  wp (clock time) (releasedAt d ≫= k) Q w.
Proof.
  intros Hok Hs Hk. unfold releasedAt. destruct (List.find _ _) as [h|] eqn:Hf.
  - apply Hk. left. exists h. split; [by apply released_once|done].
  - apply find_none in Hf. intros e He. cbn. apply Hk. right. split; [done|].
    split; [|by exists (env_now e 0)]. destruct Hs as [Hs|]; [|done].
    exfalso. by apply (released_in_history d).
Qed.

Context (g : config) `{PdfTexts (cfg_fpdf g)}.

(** What a reply of [GetReleaseReceipt] with status 200 attests. *)
Definition attests (time : instant -> Prop) w (resp : response) : Prop :=
  exists key d date t filename bytes,
    deposits w !! key = Some d /\ (lifecycle d = StateReleased \/ lifecycle d = StateClosed) /\
    body resp = PPdf filename bytes /\ dated time d date /\ time t /\
    shows (cfg_fpdf g) bytes (release_text date t d).

Lemma wp_release_receipt time id w :
  (forall k d, deposits w !! k = Some d -> deposit_ok d) ->
  wp (clock time) (handle g (CallGetReleaseReceipt id))
    (fun r _ => forall resp, r = Some resp -> status resp = StatusOK -> attests time w resp) w.
Proof.
  intros Hok. cbn [handle]. unfold GetReleaseReceipt. apply wp_fetch.
  { intros s msg code Hs resp [= <-] E. cbn in E. unfold StatusOK in E. lia. }
  intros key d _ Hd. destruct (existsb _ _) eqn:Hs;
    [|intros resp [= <-] E; discriminate E].
  assert (lifecycle d = StateReleased \/ lifecycle d = StateClosed) as Hst.
  { apply existsb_exists in Hs as (s & Hin & ->%String.eqb_eq). cbn in Hin. naive_solver. }
  destruct (Hok key d Hd) as [Hlife _].
  apply wp_bind. unfold GenerateReleaseReceipt. apply wp_releasedAt; [done|done|].
  intros date Hdate. apply wp_clock. intros t Ht. cbn [wp mret prog_ret].
  destruct (Output _) as [bytes|] eqn:Ho; intros resp [= <-] E; [|discriminate E].
  exists key, d, date, t. eexists _, bytes. split_and!; try done.
  exists (draw_release (cfg_fpdf g) date t d). split; [done|apply release_says].
Qed.

(** C27: a 200 of GetReleaseReceipt, at any point of any sequence of calls, hands out a document
    of a RELEASED or CLOSED deposit whose cells read, in order and whatever the layout, exactly
    as listed: parties, amount, type, pledge date, interest and the amount returned. Its release
    date is the day of the one RELEASED entry of the history (there is never a second), or, for
    a deposit closed without a release, the day of the request. *)
Theorem release_receipt_tells_the_release calls w id envs resp w' :
  deposits w = ∅ ->
  let now := (run_calls g calls w).2 in
  run (handle g (CallGetReleaseReceipt id)) envs now = (Some resp, w') ->
  status resp = StatusOK ->
  attests (fun t => exists n, t = env_now (envs n) 0) now resp.
Proof.
  intros Hw now Hrun Hst.
  assert (forall k d, deposits now !! k = Some d -> deposit_ok d) as Hok.
  { apply run_calls_ok. rewrite Hw. intros k d. by rewrite lookup_empty. }
  pose proof (wp_run (clock (fun t => exists n, t = env_now (envs n) 0)) _ _ now envs
    (wp_release_receipt _ id now Hok) ltac:(by eexists)) as Hwp.
  rewrite Hrun in Hwp. by apply Hwp.
Qed.
End Documents.

(** The receipt does not look at what was agreed: a settled deposit is confirmed
    as released and returned in full. *)
Lemma release_receipt_ignores_the_settlement date t s d :
  release_text date t (set_Settlement s d) = release_text date t d.
Proof. by destruct d. Qed.
