(* ===== verification/Access.v ===== *)
(** * Who may do what

    The guarded endpoints need a token signed with the server's secret;
    without one a client can change no deposit but by presenting its
    credential.  The published key reads back. *)

From S2P Require Import Prelude Float64 Calendar Models Json JsonModels Statemachine Runtime.
From S2P Require Import Repository Sessions Base64 StatusList Server Credential VpSessions.
From S2P Require Import Presentation Discovery Handlers IssuerHandlers VerifierHandlers Auth.
From S2P Require Import Logic Api Router Lifecycle Issuance Verification.

Local Open Scope Z_scope.

Section Access.
Context {RS SS AS : Type} `{RepositoryLaws RS} `{SessionStore SS} `{IndexAllocator AS}.
Context `{JwtLibrary}.
Implicit Types w : world RS SS AS.
Context (jwtSecret : string) (pub_X pub_Y : Z) (g : config).

Abbreviation serve := (NewRouter jwtSecret pub_X pub_Y g).

(** The header carries a token signed with the server's secret. *)
Definition authenticated (authorization : string) : Prop :=
  exists tok h, authorization = "Bearer " +:+ tok /\ asked [] tok = Some h /\
    is_hmac (header_alg h) = true /\ verifies (Secret jwtSecret) tok.

Lemma accepted_is_authenticated tok now :
  Parse [] None now (hmac_key jwtSecret) tok = true -> authenticated ("Bearer " +:+ tok).
Proof.
  intros (h & key & Ha & Hk & Hv)%Parse_asks. unfold hmac_key in Hk.
  destruct (is_hmac (header_alg h)) eqn:E; [|done]. injection Hk as <-. by exists tok, h.
Qed.

(** C14: a call of the guarded group reaches its handler only with a bearer token that verifies
    under the server's HMAC secret and names an HMAC algorithm (so a token for another algorithm
    cannot make the secret serve as a public key); every other request is answered 401 and
    changes nothing. *)
Theorem guarded_calls_need_the_secret authorization c envs w resp w' :
  guarded c = true ->
  run (serve authorization (RouteCall c)) envs w = (Some resp, w') ->
  (status resp = StatusUnauthorized /\ w' = w) \/
  (authenticated authorization /\
   run (handle g c) (fun n => envs (S n)) w = (Some resp, w')).
Proof.
  intros Hg. cbn [NewRouter]. rewrite Hg. unfold JWTMiddleware, extractBearer.
  destruct (GoStrings.has_prefix authorization "Bearer ") eqn:Hp.
  - apply GoStrings.has_prefix_spec in Hp as [tok ->]. rewrite GoStrings.trim_prefix_app.
    cbn [emit run exec mbind prog_bind prog_bind_].
    destruct (Parse _ _ _ _ _) eqn:Hparse; cbn.
    + right. split; [by eapply accepted_is_authenticated|done].
    + intros [= <- <-]. by left.
  - intros [= <- <-]. by left.
Qed.

(** A deposit that was at most presented: it is the deposit itself, or what is
    stored of it with entries by WALLET after its history and other metadata of
    the tenant's wallet; identifier, state, pledge and earlier history stay. *)
Definition presented (d d' : Deposit) : Prop :=
  Deposit_ID d' = Deposit_ID d /\ lifecycle d' = lifecycle d /\
  Deposit_Pledge d' = Deposit_Pledge d /\
  exists m l, history d' = history d ++ l /\
    Forall (fun en => HistoryEntry_Actor en = "WALLET") l /\
    (d' = d \/ d' = stored (with_presentation m l d)).

Definition only_presented (v v' : gmap string Deposit) : Prop :=
  (forall k d, v !! k = Some d -> exists d', v' !! k = Some d' /\ presented d d') /\
  (forall k, v !! k = None -> v' !! k = None).

Lemma with_presentation_twice m1 l1 m2 l2 d :
  stored (with_presentation m2 l2 (stored (with_presentation m1 l1 d))) =
  stored (with_presentation m2 (l1 ++ l2) d).
Proof.
  rewrite stored_with_presentation. f_equal. destruct d as [? ? [] ? ? []].
  unfold with_presentation, history. cbn. by rewrite app_assoc.
Qed.

#[local] Instance presented_preorder : PreOrder presented.
Proof.
  split.
  - intros d. split_and!; [done..|]. exists None, []. rewrite app_nil_r. by split_and!; [| |left].
  - intros d1 d2 d3 (? & ? & ? & m1 & l1 & E1 & F1 & C1) (? & ? & ? & m2 & l2 & E2 & F2 & C2).
    split_and!; [congruence..|]. destruct C2 as [->|C2]; [by exists m1, l1|].
    exists m2, (l1 ++ l2). rewrite E2, E1, app_assoc. split; [done|]. split; [by apply Forall_app|].
    right. destruct C1 as [->|C1]; [|by rewrite C2, C1, with_presentation_twice].
    assert (l1 = []) as ->; [|done].
    apply (f_equal length) in E1. rewrite length_app in E1. destruct l1; [done|]. cbn in E1. lia.
Qed.

#[local] Instance only_presented_preorder : PreOrder only_presented.
Proof.
  split.
  - intros v. split; [|done]. intros k d Hd. by exists d.
  - intros v1 v2 v3 [P12 N12] [P23 N23]. split; [|auto].
    intros k d (d2 & (d3 & Hd3 & E3)%P23 & E2)%P12. exists d3. split; [done|]. by etrans.
Qed.

Lemma only_presented_refl v : only_presented v v.
Proof. reflexivity. Qed.

Lemma presented_advance t m d :
  texts_ok d -> sql_entry (lifecycle d) (entry (lifecycle d) "WALLET" "") = true ->
  presented d (stored (advance (lifecycle d) (entry (lifecycle d) "WALLET" "") t
    (set_Tenant (set_WalletMetadata (Some m) (Deposit_Tenant d)) d))).
Proof.
  intros Ht Hs. pose proof Ht as (Hid & _ & _ & Hp & _). unfold presented.
  split; [rewrite stored_ID; by destruct d|]. split; [by rewrite lifecycle_stored_advance|].
  split; [rewrite stored_Pledge; by destruct d|].
  exists (Some m). eexists. split; [apply history_stored_advance; try done; by destruct d|].
  split; [by repeat constructor|]. right. f_equal. by destruct d as [? ? ? ? ? []].
Qed.

Lemma only_presented_insert key d m t v :
  v !! key = Some d -> texts_ok d ->
  sql_entry (lifecycle d) (entry (lifecycle d) "WALLET" "") = true ->
  only_presented v (<[key := stored (advance (lifecycle d) (entry (lifecycle d) "WALLET" "") t
    (set_Tenant (set_WalletMetadata (Some m) (Deposit_Tenant d)) d))]> v).
Proof.
  intros Hd Ht Hs. split.
  - intros k d' Hd'. destruct (decide (key = k)) as [<-|Hne].
    + rewrite lookup_insert_eq. eexists. split; [done|]. rewrite Hd in Hd'.
      injection Hd' as <-. by apply presented_advance.
    + rewrite lookup_insert_ne by done. by exists d'.
  - intros k Hk. rewrite lookup_insert_ne; [done|]. intros ->. congruence.
Qed.

Lemma receive_keeps ok id r w :
  wp ok (handle g (CallReceiveVpResponse id r))
    (fun _ w' => only_presented (deposits w) (deposits w')) w.
Proof.
  cbn [handle]. unfold ReceiveVpResponse.
  walk_with ltac:(apply only_presented_refl). apply wp_vp_get. intros [x|] _;
    walk_with ltac:(apply only_presented_refl).
  apply wp_only_now; [apply only_now_VerifyVpToken|].
  intros [claims|err]; walk_with ltac:(apply only_presented_refl).
  match goal with E : repo_key id = Some ?k, Ed : repo_view _ !! ?k = Some ?d |- _ =>
    rename E into Hk, Ed into Hd; rename k into key, d into dep end.
  assert (forall m t w', repo_view (w_repo w') = <[key := stored (advance (lifecycle dep)
      (entry (lifecycle dep) "WALLET" "") t
      (set_Tenant (set_WalletMetadata (Some m) (Deposit_Tenant dep)) dep))]> (repo_view (w_repo w)) ->
    sql_entry (lifecycle dep) (entry (lifecycle dep) "WALLET" "") = true ->
    only_presented (deposits w) (deposits w')) as Hmove.
  { unfold deposits. intros m ? w' -> ?. apply only_presented_insert; [done| |done].
    by eapply repo_view_texts. }
  apply wp_update.
  - intros w' [->|(key' & d0 & d1 & u & Hk' & Hd' & Hp & Hs & Hv & _)]; [apply only_presented_refl|].
    rewrite Hk in Hk'. injection Hk' as <-. rewrite Hd in Hd'. injection Hd' as <-.
    injection Hp as <-. by eapply Hmove.
  - intros. apply only_presented_refl.
  - intros key' d0 d1 u w' Hk' Hd' Hp Hv _ Hs.
    rewrite Hk in Hk'. injection Hk' as <-. rewrite Hd in Hd'. injection Hd' as <-.
    injection Hp as <-. apply wp_vp_delete, wp_webhook_world. intros l. by eapply Hmove.
Qed.

Lemma serve_keeps ok authorization r w :
  ~ authenticated authorization ->
  wp ok (serve authorization r) (fun _ w' => only_presented (deposits w) (deposits w')) w.
Proof.
  intros Hno. destruct r as [| | |c]; cbn [NewRouter];
    [apply only_presented_refl..| |].
  - unfold JWKS. case_match; apply only_presented_refl.
  - destruct (guarded c) eqn:Hg.
    + unfold JWTMiddleware, extractBearer.
      destruct (GoStrings.has_prefix authorization "Bearer ") eqn:Hp; [|apply only_presented_refl].
      apply wp_now. intros t. destruct (Parse _ _ _ _ _) eqn:Hparse; [|apply only_presented_refl].
      exfalso. apply Hno. apply GoStrings.has_prefix_spec in Hp as [tok ->].
      rewrite GoStrings.trim_prefix_app in Hparse. by eapply accepted_is_authenticated.
    + destruct (off_deposits c) eqn:Hoff.
      * apply (wp_off_repo True); [by apply off_repo_call|]. unfold deposits. by intros _ w' -> _.
      * destruct c; try done. apply receive_keeps.
Qed.

(** ** Sequences of requests *)

Fixpoint run_requests (rs : list ((string * route) * (nat -> env))) w : world RS SS AS :=
  match rs with
  | [] => w
  | (authorization, r, envs) :: rs => run_requests rs (run (serve authorization r) envs w).2
  end.

(** C10: clients without a token, whatever requests they send to any endpoint and in whatever
    order, create no deposit and change none, except that presenting a credential adds history
    entries by WALLET and sets the tenant's wallet metadata. Every other field is kept: a
    deposit is afterwards what it was, or the stored form (texts as json.Marshal writes them) of
    the deposit with just these two things changed; its identifier, state and pledge are equal. *)
Theorem strangers_only_present rs w :
  Forall (fun '(authorization, _, _) => ~ authenticated authorization) rs ->
  only_presented (deposits w) (deposits (run_requests rs w)).
Proof.
  intros Hrs. revert w. induction Hrs as [|[[authorization r] envs] rs Hno _ IH]; intros w;
    [apply only_presented_refl|]. cbn [run_requests]. etrans; [|apply IH].
  exact (wp_run (fun _ => True) _ (fun _ w' => only_presented (deposits w) (deposits w')) w envs
    (serve_keeps _ authorization r w Hno) ltac:(done)).
Qed.
End Access.

(** ** The published key *)

(** The key as another server reads it from the published document. *)
Definition read_jwk (j : jwk) : jwkKey :=
  {| jwkKey_Kty := jwk_KTY j; jwkKey_Kid := jwk_KID j; jwkKey_Alg := jwk_Alg j; jwkKey_N := "";
     jwkKey_E := ""; jwkKey_Crv := jwk_CRV j; jwkKey_X := jwk_X j; jwkKey_Y := jwk_Y j |}.

(** C26: the issuer's P-256 key survives publication: the coordinates in the JWKS document are
    base64url of exactly 32 bytes, big-endian with leading zeros kept, and the JWKS client of
    the middleware recovers from the document the key with the same coordinates under the same
    kid, for every coordinate below 2^256. *)
Theorem published_key_reads_back quote KeyID x y checked fetched :
  0 <= x < 2 ^ 256 -> 0 <= y < 2 ^ 256 ->
  exists keys, key_set KeyID x y = Some keys /\
    Forall (fun j => exists bx b_y,
      DecodeString (jwk_X j) = Some bx /\ length bx = 32%nat /\
      DecodeString (jwk_Y j) = Some b_y /\ length b_y = 32%nat) keys /\
    (keyFunc quote checked (HttpReply StatusOK (inl (map read_jwk keys))) fetched KeyID
       empty_cache).1 = inl (ECKey "P-256" x y).
Proof.
  intros Hx Hy. destruct (encodeCoord_reads x Hx) as (sx & bx & Ex & Dx & Lx & <-).
  destruct (encodeCoord_reads y Hy) as (sy & b_y & Ey & Dy & Ly & <-).
  unfold key_set. rewrite Ex, Ey. eexists. split; [done|]. split.
  - constructor; [|done]. by exists bx, b_y.
  - unfold keyFunc, is_fresh, cached. cbn [cache_keys empty_cache mbind option_bind].
    rewrite andb_false_r. cbn -[DecodeString]. unfold usable_keys, public_key, ecPublicKey.
    cbn -[DecodeString]. rewrite Dx, Dy. cbn. by rewrite lookup_insert_eq.
Qed.

(** The published metadata describe the credential that is issued: its type, and as
    selectively disclosable exactly the claims that are issued as disclosures. *)
Theorem metadata_lists_the_claims base d vu now :
  exists config,
    metadata_CredentialConfigurationsSupported (issuer_metadata base) !!
      "DepositPledgeAttestation" = Some config /\
    credConfig_VCT config =
      sdJWT_VCT (sd_claims (fun s => s) base "" d vu 0 now []) /\
    forall name, name ∈ (sd_specs d vu now).*1 <->
      exists m, credConfig_Claims config !! name = Some m /\ claimMeta_SD m = true.
Proof.
  exists attestation_config. split; [done|]. split; [done|]. intros name. split.
  - cbn. rewrite !elem_of_cons, elem_of_nil.
    intros Hn. destruct_or! Hn; try done; subst name; eexists; split; vm_compute; reflexivity.
  - intros (m & Hm & Hsd). cbn [attestation_config credConfig_Claims claims_metadata] in Hm.
    apply elem_of_list_to_map_2 in Hm. rewrite !elem_of_cons, elem_of_nil in Hm.
    cbn. rewrite !elem_of_cons, elem_of_nil. destruct_or! Hm; simplify_eq; auto 10.
Qed.
