(* ===== verification/Agreement.v ===== *)
(** * The SDK's verifier agrees with the server's

    A presentation without key binding that the server accepts is accepted by
    the SDK, with the same claims. *)

From S2P Require Import Prelude Float64 Calendar Models Json Runtime Repository Sessions.
From S2P Require Import Base64 JsonText Unmarshal Sha256 StatusList Server Credential Presentation.
From S2P Require Import VpService.
From S2P Require Import Handlers IssuerHandlers Logic Verification.

Local Open Scope Z_scope.

(** ** Taking a token apart *)

Lemma sort_parts_kb kb ds parts : kb <> "" -> (sort_parts kb ds parts).1 <> "".
Proof.
  revert kb ds. induction parts as [|p parts IH]; intros kb ds Hkb; [done|]. cbn.
  destruct (String.eqb_spec p ""); [by apply IH|].
  destruct (GoStrings.contains p "."); by apply IH.
Qed.

Lemma sort_parts_plain ds parts ds' :
  sort_parts "" ds parts = ("", ds') -> ds' = ds ++ VpService.nonempty parts.
Proof.
  unfold VpService.nonempty. revert ds. induction parts as [|p parts IH]; intros ds;
    cbn [sort_parts].
  - intros [= ->]. by rewrite app_nil_r.
  - rewrite filter_cons. destruct (String.eqb_spec p "") as [->|Hp].
    + intros ->%IH. by rewrite decide_False by naive_solver.
    + rewrite decide_True by done. destruct (GoStrings.contains p ".").
      * intros E. by destruct (sort_parts_kb p ds parts Hp); rewrite E.
      * intros ->%IH. by rewrite <-app_assoc.
Qed.

Lemma take_apart_plain parts ds :
  sort_parts "" [] parts = ("", ds) -> List.last parts "" = "" ->
  VpService.take_apart parts = ("", ds).
Proof.
  intros ->%sort_parts_plain Hlast. unfold VpService.take_apart. destruct parts; [done|].
  by rewrite Hlast.
Qed.

(** ** The claims *)

(** The same claims; a withheld one is absent or zero. *)
Record same_claims (vc : VerifiedClaims) (sc : VpService.VerifiedClaims) : Prop := {
  same_credential : VpService.CredentialID sc = Verified_CredentialID vc;
  same_deposit : VpService.DepositID sc = Verified_DepositID vc;
  same_date : VpService.PledgeDate sc = Verified_PledgeDate vc;
  same_basis : VpService.StatutoryBasis sc = Verified_StatutoryBasis vc;
  same_bank : VpService.IssuingBank sc = Verified_IssuingBank vc;
  same_amount : default f64_zero (VpService.DepositAmount sc) = Verified_DepositAmount vc;
  same_currency : default "" (VpService.Currency sc) = Verified_Currency vc;
  same_address : default "" (VpService.PropertyAddress sc) = Verified_PropertyAddress vc;
  same_first_name : default "" (VpService.TenantFirstName sc) = Verified_TenantFirstName vc;
  same_last_name : default "" (VpService.TenantLastName sc) = Verified_TenantLastName vc;
  same_until : default "" (VpService.PledgedUntil sc) = Verified_PledgedUntil vc }.

(** ** Raw messages *)

(** The SDK keeps the raw value of a disclosure, the server its reading as
    [any]. *)
Definition opened (m m' : gmap string json) : Prop :=
  forall k, match m !! k, m' !! k with
            | Some v, Some v' => any v = Some v'
            | None, None => True
            | _, _ => False
            end.

Lemma opened_empty : opened ∅ ∅.
Proof. intros k. by rewrite lookup_empty. Qed.

Lemma opened_insert m m' k v v' :
  opened m m' -> any v = Some v' -> opened (<[k := v]> m) (<[k := v']> m').
Proof.
  intros Hm Hv i. destruct (decide (k = i)) as [->|Hne].
  - by rewrite !lookup_insert_eq.
  - rewrite !lookup_insert_ne by done. apply Hm.
Qed.

(** The kinds of a value and its reading. *)
Lemma any_kind v v' :
  any v = Some v' ->
  match v' with
  | JStr s => v = JStr s
  | JNull => v = JNull
  | JFloat _ => VpService.unmarshal_float v = match v' with JFloat x => Some x | _ => None end
  | JArr l => exists r, v = JArr r /\ mapM any r = Some l
  | _ => VpService.unmarshal_string v = None /\ VpService.unmarshal_float v = None
  end.
Proof.
  destruct v as [|b|x|n|t|s|l|l]; cbn [any]; unfold finite_float.
  - by intros [= <-].
  - by intros [= <-].
  - destruct (f64_finite x) eqn:Hx; [|done]. intros [= <-]. cbn. unfold finite_float. by rewrite Hx.
  - destruct (f64_finite (f64_of_Z n)) eqn:Hx; [|done]. intros [= <-]. cbn.
    unfold finite_float. by rewrite Hx.
  - by intros [= <-].
  - by intros [= <-].
  - intros (r & Hr & ->)%fmap_Some. by exists l.
  - by intros (r & Hr & ->)%fmap_Some.
Qed.

Lemma any_string v s : any v = Some (JStr s) -> v = JStr s.
Proof. by intros ?%any_kind. Qed.

Lemma raw_elements b l :
  json_any b = Some (JArr l) ->
  exists r, VpService.unmarshal_array b = Some r /\ mapM any r = Some l.
Proof.
  unfold json_any, VpService.unmarshal_array. intros (v & -> & (r & -> & Hr)%any_kind)%bind_Some.
  by exists r.
Qed.

Lemma optString_disclosed m m' k :
  opened m m' -> default "" (VpService.optString m k) = disclosed_string m' k.
Proof.
  intros Hm. specialize (Hm k). unfold VpService.optString, disclosed_string.
  destruct (m !! k) as [v|], (m' !! k) as [v'|]; try done. cbn. apply any_kind in Hm.
  destruct v' as [|b|x|n|t|s|l|l]; [by rewrite Hm| |..].
  - by rewrite (proj1 Hm).
  - destruct v; try done; cbn in *; by repeat case_match.
  - by rewrite (proj1 Hm).
  - by rewrite (proj1 Hm).
  - by rewrite Hm.
  - by destruct Hm as (r & -> & _).
  - by rewrite (proj1 Hm).
Qed.

Lemma optFloat_disclosed m m' k :
  opened m m' -> default f64_zero (VpService.optFloat m k) = disclosed_float m' k.
Proof.
  intros Hm. specialize (Hm k). unfold VpService.optFloat, disclosed_float.
  destruct (m !! k) as [v|], (m' !! k) as [v'|]; try done. cbn. apply any_kind in Hm.
  destruct v' as [|b|x|n|t|s|l|l]; [by rewrite Hm| |..].
  - by rewrite (proj2 Hm).
  - by rewrite Hm.
  - by rewrite (proj2 Hm).
  - by rewrite (proj2 Hm).
  - by rewrite Hm.
  - by destruct Hm as (r & -> & _).
  - by rewrite (proj2 Hm).
Qed.

(** ** The expiry in a payload *)

(** The claims of a JWT, as they are written. *)
Definition payload_of (jwt : string) : option members :=
  match GoStrings.split_n 3 dot jwt with
  | [_; payload; _] => DecodeString payload ≫= read_object
  | _ => None
  end.

(** The members that a struct field "exp" is read from, and the expiry of a
    JWT that has one such member, a whole number: the form in which BuildSDJWT
    and [jwt.NewNumericDate] write it. *)
Definition expiries (l : members) : members := filter (fun m => same_name "exp" m.1) l.
Definition stated_expiry (jwt : string) : option Z :=
  l ← payload_of jwt;
  match expiries l with [(_, JInt s)] => Some s | _ => None end.

Lemma read_field_matching {A} (into : A -> json -> option A) name zero l :
  read_field into zero name l = read_field into zero name (filter (fun m => same_name name m.1) l).
Proof.
  unfold read_field. generalize (zero, true) as r. induction l as [|m l IH]; intros r; [done|].
  rewrite filter_cons. cbn [fold_left].
  destruct (decide (same_name name m.1)) as [Hm|Hm]; [by rewrite IH|].
  rewrite IH. unfold member_into at 2. by apply Is_true_false in Hm as ->.
Qed.

Lemma stated_expiry_read jwt l s :
  payload_of jwt = Some l -> stated_expiry jwt = Some s -> 0 <= s <= 2 ^ 53 ->
  read_field into_int64 0 "exp" l = (s, true).
Proof.
  unfold stated_expiry. intros -> Hs Hb. cbn [mbind option_bind] in Hs.
  rewrite read_field_matching. fold (expiries l). destruct (expiries l) as [|[k []] []] eqn:He; try done.
  simplify_eq. assert (same_name "exp" k) as Hk.
  { assert ((k, JInt s) ∈ expiries l) as [Hk _]%list_elem_of_filter by (rewrite He; left). done. }
  unfold read_field, member_into. cbn [fold_left fst snd]. apply Is_true_true in Hk as ->.
  unfold into_int64. by rewrite (proj2 (Z.leb_le _ _)), (proj2 (Z.ltb_lt _ _)) by lia.
Qed.

Section Agreement.
Context {RS SS AS : Type} `{Repository RS} `{SessionStore SS} `{IndexAllocator AS}.
Implicit Types w : world RS SS AS.
Context (ParseWithClaims : instant -> string -> issuerJWTClaims + string)
        (ParseUnverified : string -> (string * kbJWTClaims) + string)
        (decode_error : string -> string) (quote : string -> string)
        (payload_error : list Z -> string) (string_error : json -> string).

Abbreviation server_check :=
  (VerifyVpToken ParseWithClaims ParseUnverified decode_error quote).
Abbreviation sdk_check :=
  (VpService.VerifyVpToken decode_error payload_error string_error quote).

(** What the JWT library does: a JWT that it accepts has three parts, of which
    the second decodes to the JSON text of the claims.  The library unmarshals
    that text into the struct of the claims, whose fields have the same names
    and types as those of the SDK, apart from the expiry: the library reads it
    through a floating-point number into an optional date, which may be
    absent or have lost a fraction, and compares it with the clock when it is
    there.  Whole seconds below 2^53 are read exactly. *)
Definition jwt_payload : Prop :=
  forall t jwt c, ParseWithClaims t jwt = inl c ->
    exists l sd, payload_of jwt = Some l /\
      read_field into_string "" "jti" l = (issuerJWT_ID c, true) /\
      read_field into_string "" "deposit_id" l = (issuerJWT_DepositID c, true) /\
      read_field into_string "" "pledge_date" l = (issuerJWT_PledgeDate c, true) /\
      read_field into_string "" "statutory_basis" l = (issuerJWT_StatutoryBasis c, true) /\
      read_field into_string "" "issuing_bank" l = (issuerJWT_IssuingBank c, true) /\
      read_field into_strings ([], O) "_sd" l = (sd, true) /\ slice_of sd = issuerJWT_SD c /\
      (forall e, issuerJWT_ExpiresAt c = Some e -> t < e) /\
      forall s, stated_expiry jwt = Some s -> 0 <= s <= 2 ^ 53 ->
        issuerJWT_ExpiresAt c = Some (s * second).

Lemma verifyIssuerJWT_payload jwt l p :
  payload_of jwt = Some l -> VpService.issuer_of l = Some p ->
  VpService.verifyIssuerJWT decode_error payload_error jwt = inl p.
Proof.
  unfold payload_of, VpService.verifyIssuerJWT, VpService.dot_byte.
  destruct (GoStrings.split_n 3 _ jwt) as [|h [|payload [|sig [|]]]]; try done.
  intros (raw & -> & Hl)%bind_Some Hp. unfold VpService.unmarshal_issuer. rewrite Hl.
  cbn [mbind option_bind]. by rewrite Hp.
Qed.

Lemma same_openings sd ds m m' n :
  opened m m' -> open_disclosures decode_error quote sd m' ds = inl n ->
  exists k, VpService.open_disclosures decode_error string_error sd m ds = inl k /\ opened k n.
Proof.
  revert m m'. induction ds as [|enc ds IH]; intros m m' Hm; cbn; [intros [= <-]; by eexists|].
  unfold open_disclosure, VpService.open_disclosure, digest, VpService.sdJWTHash.
  destruct (negb _); [done|]. destruct (DecodeString enc) as [raw|]; [|done].
  destruct (json_any raw) as [[| | | | | |l|]|] eqn:Hj; try done.
  destruct (raw_elements raw l Hj) as (r & -> & Hr).
  destruct l as [|x [|name [|v [|y l]]]]; try done; destruct name; try done.
  apply mapM_Some in Hr. repeat (apply Forall2_cons_inv_r in Hr as (? & ? & ? & Hr & ->)).
  apply Forall2_nil_inv_r in Hr as ->. rewrite (any_string _ _ ltac:(eassumption)).
  cbn. apply IH, opened_insert; done.
Qed.

(** C22: the two verifiers agree on tokens of the issued form: disclosures, no key binding, and
    one exp claim that is a whole number of seconds (at most 2^53), as BuildSDJWT writes it.
    Such a presentation that the server's VerifyVpToken accepts is accepted by the SDK's, at any
    time not later and whatever nonce it asked for, and both return the same claims, a withheld
    claim being nil in one and the zero value in the other. Of the JWT library it is assumed
    that it unmarshals the payload, the second of three parts, into the struct of the claims,
    reads such an exp exactly, and refuses a token whose exp has passed; nothing about tokens
    without exp, which the server accepts and the SDK refuses (a finding). *)
Theorem sdk_agrees_with_the_server tok nonce uri nonce' uri' s envs envs' w w1 vc w' :
  jwt_payload ->
  stated_expiry (token_parts tok).1 = Some s -> 0 <= s <= 2 ^ 53 ->
  (sort_parts "" [] (token_parts tok).2).1 = "" -> List.last (token_parts tok).2 "" = "" ->
  (forall n m, env_now (envs' n) 0 <= env_now (envs m) 0) ->
  run (server_check tok nonce uri) envs w = (Some (inl vc), w') ->
  exists sc, run (sdk_check tok nonce' uri') envs' w1 = (Some (inl sc), w1) /\ same_claims vc sc.
Proof.
  intros Hjwt Hexp Hs Hkb Hlast Hclock [_ Hacc]%run_check.
  destruct Hacc as (jwt & parts & kb & ds & t0 & c & m & t & Htok & Hsort & [n0 Ht0] & Hparse &
    _ & _ & Hopen & _ & _ & ->).
  rewrite Htok in Hexp, Hkb, Hlast. cbn [fst snd] in *. rewrite Hsort in Hkb. cbn in Hkb. subst kb.
  destruct (Hjwt _ _ _ Hparse) as (l & sd & Hl & E1 & E2 & E3 & E4 & E5 & E6 & E7 & Ex & Es).
  specialize (Ex _ (Es s Hexp Hs)).
  pose proof (stated_expiry_read jwt l s Hl Hexp Hs) as E8.
  eassert (VpService.issuer_of l = Some _) as Hu.
  { unfold VpService.issuer_of. by rewrite E1, E2, E3, E4, E5, E6, E8. }
  unfold VpService.VerifyVpToken. rewrite Htok, (take_apart_plain parts ds Hsort Hlast).
  destruct (String.eqb_spec jwt "") as [->|_]; [done|].
  rewrite (verifyIssuerJWT_payload _ _ _ Hl Hu).
  cbn -[Z.mul Z.leb]. rewrite (proj2 (Z.leb_gt _ _)).
  2:{ unfold VpService.unix. specialize (Hclock 0%nat n0). apply Z.div_lt_upper_bound; unfold second in *; lia. }
  destruct (same_openings _ _ _ _ _ opened_empty Hopen) as (k & Hk & Hm).
  cbn [VpService.issuer_SDHashes]. rewrite E7, Hk. cbn. eexists. split; [done|].
  by split; cbn; rewrite ?(optString_disclosed _ _ _ Hm), ?(optFloat_disclosed _ _ _ Hm).
Qed.

(** A JWT without expiry: the server's verifier does not look for one, the
    SDK's reads zero and refuses the token. *)
Theorem sdk_refuses_without_expiry tok nonce uri envs w l :
  payload_of (token_parts tok).1 = Some l -> expiries l = [] -> 0 <= env_now (envs 0%nat) 0 ->
  exists x, run (sdk_check tok nonce uri) envs w = (Some (inr x), w).
Proof.
  intros Hl He Hnow. unfold VpService.VerifyVpToken.
  destruct (token_parts tok) as [jwt parts]. cbn [fst] in Hl.
  destruct (String.eqb jwt ""); [by eexists|]. destruct (VpService.take_apart parts) as [kb ds].
  unfold payload_of, VpService.verifyIssuerJWT, VpService.dot_byte in *.
  destruct (GoStrings.split_n 3 _ jwt) as [|h [|payload [|sig [|]]]]; try done.
  apply bind_Some in Hl as (raw & -> & Hl). unfold VpService.unmarshal_issuer. rewrite Hl.
  cbn [mbind option_bind]. destruct (VpService.issuer_of l) as [p|] eqn:Hp; [|by eexists].
  assert (VpService.issuer_Exp p = 0) as Hz.
  { unfold VpService.issuer_of in Hp. rewrite (read_field_matching into_int64 "exp") in Hp.
    change (filter _ l) with (expiries l) in Hp. rewrite He, read_field_nil in Hp.
    repeat match type of Hp with context [read_field ?f ?z ?n ?l] => destruct (read_field f z n l) end.
    by destruct (_ && _); simplify_eq. }
  cbn -[Z.leb]. rewrite Hz, (proj2 (Z.leb_le _ _)); [by eexists|]. by apply Z.div_pos.
Qed.
End Agreement.
