(* ===== verification/Concurrency.v ===== *)
(** * Requests in flight

    Handlers of concurrent requests interleave at every call into a store.
    Under every schedule, clock and database fault no handler panics and the
    references a state promises exist.  The invariant of one handler is
    [safe L]: [L] lists the deposits it has read, which bound from below what
    it will find later. *)

From S2P Require Import Prelude Float64 Calendar Models JsonModels Statemachine Runtime.
From S2P Require Import Repository Sessions SessionLaws StatusList Server Credential Handlers.
From S2P Require Import IssuerHandlers VpSessions Presentation VerifierHandlers Logic Api.
From S2P Require Import Lifecycle Receipt.

(** Settlement, reservation and confirmed pledge are never taken back. *)
Record below (d d' : Deposit) : Prop := {
  below_settlement : is_Some (Deposit_Settlement d) -> is_Some (Deposit_Settlement d');
  below_reservation :
    is_Some (Deposit_UtilityReservation d) -> is_Some (Deposit_UtilityReservation d');
  below_confirmed : confirmed d -> confirmed d' }.

#[export] Instance below_preorder : PreOrder below.
Proof.
  split; [by intros d|]. intros d1 d2 d3 [? ? ?] [? ? ?]. split; auto.
Qed.

Lemma carries_below ns d d' : carries ns d d' -> below d d'.
Proof. intros []. split; auto. Qed.

Section Safe.
Context {RS SS AS : Type} `{RepositoryLaws RS} `{SessionLaws SS} `{IndexAllocatorLaws AS}.
Implicit Types w : world RS SS AS.

Abbreviation reads := (list (string * Deposit)).

(** What the reads of a handler say of the deposit it finds now. *)
Definition meets (L : reads) (id key : string) (d : Deposit) : Prop :=
  repo_key id = Some key /\ forall d0, (key, d0) ∈ L -> below d0 d.

(** An update the invariant allows: whatever deposit it meets, its patch
    applies, and leads where [keeps_at] says. *)
Definition safe_update (L : reads) (id : string) (ns : LifecycleState) (en : HistoryEntry)
    (p : patch_fn) : Prop :=
  HistoryEntry_State en = ns /\
  forall key d, meets L id key d -> keeps_at ns p d /\ apply_patch p d <> None.

Fixpoint safe {R} (L : reads) (p : prog R) : Prop :=
  match p with
  | Ret _ => True
  | Crash => False
  | Vis ev k =>
      match ev in event X return (X -> prog R) -> Prop with
      | RepoGetByID id => fun k =>
          (forall key d, repo_key id = Some key -> fields_ok d -> safe ((key, d) :: L) (k (Ok d))) /\
          (forall x, safe L (k (Err x)))
      | RepoUpdateState id ns en p => fun k =>
          safe_update L id ns en p /\
          (forall d, safe L (k (Ok d))) /\ (forall x, safe L (k (Err x)))
      | RepoCreate _ => fun k => (forall d, safe L (k (Ok d))) /\ (forall x, safe L (k (Err x)))
      | SessCreate _ _ _ => fun k => (forall x, safe L (k (Ok x))) /\ (forall x, safe L (k (Err x)))
      | Allocate => fun k => (forall x, safe L (k (Ok x))) /\ (forall x, safe L (k (Err x)))
      | SessRevokedIndices => fun k =>
          (forall x, safe L (k (Ok x))) /\ (forall x, safe L (k (Err x)))
      | _ => fun k => forall x, safe L (k x)
      end k
  end.

(** ** Every handler is safe *)

Lemma safe_fetch L id k :
  (forall key d, repo_key id = Some key -> fields_ok d -> safe ((key, d) :: L) (k d)) ->
  safe L (fetch id k).
Proof. intros Hk. split; [done|]. by intros []. Qed.

Lemma safe_transition L cur next k :
  safe L k -> safe L (transition cur next k).
Proof. unfold transition. rewrite Transition_spec. by destruct (CanTransition cur next). Qed.

Lemma safe_bind {A B} L (p : prog A) (k : A -> prog B) :
  safe L p -> (forall L' a, L ⊆ L' -> safe L' (k a)) -> safe L (p ≫= k).
Proof.
  revert L. induction p as [a| |X ev h IH]; intros L Hp Hk; [by apply Hk|done|].
  destruct ev; cbn in Hp |- *; try (intros x; apply IH; [apply Hp|done]);
    try (destruct Hp as [Hok Herr]; split; intros ?; apply IH; [apply Hok|done|apply Herr|done]).
  - destruct Hp as [Hok Herr]. split; intros *.
    + intros Hkey Hd. apply IH; [by apply Hok|]. intros L' a HL. apply Hk. set_solver.
    + apply IH; [apply Herr|done].
  - destruct Hp as (Hu & Hok & Herr). split; [done|].
    split; intros ?; apply IH; [apply Hok|done|apply Herr|done].
Qed.

Lemma safe_now L (k : Z -> prog response) :
  (forall t, safe L (k t)) -> safe L (emit Now ≫= k).
Proof. intros Hk t. apply Hk. Qed.

Lemma safe_only_now {A} L (p : prog A) (k : A -> prog response) :
  only_now p -> (forall a, safe L (k a)) -> safe L (p ≫= k).
Proof.
  intros Hp Hk. induction p as [a| |X ev h IH]; [apply Hk|done|].
  destruct ev; try done. intros t. apply IH, Hp.
Qed.

Lemma safe_vp_get L id (k : option VpSession -> prog response) :
  (forall o, safe L (k o)) -> safe L (emit (VpGetByID id) ≫= k).
Proof. intros Hk o. apply Hk. Qed.

Lemma safe_webhook L url d : safe L (fireWebhook url d).
Proof.
  unfold fireWebhook. case_match; [done|]. intros t. cbn. by case_match.
Qed.

Lemma safe_update_intro L id ns en p k :
  HistoryEntry_State en = ns ->
  (forall key d, meets L id key d -> keeps_at ns p d /\ apply_patch p d <> None) ->
  (forall d, safe L (k d)) -> safe L (update id ns en p k).
Proof. intros He Ha Hk. split; [done|]. split; [done|]. by intros []. Qed.

(** A patch that applies to every deposit. *)
Lemma safe_update_total L id ns en p k :
  HistoryEntry_State en = ns -> keeps ns p -> (forall d, apply_patch p d <> None) ->
  (forall d, safe L (k d)) -> safe L (update id ns en p k).
Proof. intros He Hp Ha Hk. apply safe_update_intro; [done| |done]. intros. split; [apply Hp|apply Ha]. Qed.
End Safe.

(** Walks through a handler up to its update. *)
Ltac walk_safe :=
  repeat first
    [ progress cbv beta
    | match goal with
      | |- safe _ (decode _ _) => unfold decode
      | |- safe _ (if ?b then _ else _) => destruct b eqn:?
      | |- safe _ (let _ := _ in _) => cbv zeta
      | |- safe _ (fetch _ _) => apply safe_fetch; intros ? ? ? ?
      | |- safe _ (transition _ _ _) => apply safe_transition
      | |- safe _ (writeError _ _ _) => done
      | |- safe _ (writeJSON _ _) => done
      | |- safe _ (writePDF _ _) => done
      | |- safe _ (emit Now ≫= _) => apply safe_now; intros ?
      | |- safe _ (Receipt.Generate _ _ ≫= _) =>
          apply safe_only_now; [apply Receipt.only_now_Generate|intros ?]
      | |- safe _ (Receipt.GenerateReleaseReceipt _ _ ≫= _) =>
          apply safe_only_now; [apply Receipt.only_now_GenerateReleaseReceipt|intros ?]
      | |- safe _ (match ?o with _ => _ end) => destruct o eqn:?
      end ].

Ltac safe_tail :=
  intros; repeat first [ apply safe_bind; [apply safe_webhook|intros ? ? ?]
                       | apply safe_bind; [done|intros ? ? ?] ]; done.

Section Handlers.
Context {RS SS AS : Type} `{RepositoryLaws RS} `{SessionLaws SS} `{IndexAllocatorLaws AS}.

Lemma safe_BuildSDJWT L lower sg kid url d vu ix :
  safe L (BuildSDJWT lower sg kid url d vu ix).
Proof.
  unfold BuildSDJWT. intros u t. cbn.
  apply (safe_bind _ (disclosures (sd_specs d vu t))).
  - generalize (sd_specs d vu t). intros specs. revert L.
    induction specs as [|[name v] specs IH]; intros L; [done|]. cbn [disclosures].
    apply safe_bind; [|intros L1 [[]|] _; [|done]].
    + intros [salt|]; [|done]. cbn. by case_match.
    + apply safe_bind; [apply IH|]. by intros L2 [[]|] _.
  - intros L' [[]|] _; [|done]. by case_match.
Qed.

Ltac total := apply safe_update_total; [done|by eauto with keeps|done|safe_tail].

Lemma handle_safe g c : safe [] (handle g c).
Proof.
  destruct c; cbn [handle].
  - unfold CreateDeposit. walk_safe. split; [done|]. by intros.
  - unfold GetDeposit. walk_safe.
  - unfold UpdateIdentity. walk_safe. unfold StateForIdentityUpdate in *.
    case_match; simplify_eq. total.
  - unfold Handlers.Pledge. walk_safe. total.
  - unfold Release. walk_safe. total.
  - unfold Claim. walk_safe. total.
  - unfold GetReceipt. walk_safe.
  - unfold GetReleaseReceipt. walk_safe.
  - unfold Settle. walk_safe; try total. exfalso.
    assert (is_Some (Deposit_Settlement d)) as [s Hs]; [|congruence].
    match goal with F : fields_ok _ |- _ => apply F end. left. apply String.eqb_eq.
    by destruct (String.eqb (lifecycle d) StatePledged), (String.eqb (lifecycle d) StateFunded),
      (String.eqb (lifecycle d) StateSettleProposed).
  - unfold SettleAccept. walk_safe. apply safe_update_intro; [done| |safe_tail].
    intros key' d' [Hk' Hb]. split; [apply keeps_accept|]. assert (below d d') as [Hset _ _]
      by (apply Hb; rewrite list_elem_of_singleton; congruence).
    destruct Hset as [s' Hs']; [by eexists|]. cbn. unfold patch_accept. by rewrite Hs'.
  - unfold Dispute. walk_safe. total.
  - unfold DisputeResolve. walk_safe. total.
  - unfold PartialRelease. walk_safe. total.
  - unfold UtilitySettle.
    walk_safe; (apply safe_update_intro; [done| |safe_tail]);
      (intros key' d' [Hk' Hb]; split; [by auto with keeps|]; assert (below d d') as [_ Hres _]
         by (apply Hb; rewrite list_elem_of_singleton; congruence);
       destruct Hres as [u' Hu']; [by eexists|]; cbn; unfold patch_reconciled; by rewrite Hu').
  - unfold IssueCredential. walk_safe. split; [|done]. intros idx. split; [|done]. done.
  - intros [x|]; [|done]. intros t. cbn. by case_match.
  - unfold Token. walk_safe. by intros [[]|].
  - unfold Credential. walk_safe. intros [x|]; [|done]. intros t. cbn.
    case_match; [done|]. unfold decode. do 2 (case_match; [done|]).
    split; [|done]. intros key d _ _. apply (safe_bind _ (BuildSDJWT _ _ _ _ _ _ _)).
    + apply safe_BuildSDJWT.
    + intros L' [[]|] _; [|done]. by intros [].
  - intros [st []]; [|done]. by intros t.
  - split; [|done]. intros l t. cbn. by case_match.
  - unfold CreateVpRequest. walk_safe. by intros x.
  - unfold ReceiveVpResponse. walk_safe. apply safe_vp_get. intros [x|]; walk_safe.
    apply safe_only_now; [apply only_now_VerifyVpToken|].
    intros [claims|err]; walk_safe.
    match goal with E : negb (String.eqb (lifecycle _) _) = false |- _ =>
      apply negb_false_iff, String.eqb_eq in E; rewrite E end.
    apply safe_update_intro; [done| |safe_tail]. intros key' d' [Hk' Hb]. split; [|done].
    apply keeps_wallet. left. assert (below d d') as [_ _ Hcon]
      by (apply Hb; rewrite list_elem_of_singleton; congruence).
    apply Hcon. match goal with F : fields_ok _ |- _ => apply F end. by right.
  - unfold VerifierHandlers.Validate. walk_safe.
Qed.

(** ** Configurations *)

Implicit Types w : world RS SS AS.

Definition all_fields_ok w : Prop := forall k d, deposits w !! k = Some d -> fields_ok d.

Definition grounded (L : list (string * Deposit)) w : Prop :=
  forall key d, (key, d) ∈ L -> exists d', deposits w !! key = Some d' /\ below d d'.

Definition grow w w' : Prop :=
  forall k d, deposits w !! k = Some d -> exists d', deposits w' !! k = Some d' /\ below d d'.

Lemma grow_refl w w' : w_repo w' = w_repo w -> grow w w'.
Proof. intros Hr k d Hd. exists d. unfold deposits in *. by rewrite Hr. Qed.

Lemma grounded_grow L w w' : grounded L w -> grow w w' -> grounded L w'.
Proof.
  intros HL Hg key d (d' & Hd' & Hb)%HL. destruct (Hg key d' Hd') as (d2 & Hd2 & Hb2).
  exists d2. split; [done|]. by etrans.
Qed.

Lemma grounded_meets L id key d w :
  grounded L w -> repo_key id = Some key -> deposits w !! key = Some d -> meets L id key d.
Proof.
  intros HL Hk Hd. split; [done|]. intros d0 (d' & Hd' & Hb)%HL. by simplify_eq.
Qed.

Lemma fields_ok_advance ns en t d0 d1 :
  fields_ok d0 -> texts_ok d0 -> HistoryEntry_State en = ns -> sql_entry ns en = true ->
  history d1 = history d0 -> carries ns d0 d1 -> fields_ok (stored (advance ns en t d1)).
Proof.
  intros (_ & _ & Hp) Ht He Hsql Hh Hc. apply (carries_stored ns en t) in Hc; [|done].
  unfold fields_ok. autorewrite with deposit. split_and!.
  - intros Hs. apply (carries_proposed _ _ _ Hc) in Hs.
    by autorewrite with deposit in Hs.
  - intros Hs. apply (carries_partial _ _ _ Hc) in Hs. by autorewrite with deposit in Hs.
  - rewrite (history_stored_advance _ _ _ d0), fmap_app by done. cbn. rewrite He. intros Hin.
    destruct (carries_pledge _ d0 _ Hc Hp Hin) as (p & Hpl & Hcon). by exists p.
Qed.

(** One event of a safe handler. *)
Lemma step_safe {R} L (p : prog R) e w :
  safe L p -> grounded L w -> all_fields_ok w ->
  let '(p', w') := step_prog p e w in
  (exists L', safe L' p' /\ grounded L' w') /\ all_fields_ok w' /\ grow w w'.
Proof.
  intros Hp HL Hf. destruct p as [r| |X ev k]; cbn [step_prog]; [|done|].
  { split; [by exists L|]. split; [done|by apply grow_refl]. }
  assert (forall (p' : prog R) w', w_repo w' = w_repo w -> safe L p' ->
    (exists L', safe L' p' /\ grounded L' w') /\ all_fields_ok w' /\ grow w w') as Hsame.
  { intros p' w' Hr Hp'. split; [exists L; split; [done|]|split; [|by apply grow_refl]].
    - by eapply grounded_grow, grow_refl.
    - intros k' d. unfold deposits. rewrite Hr. apply Hf. }
  destruct ev; cbn [safe] in Hp; cbn [exec]; try (apply Hsame; [done|apply Hp]).
  - (* RepoCreate *)
    destruct Hp as [Hok Herr]. pose proof (repo_create_cases e d (w_repo w)) as Hc.
    destruct (repo_Create e d (w_repo w)) as [r s]. cbn.
    destruct Hc as [[Hv [x ->]]|(key & Hk & Hn & Hv & Hr)].
    + assert (deposits (set_repo s w) = deposits w) as Hd by exact Hv.
      split; [exists L; split; [done|]|split].
      * intros k' d' Hin. rewrite Hd. by apply HL.
      * intros k' d'. rewrite Hd. apply Hf.
      * intros k' d' Hd'. exists d'. by rewrite Hd.
    + assert (deposits (set_repo s w) =
                <[key := stored (create_deposit (env_uuid e 0) (env_now e 0) d)]> (deposits w))
        as Hd by exact Hv.
      assert (grow w (set_repo s w)) as Hg.
      { intros k' d' Hd'. exists d'. rewrite Hd, lookup_insert_ne; [done|].
        unfold deposits in Hd'. congruence. }
      split; [exists L; split; [|by eapply grounded_grow]|split; [|done]].
      * destruct Hr as [->|[x ->]]; [apply Hok|apply Herr].
      * intros k' d'. rewrite Hd, lookup_insert_Some. intros [[_ <-]|[_ Hd']]; [|by eapply Hf].
        apply born_ok. split; [by autorewrite with deposit|].
        exists (env_now e 0). by autorewrite with deposit.
  - (* RepoGetByID *)
    destruct Hp as [Hok Herr]. pose proof (repo_get_pure e id (w_repo w)) as Hpure.
    pose proof (repo_get_ok e id (w_repo w)) as Hget.
    pose proof (repo_get_no_panic e id (w_repo w)) as Hnp. unfold in_repo.
    rewrite Hpure, set_repo_id. destruct (repo_GetByID e id (w_repo w)) as [[d|x|] s];
      cbn [fst] in *; [|by apply Hsame|done].
    destruct (Hget d eq_refl) as (key & Hk & Hv).
    split; [|split; [done|by apply grow_refl]].
    exists ((key, d) :: L). split; [by apply Hok; [|eapply Hf]|].
    intros k' d' [Heq|Hin]%elem_of_cons; [|by apply HL]. injection Heq as -> ->.
    by exists d.
  - (* RepoUpdateState *)
    destruct Hp as ((He & Happ) & Hok & Herr).
    pose proof (repo_update_cases e id ns en p (w_repo w)) as Hc.
    destruct (repo_UpdateState e id ns en p (w_repo w)) as [r s]. cbn.
    destruct Hc as [(-> & Hno & Hp)|(key & d0 & d1 & Hk & Hv & Hp & Hsql & Hv' & Hr)].
    + rewrite set_repo_id. destruct r as [|x|]; [done|by apply Hsame|]. exfalso.
      destruct (Hp eq_refl) as (key & d & Hk & Hv & Hn).
      by apply (Happ key d (grounded_meets L id key d w HL Hk Hv)).
    + destruct (Happ key d0 (grounded_meets L id key d0 w HL Hk Hv)) as [Hkeep _].
      destruct (Hkeep d1 Hp) as [Hh Hcar].
      assert (texts_ok d0) as Htexts by by eapply repo_view_texts.
      assert (deposits (set_repo s w) =
                <[key := stored (advance ns en (env_now e 0) d1)]> (deposits w)) as Hd by exact Hv'.
      assert (grow w (set_repo s w)) as Hg.
      { intros k' d' Hd'. rewrite Hd. destruct (decide (key = k')) as [<-|Hne].
        - rewrite lookup_insert_eq. eexists. split; [done|].
          unfold deposits in Hd'. assert (d' = d0) as -> by congruence.
          by apply (carries_below ns), carries_stored.
        - rewrite lookup_insert_ne by done. by exists d'. }
      split; [exists L; split; [|by eapply grounded_grow]|split; [|done]].
      * destruct Hr as [->|[x ->]]; [apply Hok|apply Herr].
      * intros k' d'. rewrite Hd, lookup_insert_Some. intros [[_ <-]|[_ Hd']]; [|by eapply Hf].
        apply (fields_ok_advance _ _ _ d0); [by eapply Hf|done..].
  - (* SessCreate *)
    pose proof (sess_create_no_panic e depositID validUntil ix (w_sessions w)) as Hnp.
    destruct (ss_Create e depositID validUntil ix (w_sessions w)) as [[x|x|] s]; cbn in *;
      [apply Hsame; [done|apply Hp]..|done].
  - pose proof (sess_indices_no_panic e (w_sessions w)) as Hnp.
    destruct (ss_RevokedStatusListIndices e (w_sessions w)); cbn in *;
      [apply Hsame; [done|apply Hp]..|done].
  - pose proof (alloc_no_panic e (w_alloc w)) as Hnp.
    destruct (AllocateIndex e (w_alloc w)) as [[x|x|] a]; cbn in *;
      [apply Hsame; [done|apply Hp]..|done].
Qed.

(** Every request in flight is safe for what it has read. *)
Definition pool_safe {R} (pool : list (prog R)) w : Prop :=
  forall i p, pool !! i = Some p -> exists L, safe L p /\ grounded L w.

Lemma pool_safe_start g calls w : pool_safe (map (handle g) calls) w.
Proof.
  intros j p Hj. apply list_lookup_fmap_Some in Hj as (c & -> & _).
  exists []. split; [apply handle_safe|]. by intros key d ?%elem_of_nil.
Qed.

Lemma step_pool_safe {R} i e (pool : list (prog R)) w :
  all_fields_ok w -> pool_safe pool w ->
  let '(pool', w') := step i e (pool, w) in all_fields_ok w' /\ pool_safe pool' w'.
Proof.
  intros Hf Hp. unfold step. cbn. destruct (pool !! i) as [p|] eqn:Hi; [|done].
  destruct (Hp i p Hi) as (L & HsL & HgL).
  pose proof (step_safe L p e w HsL HgL Hf) as Hstep.
  destruct (step_prog p e w) as [p' w']. destruct Hstep as ((L' & Hs' & Hg') & Hf' & Hgrow).
  split; [done|]. intros j q. destruct (decide (i = j)) as [<-|Hne].
  - rewrite list_lookup_insert_eq by (by eapply lookup_lt_Some). intros [= <-]. by exists L'.
  - rewrite list_lookup_insert_ne by done. intros Hq. destruct (Hp j q Hq) as (L2 & ? & ?).
    exists L2. split; [done|]. by eapply grounded_grow.
Qed.

Lemma steps_safe {R} sched (pool : list (prog R)) w :
  all_fields_ok w -> pool_safe pool w ->
  let '(pool', w') := steps sched (pool, w) in all_fields_ok w' /\ pool_safe pool' w'.
Proof.
  revert pool w. induction sched as [|[i e] sched IH]; intros pool w Hf Hp; cbn; [done|].
  pose proof (step_pool_safe i e pool w Hf Hp) as Hstep.
  destruct (step i e (pool, w)) as [pool' w']. destruct Hstep. by apply IH.
Qed.

(** C2: no handler panics: in every interleaving of any number of requests at their calls into
    the stores, with any clock, identifiers and database faults, no request dereferences a nil
    settlement or utility reservation, although every handler writes after having read a
    possibly stale deposit; and the facts about the fields that make it so (a deposit in
    SETTLE_PROPOSED or DISPUTED has a settlement, one in PARTIALLY_RELEASED a reservation, one
    that was ever PLEDGED a confirmed pledge) hold of every stored deposit throughout. *)
Theorem no_panic_under_interleaving g calls sched w i :
  all_fields_ok w ->
  let '(pool, w') := steps sched (map (handle g) calls, w) in
  pool !! i <> Some Crash /\ all_fields_ok w'.
Proof.
  intros Hf. pose proof (steps_safe sched (map (handle g) calls) w Hf) as Hs.
  destruct (steps sched _) as [pool w']. destruct Hs as [Hf' Hp]; [apply pool_safe_start|].
  split; [|done]. intros Hc. by destruct (Hp i Crash Hc) as (L & [] & _).
Qed.
End Handlers.
