(* ===== verification/AuditLog.v ===== *)
(** * The audit log under concurrent requests

    The API on PostgreSQL: state column, document and audit log of every
    deposit agree, however requests interleave at their database calls. *)

From S2P Require Import Prelude Float64 Calendar Models JsonModels Runtime Postgres Repository.
From S2P Require Import Sessions SessionLaws StatusList Server Credential Handlers IssuerHandlers.
From S2P Require Import Logic Api Lifecycle Concurrency.

Section AuditLog.
Context (uuid_key : string -> option string).
Context {SS AS : Type} `{SessionLaws SS} `{IndexAllocatorLaws AS}.
#[local] Hint Extern 0 (Repository tables) => exact (PostgresRepo uuid_key) : typeclass_instances.
#[local] Hint Extern 0 (RepositoryLaws tables) => exact (postgres_laws uuid_key) : typeclass_instances.
Implicit Types w : world tables SS AS.

(** One event of a safe handler: its updates name the state they lead to and
    leave the history of what they meet alone. *)
Lemma step_tables_ok {R} L (p : prog R) e w :
  safe (RS := tables) L p -> grounded L w -> tables_ok (w_repo w) -> tables_ok (w_repo (step_prog p e w).2).
Proof.
  intros Hp HL Hok. destruct p as [r| |X ev k]; [done|done|].
  destruct ev; cbn [step_prog exec] in *; unfold in_repo; try done.
  - pose proof (create_preserves uuid_key e d _ Hok) as Hc.
    by destruct (repo_Create e d (w_repo w)) eqn:E; cbn in E; rewrite E in Hc.
  - pose proof (get_preserves uuid_key e id _ Hok) as Hc.
    by destruct (repo_GetByID e id (w_repo w)) eqn:E; cbn in E; rewrite E in Hc.
  - destruct Hp as ((He & Happ) & _).
    assert (tables_ok (Postgres.run (UpdateState uuid_key id ns en p) e (w_repo w)).2) as Hc.
    { apply update_preserves; [done| |done]. intros key d d' Hk Hv Ha.
      apply (Happ key d (grounded_meets L id key d w HL Hk Hv)), Ha. }
    by destruct (repo_UpdateState e id ns en p (w_repo w)) eqn:E; cbn in E; rewrite E in Hc.
  - by destruct (AllocateIndex _ _).
Qed.

Lemma steps_tables_ok {R} sched (pool : list (prog R)) w :
  all_fields_ok w -> pool_safe pool w -> tables_ok (w_repo w) ->
  tables_ok (w_repo (steps sched (pool, w)).2).
Proof.
  revert pool w. induction sched as [|[i e] sched IH]; intros pool w Hf Hp Hok; cbn; [done|].
  pose proof (step_pool_safe i e pool w Hf Hp) as Hstep.
  assert (tables_ok (w_repo (step i e (pool, w)).2)) as Hok'.
  { unfold step. cbn. destruct (pool !! i) as [p|] eqn:Hi; [|done].
    destruct (Hp i p Hi) as (L & Hs & Hg). pose proof (step_tables_ok L p e w Hs Hg Hok).
    by destruct (step_prog p e w). }
  destruct (step i e (pool, w)) as [pool' w']. destruct Hstep. by apply IH.
Qed.

(** C18: the audit log is the history of the documents. From empty PostgreSQL tables, let any
    number of API calls run, interleaved in any way at their calls into the stores, with
    whatever clock, identifiers and database faults: at every moment the lifecycle_state column
    of every row is the state in its document and the state of its last history entry, and the
    rows of deposit_history for that deposit are the entries of the document's history, in
    order, with state, time, actor, comment and signature, except that the row of the first
    entry may be missing (Create writes its two rows outside a transaction); no audit row
    belongs to a deposit that is not there. *)
Theorem audit_log_consistent g calls sched w :
  w_repo w = empty_tables ->
  tables_ok (w_repo (steps sched (map (handle g) calls, w)).2).
Proof.
  intros Hw. apply steps_tables_ok; [|apply pool_safe_start|rewrite Hw; apply empty_tables_ok].
  intros k d. unfold deposits. rewrite Hw. change (pg_view empty_tables !! k = Some d -> fields_ok d).
  rewrite pg_view_lookup. unfold empty_tables. cbn [t_deposits]. by rewrite lookup_empty.
Qed.
End AuditLog.
