(* ===== verification/Proposals.v ===== *)
(** * Settlement proposals: what [Settle] records

    The parties take turns; the first proposal fixes who initiated; the total
    is the floating-point sum of the items in their order, and a total that
    overflows is not stored. *)

From Stdlib Require Import Floats.SpecFloat.
From S2P Require Import Prelude Float64 Calendar Fmt Models Json JsonModels Statemachine.
From S2P Require Import Runtime Repository Sessions SessionLaws StatusList Server Credential.
From S2P Require Import Handlers IssuerHandlers Logic Api Lifecycle Effects.

Local Open Scope Z_scope.

(** ** The loop *)

Definition total_claimed (l : list ClaimItemInput) : float64 :=
  fold_left (fun t inp => f64_add t (ClaimItemInput_AmountClaimed inp)) l f64_zero.

Lemma claim_items_spec i t l :
  claim_items i t l =
  (fold_left (fun t inp => f64_add t (ClaimItemInput_AmountClaimed inp)) l t,
   imap (fun j => claim_item (i + Z.of_nat j)) l).
Proof.
  revert i t. induction l as [|inp l IH]; intros i t; [done|]. cbn [claim_items fold_left].
  rewrite IH. rewrite imap_cons. rewrite Z.add_0_r. do 2 f_equal.
  apply imap_ext. intros j x _. cbn [compose]. f_equal. lia.
Qed.

(** An item with a description and an amount above zero. *)
Definition valid_item (inp : ClaimItemInput) : Prop :=
  f64_le (ClaimItemInput_AmountClaimed inp) f64_zero = false /\
  ClaimItemInput_Description inp <> "".

Lemma valid_items l : existsb invalid_item l = false -> Forall valid_item l.
Proof.
  induction l as [|inp l IH]; [constructor|]. cbn.
  intros [Hi Hl]%orb_false_iff. constructor; [|by apply IH].
  apply orb_false_iff in Hi as [? ?%String.eqb_neq]. by split.
Qed.

(** What a granted [Settle] leaves in the deposit. *)
Record proposed (req : SettleRequest) (now : instant) (d d' : Deposit) (s : Settlement) : Prop := {
  proposed_stored : Deposit_Settlement d' = Some s;
  proposed_state : lifecycle d' = StateSettleProposed;
  proposed_by : Settlement_LastProposedBy s = SettleRequest_InitiatedBy req;
  proposed_at : Settlement_LastProposedAt s = now;
  proposed_items : Settlement_ClaimItems s =
    imap (fun j => claim_item (Z.of_nat j)) (SettleRequest_ClaimItems req);
  proposed_total : Settlement_TotalClaimed s = total_claimed (SettleRequest_ClaimItems req);
  proposed_amounts :
    Settlement_ProposedTenantRefund s = SettleRequest_ProposedTenantRefund req /\
    Settlement_ProposedLandlordRetention s = SettleRequest_ProposedLandlordRetention req;
  proposed_open : Settlement_AgreedTenantRefund s = f64_zero /\
    Settlement_AgreedLandlordRetention s = f64_zero;
  proposed_deadline : Settlement_ResponseDeadline s = format_day (now + 14 * day);
  (* nobody answers his own proposal, and the initiator stays *)
  proposed_turn :
    (lifecycle d = StatePledged \/ lifecycle d = StateFunded) /\
      Settlement_InitiatedBy s = SettleRequest_InitiatedBy req /\ Settlement_InitiatedAt s = now \/
    lifecycle d = StateSettleProposed /\ exists s0, Deposit_Settlement d = Some s0 /\
      Settlement_LastProposedBy s0 <> SettleRequest_InitiatedBy req /\
      Settlement_InitiatedBy s = Settlement_InitiatedBy s0 /\
      Settlement_InitiatedAt s = Settlement_InitiatedAt s0 }.

Section Proposals.
Context {RS SS AS : Type} `{RepositoryLaws RS} `{SessionStore SS} `{IndexAllocator AS}.
Implicit Types w : world RS SS AS.

Lemma proposal_fields req now by_ at_ (s := proposal req now by_ at_) :
  Settlement_LastProposedBy s = SettleRequest_InitiatedBy req /\
  Settlement_LastProposedAt s = now /\ Settlement_InitiatedBy s = by_ /\
  Settlement_InitiatedAt s = at_ /\
  Settlement_ClaimItems s =
    imap (fun j => claim_item (Z.of_nat j)) (SettleRequest_ClaimItems req) /\
  Settlement_TotalClaimed s = total_claimed (SettleRequest_ClaimItems req) /\
  (Settlement_ProposedTenantRefund s = SettleRequest_ProposedTenantRefund req /\
   Settlement_ProposedLandlordRetention s = SettleRequest_ProposedLandlordRetention req) /\
  (Settlement_AgreedTenantRefund s = f64_zero /\
   Settlement_AgreedLandlordRetention s = f64_zero) /\
  Settlement_ResponseDeadline s = format_day (now + 14 * day).
Proof.
  subst s. unfold proposal. rewrite claim_items_spec. cbn. by rewrite add_date_days.
Qed.

Lemma settle_grants ok g id r w :
  wp ok (handle g (CallSettle id r))
    (fun o w' => forall resp, o = Some resp -> status resp = StatusOK ->
       is_party (SettleRequest_InitiatedBy (value r)) = true /\
       SettleRequest_ClaimItems (value r) <> [] /\
       Forall valid_item (SettleRequest_ClaimItems (value r)) /\
       exists key d d' s now, repo_key id = Some key /\ deposits w !! key = Some d /\
         body resp = PDeposit d' /\ deposits w' = <[key := stored d']> (deposits w) /\
         proposed (value r) now d d' s) w.
Proof.
  cbn [handle]. unfold Settle. walk_with ltac:(idtac; refused); [| |by intros ? [=]].
  all: (eapply wp_mono; [apply (wp_update_grants ok id _ _ _ _ eq); solve_tail_ok|]).
  all: intros o w' Hg resp Ho Hs.
  all: destruct (Hg resp Ho Hs) as [(key' & d0 & d1 & t' & Hk & Hv & Hp & _ & Hb & Hw) _].
  all: unfold deposits in Hv; assert (key' = key) as -> by congruence;
    assert (d0 = d) as -> by congruence; injection Hp as <-.
  all: split; [by apply negb_false_iff|]; split; [by apply bool_decide_eq_false in Heqb1|];
    split; [by apply valid_items|].
  - pose proof (proposal_fields (value r) t (SettleRequest_InitiatedBy (value r)) t)
      as (Hf1 & Hf2 & Hf3 & Hf4 & Hf5 & Hf6 & Hf7 & Hf8 & Hf9).
    eexists key, d, _, (proposal (value r) t _ t), t. split_and!; try done.
    split; try done; [by autorewrite with deposit; destruct d|by autorewrite with deposit|].
    left. apply orb_true_iff in Heqb5. rewrite !String.eqb_eq in Heqb5. done.
  - pose proof (proposal_fields (value r) t (Settlement_InitiatedBy s) (Settlement_InitiatedAt s))
      as (Hf1 & Hf2 & Hf3 & Hf4 & Hf5 & Hf6 & Hf7 & Hf8 & Hf9).
    destruct (String.eqb (lifecycle d) StateSettleProposed) eqn:E;
      [|by destruct (_ || _)].
    eexists key, d, _, (proposal (value r) t _ _), t. split_and!; try done.
    split; try done; [by autorewrite with deposit; destruct d|by autorewrite with deposit|].
    right. split; [by apply String.eqb_eq|]. exists s. split_and!; try done.
    by apply String.eqb_neq.
Qed.

(** C31: a 200 of Settle means that a party proposed, with at least one claim item and every
    item described and above zero, and that the stored settlement is the request: items in order
    with their numbers, total the sum of the amounts in order, proposed split as requested,
    nothing agreed yet, an answer due in 14 days, the proposer as last proposer, the initiator
    kept across counter-proposals, and a party never counters itself. *)
Theorem settle_records_the_proposal g id r envs w resp w' :
  run (handle g (CallSettle id r)) envs w = (Some resp, w') -> status resp = StatusOK ->
  is_party (SettleRequest_InitiatedBy (value r)) = true /\
  SettleRequest_ClaimItems (value r) <> [] /\
  Forall valid_item (SettleRequest_ClaimItems (value r)) /\
  exists key d d' s now, repo_key id = Some key /\ deposits w !! key = Some d /\
    body resp = PDeposit d' /\ deposits w' = <[key := stored d']> (deposits w) /\
    proposed (value r) now d d' s.
Proof.
  intros Hrun Hs.
  pose proof (wp_run (fun _ => True) _ _ w envs (settle_grants (fun _ => True) g id r w)
    ltac:(done)) as Hg.
  rewrite Hrun in Hg. exact (Hg resp eq_refl Hs).
Qed.
End Proposals.

(** ** Overflow *)

Lemma venc_float x j : venc float_codec x = Some j -> f64_finite x = true.
Proof. cbn. by destruct (f64_finite x). Qed.

Lemma fenc_pair {A B} (c1 : fcodec A) (c2 : fcodec B) a b l :
  fenc (fpair c1 c2) (a, b) = Some l -> is_Some (fenc c1 a) /\ is_Some (fenc c2 b).
Proof. intros (l1 & E1 & (l2 & E2 & _)%bind_Some)%bind_Some. split; by eexists. Qed.

Lemma fenc_field {A} n (c : vcodec A) a l : fenc (field n c) a = Some l -> is_Some (venc c a).
Proof. by intros (j & -> & _)%fmap_Some. Qed.

Lemma fenc_ptr {A} n (c : vcodec A) a l : fenc (field_ptr n c) (Some a) = Some l -> is_Some (venc c a).
Proof. by intros (j & -> & _)%fmap_Some. Qed.

Lemma venc_struct {A B} (f : A -> B) (g : B -> A) (c : fcodec A) b j :
  venc (struct_codec (fiso f g c)) b = Some j -> is_Some (fenc c (g b)).
Proof. cbn. intros (l & Hl & _)%fmap_Some. by exists l. Qed.

Lemma venc_list {A} (c : vcodec A) l j :
  venc (list_codec c) l = Some j -> Forall (fun a => is_Some (venc c a)) l.
Proof.
  cbn. intros (js & Hjs & _)%fmap_Some. revert js Hjs.
  induction l as [|a l IH]; intros js; [constructor|]. cbn.
  intros (j' & Hj & (js' & Hjs' & _)%bind_Some)%bind_Some. constructor; [by eexists|by eapply IH].
Qed.

(** Takes the encoding of a struct apart, field by field. *)
Ltac split_fields H :=
  repeat (let E := fresh "E" in apply fenc_pair in H as [E [? H]]).

Ltac finite_field :=
  match goal with
  | E : is_Some (fenc (field _ float_codec) ?x) |- f64_finite ?x = true =>
      destruct E as [? E]; apply fenc_field in E as [? E]; by apply venc_float in E
  end.

(** No settlement with an infinite or NaN amount is ever stored: json.Marshal refuses it, so
    an overflowing total makes the update fail. *)
Theorem stored_settlement_is_finite d j s :
  marshal d = Some j -> Deposit_Settlement d = Some s ->
  f64_finite (Settlement_TotalClaimed s) = true /\
  f64_finite (Settlement_ProposedTenantRefund s) = true /\
  f64_finite (Settlement_ProposedLandlordRetention s) = true /\
  Forall (fun i => f64_finite (ClaimItem_AmountClaimed i) = true) (Settlement_ClaimItems s).
Proof.
  intros Hj Hs. apply venc_struct in Hj as [l Hl]. unfold Deposit_fields in Hl.
  split_fields Hl. rewrite Hs in *. destruct E9 as [? E9]. apply fenc_ptr in E9 as [? E9].
  apply venc_struct in E9 as [l' Hl']. unfold Settlement_fields in Hl'. clear -Hl'.
  split_fields Hl'. split_and!; [finite_field..|].
  match goal with E : is_Some (fenc (field _ (list_codec _)) _) |- _ =>
    destruct E as [? E]; apply fenc_field in E as [? E]; apply venc_list in E;
    eapply Forall_impl; [exact E|] end.
  intros it [ji Hit]. apply venc_struct in Hit as [li Hli]. unfold ClaimItem_fields in Hli.
  clear -Hli. split_fields Hli. finite_field.
Qed.
