(* ===== verification/Interop.v ===== *)
(** * Documents between the server and the Go SDK

    When the JSON form of one type is read as another: the deposits of the
    server as the SDK reads them, and the SDK's as the server reads them. *)

From S2P Require Import Prelude Float64 Calendar Models Json JsonModels Runtime Repository.
From S2P Require Import Sessions Base64 Utf8 JsonText SdkModels StatusList Server Handlers Api.

Local Open Scope Z_scope.

(** ** One codec reads what another wrote *)

Definition reads_as {A B} (c1 : vcodec A) (c2 : vcodec B) : Prop :=
  forall a j, venc c1 a = Some j -> is_Some (vdec c2 j).
Definition fields_read_as {A B} (c1 : fcodec A) (c2 : fcodec B) : Prop :=
  forall a l, fenc c1 a = Some l -> is_Some (fdec c2 l).

(** A codec of the one member [n], its value written with [c], read with [c']. *)
Record leaf {A} (n : string) {B} (c : vcodec B) (k : fcodec A) : Prop := {
  leaf_names : fnames k = [n];
  leaf_enc a l : fenc k a = Some l ->
    member n l = None \/ exists b j, venc c b = Some j /\ member n l = Some j;
  leaf_absent l : member n l = None -> fdec k l = Some (fzero k);
  leaf_present l j : member n l = Some j -> is_Some (vdec c j) -> is_Some (fdec k l);
  leaf_only l l' : member n l = member n l' -> fdec k l = fdec k l' }.

Lemma member_one n j : member n [(n, j)] = Some j.
Proof. cbn. by rewrite String.eqb_refl. Qed.

Lemma leaf_field {A} n (c : vcodec A) : leaf n c (field n c).
Proof.
  split; cbn; try done.
  - intros a l (j & Hj & ->)%fmap_Some. right. exists a, j. split; [done|]. apply member_one.
  - by intros l ->.
  - by intros l j ->.
  - by intros l l' ->.
Qed.

Lemma leaf_omit {A} n (c : vcodec A) : leaf n c (field_omit n c).
Proof.
  split; cbn; try done.
  - intros a l. case_match; [intros [= <-]; by left|]. intros (j & Hj & ->)%fmap_Some.
    right. exists a, j. split; [done|]. apply member_one.
  - by intros l ->.
  - by intros l j ->.
  - by intros l l' ->.
Qed.

Lemma leaf_ptr {A} n (c : vcodec A) : leaf n c (field_ptr n c).
Proof.
  split; cbn; try done.
  - intros [a|] l; [|intros [= <-]; by left]. intros (j & Hj & ->)%fmap_Some.
    right. exists a, j. split; [done|]. apply member_one.
  - by intros l ->.
  - intros l j ->. unfold ptr_dec. intros [b Hb]. rewrite Hb. by destruct j; eexists.
  - by intros l l' ->.
Qed.

Section Reading.
Context {A B C D : Type}.

Lemma read_pair (c : fcodec A) (d : fcodec B) (e : fcodec C) :
  fields_read_as c d -> fields_read_as c e -> fields_read_as c (fpair d e).
Proof.
  intros Hd He a l Hl. destruct (Hd a l Hl) as [b Hb]. destruct (He a l Hl) as [x Hx].
  cbn. rewrite Hb. cbn. rewrite Hx. by eexists.
Qed.

Lemma members_off n {T} (c : fcodec T) `{FCodec T c} a l :
  fenc c a = Some l -> existsb (String.eqb n) (fnames c) = false -> member n l = None.
Proof.
  intros Hl Hn. apply member_off. intros Hin%(fenc_names a l Hl).
  apply not_true_iff_false in Hn. apply Hn, existsb_exists. exists n.
  split; [by apply list_elem_of_In|apply String.eqb_refl].
Qed.

(** The member is in the first or the second half of the written fields. *)
Lemma read_left n (k : vcodec D) (c1 : fcodec A) (c2 : fcodec B) (d : fcodec C) :
  leaf n k d -> FCodec c2 -> existsb (String.eqb n) (fnames c2) = false ->
  fields_read_as c1 d -> fields_read_as (fpair c1 c2) d.
Proof.
  intros Hd Hc Hn H1 [a b] l (l1 & E1 & (l2 & E2 & [= <-])%bind_Some)%bind_Some.
  rewrite (leaf_only _ _ _ Hd _ l1); [by eapply H1|].
  rewrite member_app. by rewrite (members_off n c2 _ _ E2 Hn).
Qed.

Lemma read_right n (k : vcodec D) (c1 : fcodec A) (c2 : fcodec B) (d : fcodec C) :
  leaf n k d -> FCodec c1 -> existsb (String.eqb n) (fnames c1) = false ->
  fields_read_as c2 d -> fields_read_as (fpair c1 c2) d.
Proof.
  intros Hd Hc Hn H2 [a b] l (l1 & E1 & (l2 & E2 & [= <-])%bind_Some)%bind_Some.
  rewrite (leaf_only _ _ _ Hd _ l2); [by eapply H2|].
  rewrite member_app, (members_off n c1 _ _ E1 Hn). by destruct (member n l2).
Qed.

Lemma read_absent n (k : vcodec D) (c : fcodec A) (d : fcodec C) :
  leaf n k d -> FCodec c -> existsb (String.eqb n) (fnames c) = false -> fields_read_as c d.
Proof.
  intros Hd Hc Hn a l Hl. rewrite (leaf_absent _ _ _ Hd); [by eexists|]. by eapply members_off.
Qed.

Lemma read_here n (k1 : vcodec B) (k2 : vcodec D) (c : fcodec A) (d : fcodec C) :
  leaf n k1 c -> leaf n k2 d -> reads_as k1 k2 -> fields_read_as c d.
Proof.
  intros Hc Hd Hr a l Hl. destruct (leaf_enc _ _ _ Hc a l Hl) as [Hn|(b & j & Hb & Hn)].
  - rewrite (leaf_absent _ _ _ Hd) by done. by eexists.
  - eapply leaf_present; [exact Hd|exact Hn|]. by eapply Hr.
Qed.

Lemma read_struct {A' C'} (f : A -> A') g (f' : C -> C') g' (c : fcodec A) (d : fcodec C) :
  fields_read_as c d -> reads_as (struct_codec (fiso f g c)) (struct_codec (fiso f' g' d)).
Proof.
  intros H a j (l & Hl & ->)%fmap_Some. destruct (H _ l Hl) as [b Hb]. cbn. rewrite Hb. by eexists.
Qed.

Lemma read_list (c : vcodec A) (d : vcodec C) : reads_as c d -> reads_as (list_codec c) (list_codec d).
Proof.
  intros H l j (js & Hjs%mapM_Some & ->)%fmap_Some. cbn. apply mapM_is_Some.
  induction Hjs as [|a j l js Ha _ IH]; constructor; [by eapply H|done].
Qed.

Lemma read_same (c : vcodec A) : VCodec c -> reads_as c c.
Proof. intros Hc a j Hj. rewrite (vdec_venc _ _ Hj). by eexists. Qed.
End Reading.

(** Walks to the member with the same name. *)
Ltac leaf_of :=
  match goal with
  | |- leaf _ _ (field _ _) => apply leaf_field
  | |- leaf _ _ (field_omit _ _) => apply leaf_omit
  | |- leaf _ _ (field_ptr _ _) => apply leaf_ptr
  end.
Ltac codec_law := repeat (apply fpair_law; [apply _| |reflexivity]); apply _.
Ltac read_member :=
  first [ eapply read_here; [leaf_of|leaf_of|]
        | eapply read_left; [leaf_of|codec_law|reflexivity|]; read_member
        | eapply read_right; [leaf_of|codec_law|reflexivity|]; read_member
        | eapply read_absent; [leaf_of|codec_law|reflexivity] ].
Ltac read_values :=
  match goal with
  | |- reads_as (list_codec _) (list_codec _) => apply read_list; read_values
  | |- reads_as ?c ?c => apply read_same; apply _
  | |- reads_as _ _ => first [ eassumption | done | idtac ]
  end.
Ltac read_fields := repeat apply read_pair; read_member; read_values.

(** ** The structs of the two models *)

Ltac read_structs c d := apply read_struct; unfold c, d; read_fields.

Lemma Address_read : reads_as Address_codec Sdk.Address_codec.
Proof. read_structs Address_fields Sdk.Address_fields. Qed.
Lemma WalletMetadata_read : reads_as WalletMetadata_codec Sdk.WalletMetadata_codec.
Proof. read_structs WalletMetadata_fields Sdk.WalletMetadata_fields. Qed.
Lemma Tenant_read : reads_as Tenant_codec Sdk.Tenant_codec.
Proof.
  pose proof Address_read. pose proof WalletMetadata_read.
  read_structs Tenant_fields Sdk.Tenant_fields.
Qed.
Lemma Landlord_read : reads_as Landlord_codec Sdk.Landlord_codec.
Proof. read_structs Landlord_fields Sdk.Landlord_fields. Qed.
Lemma Property_read : reads_as Property_codec Sdk.Property_codec.
Proof. pose proof Address_read. read_structs Property_fields Sdk.Property_fields. Qed.
Lemma Pledge_read : reads_as Pledge_codec Sdk.Pledge_codec.
Proof. read_structs Pledge_fields Sdk.Pledge_fields. Qed.
Lemma InterestRateEntry_read : reads_as InterestRateEntry_codec Sdk.InterestRateEntry_codec.
Proof. read_structs InterestRateEntry_fields Sdk.InterestRateEntry_fields. Qed.
Lemma Trusteeship_read : reads_as Trusteeship_codec Sdk.Trusteeship_codec.
Proof. pose proof InterestRateEntry_read. read_structs Trusteeship_fields Sdk.Trusteeship_fields. Qed.
Lemma Provider_read : reads_as Provider_codec Sdk.Provider_codec.
Proof. read_structs Provider_fields Sdk.Provider_fields. Qed.
Lemma Meta_read : reads_as Meta_codec Sdk.Meta_codec.
Proof. read_structs Meta_fields Sdk.Meta_fields. Qed.
Lemma Deposit_read : reads_as Deposit_codec Sdk.Deposit_codec.
Proof.
  pose proof Tenant_read. pose proof Landlord_read. pose proof Property_read.
  pose proof Pledge_read. pose proof Trusteeship_read. pose proof Provider_read.
  pose proof Meta_read. read_structs Deposit_fields Sdk.Deposit_fields.
Qed.

Lemma sdk_Address_read : reads_as Sdk.Address_codec Address_codec.
Proof. read_structs Address_fields Sdk.Address_fields. Qed.
Lemma sdk_WalletMetadata_read : reads_as Sdk.WalletMetadata_codec WalletMetadata_codec.
Proof. read_structs WalletMetadata_fields Sdk.WalletMetadata_fields. Qed.
Lemma sdk_Tenant_read : reads_as Sdk.Tenant_codec Tenant_codec.
Proof.
  pose proof sdk_Address_read. pose proof sdk_WalletMetadata_read.
  read_structs Tenant_fields Sdk.Tenant_fields.
Qed.
Lemma sdk_Landlord_read : reads_as Sdk.Landlord_codec Landlord_codec.
Proof. read_structs Landlord_fields Sdk.Landlord_fields. Qed.
Lemma sdk_Property_read : reads_as Sdk.Property_codec Property_codec.
Proof. pose proof sdk_Address_read. read_structs Property_fields Sdk.Property_fields. Qed.
Lemma sdk_Pledge_read : reads_as Sdk.Pledge_codec Pledge_codec.
Proof. read_structs Pledge_fields Sdk.Pledge_fields. Qed.
Lemma sdk_InterestRateEntry_read : reads_as Sdk.InterestRateEntry_codec InterestRateEntry_codec.
Proof. read_structs InterestRateEntry_fields Sdk.InterestRateEntry_fields. Qed.
Lemma sdk_Trusteeship_read : reads_as Sdk.Trusteeship_codec Trusteeship_codec.
Proof.
  pose proof sdk_InterestRateEntry_read. read_structs Trusteeship_fields Sdk.Trusteeship_fields.
Qed.
Lemma sdk_Provider_read : reads_as Sdk.Provider_codec Provider_codec.
Proof. read_structs Provider_fields Sdk.Provider_fields. Qed.
Lemma sdk_Meta_read : reads_as Sdk.Meta_codec Meta_codec.
Proof. read_structs Meta_fields Sdk.Meta_fields. Qed.
Lemma sdk_Deposit_read : reads_as Sdk.Deposit_codec Deposit_codec.
Proof.
  pose proof sdk_Tenant_read. pose proof sdk_Landlord_read. pose proof sdk_Property_read.
  pose proof sdk_Pledge_read. pose proof sdk_Trusteeship_read. pose proof sdk_Provider_read.
  pose proof sdk_Meta_read. read_structs Deposit_fields Sdk.Deposit_fields.
Qed.

(** ** Values that survive *)

Lemma at_left {A B} n (c1 : fcodec A) (c2 : fcodec B) p l :
  FCodec c2 -> existsb (String.eqb n) (fnames c2) = false -> fenc (fpair c1 c2) p = Some l ->
  exists l1, fenc c1 p.1 = Some l1 /\ member n l = member n l1.
Proof.
  intros Hc Hn (l1 & E1 & (l2 & E2 & [= <-])%bind_Some)%bind_Some. exists l1. split; [done|].
  by rewrite member_app, (members_off n c2 _ _ E2 Hn).
Qed.

Lemma at_right {A B} n (c1 : fcodec A) (c2 : fcodec B) p l :
  FCodec c1 -> existsb (String.eqb n) (fnames c1) = false -> fenc (fpair c1 c2) p = Some l ->
  exists l2, fenc c2 p.2 = Some l2 /\ member n l = member n l2.
Proof.
  intros Hc Hn (l1 & E1 & (l2 & E2 & [= <-])%bind_Some)%bind_Some. exists l2. split; [done|].
  rewrite member_app, (members_off n c1 _ _ E1 Hn). by destruct (member n l2).
Qed.

Lemma at_field {A} n (c : vcodec A) a l :
  fenc (field n c) a = Some l -> exists j, venc c a = Some j /\ member n l = Some j.
Proof. intros (j & Hj & ->)%fmap_Some. exists j. split; [done|]. apply member_one. Qed.

Lemma fpair_dec {A B} (c : fcodec A) (d : fcodec B) l p :
  fdec (fpair c d) l = Some p -> fdec c l = Some p.1 /\ fdec d l = Some p.2.
Proof. by intros (a & -> & (b & -> & [= <-])%bind_Some)%bind_Some. Qed.

Lemma struct_dec {A B} (f : A -> B) g (c : fcodec A) l b :
  vdec (struct_codec (fiso f g c)) (JObj l) = Some b -> exists a, fdec c l = Some a /\ b = f a.
Proof. intros (a & Ha & ->)%fmap_Some. by exists a. Qed.

Lemma struct_enc {A B} (f : A -> B) g (c : fcodec A) b j :
  venc (struct_codec (fiso f g c)) b = Some j -> exists l, j = JObj l /\ fenc c (g b) = Some l.
Proof. intros (l & Hl & ->)%fmap_Some. by exists l. Qed.

(** Finds the value written under the name [n]; splits what was read. *)
Ltac locate n H :=
  lazymatch type of H with
  | fenc (fpair ?c1 ?c2) ?p = Some ?l =>
      first
        [ let l1 := fresh "l" in let H1 := fresh "H" in let E := fresh "E" in
          destruct (at_left n c1 c2 p l ltac:(codec_law) eq_refl H) as (l1 & H1 & E);
          rewrite E in *; locate n H1
        | let l1 := fresh "l" in let H1 := fresh "H" in let E := fresh "E" in
          destruct (at_right n c1 c2 p l ltac:(codec_law) eq_refl H) as (l1 & H1 & E);
          rewrite E in *; locate n H1 ]
  | fenc (field _ ?c) ?a = Some ?l =>
      let j := fresh "j" in let Hj := fresh "Hj" in let E := fresh "E" in
      destruct (at_field n c a l H) as (j & Hj & E); rewrite E in *
  end.
Ltac split_read H :=
  lazymatch type of H with
  | fdec (fpair _ _) _ = Some _ =>
      let H1 := fresh "R" in apply fpair_dec in H as [H1 H]; cbn [fst snd] in H1, H; split_read H
  | _ => idtac
  end.

Lemma sdk_tenant_same t j s :
  venc Tenant_codec t = Some j -> vdec Sdk.Tenant_codec j = Some s ->
  Sdk.Tenant_FirstName s = clean_string (Tenant_FirstName t) /\
  Sdk.Tenant_LastName s = clean_string (Tenant_LastName t) /\
  Sdk.Tenant_Email s = clean_string (Tenant_Email t).
Proof.
  intros (l & -> & He)%struct_enc (p & Hp & ->)%struct_dec.
  unfold Tenant_fields in He. unfold Sdk.Tenant_fields in Hp.
  destruct p as (x1 & x2 & x3 & x4 & x5 & x6 & x7). split_read Hp. cbn [fdec field] in R, R0, R1.
  split_and!; cbn.
  - locate "first_name" He. apply (inj Some) in Hj as <-. injection R as <-. apply clean_string_idem.
  - locate "last_name" He. apply (inj Some) in Hj as <-. injection R0 as <-. apply clean_string_idem.
  - locate "email" He. apply (inj Some) in Hj as <-. injection R1 as <-. apply clean_string_idem.
Qed.

Lemma sdk_landlord_same t j s :
  venc Landlord_codec t = Some j -> vdec Sdk.Landlord_codec j = Some s ->
  Sdk.Landlord_Name s = clean_string (Landlord_Name t).
Proof.
  intros (l & -> & He)%struct_enc (p & Hp & ->)%struct_dec.
  unfold Landlord_fields in He. unfold Sdk.Landlord_fields in Hp.
  destruct p as (x1 & x2 & x3). split_read Hp. cbn [fdec field] in R. cbn.
  locate "name" He. apply (inj Some) in Hj as <-. injection R as <-. apply clean_string_idem.
Qed.

Lemma absent_value {A} n (c : vcodec A) l x :
  fdec (field n c) l = Some x -> member n l = None -> x = vzero c.
Proof. cbn. intros Hx Hn. rewrite Hn in Hx. by injection Hx. Qed.

#[global] Instance Deposit_fields_law : FCodec Deposit_fields.
Proof. unfold Deposit_fields. codec_law. Qed.
#[global] Instance sdk_Deposit_fields_law : FCodec Sdk.Deposit_fields.
Proof. unfold Sdk.Deposit_fields. codec_law. Qed.

(** ** The money is lost on the way *)

(** Every document that the server writes for a deposit is read by the SDK, with the names of
    the tenant and the landlord (as UTF-8), but without amount, currency, type, state and history: the SDK
    looks for the members deposit_details and history, the server writes deposit. *)
Theorem sdk_reads_no_amount d j :
  marshal d = Some j ->
  exists s, Sdk.unmarshal j = Some s /\
    Sdk.Deposit_DepositDetails s = vzero Sdk.DepositDetails_codec /\
    Sdk.Deposit_History s = [] /\
    Sdk.Tenant_Email (Sdk.Deposit_Tenant s) = clean_string (Tenant_Email (Deposit_Tenant d)) /\
    Sdk.Tenant_LastName (Sdk.Deposit_Tenant s) = clean_string (Tenant_LastName (Deposit_Tenant d)) /\
    Sdk.Landlord_Name (Sdk.Deposit_Landlord s) = clean_string (Landlord_Name (Deposit_Landlord d)).
Proof.
  intros Hj. destruct (Deposit_read d j Hj) as [s Hs]. exists s. split; [exact Hs|].
  apply struct_enc in Hj as (l & -> & He). apply struct_dec in Hs as (p & Hp & ->).
  pose proof He as Hw. unfold Deposit_fields in He. unfold Sdk.Deposit_fields in Hp.
  destruct p as (x1 & x2 & x3 & x4 & x5 & x6 & x7 & x8 & x9). split_read Hp.
  pose proof He as He1. pose proof He as He2. split; [|split].
  - exact (absent_value _ _ _ _ R3 (members_off "deposit_details" _ _ _ Hw eq_refl)).
  - exact (absent_value _ _ _ _ Hp (members_off "history" _ _ _ Hw eq_refl)).
  - cbn [fdec field] in R0, R1. locate "tenant" He1. locate "landlord" He2.
    destruct (sdk_tenant_same _ _ _ Hj R0) as (_ & Hlast & Hmail).
    split_and!; [exact Hmail|exact Hlast|]. by eapply sdk_landlord_same.
Qed.

Lemma no_amount_refused {RS SS AS} `{Repository RS} `{SessionStore SS} `{IndexAllocator AS}
    g d envs (w : world RS SS AS) :
  DepositData_Amount (Deposit_Deposit d) = f64_zero ->
  exists resp, run (handle g (CallCreateDeposit {| value := d; decode_failed := false |})) envs w =
      (Some resp, w) /\ status resp = StatusBadRequest.
Proof.
  intros Hd. cbn [handle]. unfold CreateDeposit, decode. cbn [decode_failed value]. cbv zeta.
  destruct (String.eqb (Tenant_FirstName (Deposit_Tenant d)) "" ||
    String.eqb (Tenant_LastName (Deposit_Tenant d)) "" ||
    String.eqb (Tenant_Email (Deposit_Tenant d)) ""); [by eexists|].
  destruct (String.eqb (Landlord_Name (Deposit_Landlord d)) ""); [by eexists|].
  rewrite Hd. by eexists.
Qed.

(** C23: the server reads the document of every SDK deposit and refuses to create it, for
    whatever content: the SDK writes the amount under deposit_details, the server looks for
    deposit, so the amount reads as zero; the reply is 400 and nothing changes. *)
Theorem server_refuses_sdk_deposits {RS SS AS} `{Repository RS} `{SessionStore SS}
    `{IndexAllocator AS} g s j envs (w : world RS SS AS) :
  Sdk.marshal s = Some j ->
  exists d resp, unmarshal j = Some d /\
    DepositData_Amount (Deposit_Deposit d) = f64_zero /\
    run (handle g (CallCreateDeposit {| value := d; decode_failed := false |})) envs w =
      (Some resp, w) /\
    status resp = StatusBadRequest.
Proof.
  intros Hj. destruct (sdk_Deposit_read s j Hj) as [d Hd].
  apply struct_enc in Hj as (l & -> & He). pose proof Hd as Hd'.
  apply struct_dec in Hd as (p & Hp & ->). pose proof He as Hw. unfold Deposit_fields in Hp.
  destruct p as (x1 & x2 & x3 & x4 & x5 & x6 & x7). split_read Hp.
  assert (x6 = vzero DepositData_codec) as ->.
  { exact (absent_value _ _ _ _ R4 (members_off "deposit" _ _ _ Hw eq_refl)). }
  destruct x7 as (x7 & x8 & x9 & x10 & x11 & x12). cbn [fst snd] in *.
  match type of Hd' with _ = Some ?d =>
    destruct (no_amount_refused g d envs w eq_refl) as (resp & Hr & Hst); by exists d, resp
  end.
Qed.
