(* ===== verification/Library.v ===== *)
(** * Concrete library functions

    Stand-ins for the functions the server takes from libraries, each with the
    behaviour the theorems ask of it: texts of bits that parse back to the
    values they were made from. *)

From Stdlib Require Import Floats.SpecFloat.
From stdpp Require Import countable.
From S2P Require Import Prelude Float64 Calendar Json Runtime Base64 Utf8 JsonText Unmarshal StatusList Credential.
From S2P Require Import Presentation VpService Discovery Handlers Auth Issuance Verification Agreement.
From S2P Require Import Receipt.

Local Open Scope Z_scope.

Module Library.

(** ** Texts of bits *)

Abbreviation bit0 := (Ascii.ascii_of_N 48).
Abbreviation bit1 := (Ascii.ascii_of_N 49).

Fixpoint bits (p : positive) : string :=
  match p with
  | xH => ""
  | xO p => String bit0 (bits p)
  | xI p => String bit1 (bits p)
  end.

Fixpoint unbits (s : string) : positive :=
  match s with
  | EmptyString => xH
  | String c s => if Ascii.eqb c bit0 then xO (unbits s) else xI (unbits s)
  end.

Lemma unbits_bits p : unbits (bits p) = p.
Proof. induction p as [p IH|p IH|]; cbn; by rewrite ?IH. Qed.

Lemma bits_free c p :
  Ascii.eqb bit0 c = false -> Ascii.eqb bit1 c = false -> GoStrings.free_of c (bits p) = true.
Proof. intros H0 H1. induction p as [p IH|p IH|]; cbn [bits GoStrings.free_of]; by rewrite ?H0, ?H1, ?IH. Qed.

Definition text_of `{Countable A} (tag : string) (a : A) : string := tag +:+ bits (countable.encode a).
Definition parse_text A `{Countable A} (tag s : string) : option A :=
  if GoStrings.has_prefix s tag then countable.decode (unbits (GoStrings.trim_prefix s tag)) else None.

Lemma parse_text_of `{Countable A} tag (a : A) : parse_text A tag (text_of tag a) = Some a.
Proof.
  unfold parse_text, text_of. rewrite GoStrings.trim_prefix_app, unbits_bits.
  rewrite (proj2 (GoStrings.has_prefix_spec _ _)) by eauto. apply countable.decode_encode.
Qed.

(** ** Tokens *)

(** The payload of a token is the JSON text of its claims. *)
Definition claims_members (c : issuerJWTClaims) : list (string * json) :=
  [("jti", JStr (issuerJWT_ID c)); ("exp", JInt (default 0 (issuerJWT_ExpiresAt c) / second));
   ("vct", JStr (issuerJWT_VCT c)); ("_sd_alg", JStr (issuerJWT_SDAlg c));
   ("_sd", JArr (JStr <$> issuerJWT_SD c)); ("deposit_id", JStr (issuerJWT_DepositID c));
   ("pledge_date", JStr (issuerJWT_PledgeDate c));
   ("statutory_basis", JStr (issuerJWT_StatutoryBasis c));
   ("issuing_bank", JStr (issuerJWT_IssuingBank c));
   ("issuing_bank_id", JStr (issuerJWT_IssuingBankID c));
   ("property_id", JStr (issuerJWT_PropertyID c))].
Definition payload (c : issuerJWTClaims) : list Z :=
  default [] (json_text (JObj (claims_members c))).

Definition read_claims (l : list (string * json)) : option issuerJWTClaims :=
  let '(jti, ok1) := read_field into_string "" "jti" l in
  let '(exp, ok2) := read_field into_int64 0 "exp" l in
  let '(vct, ok3) := read_field into_string "" "vct" l in
  let '(alg, ok4) := read_field into_string "" "_sd_alg" l in
  let '(sd, ok5) := read_field into_strings ([], O) "_sd" l in
  let '(dep, ok6) := read_field into_string "" "deposit_id" l in
  let '(date, ok7) := read_field into_string "" "pledge_date" l in
  let '(basis, ok8) := read_field into_string "" "statutory_basis" l in
  let '(bank, ok9) := read_field into_string "" "issuing_bank" l in
  let '(bankID, ok10) := read_field into_string "" "issuing_bank_id" l in
  let '(prop, ok11) := read_field into_string "" "property_id" l in
  if ok1 && ok2 && ok3 && ok4 && ok5 && ok6 && ok7 && ok8 && ok9 && ok10 && ok11
  then Some {| issuerJWT_ID := jti; issuerJWT_ExpiresAt := Some (exp * second);
               issuerJWT_VCT := vct; issuerJWT_SDAlg := alg; issuerJWT_SD := slice_of sd;
               issuerJWT_DepositID := dep; issuerJWT_PledgeDate := date;
               issuerJWT_StatutoryBasis := basis; issuerJWT_IssuingBank := bank;
               issuerJWT_IssuingBankID := bankID; issuerJWT_PropertyID := prop |}
  else None.
Definition read_payload (raw : list Z) : option issuerJWTClaims := read_object raw ≫= read_claims.

Lemma strings_flat ss : forallb flat_text (JStr <$> ss) = forallb utf8_valid ss.
Proof. induction ss as [|s ss IH]; [done|]. cbn. by rewrite <-IH. Qed.

Lemma read_strings ss : exists sd, into_strings ([], O) (JArr (JStr <$> ss)) = Some sd /\ slice_of sd = ss.
Proof. destruct (fmap_Some_1 _ _ _ (into_strings_all ss)) as (sd & Hsd & Hs). by exists sd. Qed.

Lemma payload_reads_back c :
  signable c = true ->
  Forall is_byte (payload (parsed c)) /\ read_payload (payload (parsed c)) = Some (parsed c).
Proof.
  intros [[Hs H0]%andb_true_iff H1]%andb_true_iff.
  destruct (read_flat_object (claims_members (parsed c))) as (b & Hb & Hbytes & Hl).
  { cbn -[utf8_valid fmap list_fmap] in Hs |- *. rewrite !andb_true_iff in Hs.
    rewrite !andb_true_iff, strings_flat. by destruct_and! Hs. }
  unfold payload. rewrite Hb. split; [done|]. unfold read_payload. cbn [default from_option id].
  rewrite Hl. cbn [mbind option_bind]. unfold read_claims, claims_members.
  destruct (read_strings (issuerJWT_SD (parsed c))) as (sd & Hsd & Hslice).
  assert (into_int64 0 (JInt (default 0 (issuerJWT_ExpiresAt (parsed c)) / second)) =
    Some (ExpiresAt (sdJWT_Registered c))) as Hi.
  { cbn [parsed issuerJWT_ExpiresAt default from_option id]. rewrite Z.div_mul by done.
    apply Z.leb_le in H0. apply Z.ltb_lt in H1. unfold into_int64.
    by rewrite (proj2 (Z.leb_le _ _)), (proj2 (Z.ltb_lt _ _)) by lia. }
  read_fields; [|exact Hi || exact Hsd || reflexivity..].
  cbn [andb]. by rewrite Hslice.
Qed.

(** The payload, between two points. *)
Definition payload_text (c : issuerJWTClaims) : string := EncodeToString (payload c).

Lemma payload_free c cl :
  GoStrings.free_of c alphabet = true -> Ascii.eqb Ascii.zero c = false ->
  GoStrings.free_of c (payload_text cl) = true.
Proof. apply encoded_free. Qed.

Definition sign (typ kid : string) (c : sdJWTClaims) : option string :=
  Some ("ey" +:+ String dot (payload_text (parsed c) +:+ String dot "sig")).

(** Expired tokens are refused. *)
Definition ParseWithClaims (t : instant) (tok : string) : issuerJWTClaims + string :=
  match GoStrings.split_n 3 dot tok with
  | ["ey"; payload; "sig"] =>
      match DecodeString payload ≫= read_payload with
      | Some c =>
          if t <? default 0 (issuerJWT_ExpiresAt c) then inl c else inr "token is expired"
      | None => inr "token is malformed"
      end
  | _ => inr "token is malformed"
  end.

Lemma parse_signed kid c tok t :
  sign "vc+sd-jwt" kid c = Some tok -> signable c = true ->
  ParseWithClaims t tok =
    if t <? ExpiresAt (sdJWT_Registered c) * second then inl (parsed c)
    else inr "token is expired".
Proof.
  intros Hs [Hb Hr]%payload_reads_back. unfold sign in Hs. apply (inj Some) in Hs as <-.
  unfold ParseWithClaims. rewrite !GoStrings.split_n_app by (lia || done || by apply payload_free).
  rewrite GoStrings.split_n_last. unfold payload_text. rewrite decode_encode by done.
  cbn -[read_payload payload Z.mul parsed]. by rewrite Hr.
Qed.

Lemma sign_tilde_free kid : tilde_free sign kid.
Proof.
  intros c tok Hs. apply (inj Some) in Hs as <-.
  rewrite GoStrings.free_of_app. cbn [GoStrings.free_of]. rewrite GoStrings.free_of_app.
  by rewrite payload_free.
Qed.

Lemma sign_trusts_own kid : trusts_own sign kid ParseWithClaims.
Proof.
  intros c tok Hs Hc. split; [|split].
  - intros ->. by apply (inj Some) in Hs.
  - by eapply (sign_tilde_free kid).
  - intros t Ht. rewrite (parse_signed _ _ _ _ Hs Hc). by rewrite (proj2 (Z.ltb_lt _ _)).
Qed.

Lemma sign_reads_signed kid : reads_signed sign kid ParseWithClaims.
Proof.
  intros c tok t c' Hs Hc. rewrite (parse_signed _ _ _ _ Hs Hc). case_match; [by intros [= <-]|done].
Qed.

(** A key binding JWT: nonce, audience, digest; issued at a fixed time. *)
Definition key_binding (nonce aud sd_hash : string) : string :=
  text_of "kb." [nonce; aud; sd_hash].

Definition ParseUnverified (iat : instant) (s : string) : (string * kbJWTClaims) + string :=
  match parse_text (list string) "kb." s with
  | Some [nonce; aud; sd_hash] =>
      inl ("kb+jwt", {| kbJWT_Audience := [aud]; kbJWT_IssuedAt := Some iat;
                        kbJWT_Nonce := nonce; kbJWT_SDHash := sd_hash |})
  | _ => inr "token is malformed"
  end.

(** ** The same texts as the SDK reads them *)

Lemma ParseWithClaims_inv t tok c :
  ParseWithClaims t tok = inl c ->
  exists part raw, tok = "ey" +:+ String dot (part +:+ String dot "sig") /\
    GoStrings.free_of dot part = true /\ DecodeString part = Some raw /\
    read_payload raw = Some c /\ t < default 0 (issuerJWT_ExpiresAt c).
Proof.
  unfold ParseWithClaims. destruct (GoStrings.split_n 3 dot tok) as [|h [|p [|s []]]] eqn:Hs;
    try by repeat case_match.
  destruct (DecodeString p ≫= read_payload) as [c'|] eqn:Hp; [|by repeat case_match].
  intros Hc. assert (h = "ey" /\ s = "sig" /\ c' = c /\ t < default 0 (issuerJWT_ExpiresAt c))
    as (-> & -> & -> & Ht).
  { repeat (case_match; try done). simplify_eq. by rewrite Z.ltb_lt in *. }
  apply GoStrings.split_n_cons in Hs as (t1 & -> & _ & Hs).
  apply GoStrings.split_n_cons in Hs as (t2 & -> & Hfree & Hs).
  rewrite GoStrings.split_n_last in Hs. injection Hs as ->.
  apply bind_Some in Hp as (raw & Hraw & Hp). by exists p, raw.
Qed.

Lemma read_claims_inv l c :
  read_claims l = Some c ->
  exists sd exp, read_field into_string "" "jti" l = (issuerJWT_ID c, true) /\
    read_field into_string "" "deposit_id" l = (issuerJWT_DepositID c, true) /\
    read_field into_string "" "pledge_date" l = (issuerJWT_PledgeDate c, true) /\
    read_field into_string "" "statutory_basis" l = (issuerJWT_StatutoryBasis c, true) /\
    read_field into_string "" "issuing_bank" l = (issuerJWT_IssuingBank c, true) /\
    read_field into_strings ([], O) "_sd" l = (sd, true) /\ slice_of sd = issuerJWT_SD c /\
    read_field into_int64 0 "exp" l = (exp, true) /\
    issuerJWT_ExpiresAt c = Some (exp * second).
Proof.
  unfold read_claims.
  repeat match goal with
  | |- context [read_field ?f ?z ?n l] => destruct (read_field f z n l) as [? ?]
  end.
  match goal with |- (if ?b then _ else _) = _ -> _ => destruct b eqn:Hok; [|done] end.
  rewrite !andb_true_iff in Hok. destruct_and! Hok. subst. intros [= <-].
  eexists _, _. by split_and!.
Qed.

Lemma read_payload_inv raw c :
  read_payload raw = Some c -> exists l, read_object raw = Some l /\ read_claims l = Some c.
Proof.
  unfold read_payload. generalize (read_object raw) as o. intros o Hc.
  apply bind_Some in Hc as (l & -> & Hl). by exists l.
Qed.

Lemma sdk_reads_payloads : jwt_payload ParseWithClaims.
Proof.
  intros t tok c Hc. apply ParseWithClaims_inv in Hc as (part & raw & -> & Hp & Hd & Hr & Ht).
  apply read_payload_inv in Hr as (l & Hl & Hr).
  destruct (read_claims_inv l c Hr) as (sd & exp & E1 & E2 & E3 & E4 & E5 & E6 & E7 & E8 & E9).
  assert (payload_of ("ey" +:+ String dot (part +:+ String dot "sig")) = Some l) as Hpay.
  { unfold payload_of. rewrite !GoStrings.split_n_app by (done || lia).
    rewrite GoStrings.split_n_last, Hd. exact Hl. }
  exists l, sd. rewrite E9 in *. split_and!; try done.
  - intros e He. by apply (inj Some) in He as <-.
  - intros s Hs Hb. pose proof (stated_expiry_read _ l s Hpay Hs Hb) as E. rewrite E8 in E.
    by simplify_eq.
Qed.

(** ** Bearer tokens: an algorithm, a key identifier, and the secret or the
       key's name in place of a signature *)

Definition bearer (alg kid sig : string) : string := text_of "jwt." ((alg, kid), sig).

Definition read_bearer (tok : string) : option ((string * string) * string) :=
  parse_text ((string * string) * string) "jwt." tok.

Definition signed_by (key : authKey) (sig : string) : bool :=
  match key with Secret s => String.eqb sig s | Public _ => String.eqb sig "public" end.

Definition allowed (methods : list string) (alg : string) : bool :=
  bool_decide (methods = [] \/ alg ∈ methods).

Definition asked_header (methods : list string) (tok : string) : option tokenHeader :=
  '((alg, kid), _) ← read_bearer tok;
  if allowed methods alg then Some {| header_alg := alg; header_kid := kid |} else None.

Definition parse_bearer (methods : list string) (issuer : option string) (now : instant)
    (kf : tokenHeader -> authKey + string) (tok : string) : bool :=
  match asked_header methods tok, read_bearer tok with
  | Some h, Some (_, sig) => match kf h with inl key => signed_by key sig | inr _ => false end
  | _, _ => false
  end.

#[export] Program Instance jwt_library : JwtLibrary := {
  Parse := parse_bearer;
  asked := asked_header;
  verifies key tok := exists x sig, read_bearer tok = Some (x, sig) /\ signed_by key sig = true }.
Next Obligation.
  intros methods issuer now kf tok Hp. unfold parse_bearer in Hp.
  destruct (asked_header methods tok) as [h|] eqn:Ha; [|done].
  destruct (read_bearer tok) as [[x sig]|] eqn:Hr; [|done].
  destruct (kf h) as [key|] eqn:Hk; [|done]. exists h, key. split_and!; [done..|]. by exists x, sig.
Qed.
Next Obligation.
  intros methods tok h (((alg & kid) & sig) & _ & Hm)%bind_Some. cbn in Hm. unfold allowed in Hm.
  case_bool_decide; [|done]. by injection Hm as <-.
Qed.

(** ** Documents as the texts of their cells, one to a line *)

Definition transcript : Receipt.fpdf :=
  {| Receipt.doc := list string; Receipt.New := [];
     Receipt.SetMargins _ _ _ f := f; Receipt.AddPage f := f;
     Receipt.GetPageSize _ := (f64_of_Z 210, f64_of_Z 297); Receipt.SetFont _ _ _ f := f;
     Receipt.CellFormat _ _ txt _ _ _ f := f ++ [txt]; Receipt.Ln _ f := f;
     Receipt.SetDrawColor _ _ _ f := f; Receipt.SetTextColor _ _ _ f := f;
     Receipt.Line _ _ _ _ f := f; Receipt.GetY f := f64_of_Z (Z.of_nat (length f));
     Receipt.SetXY _ _ f := f; Receipt.MultiCell _ _ txt _ _ f := f ++ [txt];
     Receipt.Output f := Some (foldr (fun t s => t +:+ String (Ascii.ascii_of_N 10) s) "" f) |}.

#[export] Program Instance transcript_texts : Receipt.PdfTexts transcript := {
  Receipt.texts f := f }.
Solve Obligations with done.
End Library.
