(* ===== verification/Scenarios.v ===== *)
(** * A concrete server

    PostgreSQL tables with identifiers taken as they are, PostgreSQL sessions,
    the in-memory allocator, and the functions of [Library].
    Used by the witnesses and by the scenarios below. *)

From Stdlib Require Import Floats.SpecFloat.
From S2P Require Import Prelude Float64 Calendar Models Json JsonModels Statemachine Runtime.
From S2P Require Import Postgres Repository Sessions SessionLaws SessionSafety StatusList.
From S2P Require Import Server Base64 Credential VpSessions Presentation VerifierHandlers.
From S2P Require Import Handlers IssuerHandlers Logic Api Lifecycle Receipt Library.

Local Open Scope Z_scope.

Module Concrete.

#[export] Instance repo : Repository tables := PostgresRepo Some.
#[export] Instance repo_laws : RepositoryLaws tables := postgres_laws Some.
#[export] Instance sessions : SessionStore (gmap string PgStore.session_row) :=
  PgStore.PgStore Some.
#[export] Instance sessions_laws : SessionLaws (gmap string PgStore.session_row) :=
  PgLaws.pg_laws Some.

Abbreviation state := (world tables (gmap string PgStore.session_row) MemIndexAllocator.t).

Definition cfg : config :=
  {| cfg_webhookURL := "https://hook.example"; cfg_issuerURL := "https://api.xmiete.org";
     cfg_fpdf := Library.transcript;
     cfg_ToLower s := s;
     cfg_KeyID := "key"; cfg_sign := Library.sign;
     cfg_sign_list typ kid c := Some "list"; cfg_gzip l := Some l;
     cfg_ParseWithClaims := Library.ParseWithClaims;
     cfg_ParseUnverified := Library.ParseUnverified (1772366400 * second);
     cfg_decode_error s := "corrupt"; cfg_quote s := s;
     cfg_request_text r := "{}"; cfg_QueryEscape s := s |}.

#[export] Instance cfg_texts : Receipt.PdfTexts (cfg_fpdf cfg) := Library.transcript_texts.

Definition start : state :=
  {| w_repo := empty_tables; w_sessions := ∅;
     w_alloc := {| MemIndexAllocator.counter := 0 |}; w_vp := ∅; w_outbox := [] |}.

(** 2026-03-01. *)
Definition noon : instant := 1772366400 * second.
Definition at_ (u : string) : nat -> env := fun _ => plain_env noon u.
Definition json_body {A} (a : A) : decoded A := {| value := a; decode_failed := false |}.

Definition blank_address : Address :=
  {| Address_Street := "Hauptstr. 1"; Address_ZIP := "10115"; Address_City := "Berlin";
     Address_Country := "DE" |}.

Definition request : Deposit :=
  {| Deposit_ID := "";
     Deposit_Meta := {| Meta_Version := ""; Meta_Timestamp := zero_time; Meta_ExternalID := "" |};
     Deposit_Tenant :=
       {| Tenant_FirstName := "Erika"; Tenant_LastName := "Mustermann";
          Tenant_Email := "e@example.org"; Tenant_TaxID := ""; Tenant_EIDStatus := "";
          Tenant_WalletMetadata := None; Tenant_Address := None |};
     Deposit_Landlord :=
       {| Landlord_Name := "Max"; Landlord_Type := ""; Landlord_IBAN := "" |};
     Deposit_Property :=
       {| Property_Address := blank_address; Property_UnitID := "" |};
     Deposit_Deposit :=
       {| DepositData_Amount := f64_of_Z 2400; DepositData_Currency := "";
          DepositData_Type := "CASH_EQUIVALENT"; DepositData_LifecycleState := "CLOSED";
          DepositData_History := []; DepositData_InstallmentPlan := None |};
     Deposit_Pledge := None; Deposit_Trusteeship := None; Deposit_Provider := None;
     Deposit_Transport := None; Deposit_Settlement := None;
     Deposit_UtilityReservation := None |}.

Definition identified : IdentityUpdateRequest :=
  {| IdentityUpdateRequest_EIDStatus := EIDVerified;
     IdentityUpdateRequest_VerificationTimestamp := "";
     IdentityUpdateRequest_ProviderReference := "";
     IdentityUpdateRequest_WalletMetadata := None |}.
Definition pledge : PledgeRequest :=
  {| PledgeRequest_PledgeDate := "2026-03-01"; PledgeRequest_IsConfirmedByBank := true;
     PledgeRequest_ProviderReference := "" |}.
Definition release : ReleaseRequest :=
  {| ReleaseRequest_ReleaseType := ""; ReleaseRequest_ReleaseAmount := f64_zero;
     ReleaseRequest_LandlordSignatureToken := "" |}.
Definition claim : ClaimRequest :=
  {| ClaimRequest_ClaimAmount := f64_of_Z 100; ClaimRequest_Reason := "damage";
     ClaimRequest_EvidenceURLs := [] |}.
Definition settle : SettleRequest :=
  {| SettleRequest_InitiatedBy := "LANDLORD"; SettleRequest_TenancyEndDate := "";
     SettleRequest_HandoverDate := ""; SettleRequest_HandoverProtocolRef := "";
     SettleRequest_ClaimItems :=
       [{| ClaimItemInput_Category := "DAMAGE"; ClaimItemInput_Description := "floor";
           ClaimItemInput_AmountClaimed := f64_of_Z 400; ClaimItemInput_EvidenceRefs := [];
           ClaimItemInput_RoomOrArea := "" |}];
     SettleRequest_ProposedTenantRefund := f64_of_Z 2000;
     SettleRequest_ProposedLandlordRetention := f64_of_Z 400 |}.
Definition partial : PartialReleaseRequest :=
  {| PartialReleaseRequest_ReleasedAmount := f64_of_Z 2100;
     PartialReleaseRequest_ReservedAmount := f64_of_Z 300;
     PartialReleaseRequest_MonthlyAdvance := f64_of_Z 50;
     PartialReleaseRequest_BillingPeriodEnd := "2024-02-29" |}.
Definition utility : UtilitySettleRequest :=
  {| UtilitySettleRequest_SettlementRef := "ref"; UtilitySettleRequest_ActualCost := f64_of_Z 700;
     UtilitySettleRequest_TotalAdvancePaid := f64_of_Z 600 |}.

Definition calls (l : list api_call) : list (api_call * (nat -> env)) :=
  (fun c => (c, at_ "dep")) <$> l.

(** The deposit "dep0" in state PLEDGED. *)
Definition to_pledged : list api_call :=
  [CallCreateDeposit (json_body request); CallUpdateIdentity "dep0" (json_body identified);
   CallPledge "dep0" (json_body pledge)].
Definition pledged : state := (run_calls cfg (calls to_pledged) start).2.

Definition states_of (w : state) (k : string) : option (list LifecycleState) :=
  (fun d => HistoryEntry_State <$> history d) <$> deposits w !! k.

Example pledged_states :
  states_of pledged "dep0" = Some [StateRequested; StateIdentified; StatePledged].
Proof. by vm_compute. Qed.

(** ** Two calls in flight *)

Definition race : list (nat * env) :=
  (fun i => (i, plain_env noon "race")) <$> ([0; 1] ++ replicate 9 0 ++ replicate 9 1)%nat.

(** ** A credential collected late *)

Definition issue_request : decoded issueCredentialRequest :=
  json_body {| issueReq_ValidUntil := "2027-03-01" |}.
Definition token_form (code : string) : tokenForm :=
  {| form_failed := false; form_grant_type := pre_authorized_grant;
     form_pre_authorized_code := code |}.
Definition credential_request : decoded credentialRequest :=
  json_body {| credReq_Format := "vc+sd-jwt"; credReq_VCT := "DepositPledgeAttestation";
               credReq_Proof := None |}.

(** The offer is made, the code exchanged. *)
Definition offering : list (api_call * (nat -> env)) :=
  [(CallIssueCredential "dep0" issue_request, at_ "ses");
   (CallToken (token_form "ses1"), at_ "tok")].
Definition collect : api_call * (nat -> env) :=
  (CallCredential "Bearer tok0" credential_request, at_ "crd").
Definition release_call : api_call * (nat -> env) :=
  (CallRelease "dep0" (json_body release), at_ "rel").
Definition status_call : api_call * (nat -> env) :=
  (CallCredentialStatus "urn:xmiete:credential:crd0", at_ "chk").

Definition replies (l : list (api_call * (nat -> env))) (w : state) : list (option response) :=
  (run_calls cfg l w).1.
Definition says (r : option response) : option string :=
  match r with
  | Some {| body := PStatus s |} => Some (status_Status s)
  | _ => None
  end.

(** ** A presentation *)

Definition vp_request : api_call * (nat -> env) := (CallCreateVpRequest "dep0", at_ "vp").
(** The world in which the wallet has the credential and the request is open. *)
Definition requested_vp : state :=
  Eval vm_compute in (run_calls cfg (offering ++ [collect; vp_request]) pledged).2.
Definition issued_token : string :=
  Eval vm_compute in match (replies (offering ++ [collect]) pledged) !! 2%nat with
  | Some (Some {| body := PCredential tok |}) => tok
  | _ => ""
  end.
Definition present : api_call :=
  CallReceiveVpResponse "dep0" (json_body {| vpReq_VpToken := issued_token; vpReq_State := "vp0" |}).

(** Two presentations of the same session: both read it before either deletes
    it. *)
Definition presentations : list (nat * env) :=
  (fun i => (i, plain_env noon "race")) <$> ([0; 1] ++ replicate 12 0 ++ replicate 12 1)%nat.
End Concrete.

Import Concrete.

(** Two calls that race can leave the transition table: a Release and a Claim that both
    read a PLEDGED deposit before either writes give it the history REQUESTED, IDENTIFIED,
    PLEDGED, RELEASED, CLAIMED, although RELEASED to CLAIMED is not a transition; UpdateState
    locks the row and does not look at the state again. *)
Example racing_calls_leave_the_table :
  let '(_, w') := steps race ([handle cfg (CallRelease "dep0" (json_body release));
                               handle cfg (CallClaim "dep0" (json_body claim))], pledged) in
  states_of w' "dep0" =
    Some [StateRequested; StateIdentified; StatePledged; StateReleased; StateClaimed] /\
  CanTransition StateReleased StateClaimed = false.
Proof. by vm_compute. Qed.

(** A credential collected before the deposit's release is revoked by the release, but one
    collected from the same offer after the release is signed and stays active: Credential does
    not look at the deposit's state. *)
Example late_credential_stays_active :
  (says <$> replies (offering ++ [collect; release_call; status_call]) pledged) !! 4%nat =
    Some (Some "revoked") /\
  (says <$> replies (offering ++ [release_call; collect; status_call]) pledged) !! 4%nat =
    Some (Some "active").
Proof. by vm_compute. Qed.

(** A presentation session is meant to be single-use, but the handler reads it, verifies,
    and deletes it in separate steps: two presentations of one session that are in flight
    together both answer 200 and both write a WALLET entry into the deposit's history. *)
Example racing_presentations_share_a_session :
  let '(pool, w') := steps presentations ([handle cfg present; handle cfg present], requested_vp) in
  map (fun p => match p with Ret r => Some (status r) | _ => None end) pool =
    [Some StatusOK; Some StatusOK] /\
  states_of w' "dep0" =
    Some [StateRequested; StateIdentified; StatePledged; StatePledged; StatePledged] /\
  w_vp w' = ∅.
Proof. by vm_compute. Qed.

(** A deposit that is closed by agreement, 400 for the landlord, is confirmed as
    released by the landlord and returned in full. *)
Example settled_deposit_is_confirmed_in_full :
  let accepted := CallSettleAccept "dep0" (json_body {| SettleAcceptRequest_AcceptedBy := "TENANT" |}) in
  let w := (run_calls cfg (calls [CallSettle "dep0" (json_body settle); accepted]) pledged).2 in
  (d ← deposits w !! "dep0"; s ← Deposit_Settlement d;
   Some (lifecycle d, Settlement_AgreedTenantRefund s)) = Some (StateClosed, f64_of_Z 2000) /\
  match (run (handle cfg (CallGetReleaseReceipt "dep0")) (at_ "pdf") w).1 with
  | Some {| body := PPdf _ text |} =>
      GoStrings.contains text "Released By:" = true /\
      GoStrings.contains text "2400.00 EUR" = true /\ GoStrings.contains text "2000.00" = false
  | _ => False
  end.
Proof. vm_compute. by repeat split. Qed.
