(* ===== verification/Witnesses.v ===== *)
(** * The theorems at concrete inputs

    Each lemma applies one theorem of the development to the concrete server of
    [Scenarios], with the theorem's hypotheses evaluated. *)

From Stdlib Require Import Floats.SpecFloat.
From S2P Require Import Prelude Float64 Calendar Models Json JsonModels Statemachine Runtime.
From S2P Require Import Postgres Repository Sessions SessionLaws SessionSafety Base64.
From S2P Require Import StatusList Server Credential Discovery Handlers IssuerHandlers.
From S2P Require Import Logic Api.
From S2P Require Import Lifecycle Effects Reconciliation Issuance Concurrency Proposals.
From S2P Require Import Protocol VpSessions Presentation VerifierHandlers Verification Library Scenarios.
From S2P Require Import Wallet Documents JsonText Sha256 AuditLog.
Import Concrete.

Local Open Scope Z_scope.

Abbreviation outcome := (option response * state)%type.

(** The reply of a run that did not panic. *)
Definition answer (p : outcome) : response :=
  default {| status := 0; body := PError {| ErrorResponse_Error := ""; ErrorResponse_Code := "" |} |}
    p.1.

Lemma answered (p : outcome) : bool_decide (is_Some p.1) = true -> p = (Some (answer p), p.2).
Proof. by destruct p as [[r|] w]. Qed.

(** The deposit in a reply. *)
Definition in_reply (p : outcome) : Deposit :=
  match body (answer p) with PDeposit d => d | _ => request end.

(** The deposit "dep0" of a world. *)
Definition dep0 (w : state) : Deposit := default request (deposits w !! "dep0").

Definition after_ (l : list (api_call * (nat -> env))) (w : state) : state :=
  (run_calls cfg l w).2.

Definition go (c : api_call) (w : state) : outcome := run (handle cfg c) (at_ "run") w.

(** Evaluates a hypothesis. *)
Ltac evaluate := first [ vm_compute; reflexivity | vm_compute; done ].

Definition released : state := after_ (calls [CallRelease "dep0" (json_body release)]) pledged.

Lemma history_is_a_lifecycle_witness :
  deposits released !! "dep0" = Some (dep0 released) /\ lifecycle_ok (dep0 released).
Proof.
  split; [evaluate|].
  eapply (history_is_a_lifecycle cfg
    (calls (to_pledged ++ [CallRelease "dep0" (json_body release)])) start "dep0"); evaluate.
Defined.

Lemma one_deposit (w : state) :
  deposits w = <["dep0" := dep0 w]> ∅ -> fields_ok (dep0 w) -> all_fields_ok w.
Proof.
  intros Hw Hf k d. rewrite Hw, lookup_insert_Some, lookup_empty. by intros [[_ <-]|[_ ?]].
Qed.

(** A partial release and a settlement race for the pledged deposit. *)
Definition rivals : list api_call :=
  [CallPartialRelease "dep0" (json_body partial); CallSettle "dep0" (json_body settle)].

Lemma no_panic_under_interleaving_witness :
  let '(pool, w') := steps race (map (handle cfg) rivals, pledged) in
  pool !! 0%nat <> Some Crash /\ all_fields_ok w'.
Proof.
  apply (no_panic_under_interleaving cfg rivals race pledged 0).
  apply one_deposit; [evaluate|]. split_and!.
  - intros [E|E]; vm_compute in E; discriminate.
  - intros E; vm_compute in E; discriminate.
  - intros _. eexists. split; [vm_compute; reflexivity|reflexivity].
Defined.

(** The world in which the credential of "dep0" was collected. *)
Definition collected : state := after_ (offering ++ [collect]) pledged.
Definition ses0 (w : state) : Session :=
  default (new_session (plain_env 0 "") "" "" 0) (sess_view (w_sessions w) !! "ses0").

Lemma one_row_inv (t : gmap string PgStore.session_row) i r :
  t = <[i := r]> ∅ -> known_state (PgStore.state r) -> is_Some (PgStore.status_list_index r) ->
  PgStore.state r = SessionStatePending \/ is_Some (PgStore.credential_id r) -> sess_inv t.
Proof.
  intros -> Hs Hi Hc. apply PgLaws.inv_insert; [apply PgLaws.inv_empty|done|done| |].
  - by destruct Hc.
  - by intros j r' c; rewrite lookup_empty.
Qed.

Definition row0 (w : state) : PgStore.session_row :=
  default {| PgStore.deposit_id := ""; PgStore.pre_authorized_code := "";
             PgStore.access_token := None; PgStore.nonce := None; PgStore.state := "";
             PgStore.created_at := 0; PgStore.expires_at := 0; PgStore.credential_id := None;
             PgStore.valid_until := None; PgStore.status_list_index := None |}
    (w_sessions w !! "ses0").

Lemma ending_a_tenancy_revokes_witness :
  let p := run (handle cfg release_call.1) release_call.2 collected in
  ss_CredentialStatus (plain_env noon "chk") "urn:xmiete:credential:crd0" (w_sessions p.2) =
    ("revoked", true) /\
  forall l, ss_RevokedStatusListIndices (plain_env noon "chk") (w_sessions p.2) = Ok l -> 0 ∈ l.
Proof.
  intros p.
  apply (ending_a_tenancy_revokes cfg release_call.1 "dep0" release_call.2 collected (answer p)
    p.2 "dep0" "ses0" (ses0 collected) (plain_env noon "chk")); try evaluate.
  apply (one_row_inv _ "ses0" (row0 collected)); [evaluate|right; left; evaluate|eexists; evaluate|].
  right. eexists. evaluate.
Defined.

(** The settlement of "dep0" was proposed by the landlord. *)
Definition proposed_ : state := after_ (calls [CallSettle "dep0" (json_body settle)]) pledged.
Definition accept : decoded SettleAcceptRequest :=
  json_body {| SettleAcceptRequest_AcceptedBy := "TENANT" |}.

Lemma settle_accept_closes_as_proposed_witness :
  let p := run (handle cfg (CallSettleAccept "dep0" accept)) (at_ "run") proposed_ in
  let by_ := SettleAcceptRequest_AcceptedBy (value accept) in
  exists key d s d' t,
    repo_key "dep0" = Some key /\ deposits proposed_ !! key = Some d /\
    lifecycle d = StateSettleProposed /\ Deposit_Settlement d = Some s /\
    (by_ = "LANDLORD" \/ by_ = "TENANT") /\ Settlement_LastProposedBy s <> by_ /\
    body (answer p) = PDeposit d' /\ deposits p.2 = <[key := stored d']> (deposits proposed_) /\
    lifecycle d' = StateClosed /\
    Deposit_Settlement d' = Some (set_Agreed (Settlement_ProposedTenantRefund s)
                                    (Settlement_ProposedLandlordRetention s) s) /\
    history d' = history d ++
      [{| HistoryEntry_State := StateClosed; HistoryEntry_Timestamp := t;
          HistoryEntry_Actor := by_; HistoryEntry_Comment := "settlement accepted";
          HistoryEntry_Signature := "" |}].
Proof.
  intros p.
  apply (settle_accept_closes_as_proposed cfg "dep0" accept (at_ "run") proposed_ (answer p) p.2);
    [apply answered|]; evaluate.
Defined.

(** ** Sessions *)

Lemma one_session (m : gmap string Session) i x cid :
  m = <[i := x]> ∅ -> Session_State x = SessionStatePending \/ Session_CredentialID x <> cid ->
  cred_fresh cid m.
Proof.
  intros -> Hx j y. rewrite lookup_insert_Some, lookup_empty.
  intros [[_ <-]|[_ ?]] Hs; [|done]. by destruct Hx.
Qed.

(** A token is used twice. *)
Definition twice : list sess_op :=
  [SCreate (plain_env noon "ses") "dep0" "" 0; SExchange (plain_env noon "tok") "ses1";
   SConsume (plain_env noon "x") "tok0" "cred-a"; SConsume (plain_env noon "x") "tok0" "cred-b"].

Abbreviation table := (gmap string PgStore.session_row).
Definition view0 (t : table) : Session := default (ses0 start) (sess_view t !! "ses0").
Definition after_ops (ops : list sess_op) : table := (run_sess_ops (∅ : table) ops).2.

Lemma single_issuance_witness :
  (run_sess_ops (∅ : table) twice).1 = ["ses0"] /\ NoDup (run_sess_ops (∅ : table) twice).1.
Proof.
  split; [evaluate|]. apply single_issuance; [apply PgLaws.inv_empty|].
  split; [evaluate|]. split; [done|]. split; [|split; [|done]].
  - apply (one_session _ "ses0" (view0 (after_ops (take 2 twice)))); [evaluate|left; evaluate].
  - apply (one_session _ "ses0" (view0 (after_ops (take 3 twice)))); [evaluate|].
    right. vm_compute. discriminate.
Defined.

Definition revoked_ : state := after_ (offering ++ [collect; release_call]) pledged.
Definition again : list sess_op :=
  [SRevoke (plain_env noon "x") "dep0"; SConsume (plain_env noon "x") "tok0" "cred-b"].

Lemma revocation_permanent_witness :
  let s' := (run_sess_ops (w_sessions revoked_) again).2 in
  (forall l, ss_RevokedStatusListIndices (plain_env noon "chk") s' = Ok l -> 0 ∈ l) /\
  (no_faults (plain_env noon "chk") ->
   ss_CredentialStatus (plain_env noon "chk") "urn:xmiete:credential:crd0" s' =
     ("revoked", true)).
Proof.
  apply (revocation_permanent again (w_sessions revoked_) "ses0" (ses0 revoked_)
    (plain_env noon "chk")); [|split; [done|split; [|done]]|evaluate|evaluate].
  - apply (one_row_inv _ "ses0" (row0 revoked_)); [evaluate|right; right; evaluate|eexists; evaluate|].
    right. eexists. evaluate.
  - apply (one_session _ "ses0" (ses0 revoked_)); [evaluate|]. right. vm_compute. discriminate.
Defined.

Lemma offer_needs_a_pledge_witness :
  let p := run (handle cfg (CallIssueCredential "dep0" issue_request)) (at_ "ses") pledged in
  status (answer p) = StatusCreated /\ offered "dep0" issue_request pledged p.2.
Proof.
  intros p. split; [evaluate|].
  apply (offer_needs_a_pledge cfg "dep0" issue_request (at_ "ses") pledged (answer p) p.2);
    [apply PgLaws.inv_empty|split; evaluate|intros n; evaluate|evaluate|evaluate].
Defined.

Definition exchanged : state := after_ offering pledged.

Lemma credential_consumes_its_session_witness :
  let p := run (handle cfg collect.1) collect.2 exchanged in
  status (answer p) = StatusOK /\ consumed cfg "Bearer tok0" collect.2 exchanged (answer p) p.2.
Proof.
  intros p. split; [evaluate|].
  apply (credential_consumes_its_session cfg "Bearer tok0" credential_request collect.2 exchanged
    (answer p) p.2); [| |evaluate|evaluate].
  - apply (one_row_inv _ "ses0" (row0 exchanged)); [evaluate|left; evaluate|eexists; evaluate|].
    left. evaluate.
  - intros n. apply (one_session _ "ses0" (ses0 exchanged)); [evaluate|left; evaluate].
Defined.

(** ** Partial release and utility reconciliation *)

Definition partly_released : state :=
  after_ (calls [CallPartialRelease "dep0" (json_body partial)]) pledged.
Definition reserve (w : state) : UtilityReservation :=
  match Deposit_UtilityReservation (dep0 w) with
  | Some u => u
  | None => reservation partial 0
  end.

Lemma utility_proposal_is_within_the_reserve_witness :
  let p := go (CallUtilitySettle "dep0" (json_body utility)) partly_released in
  exists s, Deposit_Settlement (in_reply p) = Some s /\
    Settlement_LastProposedBy s = "LANDLORD" /\
    fair_split (Settlement_TotalClaimed s)
      (UtilityReservation_ReservedAmount (reserve partly_released))
      (Settlement_ProposedLandlordRetention s) (Settlement_ProposedTenantRefund s).
Proof.
  intros p.
  apply (utility_proposal_is_within_the_reserve cfg "dep0" (json_body utility) (at_ "run")
    partly_released (answer p) p.2 (in_reply p) "dep0" (dep0 partly_released)
    (reserve partly_released)); evaluate.
Defined.

Lemma utility_closes_iff_covered_witness :
  let p := go (CallUtilitySettle "dep0" (json_body utility)) partly_released in
  lifecycle (in_reply p) = StateClosed <->
  ival (UtilitySettleRequest_ActualCost utility) <=
  ival (UtilitySettleRequest_TotalAdvancePaid utility).
Proof.
  intros p.
  apply (utility_closes_iff_covered cfg "dep0" (json_body utility) (at_ "run") partly_released
    (answer p) p.2 (in_reply p)); evaluate.
Defined.

Lemma partial_release_reserves_until_deadline_witness :
  let p := go (CallPartialRelease "dep0" (json_body partial)) pledged in
  exists bd key d d' u,
    parse_date (PartialReleaseRequest_BillingPeriodEnd (value (json_body partial))) = Some bd /\
    repo_key "dep0" = Some key /\
    deposits pledged !! key = Some d /\ lifecycle d = StatePledged /\
    body (answer p) = PDeposit d' /\ deposits p.2 = <[key := stored d']> (deposits pledged) /\
    lifecycle d' = StatePartiallyReleased /\ Deposit_UtilityReservation d' = Some u /\
    f64_le (UtilityReservation_ReservedAmount u) f64_zero = false /\
    UtilityReservation_ResolutionDeadline u = format_date (next_year bd) /\
    midnight bd + 365 * day <= midnight (next_year bd) <= midnight bd + 366 * day.
Proof.
  intros p.
  apply (partial_release_reserves_until_deadline cfg "dep0" (json_body partial) (at_ "run") pledged
    (answer p) p.2); evaluate.
Defined.

(** ** Histories *)

Definition closed : state := after_ (calls [CallSettleAccept "dep0" accept]) proposed_.

Lemma closed_is_final_witness :
  lifecycle (dep0 closed) = StateClosed /\
  deposits (after_ (calls [CallRelease "dep0" (json_body release);
                           CallSettle "dep0" (json_body settle)]) closed) !! "dep0" =
    Some (dep0 closed).
Proof.
  split; [evaluate|].
  apply (closed_is_final cfg (calls [CallRelease "dep0" (json_body release);
                                     CallSettle "dep0" (json_body settle)]) closed "dep0");
    evaluate.
Defined.

Lemma funded_is_unreachable_witness : lifecycle (dep0 pledged) <> StateFunded.
Proof. apply (funded_is_unreachable cfg (calls to_pledged) start "dep0"); evaluate. Defined.

Lemma refusal_changes_nothing_witness :
  let p := go (CallClaim "dep0" (json_body claim)) closed in
  status (answer p) = StatusConflict /\ p.2 = closed.
Proof.
  intros p. split; [evaluate|].
  apply (refusal_changes_nothing cfg (CallClaim "dep0" (json_body claim)) (at_ "run") closed
    (answer p) p.2); [evaluate|evaluate|vm_compute; split; done].
Defined.

Lemma settle_records_the_proposal_witness :
  let p := go (CallSettle "dep0" (json_body settle)) pledged in
  is_party (SettleRequest_InitiatedBy (value (json_body settle))) = true /\
  SettleRequest_ClaimItems (value (json_body settle)) <> [] /\
  Forall valid_item (SettleRequest_ClaimItems (value (json_body settle))) /\
  exists key d d' s now, repo_key "dep0" = Some key /\ deposits pledged !! key = Some d /\
    body (answer p) = PDeposit d' /\ deposits p.2 = <[key := stored d']> (deposits pledged) /\
    proposed (value (json_body settle)) now d d' s.
Proof.
  intros p.
  apply (settle_records_the_proposal cfg "dep0" (json_body settle) (at_ "run") pledged
    (answer p) p.2); evaluate.
Defined.

(** ** Tables, documents, lists *)

(** Two callers create deposits while a third pledges the first one's. *)
Definition writers : list api_call := CallCreateDeposit (json_body request) :: to_pledged.
Definition in_turn : list (nat * env) :=
  (fun i => (i, plain_env noon (if Nat.eqb i 0 then "other" else "dep"))) <$>
    ([0; 1] ++ replicate 9 1 ++ replicate 9 0 ++ replicate 9 2 ++ replicate 9 3)%nat.

Lemma audit_log_consistent_witness :
  length (audit_trail "dep0" (w_repo (steps in_turn (map (handle cfg) writers, start)).2)) = 3%nat /\
  tables_ok (w_repo (steps in_turn (map (handle cfg) writers, start)).2).
Proof.
  split; [evaluate|]. apply (audit_log_consistent Some cfg writers in_turn start). evaluate.
Defined.

Definition document : json := default JNull (marshal (dep0 proposed_)).

Lemma marshal_round_trip_witness :
  unmarshal document = Some (stored (dep0 proposed_)) /\
  marshal (stored (dep0 proposed_)) = Some document /\
  stored (stored (dep0 proposed_)) = stored (dep0 proposed_) /\ texts_ok (stored (dep0 proposed_)).
Proof. apply marshal_round_trip. evaluate. Defined.

Definition settlement_of (d : Deposit) : Settlement :=
  match Deposit_Settlement d with
  | Some s => s
  | None => utility_settlement utility 0 f64_zero f64_zero f64_zero
  end.

Lemma stored_settlement_is_finite_witness (s := settlement_of (dep0 proposed_)) :
  f64_finite (Settlement_TotalClaimed s) = true /\
  f64_finite (Settlement_ProposedTenantRefund s) = true /\
  f64_finite (Settlement_ProposedLandlordRetention s) = true /\
  Forall (fun i => f64_finite (ClaimItem_AmountClaimed i) = true) (Settlement_ClaimItems s).
Proof. apply (stored_settlement_is_finite (dep0 proposed_) document); evaluate. Defined.

Lemma lifecycle_bounded_and_closable_witness :
  (forall l, path StatePledged l -> (length l <= 7)%nat) /\
  (exists l, path StatePledged l /\ List.last l StatePledged = StateClosed) /\
  ((forall t, CanTransition StatePledged t = false) <-> StatePledged = StateClosed).
Proof.
  apply (lifecycle_bounded_and_closable StatePledged). apply list_elem_of_In. vm_compute. tauto.
Defined.

Definition some_envs : list env := replicate 3 (plain_env noon "x").

Lemma allocated_indices_unique_witness :
  (allocate_all some_envs {| MemIndexAllocator.counter := 41 |}).1 = [41; 42; 43] /\
  NoDup (allocate_all some_envs {| MemIndexAllocator.counter := 41 |}).1.
Proof. split; [evaluate|]. apply allocated_indices_unique; evaluate. Defined.

Definition encoded (l : list Z) : string := EncodeToString (bitstring l).

Lemma encodes l : BuildEncodedList Some l = Some (encoded l).
Proof. done. Qed.

Lemma index_beyond_list_is_dropped_witness :
  BuildEncodedList Some ([5] ++ 131072 :: [7]) = BuildEncodedList Some ([5] ++ [7]).
Proof. apply (index_beyond_list_is_dropped Some [5] [7] 131072). evaluate. Defined.

(** A credential built alone. *)
Definition build : prog ((string * string) + error) :=
  BuildSDJWT (cfg_ToLower cfg) (cfg_sign cfg)
    (cfg_KeyID cfg) "https://api.xmiete.org" (dep0 pledged) "2027-03-01" 7.
Definition built_pair : string * string :=
  Eval vm_compute in match (run build (at_ "crd") pledged).1 with Some (inl p) => p | _ => ("", "") end.

Lemma disclosures_open_the_digests_witness :
  pledged = pledged /\
    exists now claims signed encs,
    built_pair.1 = presentation signed encs /\
    cfg_sign cfg "vc+sd-jwt" (cfg_KeyID cfg) claims = Some signed /\
    ID (sdJWT_Registered claims) = built_pair.2 /\
    sdJWT_DepositID claims = Deposit_ID (dep0 pledged) /\
    sdJWT_SD claims = digest <$> encs /\
    Forall2 (fun spec enc => exists salt b,
        json_text (disclosure_array salt spec.1 spec.2) = Some b /\
    DecodeString enc = Some b /\ digest enc ∈ sdJWT_SD claims)
      (sd_specs (dep0 pledged) "2027-03-01" now) encs.
Proof.
  apply (disclosures_open_the_digests (cfg_ToLower cfg)
    (cfg_sign cfg) (cfg_KeyID cfg) "https://api.xmiete.org" (dep0 pledged) "2027-03-01" 7
    (at_ "crd") pledged built_pair.1 built_pair.2 pledged).
  evaluate.
Defined.

(** ** Presentations *)

Abbreviation check_vp := (verify cfg).
Definition issue_time : instant := env_now (at_ "crd" 1%nat) 0.

Lemma sd_specs_writable :
  Forall writable (sd_specs (dep0 pledged) "2027-03-01" issue_time).
Proof. repeat constructor; evaluate. Defined.

Lemma issued_credential_verifies_witness :
  exists signed encs,
    built_pair.1 = presentation signed
      (select (fun _ => true) (sd_specs (dep0 pledged) "2027-03-01" issue_time) encs) /\
    forall keep nonce uri envs' w1,
      (forall n, env_now (envs' n) 0 <
         NumericDate (credential_expiry "2027-03-01" issue_time) * second) ->
      exists t, run (check_vp (presentation signed
                  (select keep (sd_specs (dep0 pledged) "2027-03-01" issue_time) encs)) nonce uri)
                  envs' w1 =
        (Some (inl (attested keep built_pair.2 (dep0 pledged) "2027-03-01" issue_time t)),
         w1 : state).
Proof.
  apply (issued_credential_verifies (cfg_ToLower cfg)
    (cfg_sign cfg) (cfg_KeyID cfg) (cfg_ParseWithClaims cfg) (cfg_ParseUnverified cfg)
    (cfg_decode_error cfg) (cfg_quote cfg) "https://api.xmiete.org"
    (dep0 pledged) "2027-03-01" 7 (at_ "crd") pledged built_pair.1 built_pair.2 pledged).
  - apply Library.sign_trusts_own.
  - apply sd_specs_writable.
  - evaluate.
  - evaluate.
Defined.

(** The holder shows two of the claims. *)
Definition shown_twice : string :=
  Eval vm_compute in
    let t := token_parts built_pair.1 in presentation t.1 (take 2 t.2).
Definition seen : VerifiedClaims :=
  Eval vm_compute in match (run (check_vp shown_twice "n" "u") (at_ "chk") pledged).1 with
  | Some (inl vc) => vc
  | _ => attested keep_all "" request "" 0 0
  end.


(** The issued token with a key binding for session "vp0" after it. *)
Definition vp_uri : string := "https://api.xmiete.org/v1/deposits/dep0/vp-response".
Definition shown : string * list string :=
  ((token_parts issued_token).1, (sort_parts "" [] (token_parts issued_token).2).2).
Definition binding : string :=
  Eval vm_compute in Library.key_binding "vp1" vp_uri (computeSDHash shown.1 shown.2).
Definition bound_token : string := issued_token +:+ binding.
Definition verified_bound : VerifiedClaims + string :=
  default (inr "") (run (check_vp bound_token "vp1" vp_uri) (at_ "chk") requested_vp).1.
Definition claims_of (r : VerifiedClaims + string) : VerifiedClaims :=
  match r with
  | inl vc => vc
  | inr _ => attested keep_all "" request "" 0 0
  end.
Definition bound_claims : VerifiedClaims := Eval vm_compute in claims_of verified_bound.

Lemma key_binding_is_for_the_request_witness :
  binding <> "" /\
  bound_to (cfg_ParseUnverified cfg)
    (fun t => exists n, t = env_now (at_ "chk" n) 0) binding shown.1 shown.2 "vp1" vp_uri.
Proof.
  assert (binding <> "") as Hb by (apply String.eqb_neq; evaluate).
  split; [exact Hb|].
  apply (key_binding_is_for_the_request (cfg_ParseWithClaims cfg)
    (cfg_ParseUnverified cfg) (cfg_decode_error cfg) (cfg_quote cfg)
    bound_token "vp1" vp_uri (at_ "chk") requested_vp bound_claims requested_vp shown.1
    (token_parts bound_token).2 binding shown.2); [evaluate|evaluate|exact Hb|evaluate].
Defined.

Lemma unbound_presentation_fits_every_request_witness :
  (sort_parts "" [] (token_parts issued_token).2).1 = "" /\
  check_vp issued_token "vp1" vp_uri = check_vp issued_token "other" "https://elsewhere.example".
Proof.
  split; [evaluate|]. apply unbound_presentation_fits_every_request. evaluate.
Defined.

Lemma presentation_recorded_witness :
  let p := run (handle cfg present) (at_ "wal") requested_vp in
  status (answer p) = StatusOK /\
  recorded cfg (fun t => exists n, t = env_now (at_ "wal" n) 0) "dep0"
    {| vpReq_VpToken := issued_token; vpReq_State := "vp0" |} requested_vp (answer p) p.2.
Proof.
  intros p. split; [evaluate|].
  apply (presentation_recorded cfg "dep0"
    (json_body {| vpReq_VpToken := issued_token; vpReq_State := "vp0" |}) (at_ "wal")
    requested_vp (answer p) p.2); evaluate.
Defined.

(** ** The protocol *)

Definition tenancy : list (api_call * (nat -> env)) := offering ++ [collect; release_call].

Lemma same_names_concrete id key dep :
  repo_key (S := tables) id = Some key ->
  sess_key (S := gmap string PgStore.session_row) id = Some dep -> dep = key.
Proof. cbn. intros Hk Hd. congruence. Defined.

Lemma fresh_after (w : state) n u :
  sess_view (w_sessions w) = <["ses0" := ses0 w]> ∅ ->
  String.eqb "ses0" (u +:+ "0") = false ->
  Session_State (ses0 w) = SessionStatePending \/
    Session_CredentialID (ses0 w) <> "urn:xmiete:credential:" +:+ (u +:+ "0") ->
  fresh_ids w (at_ u n).
Proof.
  intros Hw Hu Hc. apply String.eqb_neq in Hu. split.
  - unfold fresh_session. rewrite Hw. exact (lookup_insert_ne ∅ "ses0" (u +:+ "0") (ses0 w) Hu).
  - exact (one_session _ "ses0" (ses0 w) _ Hw Hc).
Defined.

Lemma calls_refine_the_protocol_witness :
  att_phase <$> proto_attestations (abstract (run_calls cfg tenancy pledged).2) !! "ses0" =
    Some (Withdrawn "urn:xmiete:credential:crd0") /\
  rtc proto_step (abstract pledged) (abstract (run_calls cfg tenancy pledged).2).
Proof.
  split; [evaluate|].
  apply (calls_refine_the_protocol same_names_concrete cfg tenancy pledged);
    [apply PgLaws.inv_empty|].
  split; [|split; [|split; [|split; [|exact I]]]]; intros n.
  - split; [evaluate|]. intros i x Hx. vm_compute in Hx. discriminate.
  - apply fresh_after; [evaluate|evaluate|left; evaluate].
  - apply fresh_after; [evaluate|evaluate|left; evaluate].
  - apply fresh_after; [evaluate|evaluate|right; intros E; vm_compute in E; discriminate].
Defined.

Definition to_released : list (api_call * (nat -> env)) :=
  calls (to_pledged ++ [CallRelease "dep0" (json_body release)]).
Definition after_release : state := after_ to_released start.
Definition receipt_reply : outcome :=
  run (handle cfg (CallGetReleaseReceipt "dep0")) (at_ "pdf") after_release.

Lemma release_receipt_tells_the_release_witness :
  status (answer receipt_reply) = StatusOK /\
  attests cfg (fun t => exists n, t = env_now (at_ "pdf" n) 0) after_release (answer receipt_reply).
Proof.
  split; [evaluate|].
  refine (release_receipt_tells_the_release cfg to_released start "dep0" (at_ "pdf")
    (answer receipt_reply) receipt_reply.2 _ _ _); evaluate.
Defined.
