(* ===== verification/ClientWitnesses.v ===== *)
(** * The theorems on access, publication and the SDK at concrete inputs

    The routes with a toy JWT library, a key set served and cached, the status
    list after a release, and the SDK's verifier, token validator, webhook and
    documents, with the functions of [Library]. *)

From Stdlib Require Import Floats.SpecFloat.
From S2P Require Import Prelude Float64 Calendar Models Json JsonModels Statemachine Runtime Repository.
From S2P Require Import Postgres Sessions SessionLaws SessionFlow Utf8 JsonText Targets Sha256.
From S2P Require Import Base64 StatusList Server Credential Discovery Handlers IssuerHandlers.
From S2P Require Import Presentation VpService OidcValidator EidWebhook Auth Logic Api Bodies Router.
From S2P Require Import Lifecycle Effects Protocol Publication Liveness Verification Wallet Onboarding Access.
From S2P Require Import Agreement SdkModels Interop Library Scenarios Witnesses.
Import Concrete.

Local Open Scope Z_scope.

(** ** Access *)

#[local] Existing Instance Library.jwt_library.

Definition secret : string := "s3cret".
Definition good : string := "Bearer " +:+ Library.bearer "HS256" "" secret.
Definition forged : string := "Bearer " +:+ Library.bearer "HS256" "" "guess".
Definition swapped : string := "Bearer " +:+ Library.bearer "RS256" "" secret.

Definition release_route : api_call := CallRelease "dep0" (json_body release).
Definition served_ (authorization : string) (w : state) : option response * state :=
  run (NewRouter secret 5 7 cfg authorization (RouteCall release_route)) (at_ "run") w.

Lemma guarded_calls_need_the_secret_witness :
  status (answer (served_ good pledged)) = StatusOK /\
  status (answer (served_ forged pledged)) = StatusUnauthorized /\
  status (answer (served_ swapped pledged)) = StatusUnauthorized /\
  ((status (answer (served_ good pledged)) = StatusUnauthorized /\
      (served_ good pledged).2 = pledged) \/
   (authenticated secret good /\
    run (handle cfg release_route) (fun n => at_ "run" (S n)) pledged =
      (Some (answer (served_ good pledged)), (served_ good pledged).2))).
Proof.
  split; [evaluate|]. split; [evaluate|]. split; [evaluate|].
  apply (guarded_calls_need_the_secret secret 5 7 cfg good release_route (at_ "run") pledged);
    evaluate.
Defined.

Lemma not_authenticated authorization :
  (forall tok, authorization = "Bearer " +:+ tok ->
     Library.parse_bearer [] None 0 (hmac_key secret) tok = false) ->
  ~ authenticated secret authorization.
Proof.
  intros Hno (tok & h & -> & Ha & Hm & x & sig & Hr & Hs). specialize (Hno tok eq_refl).
  revert Hno. unfold Library.parse_bearer. cbn in Ha. rewrite Ha, Hr. unfold hmac_key.
  rewrite Hm. cbn in *. by rewrite Hs.
Qed.

Lemma bearer_token s tok : "Bearer " +:+ s = "Bearer " +:+ tok -> tok = s.
Proof. intros E. by repeat injection E as E. Qed.

(** A stranger tries to release the deposit, and presents its credential. *)
Definition requests : list ((string * route) * (nat -> env)) :=
  [(forged, RouteCall release_route, at_ "r1"); ("", RouteJWKS, at_ "r2");
   ("", RouteCall present, at_ "r3")].

Lemma all_strangers :
  Forall (fun '(authorization, _, _) => ~ authenticated secret authorization) requests.
Proof.
  constructor; [|constructor; [|constructor; [|constructor]]]; apply not_authenticated;
    intros tok E; [|discriminate|discriminate].
  apply bearer_token in E as ->. evaluate.
Defined.

Definition visited : state := run_requests secret 5 7 cfg requests requested_vp.

Lemma strangers_only_present_witness :
  states_of visited "dep0" = Some [StateRequested; StateIdentified; StatePledged; StatePledged] /\
  only_presented (deposits requested_vp) (deposits visited).
Proof.
  split; [evaluate|].
  exact (strangers_only_present secret 5 7 cfg requests requested_vp all_strangers).
Defined.

(** ** Published keys *)

Definition rsa : jwkKey :=
  {| jwkKey_Kty := "RSA"; jwkKey_Kid := "a"; jwkKey_Alg := "RS256"; jwkKey_N := "AQAB";
     jwkKey_E := "AQAB"; jwkKey_Crv := ""; jwkKey_X := ""; jwkKey_Y := "" |}.
Definition unusable_key : jwkKey :=
  {| jwkKey_Kty := "oct"; jwkKey_Kid := "b"; jwkKey_Alg := ""; jwkKey_N := "";
     jwkKey_E := ""; jwkKey_Crv := ""; jwkKey_X := ""; jwkKey_Y := "" |}.
Definition fetch_at (t : instant) (reply : http_reply) : key_lookup :=
  {| look_checked := t; look_reply := reply; look_fetched := t; look_kid := "a" |}.
Definition first_lookup : key_lookup := fetch_at noon (HttpReply 200 (inl [unusable_key; rsa])).
(** Four minutes later the endpoint does not answer. *)
Definition second_lookup : key_lookup := fetch_at (noon + 4 * minute) (HttpError "timeout").
Definition rsa_key : publicKey := RSAKey 65537 65537.

Lemma jwks_keys_are_fresh_witness :
  (run_lookup (fun s => s) (run_lookups (fun s => s) [first_lookup] empty_cache)
     (fetch_at (noon + 5 * minute) (HttpError "timeout"))).1 =
    inr "jwks: refresh failed: timeout" /\
  (served second_lookup "a" rsa_key \/
   exists l', l' ∈ [first_lookup] /\ served l' "a" rsa_key /\
     look_checked second_lookup - look_fetched l' < 5 * minute).
Proof.
  split; [evaluate|].
  apply (jwks_keys_are_fresh (fun s => s) [first_lookup] second_lookup rsa_key). evaluate.
Defined.

Lemma published_key_reads_back_witness :
  exists keys, key_set "key" 5 (2 ^ 255) = Some keys /\
    Forall (fun j => exists bx b_y,
      DecodeString (jwk_X j) = Some bx /\ length bx = 32%nat /\
      DecodeString (jwk_Y j) = Some b_y /\ length b_y = 32%nat) keys /\
    (keyFunc (fun s => s) noon (HttpReply StatusOK (inl (map read_jwk keys))) noon "key"
       empty_cache).1 = inl (ECKey "P-256" 5 (2 ^ 255)).
Proof. apply (published_key_reads_back (fun s => s) "key" 5 (2 ^ 255) noon noon); lia. Defined.

(** ** The SDK *)

Definition server_claims : VerifiedClaims :=
  Eval vm_compute in claims_of (default (inr "") (run (check_vp issued_token "vp1" vp_uri) (at_ "chk") requested_vp).1).

Definition no_text : list Z -> string := fun _ => "unexpected end of JSON input".

Lemma sdk_agrees_with_the_server_witness :
  exists sc, run (VpService.VerifyVpToken (cfg_decode_error cfg) no_text
      (fun _ => "") (cfg_quote cfg) issued_token "another nonce" "") (at_ "sdk") requested_vp =
      (Some (inl sc), requested_vp) /\
    same_claims server_claims sc.
Proof.
  apply (sdk_agrees_with_the_server (cfg_ParseWithClaims cfg) (cfg_ParseUnverified cfg)
    (cfg_decode_error cfg) (cfg_quote cfg) no_text
    (fun _ => "") issued_token "vp1" vp_uri "another nonce" "" 1806451200 (at_ "chk") (at_ "sdk")
    requested_vp requested_vp server_claims requested_vp).
  - apply Library.sdk_reads_payloads.
  - evaluate.
  - split; by vm_compute.
  - evaluate.
  - evaluate.
  - intros n m. apply Z.le_refl.
  - evaluate.
Defined.

(** The payload of a bearer token. *)
Definition part : string :=
  Eval vm_compute in EncodeToString (default [] (json_text (JObj
    [("sub", JStr "bank"); ("iss", JStr "https://id.example");
     ("scope", JStr "deposit:read  deposit:write"); ("exp", JInt 1772370000)]))).
Definition validator : OidcValidator.OidcTokenValidator :=
  OidcValidator.NewOidcTokenValidator "https://id.example/.well-known/openid-configuration".
Definition validate (tok : string) (required : list string) :=
  OidcValidator.ValidateToken (fun _ => "corrupt") no_text (fun s => s) (fun _ => 0)
    validator noon tok required.
Definition token_claims : OidcValidator.TokenClaims :=
  {| OidcValidator.Subject := "bank"; OidcValidator.Issuer := "https://id.example";
     OidcValidator.Scopes := {["deposit:read"; "deposit:write"]};
     OidcValidator.ExpiresAt := 1772370000 * second |}.

Lemma valid_token_grants_its_scopes_witness :
  OidcValidator.Subject token_claims <> "" /\
  OidcValidator.Issuer token_claims = OidcValidator.ExpectedIssuer validator /\
  noon < OidcValidator.ExpiresAt token_claims + second /\
  Forall (fun s => s ∈ OidcValidator.Scopes token_claims) ["deposit:write"] /\
  validate ("Bearer " +:+ "unsigned" +:+ "." +:+ part +:+ "." +:+ "") ["deposit:write"] =
    inl token_claims.
Proof.
  apply (OidcValidator.valid_token_grants_its_scopes (fun _ => "corrupt") no_text (fun s => s)
    (fun _ => 0) validator noon "head" part "sig" "unsigned" "" ["deposit:write"] token_claims);
    evaluate.
Defined.

Definition event_body : list Z :=
  Eval vm_compute in default [] (json_text (JObj
    [("session_id", JStr "s"); ("Deposit_ID", JStr "dep0"); ("status", JStr "VERIFIED");
     ("provider_reference", JStr "ref"); ("score", JInt 7)])).
Definition kyc : Eid.KYCUpdatePayload :=
  {| Eid.kyc_EIDStatus := "VERIFIED"; Eid.kyc_VerificationTimestamp := noon;
     Eid.kyc_ProviderReference := "ref" |}.

Definition signature : string :=
  GoStrings.hex (hmac (GoStrings.bytes_of "hook") event_body).

Lemma webhook_updates_only_verified_witness :
  (Eid.HandleWebhook no_text (fun _ => None) "tok" false noon event_body "00" "hook").2
    = [] /\
  signature = GoStrings.hex (hmac (GoStrings.bytes_of "hook") event_body) /\
  signature <> "" /\
  (Eid.HandleWebhook no_text (fun _ => None) "tok" false noon event_body signature
     "hook").1 = None /\
  exists raw, Eid.unmarshal_event event_body = Some raw /\ Eid.raw_Status raw = Eid.EIDStatusVerified /\
    Eid.raw_DepositID raw = "dep0" /\ "dep0" <> "" /\
    Eid.kyc_EIDStatus kyc = Eid.EIDStatusVerified /\
    Eid.kyc_ProviderReference kyc = Eid.raw_ProviderReference raw /\ "tok" = "tok".
Proof.
  split; [evaluate|].
  apply (Eid.webhook_updates_only_verified no_text (fun _ => None) "tok" false noon
    event_body signature "hook" "dep0" kyc "tok" None).
  vm_compute. apply list_elem_of_here.
Defined.

(** ** Identifiers *)

Definition random_bytes : list Z := [255; 0; 18; 52; 86; 120; 154; 188; 222; 240; 1; 2; 3; 4; 5; 6].
(** Another read that differs in the bits that are overwritten. *)
Definition other_bytes : list Z := [255; 0; 18; 52; 86; 120; 74; 188; 158; 240; 1; 2; 3; 4; 5; 6].

Lemma newUUID_is_version_4_witness :
  VpService.uuid_of random_bytes = "ff001234-5678-4abc-9ef0-010203040506" /\
  VpService.uuid_of random_bytes = VpService.uuid_of other_bytes /\
  VpService.fits (VpService.uuid_of random_bytes) VpService.uuid_v4 = true /\
  (VpService.uuid_of random_bytes = VpService.uuid_of other_bytes ->
   VpService.set_variant (VpService.set_version random_bytes) =
   VpService.set_variant (VpService.set_version other_bytes)).
Proof.
  split; [evaluate|]. split; [evaluate|].
  apply VpService.newUUID_is_version_4; (split; [evaluate|]);
    repeat (apply Forall_cons; split; [vm_compute; split; [discriminate|reflexivity]|]);
    apply Forall_nil; exact I.
Defined.

(** ** Closing *)

Definition calm_days : list (nat -> env) := replicate 4 (at_ "end").

Lemma every_deposit_can_be_closed_witness :
  length (closing "dep0" (lifecycle (dep0 pledged))) = 2%nat /\
  let '(rs, w') := run_calls cfg (zip (closing "dep0" (lifecycle (dep0 pledged))) calm_days)
    pledged in
  all_ok rs /\ exists d', deposits w' !! "dep0" = Some d' /\ lifecycle d' = StateClosed.
Proof.
  split; [evaluate|].
  apply (every_deposit_can_be_closed cfg (calls to_pledged) start "dep0" "dep0" (dep0 pledged)
    calm_days); [evaluate|evaluate|evaluate|vm_compute; repeat constructor|].
  apply Forall_replicate. intros n. split; [intros m; reflexivity|].
  vm_compute. split; [discriminate|reflexivity].
Defined.

(** ** The published status list *)

Lemma store_inflates : inflates (cfg_gzip cfg) Some.
Proof. intros x y Hx Hy. apply (inj Some) in Hy as <-. by split. Defined.

Definition listed (w : state) : outcome := run (handle cfg CallStatusList) (at_ "lst") w.

Lemma published_list_is_the_revocations_witness :
  (listed revoked_).2 = revoked_ /\
  publishes cfg Some (answer (listed revoked_)) (tells_revocations revoked_).
Proof.
  apply (published_list_is_the_revocations cfg Some (at_ "lst") revoked_).
  - apply (one_row_inv _ "ses0" (row0 revoked_)); [evaluate|right; right; evaluate|eexists; evaluate|].
    right. eexists. evaluate.
  - apply store_inflates.
  - apply answered. evaluate.
  - evaluate.
Defined.

(** After the release somebody asks for another credential, in vain. *)
Definition later_calls : list (api_call * (nat -> env)) :=
  [(CallIssueCredential "dep0" issue_request, at_ "new")].
Definition ended : outcome := run (handle cfg release_call.1) release_call.2 collected.

Lemma ended_tenancy_stays_published_witness :
  let p := listed (after_ later_calls ended.2) in
  publishes cfg Some (answer p) (fun bs => bit_at bs 0 = true).
Proof.
  intros p.
  apply (ended_tenancy_stays_published same_names_concrete cfg Some release_call.1 "dep0"
    release_call.2 collected (answer ended) ended.2 "dep0" "ses0" (ses0 collected) later_calls
    (at_ "lst") (answer p) p.2); try evaluate; [apply store_inflates| |].
  - apply (one_row_inv _ "ses0" (row0 collected)); [evaluate|right; left; evaluate|eexists; evaluate|].
    right. eexists. evaluate.
  - split; [|exact I]. intros n.
    apply fresh_after; [evaluate|evaluate|right; intros E; vm_compute in E; discriminate].
Defined.

(** ** A deposit between the server and the SDK *)

Definition sdk_deposit : Sdk.Deposit :=
  Eval vm_compute in default (vzero Sdk.Deposit_codec) (Sdk.unmarshal document).

Lemma sdk_reads_no_amount_witness :
  f64_lt f64_zero (DepositData_Amount (Deposit_Deposit (dep0 proposed_))) = true /\
  exists s, Sdk.unmarshal document = Some s /\
    Sdk.Deposit_DepositDetails s = vzero Sdk.DepositDetails_codec /\
    Sdk.Deposit_History s = [] /\
    Sdk.Tenant_Email (Sdk.Deposit_Tenant s) = Tenant_Email (Deposit_Tenant (dep0 proposed_)) /\
    Sdk.Tenant_LastName (Sdk.Deposit_Tenant s) = Tenant_LastName (Deposit_Tenant (dep0 proposed_)) /\
    Sdk.Landlord_Name (Sdk.Deposit_Landlord s) = Landlord_Name (Deposit_Landlord (dep0 proposed_)).
Proof. split; [evaluate|]. apply (sdk_reads_no_amount (dep0 proposed_) document). evaluate. Defined.

Definition sdk_document : json := Eval vm_compute in default JNull (Sdk.marshal sdk_deposit).

Lemma server_refuses_sdk_deposits_witness :
  exists d resp, unmarshal sdk_document = Some d /\
    DepositData_Amount (Deposit_Deposit d) = f64_zero /\
    run (handle cfg (CallCreateDeposit {| value := d; decode_failed := false |})) (at_ "sdk") start =
      (Some resp, start) /\
    status resp = StatusBadRequest.
Proof.
  apply (server_refuses_sdk_deposits cfg sdk_deposit sdk_document (at_ "sdk") start). evaluate.
Defined.

(** ** A pledge attested and presented *)

#[local] Instance pg_sessions_flow : SessionFlow (gmap string PgStore.session_row) :=
  PgFlow.pg_flow Some.

(** The identifiers drawn from [u] are new in the world. *)
Definition new_ids (u : string) (w : state) : bool :=
  let e := plain_env noon u in
  let m := sess_view (w_sessions w) in
  let new (f : Session -> string) v := bool_decide (map_Forall (fun _ x => f x <> v) m) in
  forallb (fun b => (0 <? b) && (b <? 128)) (GoStrings.bytes_of (env_uuid e 0)) &&
  negb (String.eqb (env_uuid e 0) "") && negb (String.eqb (env_uuid e 1) "") &&
  bool_decide (m !! env_uuid e 0 = None) &&
  new Session_PreAuthorizedCode (env_uuid e 1) && new Session_AccessToken (env_uuid e 0) &&
  new Session_CredentialID (credential_urn (env_uuid e 0)).

Fixpoint draws_new (cl : client) (us : list string) (w : state) : bool :=
  match cl, us with
  | Done, _ => true
  | Ask _ _, [] => false
  | Ask c k, u :: us =>
      new_ids u w && (let '(r, w) := run (handle cfg c) (at_ u) w in draws_new (k r) us w)
  end.

Lemma new_ids_good u w n : new_ids u w = true -> Wallet.good noon noon w (at_ u n).
Proof.
  unfold new_ids. rewrite !andb_true_iff, !bool_decide_eq_true, !negb_true_iff, !String.eqb_neq.
  intros ((((((Ha & H0) & H1) & Hn) & Hc) & Ht) & Hu). split; try done.
  - apply Forall_forall. intros b Hb%list_elem_of_In.
    pose proof (proj1 (forallb_forall _ _) Ha b Hb) as Hlt. cbn beta in Hlt. lia.
Qed.

Lemma draws_new_good cl us w :
  draws_new cl us w = true -> throughout (Wallet.good noon noon) cfg cl (at_ <$> us) w.
Proof.
  revert us w. induction cl as [|c k IH]; [done|]. intros [|u us] w; [done|].
  cbn [draws_new throughout fmap list_fmap]. rewrite andb_true_iff. intros [Hu Hr].
  split; [intros n; by apply new_ids_good|]. apply IH. by destruct (run _ _ _).
Qed.

Definition draws : list string := ["iss"; "off"; "tok"; "crd"; "req"; "prs"].

Lemma pledged_attestable : attestable cfg "dep0" "2027-03-01" (dep0 pledged) noon noon.
Proof.
  assert (forall t, within noon noon t -> t = noon) as Hnoon by (unfold within; lia).
  split.
  - evaluate.
  - evaluate.
  - evaluate.
  - evaluate.
  - eexists. evaluate.
  - vm_compute. discriminate.
  - intros t ->%Hnoon. evaluate.
  - by eexists.
  - apply Library.sign_trusts_own.
  - intros u t ix Hu ->%Hnoon.
    assert (utf8_valid (credential_urn u) = true) as Hv.
    { apply ascii_valid. eapply Forall_impl; [by apply (ascii_app "urn:xmiete:credential:" u); [repeat constructor|]|].
      cbn. lia. }
    unfold signable. cbn [sd_claims sdJWT_Registered ID forallb]. rewrite Hv. evaluate.
  - intros t ->%Hnoon. apply sd_specs_writable.
  - evaluate.
  - intros t ->%Hnoon. evaluate.
Qed.

Lemma pledge_is_attested_and_presented_witness :
  exists replies w' r cid now t d' x,
    converse cfg (flow "dep0" "2027-03-01") (at_ <$> draws) pledged = (replies ++ [Some r], w') /\
    map (fmap status) replies =
      map Some [StatusCreated; StatusOK; StatusOK; StatusOK; StatusCreated] /\
    r = {| status := StatusOK;
           body := PVerified (attested keep_all cid (dep0 pledged) "2027-03-01" now t) |} /\
    deposits w' = <["dep0" := d']> (deposits pledged) /\ Wallet.presented (dep0 pledged) cid d' /\
    sess_view (w_sessions w') !! Session_ID x = Some (consume cid x) /\
    Session_DepositID x = "dep0".
Proof.
  apply (pledge_is_attested_and_presented cfg "dep0" "2027-03-01" (dep0 pledged) noon noon
    pledged_attestable pledged (at_ <$> draws)).
  - evaluate.
  - assert (w_sessions pledged = ∅) as -> by evaluate. apply PgLaws.inv_empty.
  - vm_compute. split; [discriminate|reflexivity].
  - apply draws_new_good. evaluate.
Defined.

(** ** A webhook of the eID provider reaches the deposit *)

(** The deposit created, and the one already identified. *)
Definition requested : state := (run_calls cfg (calls [CallCreateDeposit (json_body request)]) start).2.

Definition quote_plainly (s : string) : string := GoStrings.dquote +:+ s +:+ GoStrings.dquote.
#[local] Instance quotes_plainly : Quotes quote_plainly.
Proof. by intros s _. Qed.

Definition bank_token : string := Library.bearer "HS256" "" secret.
Abbreviation deliver_kyc :=
  (delivered "https://api.xmiete.org/v1" secret 5 7 cfg (at_ "kyc")).
Definition kyc_call : Eid.http_request :=
  Eid.kyc_request quote_plainly "https://api.xmiete.org/v1" "dep0" kyc bank_token.

Lemma verified_webhook_identifies_witness :
  (signature = GoStrings.hex (hmac (GoStrings.bytes_of "hook") event_body) /\
   exists raw, Eid.unmarshal_event event_body = Some raw /\ Eid.raw_DepositID raw = "dep0" /\
     Eid.raw_Status raw = Eid.EIDStatusVerified) /\
  exists resp w', deliver_kyc requested kyc_call = (Some resp, w') /\
    if String.eqb (lifecycle (dep0 requested)) StateRequested
    then reported quote_plainly (fun _ => None) "https://api.xmiete.org/v1" "dep0" kyc bank_token
           resp = None /\
         exists d', deposits w' = <["dep0" := d']> (deposits requested) /\
           Onboarding.identified (dep0 requested) d'
    else reported quote_plainly (fun _ => None) "https://api.xmiete.org/v1" "dep0" kyc bank_token
           resp = Some "eid: kyc update failed: HTTP 409" /\ w' = requested.
Proof.
  apply (verified_webhook_identifies quote_plainly (fun _ => "corrupt") (fun _ => None)
    (fun _ => None) "https://api.xmiete.org/v1" secret 5 7 cfg false bank_token noon event_body
    signature "hook" "dep0" kyc bank_token None "dep0" (dep0 requested) (at_ "kyc") requested).
  - vm_compute. by left.
  - evaluate.
  - evaluate.
  - vm_compute. split; [discriminate|reflexivity].
  - evaluate.
  - evaluate.
  - intros n. split; [done|]. vm_compute. split; [discriminate|reflexivity].
  - evaluate.
  - evaluate.
  - eexists. evaluate.
Defined.

(** The same webhook again finds the deposit identified. *)
Example second_webhook_conflicts :
  match deliver_kyc requested kyc_call with
  | (_, w) => match deliver_kyc w kyc_call with
              | (Some resp, _) => status resp = StatusConflict
              | _ => False
              end
  end.
Proof. evaluate. Qed.

(** ** A body on its way *)

Definition settle_document : json :=
  Eval vm_compute in default JNull (venc SettleRequest_codec settle).
Definition settle_text : list Z := Eval vm_compute in default [] (json_text settle_document).

Lemma bodies_arrive_witness :
  with_body (PostSettle "dep0") settle_text =
    CallSettle "dep0" {| value := vnorm SettleRequest_codec settle; decode_failed := false |}.
Proof.
  apply (bodies_arrive settle_document).
  - apply (sends_settle _ _ settle). split; [evaluate|done].
  - vm_compute. by split_and!.
  - evaluate.
Defined.

(** Case, order, a member twice, a null, a value of another kind, text after the value. *)
Definition loose (s : string) : list Z :=
  GoStrings.bytes_of (GoStrings.replace_byte (Ascii.ascii_of_N 39) (Ascii.ascii_of_N 34) s).
Example bodies_are_read_loosely :
  decode_body SettleAcceptRequest_target (loose " {'x':[1],'Accepted_By':'TENANT'} }") =
    json_body {| SettleAcceptRequest_AcceptedBy := "TENANT" |} /\
  decode_body SettleAcceptRequest_target (loose "null") =
    json_body {| SettleAcceptRequest_AcceptedBy := "" |} /\
  decode_body SettleAcceptRequest_target (loose "{'accepted_by':'TENANT','accepted_by':null}") =
    json_body {| SettleAcceptRequest_AcceptedBy := "TENANT" |} /\
  decode_failed (decode_body SettleAcceptRequest_target (loose "{'accepted_by':1}")) = true /\
  decode_failed (decode_body SettleAcceptRequest_target (loose "['TENANT']")) = true /\
  decode_failed (decode_body SettleAcceptRequest_target (loose "{'accepted_by':'TENANT'")) = true /\
  decode_failed (decode_body SettleAcceptRequest_target []) = true /\
  decode_body (list_target string_target) (loose "['a','b']") = json_body ["a"; "b"] /\
  decode_body issueCredentialRequest_target (loose "{'valid_until':'2027-03-01','x':1}") =
    json_body {| issueReq_ValidUntil := "2027-03-01" |}.
Proof. split_and!; evaluate. Qed.
